(* ===== verification/_CoqProject ===== *)
-Q . S2P
Prelude.v
Relate.v
Bytes.v
PosFile.v
Crc32.v
ChunkStore.v
SlotFacts.v
ChunkStoreFacts.v
ChunkStoreRecovery.v
ChunkStoreSpec.v
ChunkStoreTheorems.v
Grpc.v
StorageNode.v
NodeFacts.v
NodeTheorems.v
Str.v
NodeConfig.v
HashRing.v
HashRingFacts.v
MetadataStore.v
MetadataStoreFacts.v
Samples.v
HashRingTheorems.v
MetadataStoreTheorems.v
ChunkIndex.v
ClusterService.v
Cluster.v
Forwarding.v
MetadataService.v
Migration.v
ClusterTheorems.v
Network.v
ClusterFacts.v
RoutingFacts.v
PublicService.v
PublicFacts.v
ClusterRun.v
SampleCluster.v
MetadataTheorems.v
MigrationTheorems.v
ClusterRunTheorems.v
Sharding.v
Knowledge.v
Startup.v
Clients.v
NodeLife.v
Gateway.v
Multipart.v
Uploads.v
Joined.v
Replication.v
SystemFacts.v
SampleSystem.v
GrpcClients.v
Routes.v
Progress.v
FailureTheorems.v
StartupTheorems.v
ClusterLife.v
ClusterLifeTheorems.v
SystemTheorems.v
DeleteTheorems.v
OverlapTheorems.v
UploadTheorems.v
JoinedTheorems.v
ListTheorems.v
FormProgress.v
AnyNode.v
ObjectStore.v
ReplicationFacts.v
ReplicationProgress.v
ReplicationTheorems.v
Background.v
ObjectStoreLife.v
SiteFacts.v
Site.v
SiteTheorems.v
Metrics.v
MetricsTheorems.v
