(* ===== verification/Prelude.v ===== *)
(** * Object store: a verification development

    The program is a distributed object store. An API gateway cuts the objects that
    clients upload into chunks; a cluster of metadata nodes knows which chunks an object
    has and which storage nodes have them; storage nodes keep chunks in the slots of one
    file; a replication service copies chunks that have fewer than three replicas.

    ** The parts and the files that model them

    Shared: [Prelude] (outcomes, the state and error monad [ST], machine integers),
    [Relate] (two runs of computations, in two states, compared step by step), [Bytes]
    (little-endian integers), [Str] (string operations), [Grpc] ([tonic::Code]
    and storage-node/src/grpc_utils.rs: [call_with_retry]).

    Storage node (storage-node/src):
    - [PosFile]: a file with positional reads and writes that the operating system may cut
      short or fail; the loops [write_all_at] and [read_exact_at] of chunk_store.rs.
    - [Crc32]: the interface to crc32fast.
    - [ChunkStore]: chunk_store.rs. The record has the file, the index (chunk id to
      slot), the free slots, the write counter and whether the lock of the index is
      poisoned; [open], [put_chunk], [get_chunk], [delete_chunk], [recover_index].
    - [SlotFacts], [ChunkStoreFacts], [ChunkStoreRecovery]: one slot of the file, the
      invariant [cs_wf], recovery. [ChunkStoreSpec]: the abstract store, a map from chunk
      ids to bytes. [ChunkStoreTheorems].
    - [StorageNode]: the handlers of main.rs with their status codes and metrics.
      [NodeConfig]: config.rs. [NodeFacts], [NodeTheorems].

    Metadata node (storage-metadata/src):
    - [HashRing]: hash_ring.rs, the ring as the list of its vnodes in order of position.
      [HashRingFacts], [HashRingTheorems].
    - [MetadataStore]: metadata_store.rs. The record has the objects, the chunks, the
      storage nodes, a disk whose calls may fail and which a loss of power may leave as it
      was before, and the random numbers to come. [MetadataStoreFacts],
      [MetadataStoreTheorems].
    - [ChunkIndex]: chunk_index.rs. [Cluster]: cluster.rs, membership, ownership and the
      cache of connections. [ClusterService]: cluster_service.rs, the requests between
      metadata nodes. [Forwarding]: forwarding.rs, over the interface [Peers].
    - [MetadataService]: the handlers and the health check of main.rs.
      [Migration]: migration.rs.
    - [Network]: the interface [Peers] implemented by the models of the peers.
      [ClusterFacts], [RoutingFacts], [MetadataTheorems], [MigrationTheorems].
    - [PublicService]: the dispatch of public requests, with what each does to whom
      ([PublicFacts]). [ClusterRun]: all metadata nodes at once, as a step relation;
      [ClusterRunTheorems] (what every run keeps), [Sharding] (the cluster as one map of
      objects), [ClusterTheorems] (membership: agreement on owners, connections to addresses
      of before). [ClusterLife]: runs in which nodes also join by migration, leave, go down
      and start again ([ClusterLifeTheorems]); [Knowledge]: what a node can know of the
      cluster in them.

    API gateway and replication service:
    - [Clients]: the traits of protos/src/clients.rs as classes over a state [W], and
      [World], the instance where the metadata service and the storage nodes above answer.
    - [GrpcClients]: clients.rs of the gateway and the wrappers of the replication
      service's main.rs around generated clients, and the limits on messages.
    - [Gateway], [Multipart]: api-gateway/src/handlers.rs, against the classes. [Routes]:
      the router of its main.rs. [Uploads]: an upload as a state machine whose steps can
      be interleaved with those of others. [Joined]: the reads and deletes that the code
      runs joined, as tasks that take turns.
    - [Replication]: replication-service/src/main.rs, the cycle and the main loop's tick.
    - [Startup]: the start of the four services, up to serving ([StartupTheorems]).
      [NodeLife]: the life of a storage node as others see it, for [FailureTheorems].
    - [SystemFacts], [Progress], [SystemTheorems], [UploadTheorems], [JoinedTheorems],
      [DeleteTheorems], [OverlapTheorems], [ListTheorems], [FailureTheorems],
      [FormProgress], [ReplicationFacts], [ReplicationProgress], [ReplicationTheorems]:
      about these on [World].
    - [ObjectStore]: what clients see, an abstract map from names to bytes, and that the
      gateway's handlers refine it. [Background]: replication cycles, health checks and
      restarts of storage nodes harm nothing of it; [ObjectStoreLife]: they are invisible.
    - [AnyNode]: a gateway at a metadata node that does not own a name, next to one at the
      owner: the same handlers on related worlds. [Site]: a whole deployment, several
      metadata nodes and several gateways at them, which share the storage nodes.
      [SiteFacts]: the object store's requests one by one, as [Site] uses them.
      [SiteTheorems]: the deployment refines one map.

    All four services: [Metrics], what they register in their registries, with which
    values, and the handler of "/metrics" ([MetricsTheorems]).

    [Samples], [SampleCluster] and [SampleSystem] are concrete states and concrete
    third-party functions, where the theorems with hypotheses are instantiated.

    ** How code becomes definitions

    A function that reads and changes state is a computation [ST S E A]: from a state it
    gives [Ok], [Err] or [Panic] and the new state; what was changed before an error stays
    changed. The code's [?] is the bind of the monad; a [match] on a result is
    [attempt]. Locks are held as long as the code holds them: a handler whose code takes a lock once is one
    step, [get_object] of the metadata service, which takes it twice, is split in
    [get_object_lookup] and [get_object_resolve]. A lock is modelled as poisoned where
    code panics while it holds it. Requests that the code runs joined are run one after
    the other in the handlers; [Joined] has them as tasks that take turns, and
    [JoinedTheorems] shows that the order makes no difference. Time is left out, except for the number of sleeps of [call_with_retry] and
    whether an attempt ends in time. Counters of the metrics are fields of the states;
    histograms count their observations; gauges are set as in the code.

    Integers are [Z]; additions that can overflow wrap around ([wrap64], [wrap32]).

    What is not code of the repository is a parameter: [Crc32], [Xxh3], [MetaDeps] (JSON
    and the representation of persisted state), [Base64], [UnicodeTables],
    [Transport] (messages and their lengths), [Axum] (the choice of a route), [PromText]
    (the text of a registry), and gossip, which gives the live nodes to [membership_tick]. Each class states only what its
    users rely on, such as that streamed checksums compose or that decoding inverts
    encoding.

    Fuel: [chunks_loop] gets the length of the list, each turn takes at least one byte;
    [flush_full] gets one more than the length of the buffer; the retry loops and
    [wait_for_peers] count as the code does; [draw_unused] recurs on the list of random
    numbers and [generate_unique_id_ends] says when that is enough. The loops of [PosFile]
    get one more than the bytes to transfer, as each turn that goes on transfers one.

    ** What is proved

    - Chunk store: it refines a map from ids to bytes under any sequence of requests;
      every outcome of each operation when calls on the file fail; no acknowledged
      request is lost in a crash; recovery from any file contents; a torn write leaves the
      other chunks as they are.
    - Storage node: status codes of a write, restart, the health check of a poisoned node.
    - Hash ring: the owner is the next vnode clockwise, a membership change moves keys
      only to or from that member, the owned ranges are the owned hashes unless a vnode sits
      on the last position.
    - Metadata store: the invariant that ties objects, chunks and replicas, under every
      operation; a restart of the process loads the last save that was acknowledged, whatever
      saves failed before or after it; a loss of power leaves one of the saved states, whole,
      but not always the last; a file that cannot be read is replaced; bounds of
      replicas; allocation and confirmation.
    - Cluster: requests passed on are answered as the owner answers its own clients, but for
      duplicates and unregistered storage nodes; the chunk index covers the store; what [get_object] answers in every case; where storage node ids, the
      index and checksum updates are not shared between nodes; migration moves the range.
    - Every run of the cluster, whatever is asked of which node and whichever nodes are
      out of reach: stores stay well formed, the chunk index covers them, and a node
      holds only objects it owns while the ring is stable, so that the cluster is one map
      from names to objects. Runs in which nodes also join, migrate, stop and restart keep
      every node well formed; nodes that know the same members agree on who owns what,
      unless virtual nodes collide.
    - The whole system: any sequence of uploads (in JSON or as a form), downloads, listings
      and deletions, while there is room, is answered as a map from names to bytes answers
      it, refusals included, and the system stands for that map afterwards; also when
      replication cycles, health checks and restarts of storage nodes go on in between.
    - A deployment of several gateways and metadata nodes: a request through any gateway is
      answered as the gateway at the owner answers it, and all of them together are one map
      from names to bytes, listings included, except that a form sent through a gateway
      whose metadata node does not own the name is refused and stores nothing.
    - System: an object that was uploaded, in one body or as a form, is downloaded with
      the same bytes; it is while other uploads run, and any live copy suffices; an upload
      succeeds while there is room, ids and a disk that works; DELETE takes the object
      from the metadata and its chunks from the storage nodes; what LIST answers; a
      JSON upload that cannot reach a storage node leaves a truncated object, a form takes
      its object back; what a DELETE
      does when an upload of the name or a replication of its chunks falls between its
      two steps.
    - Failures: storage nodes that restart, and what the health check does to objects
      whose nodes go away or come back; a deleted object that comes back by migration.
    - Replication: a cycle loses nothing, makes nothing up and reports only copies to nodes
      that had none; two cycles leave every chunk on three registered nodes, or on all,
      when there is room; and chunks whose first copy is gone keep
      the others from it.
    - Start: the connection loops end within their rounds, a metadata node that starts
      has what was saved; which paths lead to which handler; messages fit the limits.
    - Metrics: what the gauges and counters of a node show after any run of it.

    ** Not modelled

    Servers, tracing, compression and metrics endpoints ([main] of the four services
    after the settings, the connections and the state are built); generated messages and
    clients; the web framework's parsing of requests and forms; gossip itself; the text format
    of metrics; the mocks and tests; deployment files.

    The interleavings that are modelled are those of JSON uploads with each other, with
    downloads, deletions and replications, those of joined reads, and those of requests and
    membership changes between metadata nodes. The parts of a form are not taken as single
    steps next to other uploads, and in [Site] the ring does not change. *)

From Stdlib Require Export ZArith Lia.
From stdpp Require Export base gmap strings list fin_maps sorting numbers.
#[export] Set Default Goal Selector "!".

Declare Scope store_scope.
Delimit Scope store_scope with store.
Open Scope Z_scope.

(** ** Outcomes

    A Rust call returns [Ok], returns [Err], or panics (a failed [assert!], an
    [unwrap] on a poisoned lock). *)
Inductive outcome (E A : Type) : Type :=
  | Ok (a : A)
  | Err (e : E)
  | Panic.
Arguments Ok {E A} _.
Arguments Err {E A} _.
Arguments Panic {E A}.

(** [std::io::ErrorKind], the kinds the program produces or tests. *)
Inductive ErrorKind :=
  | AlreadyExists | NotFound | StorageFull | InvalidData | InvalidInput
  | HostUnreachable | WriteZero | UnexpectedEof | TimedOut | Other.

#[export] Instance ErrorKind_eq_dec : EqDecision ErrorKind.
Proof. solve_decision. Defined.

#[export] Instance outcome_eq_dec {E A} `{EqDecision E, EqDecision A} :
  EqDecision (outcome E A).
Proof. solve_decision. Defined.

Definition map_err {E F A} (f : E → F) (r : outcome E A) : outcome F A :=
  match r with Ok a => Ok a | Err e => Err (f e) | Panic => Panic end.

Definition is_ok {E A} (r : outcome E A) : bool :=
  match r with Ok _ => true | _ => false end.

(** ** The state and error monad

    Mutations made before an [Err] or a panic stay, as in Rust. *)
Definition ST (S E A : Type) : Type := S → outcome E A * S.

Section monad.
Context {S E : Type}.

#[export] Instance ST_ret : MRet (ST S E) := λ A a s, (Ok a, s).
#[export] Instance ST_bind : MBind (ST S E) := λ A B k m s,
  match m s with
  | (Ok a, s') => k a s'
  | (Err e, s') => (Err e, s')
  | (Panic, s') => (Panic, s')
  end.

Definition throw {A} (e : E) : ST S E A := λ s, (Err e, s).
Definition panic {A} : ST S E A := λ s, (Panic, s).
Definition gets {A} (f : S → A) : ST S E A := λ s, (Ok (f s), s).
Definition modify (f : S → S) : ST S E unit := λ s, (Ok (), f s).
(** Rust's [assert!]. *)
Definition assert_ (b : bool) : ST S E unit := if b then mret () else panic.
Definition lift_opt {A} (e : E) (o : option A) : ST S E A :=
  match o with Some a => mret a | None => throw e end.
(** [match call { Ok(..) => .., Err(..) => .. }]: the error becomes a value. *)
Definition attempt {F A} (m : ST S F A) : ST S E (F + A) := λ s,
  match m s with
  | (Ok a, s') => (Ok (inr a), s')
  | (Err e, s') => (Ok (inl e), s')
  | (Panic, s') => (Panic, s')
  end.
Definition rethrow {F A} (f : F → E) (m : ST S F A) : ST S E A := λ s,
  let '(r, s') := m s in (map_err f r, s').
End monad.

(** Runs a computation of a part of the state. *)
Definition zoom {S T E A} (get : S → T) (set : T → S → S) (m : ST T E A) : ST S E A :=
  λ s, let '(r, t) := m (get s) in (r, set t s).

Section monad_facts.
Context {S E : Type}.

Lemma bind_ok {A B} (m : ST S E A) (k : A → ST S E B) s a s' :
  m s = (Ok a, s') → (m ≫= k) s = k a s'.
Proof. intros H. cbv [mbind ST_bind]. by rewrite H. Qed.
Lemma bind_err {A B} (m : ST S E A) (k : A → ST S E B) s e s' :
  m s = (Err e, s') → (m ≫= k) s = (Err e, s').
Proof. intros H. cbv [mbind ST_bind]. by rewrite H. Qed.
Lemma bind_panic {A B} (m : ST S E A) (k : A → ST S E B) s s' :
  m s = (Panic, s') → (m ≫= k) s = (Panic, s').
Proof. intros H. cbv [mbind ST_bind]. by rewrite H. Qed.

(** A bind that returns [Ok] ran both parts to [Ok]. *)
Lemma bind_inv_ok {A B} (m : ST S E A) (k : A → ST S E B) s b s' :
  (m ≫= k) s = (Ok b, s') → ∃ a s1, m s = (Ok a, s1) ∧ k a s1 = (Ok b, s').
Proof.
  cbv [mbind ST_bind]. destruct (m s) as [[a|e|] s1] eqn:Hm; [|done..]. eauto.
Qed.
End monad_facts.

(** A run whose answer is computed. *)
Lemma run_answer {S E A} (p : outcome E A * S) r : p.1 = r → p = (r, p.2).
Proof. destruct p. by intros <-. Qed.

(** Unfolds the monad's combinators in the goal or a hypothesis. *)
Ltac run_st :=
  cbv [mret mbind ST_ret ST_bind throw panic gets modify assert_ lift_opt attempt
       rethrow map_err] in *.

(** Splits every [match] of the goal and of the hypotheses, closing the absurd cases. *)
Ltac split_matches :=
  repeat (case_match; simplify_eq/=; try done).

(** Applies the inversion of [bind] to a run that returned [Ok]. *)
Ltac inv_bind H :=
  let a := fresh "a" in let s := fresh "s" in let H1 := fresh "Hrun" in
  apply bind_inv_ok in H as (a & s & H1 & H).

(** ** Machine integers *)
Definition u64_max : Z := 2 ^ 64 - 1.
Definition wrap64 (z : Z) : Z := z mod 2 ^ 64.
Definition wrap32 (z : Z) : Z := z mod 2 ^ 32.
Definition is_u64 (z : Z) : Prop := 0 ≤ z < 2 ^ 64.
Definition is_u32 (z : Z) : Prop := 0 ≤ z < 2 ^ 32.

Lemma wrap64_id z : is_u64 z → wrap64 z = z.
Proof. apply Z.mod_small. Qed.
Lemma wrap64_u64 z : is_u64 (wrap64 z).
Proof. apply Z.mod_pos_bound. lia. Qed.
Lemma wrap32_id z : is_u32 z → wrap32 z = z.
Proof. apply Z.mod_small. Qed.
Lemma wrap32_u32 z : is_u32 (wrap32 z).
Proof. apply Z.mod_pos_bound. lia. Qed.

Create HintDb store.
Create Rewrite HintDb store.
#[export] Hint Resolve wrap64_u64 wrap32_u32 : store.
#[export] Hint Rewrite @length_app @length_fmap @length_seqZ @length_take @length_drop : store.

(** The byte length of a list, as a machine integer. *)
Definition zlen {A} (l : list A) : Z := Z.of_nat (length l).

Lemma zlen_app {A} (l k : list A) : zlen (l ++ k) = zlen l + zlen k.
Proof. unfold zlen. rewrite length_app. lia. Qed.
Lemma zlen_nonneg {A} (l : list A) : 0 ≤ zlen l.
Proof. unfold zlen. lia. Qed.
Lemma zlen_cons {A} (x : A) l : zlen (x :: l) = zlen l + 1.
Proof. unfold zlen. simpl. lia. Qed.
Lemma zlen_nil {A} : zlen (@nil A) = 0.
Proof. done. Qed.
#[export] Hint Rewrite @zlen_app @zlen_cons @zlen_nil : store.

(** [take] and [drop] with a machine integer. *)
Fixpoint ztake {A} (n : Z) (l : list A) : list A :=
  match l with
  | [] => []
  | x :: l => if n <=? 0 then [] else x :: ztake (n - 1) l
  end.
Fixpoint zdrop {A} (n : Z) (l : list A) : list A :=
  match l with
  | [] => []
  | x :: l => if n <=? 0 then x :: l else zdrop (n - 1) l
  end.

Lemma ztake_zdrop {A} n (l : list A) : ztake n l ++ zdrop n l = l.
Proof.
  revert n. induction l as [|x l IH]; intros n; simpl; [done|].
  destruct (n <=? 0); simpl; [done|]. by rewrite IH.
Qed.
Lemma zlen_ztake {A} n (l : list A) : 0 ≤ n → zlen (ztake n l) = Z.min n (zlen l).
Proof.
  revert n. induction l as [|x l IH]; intros n Hn; simpl; [rewrite zlen_nil; lia|].
  destruct (Z.leb_spec n 0).
  - rewrite zlen_nil, zlen_cons. pose proof (zlen_nonneg l). lia.
  - rewrite !zlen_cons, IH by lia. lia.
Qed.
