(* ===== verification/Relate.v ===== *)
(** * Relate: two runs side by side

    A relational logic for computations over states: two computations are related when from
    related states they end in related states with related outcomes. *)

From S2P Require Import Prelude.

(** Both return, with related values, both fail, with related errors, or both panic. *)
Definition outcome_rel {E F A B} (RE : E → F → Prop) (RA : A → B → Prop)
    (r1 : outcome E A) (r2 : outcome F B) : Prop :=
  match r1, r2 with
  | Ok a, Ok b => RA a b
  | Err e, Err f => RE e f
  | Panic, Panic => True
  | _, _ => False
  end.

(** The values of [attempt]: errors are not compared. *)
Inductive answer_rel {E F A B} (RA : A → B → Prop) : E + A → F + B → Prop :=
  | both_err e f : answer_rel RA (inl e) (inl f)
  | both_ok a b : RA a b → answer_rel RA (inr a) (inr b).

Definition any_error {E F} (_ : E) (_ : F) : Prop := True.

Definition related {S T} (R : S → T → Prop) {E F A B} (RE : E → F → Prop) (RA : A → B → Prop)
    (m1 : ST S E A) (m2 : ST T F B) : Prop :=
  ∀ s t, R s t → outcome_rel RE RA (m1 s).1 (m2 t).1 ∧ R (m1 s).2 (m2 t).2.

Lemma outcome_rel_eq {E A} (r1 r2 : outcome E A) : outcome_rel eq eq r1 r2 ↔ r1 = r2.
Proof. destruct r1, r2; simpl; naive_solver. Qed.

(** Two answers that are both like a third. *)
Lemma outcome_rel_join {E F G A} (r : outcome E A) (r1 : outcome F A) (r2 : outcome G A) :
  outcome_rel any_error eq r r1 → outcome_rel any_error eq r r2 → outcome_rel any_error eq r1 r2.
Proof. destruct r, r1, r2; simpl; try done. congruence. Qed.

Section rules.
Context {S T : Type} {R : S → T → Prop} {E F : Type} {RE : E → F → Prop}.

Lemma related_ret {A B} {RA : A → B → Prop} a b :
  RA a b → related R RE RA (mret a : ST S E A) (mret b : ST T F B).
Proof. by intros Ha s t Hs. Qed.

(** From one pair of states, when the first parts are related there. *)
Lemma related_bind_at {A B C D} (RA : A → B → Prop) {RC : C → D → Prop} (m1 : ST S E A) (m2 : ST T F B)
    (k1 : A → ST S E C) (k2 : B → ST T F D) s t :
  outcome_rel RE RA (m1 s).1 (m2 t).1 → R (m1 s).2 (m2 t).2 →
  (∀ a b, RA a b → related R RE RC (k1 a) (k2 b)) →
  outcome_rel RE RC ((m1 ≫= k1) s).1 ((m2 ≫= k2) t).1 ∧ R ((m1 ≫= k1) s).2 ((m2 ≫= k2) t).2.
Proof.
  intros Hr Hs Hk. cbv [mbind ST_bind]. destruct (m1 s) as [[a|e|] s1], (m2 t) as [[b|f|] t1]; try done.
  by apply Hk.
Qed.

(** The same when what follows is only related where the first parts lead. *)
Lemma related_bind_run {A B C D} (RA : A → B → Prop) {RC : C → D → Prop} (m1 : ST S E A) (m2 : ST T F B)
    (k1 : A → ST S E C) (k2 : B → ST T F D) s t :
  outcome_rel RE RA (m1 s).1 (m2 t).1 → R (m1 s).2 (m2 t).2 →
  (∀ a b s' t', m1 s = (Ok a, s') → m2 t = (Ok b, t') → RA a b → R s' t' →
    outcome_rel RE RC (k1 a s').1 (k2 b t').1 ∧ R (k1 a s').2 (k2 b t').2) →
  outcome_rel RE RC ((m1 ≫= k1) s).1 ((m2 ≫= k2) t).1 ∧ R ((m1 ≫= k1) s).2 ((m2 ≫= k2) t).2.
Proof.
  intros Hr Hs Hk. cbv [mbind ST_bind]. destruct (m1 s) as [[a|e|] s1], (m2 t) as [[b|f|] t1]; try done.
  by apply Hk.
Qed.

Lemma related_bind {A B C D} (RA : A → B → Prop) {RC : C → D → Prop} (m1 : ST S E A) (m2 : ST T F B)
    (k1 : A → ST S E C) (k2 : B → ST T F D) :
  related R RE RA m1 m2 → (∀ a b, RA a b → related R RE RC (k1 a) (k2 b)) →
  related R RE RC (m1 ≫= k1) (m2 ≫= k2).
Proof.
  intros Hm Hk s t Hs. destruct (Hm s t Hs) as [Hr Hs']. by apply (related_bind_at RA).
Qed.

Lemma related_throw {A B} {RA : A → B → Prop} e f :
  RE e f → related R RE RA (throw e : ST S E A) (throw f : ST T F B).
Proof. by intros He s t Hs. Qed.

Lemma related_panic {A B} {RA : A → B → Prop} : related R RE RA (panic : ST S E A) (panic : ST T F B).
Proof. by intros s t Hs. Qed.

Lemma related_gets {A B} (RA : A → B → Prop) (f : S → A) (g : T → B) :
  (∀ s t, R s t → RA (f s) (g t)) → related R RE RA (gets f) (gets g).
Proof. intros Hf s t Hs. split; [by apply Hf|done]. Qed.

Lemma related_modify (f : S → S) (g : T → T) :
  (∀ s t, R s t → R (f s) (g t)) → related R RE eq (modify f) (modify g).
Proof. intros Hf s t Hs. split; [done|by apply Hf]. Qed.

Lemma related_attempt {E' F' A B} (RA : A → B → Prop) (RE' : E' → F' → Prop)
    (m1 : ST S E' A) (m2 : ST T F' B) :
  related R RE' RA m1 m2 → related R RE (answer_rel RA) (attempt m1) (attempt m2).
Proof.
  intros Hm s t Hs. unfold attempt. destruct (Hm s t Hs) as [Hr Hs'].
  destruct (m1 s) as [[a|e|] s1], (m2 t) as [[b|f|] t1]; try done; by split; [constructor|].
Qed.

(** The same with the errors kept, when they are the same. *)
Lemma related_attempt_eq {E' A} (m1 : ST S E' A) (m2 : ST T E' A) :
  related R eq eq m1 m2 → related R RE eq (attempt m1) (attempt m2).
Proof.
  intros Hm s t Hs. unfold attempt. destruct (Hm s t Hs) as [Hr Hs'].
  destruct (m1 s) as [[a|e|] s1], (m2 t) as [[b|f|] t1]; simplify_eq/=; done.
Qed.

End rules.

(** A step of a part of the states. *)
Lemma related_zoom {S T S' T'} (R : S → T → Prop) (R' : S' → T' → Prop) {E F A B} (RE : E → F → Prop)
    (RA : A → B → Prop) get1 set1 get2 set2 (m1 : ST S' E A) (m2 : ST T' F B) :
  (∀ s t, R s t → R' (get1 s) (get2 t)) →
  (∀ s t s' t', R s t → R' s' t' → R (set1 s' s) (set2 t' t)) →
  related R' RE RA m1 m2 → related R RE RA (zoom get1 set1 m1) (zoom get2 set2 m2).
Proof.
  intros Hg Hset Hm s t Hs. unfold zoom. destruct (Hm _ _ (Hg _ _ Hs)) as [Hr Hs'].
  destruct (m1 (get1 s)) as [r1 s1], (m2 (get2 t)) as [r2 t1]. split; [done|]. by apply Hset.
Qed.

Create HintDb related.
#[export] Hint Resolve related_throw related_panic : related.
