(* ===== verification/Bytes.v ===== *)
(** * Bytes: fixed-width little-endian integers

    [to_le_bytes] and [from_le_bytes] of Rust's [u32] and [u64], on lists of bytes. *)

From Stdlib Require Export Strings.Byte.
From coqutil Require Import Byte LittleEndianList.
From S2P Require Import Prelude.

Open Scope Z_scope.

(** [uN::to_le_bytes]: [n] bytes, least significant first; bits above are dropped. *)
Definition to_le_bytes (n : nat) (z : Z) : list byte := LittleEndianList.le_split n z.
Definition from_le_bytes (bs : list byte) : Z := LittleEndianList.le_combine bs.

Lemma length_to_le_bytes n z : length (to_le_bytes n z) = n.
Proof. apply LittleEndianList.length_le_split. Qed.
#[export] Hint Rewrite length_to_le_bytes : store.

Lemma from_to_le_bytes n z :
  0 ≤ z < 2 ^ (8 * Z.of_nat n) → from_le_bytes (to_le_bytes n z) = z.
Proof.
  intros Hz. unfold from_le_bytes, to_le_bytes.
  rewrite LittleEndianList.le_combine_split.
  apply Z.mod_small. by rewrite (Z.mul_comm _ 8).
Qed.

Lemma to_from_le_bytes bs : to_le_bytes (length bs) (from_le_bytes bs) = bs.
Proof. apply LittleEndianList.split_le_combine. Qed.

Lemma from_le_bytes_bound bs : 0 ≤ from_le_bytes bs < 2 ^ (8 * Z.of_nat (length bs)).
Proof. apply LittleEndianList.le_combine_bound. Qed.

#[export] Instance byte_eq_dec : EqDecision byte := Byte.byte_eq_dec.
