(* ===== verification/PosFile.v ===== *)
(** * PosFile: positional file I/O

    [std::fs::File] with [FileExt::read_at] and [FileExt::write_at], and the two
    retry loops of storage-node/src/chunk_store.rs built on them. The operating system
    may transfer fewer bytes than asked and may fail a call: the answers it
    will give are a script carried by the file; after the script every call
    transfers everything it can. *)

From S2P Require Import Prelude.
From S2P Require Import Bytes.
Open Scope Z_scope.

(** What the next system call on the file does. *)
Inductive sys_answer :=
  | Xfer (most : Z)   (* transfers at most this many bytes *)
  | SysErr.           (* fails *)

(** An open file: its length, its bytes (a hole reads as zero), the bytes the
    last [sync_data] made durable, and the answers to come. *)
Record File := mkFile {
  f_len : Z;
  f_data : gmap Z byte;
  f_synced : gmap Z byte;
  f_script : list sys_answer;
}.

Definition with_script (s : list sys_answer) (f : File) : File :=
  mkFile (f_len f) (f_data f) (f_synced f) s.

(** The answer the next call gets: a limit on the transfer, or a failure. *)
Definition next_answer : ST File ErrorKind (option Z) := λ f,
  match f_script f with
  | [] => (Ok None, f)
  | Xfer n :: s => (Ok (Some n), with_script s f)
  | SysErr :: s => (Err Other, with_script s f)
  end.

Definition clip (limit : option Z) (n : Z) : Z :=
  Z.max 0 (match limit with Some m => Z.min m n | None => n end).

Definition byte_at (m : gmap Z byte) (off : Z) : byte := default x00 (m !! off).

Definition bytes_at (m : gmap Z byte) (off n : Z) : list byte :=
  byte_at m <$> seqZ off n.

Fixpoint store_bytes (m : gmap Z byte) (off : Z) (bs : list byte) : gmap Z byte :=
  match bs with
  | [] => m
  | b :: bs => store_bytes (<[off := b]> m) (off + 1) bs
  end.

Definition put_bytes (off : Z) (bs : list byte) (f : File) : File :=
  match bs with
  | [] => f
  | _ => mkFile (Z.max (f_len f) (off + zlen bs)) (store_bytes (f_data f) off bs)
           (f_synced f) (f_script f)
  end.

(** [FileExt::write_at]: one call, returns the bytes written. *)
Definition write_at (buf : list byte) (off : Z) : ST File ErrorKind Z :=
  lim ← next_answer;
  let n := clip lim (zlen buf) in
  _ ← modify (put_bytes off (take (Z.to_nat n) buf));
  mret n.

(** [FileExt::read_at]: one call, returns the bytes read into the buffer. *)
Definition read_at (n off : Z) : ST File ErrorKind (list byte) :=
  lim ← next_answer;
  gets (λ f, bytes_at (f_data f) off (clip lim (Z.min n (f_len f - off)))).

(** [File::sync_data]. *)
Definition sync_data : ST File ErrorKind unit :=
  _ ← next_answer;
  modify (λ f, mkFile (f_len f) (f_data f) (f_data f) (f_script f)).

(** [File::set_len]: cuts the file, or extends it with zeros. *)
Definition set_len (n : Z) : ST File ErrorKind unit :=
  _ ← next_answer;
  modify (λ f,
    mkFile n (filter (λ kv, kv.1 < n) (f_data f)) (filter (λ kv, kv.1 < n) (f_synced f))
      (f_script f)).

(** [File::metadata()?.len()]. *)
Definition file_len : ST File ErrorKind Z := _ ← next_answer; gets f_len.

(** [while !buf.is_empty()]: every turn that goes on wrote at least one byte, so
    one more turn than the buffer has bytes is enough ([write_all_at_total]). *)
Fixpoint write_loop (fuel : nat) (buf : list byte) (off : Z) : ST File ErrorKind unit :=
  match fuel with
  | O => panic
  | S fuel =>
      match buf with
      | [] => mret ()
      | _ =>
          written ← write_at buf off;
          if written =? 0 then throw WriteZero
          else write_loop fuel (drop (Z.to_nat written) buf) (wrap64 (off + written))
      end
  end.

Definition write_all_at (buf : list byte) (off : Z) : ST File ErrorKind unit :=
  write_loop (S (length buf)) buf off.

Fixpoint read_loop (fuel : nat) (n off : Z) (acc : list byte) :
    ST File ErrorKind (list byte) :=
  match fuel with
  | O => panic
  | S fuel =>
      if n <=? 0 then mret acc
      else
        got ← read_at n off;
        if zlen got =? 0 then throw UnexpectedEof
        else read_loop fuel (n - zlen got) (wrap64 (off + zlen got)) (acc ++ got)
  end.

(** Fills a buffer of [n] bytes. *)
Definition read_exact_at (n off : Z) : ST File ErrorKind (list byte) :=
  read_loop (S (Z.to_nat n)) n off [].

(** ** Reading back what was stored *)

Lemma store_bytes_lookup m off bs o :
  store_bytes m off bs !! o =
    if decide (off ≤ o < off + zlen bs) then bs !! Z.to_nat (o - off) else m !! o.
Proof.
  revert m off. induction bs as [|b bs IH]; intros m off; simpl.
  - rewrite zlen_nil. case_decide; [lia|done].
  - rewrite IH, zlen_cons. pose proof (zlen_nonneg bs).
    repeat case_decide; try lia.
    + by replace (Z.to_nat (o - off)) with (S (Z.to_nat (o - (off + 1)))) by lia.
    + assert (o = off) as -> by lia. rewrite lookup_insert_eq.
      by replace (Z.to_nat (off - off)) with O by lia.
    + rewrite lookup_insert_ne; [done|lia].
Qed.

Lemma store_bytes_app m off bs bs' :
  store_bytes m off (bs ++ bs') = store_bytes (store_bytes m off bs) (off + zlen bs) bs'.
Proof.
  revert m off. induction bs as [|b bs IH]; intros m off; simpl.
  - by rewrite zlen_nil, Z.add_0_r.
  - rewrite IH, zlen_cons. f_equal. lia.
Qed.

Lemma length_bytes_at m off n : length (bytes_at m off n) = Z.to_nat n.
Proof. unfold bytes_at. by rewrite length_fmap, length_seqZ. Qed.
Lemma zlen_bytes_at m off n : 0 ≤ n → zlen (bytes_at m off n) = n.
Proof. intros. unfold zlen. rewrite length_bytes_at. lia. Qed.
#[export] Hint Rewrite length_bytes_at : store.

Lemma bytes_at_lookup m off n (i : nat) :
  Z.of_nat i < n → bytes_at m off n !! i = Some (byte_at m (off + Z.of_nat i)).
Proof.
  intros Hi. unfold bytes_at. rewrite list_lookup_fmap, lookup_seqZ_lt by lia. done.
Qed.

(** Two images that agree on a range read the same there. *)
Lemma bytes_at_ext m m' off n :
  (∀ o, off ≤ o < off + n → m !! o = m' !! o) → bytes_at m off n = bytes_at m' off n.
Proof.
  intros H. apply list_fmap_ext. intros i o Ho%lookup_seqZ.
  unfold byte_at. rewrite H; [done|lia].
Qed.

Lemma bytes_at_app m off n k :
  0 ≤ n → 0 ≤ k → bytes_at m off (n + k) = bytes_at m off n ++ bytes_at m (off + n) k.
Proof. intros. unfold bytes_at. by rewrite seqZ_app, fmap_app. Qed.

Lemma bytes_at_store m off bs : bytes_at (store_bytes m off bs) off (zlen bs) = bs.
Proof.
  apply list_eq_same_length with (n := length bs); [done| |].
  { rewrite length_bytes_at. unfold zlen. lia. }
  intros i x y Hi Hx Hy.
  rewrite bytes_at_lookup in Hx by (unfold zlen; lia). simplify_eq.
  unfold byte_at. rewrite store_bytes_lookup, decide_True by (unfold zlen; lia).
  replace (Z.to_nat (off + Z.of_nat i - off)) with i by lia. by rewrite Hy.
Qed.

(** A store outside of a range does not change what the range reads. *)
Lemma bytes_at_store_other m off bs off' n :
  off' + n ≤ off ∨ off + zlen bs ≤ off' →
  bytes_at (store_bytes m off bs) off' n = bytes_at m off' n.
Proof.
  intros H. apply bytes_at_ext. intros o Ho.
  rewrite store_bytes_lookup, decide_False; [done|lia].
Qed.

(** ** The loops against one whole transfer *)

(** A kernel that fails nothing and always makes progress. *)
Definition good_answer (a : sys_answer) : Prop :=
  match a with Xfer n => 0 < n | SysErr => False end.
Definition calm (f : File) : Prop := Forall good_answer (f_script f).

(** The part of the file other than the script of answers. *)
Definition same_content (f f' : File) : Prop :=
  f_len f = f_len f' ∧ f_data f = f_data f' ∧ f_synced f = f_synced f'.

#[export] Instance same_content_equiv : Equivalence same_content.
Proof.
  unfold same_content.
  split; [by intros f|by intros f f' (?&?&?)|intros f f' f'' (?&?&?) (?&?&?)].
  split_and!; congruence.
Qed.

Definition script_suffix (f f' : File) : Prop := f_script f' `suffix_of` f_script f.

#[export] Instance script_suffix_preorder : PreOrder script_suffix.
Proof. unfold script_suffix. split; [by intros f|intros ??? H1 H2; by etrans]. Qed.

Lemma calm_suffix f f' : calm f → script_suffix f f' → calm f'.
Proof.
  unfold calm, script_suffix. intros Hc [k Hk]. rewrite Hk in Hc.
  by apply Forall_app in Hc as [??].
Qed.

#[export] Hint Resolve calm_suffix : store.

Lemma next_answer_spec f :
  ∃ r f', next_answer f = (r, f') ∧ same_content f f' ∧ script_suffix f f' ∧
    match r with
    | Ok lim => calm f → match lim with Some n => 0 < n | None => True end
    | Err e => e = Other ∧ ¬ calm f
    | Panic => False
    end.
Proof.
  unfold next_answer, calm, script_suffix, same_content. destruct f as [l d y s]; simpl.
  destruct s as [|[n|] s]; simpl.
  - eexists _, _. by split_and!.
  - exists (Ok (Some n)), (mkFile l d y s). split_and!; try done; [by exists [Xfer n]|].
    intros Hc. by inversion_clear Hc.
  - exists (Err Other), (mkFile l d y s). split_and!; try done; [by exists [SysErr]|].
    intros Hc. by inversion_clear Hc.
Qed.

(** [f'] is [f] with [bs] written at [off]; a write inside the file keeps its length. *)
Definition stored (off : Z) (bs : list byte) (f f' : File) : Prop :=
  (off + zlen bs ≤ f_len f → f_len f' = f_len f) ∧
  f_data f' = store_bytes (f_data f) off bs ∧
  f_synced f' = f_synced f.

Lemma put_bytes_stored off bs f g :
  same_content f g → stored off bs f (put_bytes off bs g).
Proof.
  unfold stored, same_content. intros (->&->&->).
  destruct bs; simpl; [done|]. split_and!; [lia|done..].
Qed.

Lemma stored_nil off f g : same_content f g → stored off [] f g.
Proof. apply (put_bytes_stored off []). Qed.

Lemma stored_trans off bs bs' f f' f'' :
  stored off bs f f' → stored (off + zlen bs) bs' f' f'' → stored off (bs ++ bs') f f''.
Proof.
  intros (Hl&Hd&Hs) (Hl'&Hd'&Hs'). unfold stored.
  rewrite store_bytes_app, zlen_app, <-Hd. pose proof (zlen_nonneg bs').
  split_and!; [|done|congruence].
  intros. rewrite Hl'; rewrite Hl; lia.
Qed.

Lemma clip_bounds lim n : 0 ≤ n → 0 ≤ clip lim n ≤ n.
Proof. intros. unfold clip. destruct lim; lia. Qed.

Lemma zlen_pos {A} (l : list A) : l ≠ [] → 0 < zlen l.
Proof. destruct l; [done|]. intros _. rewrite zlen_cons. pose proof (zlen_nonneg l). lia. Qed.

Lemma write_at_spec buf off f :
  ∃ r f', write_at buf off f = (r, f') ∧ script_suffix f f' ∧
    match r with
    | Ok n => 0 ≤ n ≤ zlen buf ∧ stored off (take (Z.to_nat n) buf) f f' ∧
              (calm f → buf ≠ [] → 0 < n)
    | Err e => e = Other ∧ same_content f f' ∧ ¬ calm f
    | Panic => False
    end.
Proof.
  destruct (next_answer_spec f) as (r & f' & Hr & Hc & Hs & Hp).
  unfold write_at. run_st. rewrite Hr. destruct r as [lim|e|]; [| |done].
  2: { destruct Hp. eexists (Err _), _. by split_and!. }
  pose proof (clip_bounds lim (zlen buf) (zlen_nonneg buf)).
  eexists (Ok _), _.
  split_and!; [done| |lia|lia|by apply put_bytes_stored|].
  - unfold script_suffix, put_bytes in *. by destruct (take _ _).
  - intros Hcalm Hne%zlen_pos. specialize (Hp Hcalm). unfold clip in *. destruct lim; lia.
Qed.

Lemma write_loop_spec fuel buf off f :
  (length buf < fuel)%nat → 0 ≤ off → off + zlen buf < 2 ^ 64 →
  ∃ r f', write_loop fuel buf off f = (r, f') ∧ script_suffix f f' ∧
    match r with
    | Ok _ => stored off buf f f'
    | Err _ => (∃ k, stored off (take k buf) f f') ∧ ¬ calm f
    | Panic => False
    end.
Proof.
  revert buf off f. induction fuel as [|fuel IH]; intros buf off f Hf Ho Hlt; [lia|].
  destruct buf as [|b buf].
  { exists (Ok ()), f. split_and!; [done..|]. by apply stored_nil. }
  destruct (write_at_spec (b :: buf) off f) as (r & f1 & Hr & Hs & Hp).
  cbn [write_loop]. remember (b :: buf) as bs eqn:Ebs.
  destruct r as [n|e|]; [| |done].
  2: { rewrite (bind_err _ _ _ _ _ Hr). destruct Hp as (->&Hc&Hn).
       eexists (Err _), _. split_and!; [done..| |done]. exists O. by apply stored_nil. }
  rewrite (bind_ok _ _ _ _ _ Hr). destruct Hp as (Hn & Hst & Hpos).
  destruct (Z.eqb_spec n 0) as [->|Hn0].
  { eexists (Err _), _. split_and!; [done|done| |].
    - by exists O.
    - intros Hc. specialize (Hpos Hc). subst bs. by specialize (Hpos ltac:(done)). }
  assert (Hlen : zlen (take (Z.to_nat n) bs) = n)
    by (unfold zlen in *; rewrite length_take; lia).
  assert (Hlen' : zlen (drop (Z.to_nat n) bs) = zlen bs - n)
    by (unfold zlen in *; rewrite length_drop; lia).
  rewrite wrap64_id by (unfold is_u64; lia).
  destruct (IH (drop (Z.to_nat n) bs) (off + n) f1) as (r & f' & Hr' & Hs' & Hp');
    [unfold zlen in *; rewrite length_drop; lia|lia|lia|].
  exists r, f'. split_and!; [done|by etrans|].
  destruct r as [[]|e|]; [| |done].
  - rewrite <-(take_drop (Z.to_nat n) bs). eapply stored_trans; [done|by rewrite Hlen].
  - destruct Hp' as [[k Hk] Hc']. split; [|by eauto with store].
    exists (Z.to_nat n + k)%nat. rewrite <-take_take_drop.
    eapply stored_trans; [done|by rewrite Hlen].
Qed.

(** The write loop is one whole write, whatever the kernel answers, or an error
    after a prefix; the fuel is never exhausted. *)
Lemma write_all_at_spec buf off f :
  0 ≤ off → off + zlen buf < 2 ^ 64 →
  ∃ r f', write_all_at buf off f = (r, f') ∧ script_suffix f f' ∧
    match r with
    | Ok _ => stored off buf f f'
    | Err _ => (∃ k, stored off (take k buf) f f') ∧ ¬ calm f
    | Panic => False
    end.
Proof. intros. apply write_loop_spec; [lia|done..]. Qed.

Lemma read_at_spec n off f :
  0 ≤ n →
  ∃ r f', read_at n off f = (r, f') ∧ same_content f f' ∧ script_suffix f f' ∧
    match r with
    | Ok bs => ∃ k, 0 ≤ k ≤ n ∧ (off + k ≤ f_len f ∨ k = 0) ∧
                 bs = bytes_at (f_data f) off k ∧
                 (calm f → 0 < n → off < f_len f → 0 < k)
    | Err _ => ¬ calm f
    | Panic => False
    end.
Proof.
  intros Hn. destruct (next_answer_spec f) as (r & f' & Hr & Hc & Hs & Hp).
  unfold read_at. run_st. rewrite Hr. destruct r as [lim|e|]; [| |done].
  2: { destruct Hp. eexists (Err _), _. by split_and!. }
  eexists (Ok _), _. split_and!; [done..|].
  destruct Hc as (->&->&_). exists (clip lim (Z.min n (f_len f' - off))).
  split_and!; try done; unfold clip; destruct lim; try lia.
  all: intros Hcalm; specialize (Hp Hcalm); lia.
Qed.

Lemma read_loop_spec fuel n off acc f :
  (Z.to_nat n < fuel)%nat → 0 ≤ n → 0 ≤ off → off + n < 2 ^ 64 →
  ∃ r f', read_loop fuel n off acc f = (r, f') ∧ same_content f f' ∧ script_suffix f f' ∧
    match r with
    | Ok bs => bs = acc ++ bytes_at (f_data f) off n ∧ (0 < n → off + n ≤ f_len f)
    | Err _ => calm f → f_len f < off + n
    | Panic => False
    end.
Proof.
  revert n off acc f. induction fuel as [|fuel IH]; intros n off acc f Hf Hn Ho Hlt; [lia|].
  cbn [read_loop]. destruct (Z.leb_spec n 0).
  { assert (n = 0) as -> by lia. exists (Ok acc), f. split_and!; [done..| |lia].
    unfold bytes_at. simpl. by rewrite app_nil_r. }
  destruct (read_at_spec n off f Hn) as (r & f1 & Hr & Hc & Hs & Hp).
  destruct r as [bs|e|]; [| |done].
  2: { rewrite (bind_err _ _ _ _ _ Hr). eexists (Err _), _. by split_and!. }
  rewrite (bind_ok _ _ _ _ _ Hr). destruct Hp as (k & Hk & Hkl & -> & Hpos).
  rewrite zlen_bytes_at by lia. destruct (Z.eqb_spec k 0) as [->|Hk0].
  { eexists (Err _), _. split_and!; [done..|]. intros Hcalm. specialize (Hpos Hcalm). lia. }
  rewrite wrap64_id by (unfold is_u64; lia).
  destruct (IH (n - k) (off + k) (acc ++ bytes_at (f_data f) off k) f1)
    as (r & f' & Hr' & Hc' & Hs' & Hp'); [lia..|].
  pose proof Hc as (Hl & Hd & _). rewrite <-Hl, <-Hd in Hp'.
  exists r, f'. split_and!; [done|by etrans|by etrans|]. destruct r as [bs|e|]; [| |done].
  - destruct Hp' as [-> Hb]. rewrite <-app_assoc, <-bytes_at_app by lia.
    split; [|lia]. by replace (k + (n - k)) with n by lia.
  - intros Hcalm. eapply calm_suffix in Hcalm; [|exact Hs]. specialize (Hp' Hcalm). lia.
Qed.

(** The read loop returns exactly the bytes of the range, or fails. *)
Lemma read_exact_at_spec n off f :
  0 ≤ n → 0 ≤ off → off + n < 2 ^ 64 →
  ∃ r f', read_exact_at n off f = (r, f') ∧ same_content f f' ∧ script_suffix f f' ∧
    match r with
    | Ok bs => bs = bytes_at (f_data f) off n ∧ (0 < n → off + n ≤ f_len f)
    | Err _ => calm f → f_len f < off + n
    | Panic => False
    end.
Proof. intros. apply (read_loop_spec _ n off []); lia. Qed.

Lemma sync_data_spec f :
  ∃ r f', sync_data f = (r, f') ∧ script_suffix f f' ∧
    f_len f' = f_len f ∧ f_data f' = f_data f ∧
    match r with
    | Ok _ => f_synced f' = f_data f'
    | Err _ => f_synced f' = f_synced f ∧ ¬ calm f
    | Panic => False
    end.
Proof.
  destruct (next_answer_spec f) as (r & f' & Hr & (Hl&Hd&Hy) & Hs & Hp).
  unfold sync_data. run_st. rewrite Hr. destruct r as [lim|e|]; [| |done].
  - eexists (Ok _), _. by split_and!.
  - destruct Hp. eexists (Err _), _. by split_and!.
Qed.
