(* ===== verification/Crc32.v ===== *)
(** * Crc32: the checksum interface

    crc32fast is a third-party crate: the development uses its [Hasher] only
    through this class. The law is what the crate documents of streaming: feeding
    two buffers one after the other is feeding their concatenation. [crc32_ieee]
    is a concrete instance, used to evaluate the model on concrete inputs. *)

From coqutil Require Import Byte.
From S2P Require Import Prelude.
From S2P Require Import Bytes.
Open Scope Z_scope.

Class Crc32 := {
  hasher : Type;
  hasher_new : hasher;
  hasher_update : hasher → list byte → hasher;
  hasher_finalize : hasher → Z;
  hasher_update_app h a b : hasher_update (hasher_update h a) b = hasher_update h (a ++ b);
  hasher_update_nil h : hasher_update h [] = h;
  hasher_finalize_u32 h : is_u32 (hasher_finalize h);
}.

(** A whole buffer hashed at once. *)
Definition crc32 `{Crc32} (data : list byte) : Z :=
  hasher_finalize (hasher_update hasher_new data).

Lemma crc32_u32 `{Crc32} data : is_u32 (crc32 data).
Proof. apply hasher_finalize_u32. Qed.
#[export] Hint Resolve crc32_u32 : store.

(** The streamed checksum of a list of buffers is the checksum of the whole. *)
Lemma crc32_stream `{Crc32} (pieces : list (list byte)) h :
  foldl hasher_update h pieces = hasher_update h (concat pieces).
Proof.
  revert h. induction pieces as [|p ps IH]; intros h; simpl.
  - by rewrite hasher_update_nil.
  - by rewrite IH, hasher_update_app.
Qed.

(** ** A concrete instance: CRC-32 with the reflected polynomial 0xEDB88320 *)

Fixpoint crc_bits (n : nat) (c : Z) : Z :=
  match n with
  | O => c
  | S n =>
      crc_bits n (if Z.odd c then Z.lxor 3988292384 (Z.shiftr c 1) else Z.shiftr c 1)
  end.

Definition crc_byte (c : Z) (b : byte) : Z := crc_bits 8 (Z.lxor c (byte.unsigned b)).

#[refine, local] Instance crc32_ieee : Crc32 := {|
  hasher := Z;
  hasher_new := 4294967295;
  hasher_update := foldl crc_byte;
  hasher_finalize c := wrap32 (Z.lxor c 4294967295);
|}.
Proof.
  - intros h a b. by rewrite foldl_app.
  - done.
  - intros h. apply wrap32_u32.
Defined.

(** The check value the source's tests use for "hello world". *)
Example crc32_ieee_hello :
  @crc32 crc32_ieee (String.list_byte_of_string "hello world") = 222957957.
Proof. reflexivity. Qed.
