(* ===== verification/ChunkStore.v ===== *)
(** * ChunkStore: the slot file of a storage node

    storage-node/src/chunk_store.rs: the chunk header and its encoding, the slot
    reads and writes, and the store with its index, its free-slot stack and its
    recovery scan. *)

From S2P Require Import Prelude.
From S2P Require Import Bytes.
From S2P Require Import PosFile.
From S2P Require Import Crc32.
Open Scope Z_scope.

(** ** Layout *)

Definition SLOT_SIZE : Z := 8 * 1024 * 1024.
Definition MAGIC : Z := 0x43484B01.

(** [size_of] of a [repr(C)] struct of primitive fields, each aligned to its size. *)
Definition align_up (n a : Z) : Z := (n + a - 1) / a * a.
Definition repr_c_size (fields : list Z) : Z :=
  align_up (foldl (λ off sz, align_up off sz + sz) 0 fields) (foldr Z.max 1 fields).

(** The struct is [u32, u64, u32, u32]: 24 bytes, of which [to_bytes] fills 20. *)
Definition CHUNK_HEADER_SIZE : Z := repr_c_size [4; 8; 4; 4].
Definition SLOT_DATA_SIZE : Z := SLOT_SIZE - CHUNK_HEADER_SIZE.
Definition ALLOCATED_ARENA_SIZE : Z := 2048.
Definition DEFAULT_FSYNC_EVERY_N_WRITES : Z := 1.

Record ChunkHeader := mkHeader {
  h_magic : Z;
  h_id : Z;
  h_checksum : Z;
  h_data_len : Z;
}.

Definition header_new (id checksum data_len : Z) : ChunkHeader :=
  mkHeader MAGIC id checksum data_len.

(** A zeroed buffer, filled by consecutive [copy_from_slice]: the last four bytes
    stay zero. *)
Definition to_bytes (h : ChunkHeader) : list byte :=
  to_le_bytes 4 (h_magic h) ++ to_le_bytes 8 (h_id h) ++
  to_le_bytes 4 (h_checksum h) ++ to_le_bytes 4 (h_data_len h) ++
  replicate (Z.to_nat CHUNK_HEADER_SIZE - 20) x00.

(** [buf[a..b]]. *)
Definition slice (a b : nat) (buf : list byte) : list byte := take (b - a) (drop a buf).

Definition from_bytes (buf : list byte) : ChunkHeader :=
  mkHeader (from_le_bytes (slice 0 4 buf)) (from_le_bytes (slice 4 12 buf))
    (from_le_bytes (slice 12 16 buf)) (from_le_bytes (slice 16 20 buf)).

Definition slot_offset (slot_index : Z) : Z := wrap64 (slot_index * SLOT_SIZE).

Section chunk_store.
Context `{Crc32}.

Definition compute_checksum (data : list byte) : Z :=
  hasher_finalize (hasher_update hasher_new data).

(** ** Slots *)

Definition write_chunk_at (slot_index : Z) (header : ChunkHeader) (bytes : list byte)
    (fsync : bool) : ST File ErrorKind unit :=
  _ ← assert_ (zlen bytes <=? SLOT_DATA_SIZE);
  let offset := slot_offset slot_index in
  _ ← write_all_at (to_bytes header) offset;
  _ ← (if decide (bytes = []) then mret ()
       else write_all_at bytes (wrap64 (offset + CHUNK_HEADER_SIZE)));
  if fsync then sync_data else mret ().

Definition read_chunk_header (slot_index : Z) : ST File ErrorKind ChunkHeader :=
  header_bytes ← read_exact_at CHUNK_HEADER_SIZE (slot_offset slot_index);
  mret (from_bytes header_bytes).

Definition read_chunk_optimized (slot_index : Z) :
    ST File ErrorKind (ChunkHeader * list byte) :=
  header ← read_chunk_header slot_index;
  if negb (h_magic header =? MAGIC) then mret (header, [])
  else
    data ← (if 0 <? h_data_len header
            then read_exact_at (h_data_len header)
                   (wrap64 (slot_offset slot_index + CHUNK_HEADER_SIZE))
            else mret []);
    mret (header, data).

(** ** The store *)

Record ChunkStoreOptions := mkOptions {
  fsync_every_n_writes : option Z;
  fsync_on_delete : bool;
  fast_recover : bool;
}.

Definition default_options : ChunkStoreOptions :=
  mkOptions (Some DEFAULT_FSYNC_EVERY_N_WRITES) true false.

(** [cs_poisoned]: a thread panicked while it held the write guard of [index], so
    every later [read().unwrap()] or [write().unwrap()] panics. No code path
    panics while it holds the lock of [free_slots]. [cs_free] is a [Vec]: the
    top of the stack is its last element. *)
Record ChunkStore := mkStore {
  cs_file : File;
  cs_index : gmap Z Z;
  cs_free : list Z;
  cs_total : Z;
  cs_fsync_every : option Z;
  cs_fsync_on_delete : bool;
  cs_write_counter : Z;
  cs_poisoned : bool;
}.

Definition set_file (f : File) (st : ChunkStore) : ChunkStore :=
  mkStore f (cs_index st) (cs_free st) (cs_total st) (cs_fsync_every st)
    (cs_fsync_on_delete st) (cs_write_counter st) (cs_poisoned st).
Definition set_index (i : gmap Z Z) (st : ChunkStore) : ChunkStore :=
  mkStore (cs_file st) i (cs_free st) (cs_total st) (cs_fsync_every st)
    (cs_fsync_on_delete st) (cs_write_counter st) (cs_poisoned st).
Definition set_free (l : list Z) (st : ChunkStore) : ChunkStore :=
  mkStore (cs_file st) (cs_index st) l (cs_total st) (cs_fsync_every st)
    (cs_fsync_on_delete st) (cs_write_counter st) (cs_poisoned st).
Definition set_counter (n : Z) (st : ChunkStore) : ChunkStore :=
  mkStore (cs_file st) (cs_index st) (cs_free st) (cs_total st) (cs_fsync_every st)
    (cs_fsync_on_delete st) n (cs_poisoned st).
Definition set_poisoned (b : bool) (st : ChunkStore) : ChunkStore :=
  mkStore (cs_file st) (cs_index st) (cs_free st) (cs_total st) (cs_fsync_every st)
    (cs_fsync_on_delete st) (cs_write_counter st) b.

Definition on_file {A} (m : ST File ErrorKind A) : ST ChunkStore ErrorKind A :=
  zoom cs_file set_file m.

(** Opens or creates the file (the call may fail), sizes it, and starts with an
    empty index and every slot free. *)
Definition open (allocated_slots : option Z) (options : ChunkStoreOptions) (f : File) :
    outcome ErrorKind ChunkStore * File :=
  let allocated_arena_size := default ALLOCATED_ARENA_SIZE allocated_slots in
  let file_bytes := wrap64 (SLOT_SIZE * allocated_arena_size) in
  match (_ ← next_answer; set_len file_bytes) f with
  | (Ok _, f) =>
      (Ok (mkStore f ∅ (seqZ 0 allocated_arena_size) allocated_arena_size
             (fsync_every_n_writes options) (fsync_on_delete options) 0 false), f)
  | (Err e, f) => (Err e, f)
  | (Panic, f) => (Panic, f)
  end.

(** [self.index.read().unwrap()] and [self.index.write().unwrap()]. *)
Definition lock_index : ST ChunkStore ErrorKind unit :=
  p ← gets cs_poisoned; if (p : bool) then panic else mret ().

(** The extent of a write guard of [index]: a panic inside poisons the lock. *)
Definition poison_on_panic {A} (m : ST ChunkStore ErrorKind A) :
    ST ChunkStore ErrorKind A := λ st,
  match m st with
  | (Panic, st') => (Panic, set_poisoned true st')
  | r => r
  end.
Definition write_guard {A} (m : ST ChunkStore ErrorKind A) : ST ChunkStore ErrorKind A :=
  _ ← lock_index; poison_on_panic m.

(** [Vec::pop]. *)
Definition vec_pop {A} (l : list A) : option (A * list A) :=
  match rev l with
  | [] => None
  | x :: k => Some (x, rev k)
  end.

Definition find_slot : ST ChunkStore ErrorKind (option Z) :=
  free_slots ← gets cs_free;
  match vec_pop free_slots with
  | Some (slot_index, rest) => _ ← modify (set_free rest); mret (Some slot_index)
  | None => mret None
  end.

Definition clear_slot (slot_index : Z) : ST ChunkStore ErrorKind unit :=
  total ← gets cs_total;
  _ ← assert_ (slot_index <? total);
  modify (λ st, set_free (cs_free st ++ [slot_index]) st).

Definition should_fsync_write : ST ChunkStore ErrorKind bool :=
  every ← gets cs_fsync_every;
  match every with
  | Some n =>
      if 0 <? n then
        count ← gets (λ st, wrap64 (cs_write_counter st + 1));
        _ ← modify (set_counter count);
        mret (count mod n =? 0)
      else mret false
  | None => mret false
  end.

Definition put_chunk (id : Z) (data : list byte) : ST ChunkStore ErrorKind unit :=
  write_guard (
    index ← gets cs_index;
    if decide (is_Some (index !! id)) then throw AlreadyExists
    else
      slot_idx ← find_slot;
      match slot_idx with
      | None => throw StorageFull
      | Some slot_idx =>
          let checksum := compute_checksum data in
          let header := header_new id checksum (wrap32 (zlen data)) in
          fsync ← should_fsync_write;
          result ← attempt (on_file (write_chunk_at slot_idx header data fsync));
          match result with
          | inl err =>
              _ ← @attempt _ _ ErrorKind _ (clear_slot slot_idx);
              throw err
          | inr _ => modify (λ st, set_index (<[id := slot_idx]> (cs_index st)) st)
          end
      end).

Definition get_chunk (id : Z) : ST ChunkStore ErrorKind (list byte * Z) :=
  _ ← lock_index;
  index ← gets cs_index;
  slot_idx ← lift_opt NotFound (index !! id);
  '(header, data) ← on_file (read_chunk_optimized slot_idx);
  if negb (h_magic header =? MAGIC) then throw InvalidData
  else if negb (h_checksum header =? compute_checksum data) then throw InvalidData
  else mret (data, h_checksum header).

Definition delete_chunk (id : Z) : ST ChunkStore ErrorKind unit :=
  write_guard (
    index ← gets cs_index;
    match index !! id with
    | Some slot_idx =>
        _ ← modify (set_index (delete id index));
        _ ← on_file (write_all_at (replicate (Z.to_nat CHUNK_HEADER_SIZE) x00)
                       (slot_offset slot_idx));
        sync ← gets cs_fsync_on_delete;
        _ ← (if (sync : bool) then on_file sync_data else mret ());
        clear_slot slot_idx
    | None => mret ()
    end).

(** ** Recovery *)

Definition push_free (i : Z) : ST ChunkStore ErrorKind unit :=
  modify (λ st, set_free (cs_free st ++ [i]) st).
Definition insert_index (id i : Z) : ST ChunkStore ErrorKind unit :=
  modify (λ st, set_index (<[id := i]> (cs_index st)) st).

(** The body of the scan for slot [i]. *)
Definition recover_slot (fast : bool) (i : Z) : ST ChunkStore ErrorKind unit :=
  header ← on_file (read_chunk_header i);
  if h_magic header =? MAGIC then
    if SLOT_DATA_SIZE <? h_data_len header then push_free i
    else if fast then insert_index (h_id header) i
    else
      '(_, data) ← on_file (read_chunk_optimized i);
      if negb (h_checksum header =? compute_checksum data) then push_free i
      else insert_index (h_id header) i
  else push_free i.

Fixpoint recover_slots (fast : bool) (slots : list Z) : ST ChunkStore ErrorKind unit :=
  match slots with
  | [] => mret ()
  | i :: slots => _ ← recover_slot fast i; recover_slots fast slots
  end.

Definition recover_index (fast : bool) : ST ChunkStore ErrorKind unit :=
  len ← on_file file_len;
  let slot_count := len / SLOT_SIZE in
  write_guard (
    _ ← modify (set_index ∅);
    _ ← modify (set_free []);
    recover_slots fast (seqZ 0 slot_count)).

Definition free_slots (st : ChunkStore) : Z := zlen (cs_free st).
Definition get_chunk_size (st : ChunkStore) : Z := SLOT_DATA_SIZE.

End chunk_store.
