(* ===== verification/SlotFacts.v ===== *)
(** * SlotFacts: the header codec and the I/O of one slot

    Facts about the first half of storage-node/src/chunk_store.rs: the header
    round trip, what [write_chunk_at] leaves in a file and what
    [read_chunk_header] and [read_chunk_optimized] return, for every behaviour of
    the kernel. *)

From S2P Require Import Prelude.
From S2P Require Import Bytes.
From S2P Require Import PosFile.
From S2P Require Import Crc32.
From S2P Require Import ChunkStore.
Open Scope Z_scope.

Lemma slot_consts :
  SLOT_SIZE = 8388608 ∧ CHUNK_HEADER_SIZE = 24 ∧ SLOT_DATA_SIZE = 8388584.
Proof. by vm_compute. Qed.

(** Linear arithmetic with the sizes of the layout and the 64-bit bound. *)
Ltac slot_lia :=
  pose proof slot_consts as (?&?&?); unfold is_u64, is_u32 in *;
  change (2 ^ 64) with 18446744073709551616 in *;
  change (2 ^ 63) with 9223372036854775808 in *;
  change (2 ^ 32) with 4294967296 in *; lia.

Record header_ok (h : ChunkHeader) : Prop := mkHeaderOk {
  ho_magic : is_u32 (h_magic h);
  ho_id : is_u64 (h_id h);
  ho_checksum : is_u32 (h_checksum h);
  ho_data_len : is_u32 (h_data_len h);
}.

Definition header_at (m : gmap Z byte) (s : Z) : ChunkHeader :=
  from_bytes (bytes_at m (s * SLOT_SIZE) CHUNK_HEADER_SIZE).

Definition data_at (m : gmap Z byte) (s : Z) : list byte :=
  bytes_at m (s * SLOT_SIZE + CHUNK_HEADER_SIZE) (h_data_len (header_at m s)).

(** A slot of the address space. *)
Definition slot_in_range (s : Z) : Prop := 0 ≤ s ∧ (s + 1) * SLOT_SIZE ≤ 2 ^ 63.

(** [m'] differs from [m] in slot [s] only. *)
Definition slot_frame (s : Z) (m m' : gmap Z byte) : Prop :=
  ∀ o, o < s * SLOT_SIZE ∨ (s + 1) * SLOT_SIZE ≤ o → m' !! o = m !! o.

(** Slot [s] holds the header and the data. *)
Definition slot_image (m : gmap Z byte) (s : Z) (h : ChunkHeader) (data : list byte) : Prop :=
  bytes_at m (s * SLOT_SIZE) CHUNK_HEADER_SIZE = to_bytes h ∧
  bytes_at m (s * SLOT_SIZE + CHUNK_HEADER_SIZE) (zlen data) = data.

(** ** The header codec *)

Lemma length_to_bytes h : length (to_bytes h) = 24%nat.
Proof.
  unfold to_bytes. rewrite !length_app, !length_to_le_bytes. by vm_compute.
Qed.
Lemma zlen_to_bytes h : zlen (to_bytes h) = CHUNK_HEADER_SIZE.
Proof. unfold zlen. rewrite length_to_bytes. by vm_compute. Qed.

Lemma slice_app_l (k : nat) a l : length a = k → slice 0 k (a ++ l) = a.
Proof. intros <-. unfold slice. by rewrite Nat.sub_0_r, drop_0, take_app_length. Qed.
Lemma slice_app_r (i j k : nat) a l :
  length a = k → (k ≤ i)%nat → slice i j (a ++ l) = slice (i - k) (j - k) l.
Proof.
  intros <- Hi. unfold slice. rewrite drop_app_ge by lia. f_equal. lia.
Qed.

Lemma from_to_bytes h : header_ok h → from_bytes (to_bytes h) = h.
Proof.
  destruct h as [mg id ck dl]. intros []; simpl in *. unfold from_bytes, to_bytes.
  cbn [h_magic h_id h_checksum h_data_len].
  rewrite slice_app_l by apply length_to_le_bytes.
  rewrite (slice_app_r 4 12 4), (slice_app_r 12 16 4), (slice_app_r 16 20 4)
    by (apply length_to_le_bytes || lia). cbn [Nat.sub].
  rewrite slice_app_l by apply length_to_le_bytes.
  rewrite (slice_app_r 8 12 8), (slice_app_r 12 16 8)
    by (apply length_to_le_bytes || lia). cbn [Nat.sub].
  rewrite slice_app_l by apply length_to_le_bytes.
  rewrite (slice_app_r 4 8 4) by (apply length_to_le_bytes || lia). cbn [Nat.sub].
  rewrite slice_app_l by apply length_to_le_bytes.
  by rewrite !from_to_le_bytes.
Qed.

Lemma length_slice i j buf : length (slice i j buf) = ((j - i) `min` (length buf - i))%nat.
Proof. unfold slice. by rewrite length_take, length_drop. Qed.

Lemma from_bytes_ok buf : length buf = 24%nat → header_ok (from_bytes buf).
Proof.
  intros Hl. unfold from_bytes. split; simpl.
  all: match goal with |- _ (from_le_bytes ?s) => pose proof (from_le_bytes_bound s) as Hb end.
  all: rewrite length_slice, Hl in Hb; exact Hb.
Qed.

Lemma header_at_ok m s : header_ok (header_at m s).
Proof. apply from_bytes_ok. rewrite length_bytes_at. by vm_compute. Qed.

Lemma from_bytes_zero :
  from_bytes (replicate (Z.to_nat CHUNK_HEADER_SIZE) x00) = mkHeader 0 0 0 0.
Proof. by vm_compute. Qed.

(** ** Slots of an image *)

Lemma slot_offset_eq s : slot_in_range s → slot_offset s = s * SLOT_SIZE.
Proof. intros []. apply wrap64_id. slot_lia. Qed.
Lemma slot_data_offset_eq s :
  slot_in_range s →
  wrap64 (slot_offset s + CHUNK_HEADER_SIZE) = s * SLOT_SIZE + CHUNK_HEADER_SIZE.
Proof. intros Hs. rewrite slot_offset_eq by done. apply wrap64_id. destruct Hs. slot_lia. Qed.

#[export] Instance slot_frame_preorder s : PreOrder (slot_frame s).
Proof.
  unfold slot_frame. split; [done|]. intros x y z H1 H2 o Ho. by rewrite H2, H1.
Qed.

Lemma slot_frame_store s m off bs :
  s * SLOT_SIZE ≤ off → off + zlen bs ≤ (s + 1) * SLOT_SIZE →
  slot_frame s m (store_bytes m off bs).
Proof. intros ?? o Ho. rewrite store_bytes_lookup, decide_False; [done|lia]. Qed.

Lemma slot_frame_bytes s m m' off n :
  slot_frame s m m' → off + n ≤ s * SLOT_SIZE ∨ (s + 1) * SLOT_SIZE ≤ off →
  bytes_at m' off n = bytes_at m off n.
Proof. intros Hf Hr. apply bytes_at_ext. intros o Ho. apply Hf. lia. Qed.

Lemma slot_frame_header s s' m m' :
  slot_frame s m m' → s ≠ s' → header_at m' s' = header_at m s'.
Proof.
  intros Hf Hne. unfold header_at. f_equal. eapply slot_frame_bytes; [done|]. slot_lia.
Qed.

Lemma slot_frame_image s s' m m' h data :
  slot_frame s m m' → s ≠ s' → zlen data ≤ SLOT_DATA_SIZE →
  slot_image m s' h data → slot_image m' s' h data.
Proof.
  intros Hf Hne Hd [Hh Hb]. pose proof (zlen_nonneg data).
  split; rewrite (slot_frame_bytes s m m') by (done || slot_lia); done.
Qed.

Lemma slot_image_header m s h data : header_ok h → slot_image m s h data → header_at m s = h.
Proof. intros Hok [Hh _]. unfold header_at. by rewrite Hh, from_to_bytes. Qed.

Lemma slot_image_data m s h data :
  header_ok h → h_data_len h = zlen data → slot_image m s h data → data_at m s = data.
Proof.
  intros Hok Hl Hi. unfold data_at. rewrite (slot_image_header _ _ _ _ Hok Hi), Hl.
  by destruct Hi.
Qed.

(** ** Writing and reading a slot *)

Definition file_fits (f : File) : Prop := f_len f ≤ 2 ^ 63.
Definition slot_in_file (s : Z) (f : File) : Prop :=
  0 ≤ s ∧ (s + 1) * SLOT_SIZE ≤ f_len f ∧ f_len f ≤ 2 ^ 63.

Lemma slot_in_file_range s f : slot_in_file s f → slot_in_range s.
Proof. intros (?&?&?). split; slot_lia. Qed.
#[export] Hint Resolve slot_in_file_range : store.

(** A write inside slot [s], whole or cut short, stays inside the slot. *)
Lemma stored_in_slot s off bs (k : nat) f f' :
  slot_in_file s f → s * SLOT_SIZE ≤ off → off + zlen bs ≤ (s + 1) * SLOT_SIZE →
  stored off (take k bs) f f' →
  f_len f' = f_len f ∧ slot_frame s (f_data f) (f_data f') ∧ f_synced f' = f_synced f.
Proof.
  intros (?&?&?) ?? (Hl & Hd & Hs).
  assert (zlen (take k bs) ≤ zlen bs) by (unfold zlen; rewrite length_take; lia).
  split_and!; [apply Hl; lia| |done].
  rewrite Hd. apply slot_frame_store; lia.
Qed.

Lemma slot_write_spec s off bs f :
  slot_in_file s f → s * SLOT_SIZE ≤ off → off + zlen bs ≤ (s + 1) * SLOT_SIZE →
  ∃ r f', write_all_at bs off f = (r, f') ∧ script_suffix f f' ∧
    f_len f' = f_len f ∧ slot_frame s (f_data f) (f_data f') ∧ f_synced f' = f_synced f ∧
    match r with
    | Ok _ => f_data f' = store_bytes (f_data f) off bs
    | Err _ => ¬ calm f
    | Panic => False
    end.
Proof.
  intros Hin Ho Hb. pose proof Hin as (?&?&?). pose proof (zlen_nonneg bs).
  destruct (write_all_at_spec bs off f) as (r & f' & Hr & Hs & Hp); [slot_lia..|].
  exists r, f'. destruct r as [[]|e|]; [| |done].
  - destruct (stored_in_slot s off bs (length bs) f f') as (?&?&?);
      [done..|by rewrite take_ge by lia|].
    split_and!; try done. apply Hp.
  - destruct Hp as [[k Hk] Hc].
    destruct (stored_in_slot s off bs k f f') as (?&?&?); done.
Qed.

Lemma slot_in_file_len s f f' : f_len f' = f_len f → slot_in_file s f → slot_in_file s f'.
Proof. unfold slot_in_file. by intros ->. Qed.

Section slot_io.
Context `{Crc32}.

Lemma slot_image_store m s h data :
  0 ≤ s → zlen data ≤ SLOT_DATA_SIZE →
  slot_image
    (store_bytes (store_bytes m (s * SLOT_SIZE) (to_bytes h))
       (s * SLOT_SIZE + CHUNK_HEADER_SIZE) data) s h data.
Proof.
  intros Hs Hd. split; [|apply bytes_at_store].
  rewrite bytes_at_store_other by slot_lia. rewrite <-(zlen_to_bytes h).
  apply bytes_at_store.
Qed.

Definition slot_write_post (s : Z) (h : ChunkHeader) (data : list byte) (fsync : bool)
    (f : File) (r : outcome ErrorKind unit) (f' : File) : Prop :=
  script_suffix f f' ∧ f_len f' = f_len f ∧ slot_frame s (f_data f) (f_data f') ∧
  match r with
  | Ok _ => slot_image (f_data f') s h data ∧
            f_synced f' = (if fsync then f_data f' else f_synced f)
  | Err _ => f_synced f' = f_synced f ∧ ¬ calm f
  | Panic => False
  end.

(** The optional [sync_data] at the end of a slot write. *)
Lemma fsync_post s h data fsync f f1 :
  script_suffix f f1 → f_len f1 = f_len f → slot_frame s (f_data f) (f_data f1) →
  f_synced f1 = f_synced f → slot_image (f_data f1) s h data →
  ∃ r f', (if fsync : bool then sync_data else mret ()) f1 = (r, f') ∧
    slot_write_post s h data fsync f r f'.
Proof.
  intros Hs Hl Hf Hy Hi. destruct fsync.
  - destruct (sync_data_spec f1) as (r & f' & Hr & Hs' & Hl' & Hd' & Hp).
    exists r, f'. split; [done|]. unfold slot_write_post. rewrite Hd', Hl'.
    split_and!; [by etrans|done|done|].
    destruct r as [[]|e|]; [|destruct Hp as [Hp Hc]|done].
    + rewrite Hp, Hd'. done.
    + split; [congruence|]. eauto with store.
  - exists (Ok ()), f1. unfold slot_write_post. by split_and!.
Qed.

Lemma write_chunk_at_spec s h data fsync f :
  slot_in_file s f → zlen data ≤ SLOT_DATA_SIZE →
  ∃ r f', write_chunk_at s h data fsync f = (r, f') ∧ slot_write_post s h data fsync f r f'.
Proof.
  intros Hin Hd. pose proof Hin as (?&?&?). pose proof (zlen_nonneg data).
  unfold write_chunk_at. rewrite (proj2 (Z.leb_le _ _)) by done. cbn [assert_].
  rewrite (bind_ok _ _ _ () f) by done.
  rewrite slot_offset_eq by eauto with store.
  destruct (slot_write_spec s (s * SLOT_SIZE) (to_bytes h) f)
    as (r & f1 & Hr & Hs1 & Hl1 & Hf1 & Hy1 & Hp1); [done|lia|rewrite zlen_to_bytes; slot_lia|].
  destruct r as [[]|e|]; [| |done].
  2: { rewrite (bind_err _ _ _ _ _ Hr). eexists (Err _), _. split; [done|].
       unfold slot_write_post. by split_and!. }
  rewrite (bind_ok _ _ _ _ _ Hr).
  replace (wrap64 (s * SLOT_SIZE + CHUNK_HEADER_SIZE)) with (s * SLOT_SIZE + CHUNK_HEADER_SIZE)
    by (symmetry; apply wrap64_id; slot_lia).
  pose proof (slot_image_store (f_data f) s h data ltac:(lia) Hd) as Himg.
  case_decide as Hnil.
  - subst data. rewrite (bind_ok _ _ _ () f1) by done.
    apply fsync_post; try done. by rewrite Hp1.
  - destruct (slot_write_spec s (s * SLOT_SIZE + CHUNK_HEADER_SIZE) data f1)
      as (r & f2 & Hr2 & Hs2 & Hl2 & Hf2 & Hy2 & Hp2);
      [by eapply slot_in_file_len|slot_lia..|].
    assert (slot_frame s (f_data f) (f_data f2)) by (by etrans).
    assert (script_suffix f f2) by (by etrans).
    destruct r as [[]|e|]; [| |done].
    + rewrite (bind_ok _ _ _ _ _ Hr2).
      apply fsync_post; try done; [congruence|congruence|by rewrite Hp2, Hp1].
    + rewrite (bind_err _ _ _ _ _ Hr2). eexists (Err _), _. split; [done|].
      unfold slot_write_post. split_and!; try done; [congruence|congruence|eauto with store].
Qed.

Lemma read_chunk_header_spec s f :
  slot_in_file s f →
  ∃ r f', read_chunk_header s f = (r, f') ∧ same_content f f' ∧ script_suffix f f' ∧
    match r with
    | Ok h => h = header_at (f_data f) s
    | Err _ => ¬ calm f
    | Panic => False
    end.
Proof.
  intros Hin. pose proof Hin as (?&?&?). unfold read_chunk_header.
  rewrite slot_offset_eq by eauto with store.
  destruct (read_exact_at_spec CHUNK_HEADER_SIZE (s * SLOT_SIZE) f)
    as (r & f' & Hr & Hc & Hs & Hp); [slot_lia..|].
  destruct r as [bs|e|]; [| |done].
  - rewrite (bind_ok _ _ _ _ _ Hr). eexists (Ok _), _. split_and!; [done..|].
    unfold header_at. by destruct Hp as [-> _].
  - rewrite (bind_err _ _ _ _ _ Hr). eexists (Err _), _. split_and!; [done..|].
    intros Hcalm%Hp. slot_lia.
Qed.

Lemma read_chunk_optimized_spec s f :
  slot_in_file s f →
  ∃ r f', read_chunk_optimized s f = (r, f') ∧ same_content f f' ∧ script_suffix f f' ∧
    match r with
    | Ok (h, d) =>
        h = header_at (f_data f) s ∧
        d = (if h_magic h =? MAGIC then data_at (f_data f) s else [])
    | Err _ =>
        calm f → h_magic (header_at (f_data f) s) = MAGIC ∧
                 SLOT_DATA_SIZE < h_data_len (header_at (f_data f) s)
    | Panic => False
    end.
Proof.
  intros Hin. pose proof Hin as (?&?&?).
  destruct (read_chunk_header_spec s f Hin) as (r & f1 & Hr & Hc & Hs & Hp).
  unfold read_chunk_optimized. destruct r as [h|e|]; [| |done].
  2: { rewrite (bind_err _ _ _ _ _ Hr). eexists (Err _), _. by split_and!. }
  rewrite (bind_ok _ _ _ _ _ Hr). subst h.
  pose proof (header_at_ok (f_data f) s) as [_ _ _ Hlen].
  unfold data_at. set (h := header_at (f_data f) s) in *.
  destruct (h_magic h =? MAGIC) eqn:Hm; cbn [negb].
  2: { eexists (Ok (h, [])), f1. split_and!; try done. by rewrite Hm. }
  destruct (Z.ltb_spec 0 (h_data_len h)).
  2: { rewrite (bind_ok _ _ _ [] f1) by done. eexists (Ok (h, [])), f1.
       split_and!; try done. rewrite Hm.
       replace (h_data_len h) with 0 by slot_lia. done. }
  rewrite slot_data_offset_eq by eauto with store.
  destruct (read_exact_at_spec (h_data_len h) (s * SLOT_SIZE + CHUNK_HEADER_SIZE) f1)
    as (r & f' & Hr' & Hc' & Hs' & Hp'); [slot_lia..|].
  destruct Hc as (Hl & Hd & Hy). rewrite <-Hl, <-Hd in Hp'.
  assert (same_content f f') by (etrans; [by split_and!|done]).
  assert (script_suffix f f') by (by etrans).
  destruct r as [bs|e|]; [| |done].
  - rewrite (bind_ok _ _ _ _ _ Hr'). eexists (Ok (h, bs)), _. split_and!; try done.
    rewrite Hm. by destruct Hp'.
  - rewrite (bind_err _ _ _ _ _ Hr'). eexists (Err _), _. split_and!; try done.
    intros Hcalm. assert (calm f1) as Hcalm1%Hp' by eauto with store.
    split; [lia|slot_lia].
Qed.

End slot_io.
