(* ===== verification/ChunkStoreFacts.v ===== *)
(** * ChunkStoreFacts: invariant and refinement of the slot store

    The well-formedness invariant of [ChunkStore], that every operation
    preserves it under every behaviour of the kernel, and the abstract view of
    the store as a finite map from chunk ids to their bytes. *)

From S2P Require Import Prelude.
From S2P Require Import Bytes.
From S2P Require Import PosFile.
From S2P Require Import Crc32.
From S2P Require Import ChunkStore.
From S2P Require Import SlotFacts.
Open Scope Z_scope.

Section facts.
Context `{Crc32}.

(** ** The invariant *)

Definition header_for (id : Z) (data : list byte) : ChunkHeader :=
  header_new id (compute_checksum data) (zlen data).

(** Slot [s] of the image decodes to chunk [id] with contents [data] and its
    checksum. *)
Definition slot_holds (m : gmap Z byte) (s id : Z) (data : list byte) : Prop :=
  zlen data ≤ SLOT_DATA_SIZE ∧ header_at m s = header_for id data ∧ data_at m s = data.

Definition index_ok (m : gmap Z byte) (idx : gmap Z Z) : Prop :=
  ∀ id s, idx !! id = Some s → ∃ data, slot_holds m s id data.

Record cs_wf (st : ChunkStore) : Prop := mkWf {
  wf_total : 0 ≤ cs_total st;
  wf_len : f_len (cs_file st) = cs_total st * SLOT_SIZE;
  wf_fits : cs_total st * SLOT_SIZE ≤ 2 ^ 63;
  wf_free_nodup : NoDup (cs_free st);
  wf_free_range s : s ∈ cs_free st → 0 ≤ s < cs_total st;
  wf_used_range id s : cs_index st !! id = Some s → 0 ≤ s < cs_total st ∧ s ∉ cs_free st;
  wf_used_inj id id' s : cs_index st !! id = Some s → cs_index st !! id' = Some s → id = id';
  wf_data : index_ok (f_data (cs_file st)) (cs_index st);
}.

(** The abstract state: what each stored chunk contains. *)
Definition contents (m : gmap Z byte) (idx : gmap Z Z) : gmap Z (list byte) := data_at m <$> idx.
Definition abs (st : ChunkStore) : gmap Z (list byte) :=
  contents (f_data (cs_file st)) (cs_index st).

(** ** Slots that hold a chunk *)

Lemma header_for_ok id data :
  is_u64 id → zlen data ≤ SLOT_DATA_SIZE → header_ok (header_for id data).
Proof.
  intros Hid Hd. pose proof (zlen_nonneg data). split; cbn; [by vm_compute|done| |slot_lia].
  apply hasher_finalize_u32.
Qed.

Lemma slot_image_holds m s id data :
  is_u64 id → zlen data ≤ SLOT_DATA_SIZE → slot_image m s (header_for id data) data →
  slot_holds m s id data.
Proof.
  intros ?? Hi. assert (header_ok (header_for id data)) by by apply header_for_ok.
  split_and!; [done|by eapply slot_image_header|by eapply slot_image_data].
Qed.

Lemma slot_holds_data m s id data : slot_holds m s id data → data_at m s = data.
Proof. by intros (?&?&?). Qed.

Lemma slot_holds_frame s s' m m' id data :
  slot_frame s m m' → s ≠ s' → slot_holds m s' id data → slot_holds m' s' id data.
Proof.
  intros Hf Hne (Hd & Hh & Hb). rewrite <-(slot_frame_header s s' m m') in Hh by done.
  split_and!; [done..|]. unfold data_at in *. rewrite Hh in *.
  rewrite (slot_frame_header s s' m m') in Hh by done. rewrite Hh in Hb. cbn in *.
  pose proof (zlen_nonneg data).
  rewrite (slot_frame_bytes s m m'); [done..|]. slot_lia.
Qed.

Lemma index_ok_frame s m m' idx :
  slot_frame s m m' → (∀ id, idx !! id ≠ Some s) → index_ok m idx → index_ok m' idx.
Proof.
  intros Hf Hne Hok id s' Hs'. destruct (Hok id s' Hs') as [data Hd]. exists data.
  eapply slot_holds_frame; [done| |done]. intros ->. by eapply Hne.
Qed.

Lemma contents_frame s m m' idx :
  slot_frame s m m' → (∀ id, idx !! id ≠ Some s) → index_ok m idx →
  contents m' idx = contents m idx.
Proof.
  intros Hf Hne Hok. apply map_eq. intros id. unfold contents. rewrite !lookup_fmap.
  destruct (idx !! id) as [s'|] eqn:Hs'; [|done]. simpl. f_equal.
  destruct (Hok id s' Hs') as [data Hd].
  assert (s ≠ s') by (intros ->; by eapply Hne).
  rewrite (slot_holds_data _ _ _ _ Hd). eapply slot_holds_data, slot_holds_frame; done.
Qed.

Lemma abs_lookup st id s data :
  cs_index st !! id = Some s → slot_holds (f_data (cs_file st)) s id data →
  abs st !! id = Some data.
Proof.
  intros Hs Hd. unfold abs, contents. rewrite lookup_fmap, Hs. simpl.
  by rewrite (slot_holds_data _ _ _ _ Hd).
Qed.

Lemma abs_None st id : abs st !! id = None ↔ cs_index st !! id = None.
Proof. unfold abs, contents. rewrite lookup_fmap. by destruct (cs_index st !! id). Qed.

(** ** Pieces of the operations *)

Lemma vec_pop_Some {A} (l : list A) x k : vec_pop l = Some (x, k) ↔ l = k ++ [x].
Proof.
  unfold vec_pop. split.
  - destruct (rev l) as [|y l'] eqn:Hl; [done|]. intros [= -> <-].
    rewrite <-(rev_involutive l), Hl. done.
  - intros ->. rewrite rev_unit. by rewrite rev_involutive.
Qed.
Lemma vec_pop_None {A} (l : list A) : vec_pop l = None ↔ l = [].
Proof.
  unfold vec_pop. destruct (rev l) as [|y k] eqn:Hl; [|split; [done|by intros ->]].
  rewrite <-(rev_involutive l), Hl. done.
Qed.

(** The parts of the store no operation changes. *)
Definition same_config (st st' : ChunkStore) : Prop :=
  cs_total st' = cs_total st ∧ cs_fsync_every st' = cs_fsync_every st ∧
  cs_fsync_on_delete st' = cs_fsync_on_delete st ∧
  f_len (cs_file st') = f_len (cs_file st).

#[export] Instance same_config_preorder : PreOrder same_config.
Proof.
  unfold same_config. split; [done|]. intros x y z (?&?&?&?) (?&?&?&?).
  split_and!; congruence.
Qed.

Lemma wf_slot_in_file st s : cs_wf st → 0 ≤ s < cs_total st → slot_in_file s (cs_file st).
Proof. intros [? Hl Hf _ _ _ _ _] Hs. unfold slot_in_file. rewrite Hl. slot_lia. Qed.

(** The invariant without the file: what [set_file] keeps. *)
Lemma cs_wf_set_file st f :
  cs_wf st → f_len f = f_len (cs_file st) → index_ok (f_data f) (cs_index st) →
  cs_wf (set_file f st).
Proof. intros [] ??. split; simpl; try done. congruence. Qed.

Lemma cs_wf_set_counter st n : cs_wf st → cs_wf (set_counter n st).
Proof. by intros []. Qed.
Lemma cs_wf_set_poisoned st b : cs_wf st → cs_wf (set_poisoned b st).
Proof. by intros []. Qed.

(** [should_fsync_write] touches the counter only. *)
Lemma should_fsync_write_spec st :
  ∃ b n, should_fsync_write st = (Ok b, set_counter n st) ∧
    (cs_fsync_every st = Some 1 → b = true) ∧
    (cs_fsync_every st = None ∨ cs_fsync_every st = Some 0 → b = false).
Proof.
  unfold should_fsync_write. run_st. destruct (cs_fsync_every st) as [n|] eqn:Hn.
  - destruct (0 <? n) eqn:Hpos.
    + eexists _, _. split; [done|]. split.
      * intros [= ->]. by rewrite Z.mod_1_r.
      * intros [|[= ->]]; [done|by vm_compute in Hpos].
    + exists false, (cs_write_counter st). split; [by destruct st|].
      split; [|done]. intros [= ->]. by vm_compute in Hpos.
  - exists false, (cs_write_counter st). split; [by destruct st|]. done.
Qed.

Lemma write_guard_run {A} (m : ST ChunkStore ErrorKind A) st :
  cs_poisoned st = false → write_guard m st = poison_on_panic m st.
Proof. intros Hp. unfold write_guard, lock_index. run_st. by rewrite Hp. Qed.

Lemma on_file_run {A} (m : ST File ErrorKind A) st r f :
  m (cs_file st) = (r, f) → on_file m st = (r, set_file f st).
Proof. intros Hm. unfold on_file, zoom. by rewrite Hm. Qed.

(** The free stack without its top, and the slot that was there. *)
Lemma wf_pop st s rest :
  cs_wf st → cs_free st = rest ++ [s] →
  slot_in_file s (cs_file st) ∧ (∀ id, cs_index st !! id ≠ Some s) ∧ s ∉ rest.
Proof.
  intros Hwf Hfree. assert (s ∈ cs_free st) as Hin by (rewrite Hfree; set_solver).
  split_and!.
  - eapply wf_slot_in_file; [done|by apply wf_free_range].
  - intros id Hid. by destruct (wf_used_range _ Hwf id s Hid) as [_ ?].
  - pose proof (wf_free_nodup _ Hwf) as Hnd. rewrite Hfree in Hnd.
    apply list.NoDup_app in Hnd as (_ & Hd & _). intros Hr. apply (Hd s Hr). set_solver.
Qed.

(** ** put_chunk *)

(** The file changed in one free slot at most, and what is durable is what was, or
    everything written so far. *)
Definition slot_touched (st st' : ChunkStore) : Prop :=
  cs_file st' = cs_file st ∨
  ∃ s, s ∈ cs_free st ∧ slot_frame s (f_data (cs_file st)) (f_data (cs_file st')) ∧
    (f_synced (cs_file st') = f_synced (cs_file st) ∨
     f_synced (cs_file st') = f_data (cs_file st')).

Definition put_post (id : Z) (data : list byte) (st : ChunkStore)
    (r : outcome ErrorKind unit) (st' : ChunkStore) : Prop :=
  cs_wf st' ∧ same_config st st' ∧ script_suffix (cs_file st) (cs_file st') ∧
  slot_touched st st' ∧
  match r with
  | Ok _ =>
      cs_index st !! id = None ∧ zlen data ≤ SLOT_DATA_SIZE ∧ cs_poisoned st' = false ∧
      abs st' = <[id := data]> (abs st) ∧
      (∃ s, cs_free st = cs_free st' ++ [s] ∧ cs_index st' = <[id := s]> (cs_index st) ∧
            slot_frame s (f_data (cs_file st)) (f_data (cs_file st')) ∧
            slot_holds (f_data (cs_file st')) s id data) ∧
      (cs_fsync_every st = Some 1 → f_synced (cs_file st') = f_data (cs_file st'))
  | Err e =>
      abs st' = abs st ∧ cs_index st' = cs_index st ∧ cs_free st' = cs_free st ∧
      cs_poisoned st' = false ∧
      ((e = AlreadyExists ∧ is_Some (cs_index st !! id) ∧ st' = st) ∨
       (e = StorageFull ∧ cs_index st !! id = None ∧ cs_free st = [] ∧ st' = st) ∨
       (cs_index st !! id = None ∧ ¬ calm (cs_file st)))
  | Panic =>
      abs st' = abs st ∧ cs_index st !! id = None ∧ SLOT_DATA_SIZE < zlen data ∧
      cs_poisoned st' = true
  end.

(** The store once chunk [id] has been written to the popped slot [s]. *)
Lemma wf_put_done st s rest id data f n :
  cs_wf st → cs_free st = rest ++ [s] → is_u64 id → cs_index st !! id = None →
  zlen data ≤ SLOT_DATA_SIZE → f_len f = f_len (cs_file st) →
  slot_frame s (f_data (cs_file st)) (f_data f) →
  slot_image (f_data f) s (header_for id data) data →
  let st' := set_index (<[id := s]> (cs_index st)) (set_file f (set_counter n (set_free rest st))) in
  cs_wf st' ∧ abs st' = <[id := data]> (abs st).
Proof.
  intros Hwf Hfree Hid Hnone Hd Hlen Hframe Himg st'.
  destruct (wf_pop _ _ _ Hwf Hfree) as ((Hs0 & Hs1 & _) & Hunused & Hsr).
  assert (slot_holds (f_data f) s id data) as Hholds by by apply slot_image_holds.
  assert (0 ≤ s < cs_total st) as Hsrange.
  { eapply wf_free_range; [done|]. rewrite Hfree. set_solver. }
  pose proof (wf_free_nodup _ Hwf) as Hnd. rewrite Hfree in Hnd.
  pose proof (index_ok_frame _ _ _ _ Hframe Hunused (wf_data _ Hwf)) as Hok.
  split.
  - split; simpl; try apply Hwf.
    + rewrite Hlen. apply Hwf.
    + by apply list.NoDup_app in Hnd as (?&_&_).
    + intros s' Hs'. eapply wf_free_range; [done|]. rewrite Hfree. set_solver.
    + intros id' s' [[<- <-]|[Hne Hs']]%lookup_insert_Some; [done|].
      destruct (wf_used_range _ Hwf _ _ Hs') as [? Hnf]. split; [done|].
      rewrite Hfree in Hnf. set_solver.
    + intros i1 i2 s' [[<- <-]|[? H1]]%lookup_insert_Some
        [[<- Heq]|[? H2]]%lookup_insert_Some; subst; try done.
      * by destruct (Hunused i2).
      * by destruct (Hunused i1).
      * by eapply wf_used_inj.
    + intros i s' [[<- <-]|[? Hi]]%lookup_insert_Some; [by exists data|].
      by apply Hok.
  - unfold abs, contents. simpl. rewrite fmap_insert.
    rewrite (slot_holds_data _ _ _ _ Hholds). f_equal.
    eapply contents_frame; [done..|by apply wf_data].
Qed.

(** The store after a write to the popped slot failed and the slot was given back. *)
Lemma wf_put_failed st s rest f n :
  cs_wf st → cs_free st = rest ++ [s] → f_len f = f_len (cs_file st) →
  slot_frame s (f_data (cs_file st)) (f_data f) →
  let st' := set_free (rest ++ [s]) (set_file f (set_counter n (set_free rest st))) in
  cs_wf st' ∧ abs st' = abs st.
Proof.
  intros Hwf Hfree Hlen Hframe st'.
  destruct (wf_pop _ _ _ Hwf Hfree) as (_ & Hunused & _).
  split.
  - split; simpl; rewrite <-?Hfree; try apply Hwf.
    + rewrite Hlen. apply Hwf.
    + eapply index_ok_frame; [done..|by apply wf_data].
  - unfold abs. simpl. eapply contents_frame; [done..|by apply wf_data].
Qed.

Lemma put_chunk_spec id data st :
  cs_wf st → cs_poisoned st = false → is_u64 id →
  ∃ r st', put_chunk id data st = (r, st') ∧ put_post id data st r st'.
Proof.
  intros Hwf Hp Hid. unfold put_chunk. rewrite write_guard_run by done.
  unfold poison_on_panic. run_st. case_decide as Hin.
  { eexists (Err _), _. split; [done|]. unfold put_post. split_and!; try done; [by left|]. by left. }
  apply eq_None_not_Some in Hin. unfold find_slot. run_st.
  destruct (vec_pop (cs_free st)) as [[s rest]|] eqn:Hpop.
  2: { apply vec_pop_None in Hpop. eexists (Err _), _. split; [done|].
       unfold put_post. split_and!; try done; [by left|]. right; by left. }
  apply vec_pop_Some in Hpop as Hfree.
  destruct (wf_pop _ _ _ Hwf Hfree) as (Hslot & Hunused & Hsr).
  assert (s ∈ cs_free st) as Hsfree by (rewrite Hfree; set_solver).
  destruct (should_fsync_write_spec (set_free rest st)) as (b & n & Hb & Hb1 & _).
  rewrite Hb.
  destruct (decide (zlen data ≤ SLOT_DATA_SIZE)) as [Hd|Hd].
  - rewrite wrap32_id by (pose proof (zlen_nonneg data); slot_lia).
    destruct (write_chunk_at_spec s (header_for id data) data b (cs_file st) Hslot Hd)
      as (r & f & Hr & Hs & Hl & Hf & Hpost).
    unfold header_for in Hr.
    rewrite (on_file_run _ (set_counter n (set_free rest st)) _ _ Hr).
    destruct r as [[]|e|]; [| |done].
    + destruct Hpost as [Himg Hsync].
      destruct (wf_put_done st s rest id data f n) as [Hwf' Habs]; try done.
      eexists (Ok _), _. split; [done|]. unfold put_post.
      split_and!; try done; [right; exists s; simpl; destruct b; auto| |].
      { exists s. split_and!; try done. by apply slot_image_holds. }
      simpl. intros Hev. by rewrite Hb1 in Hsync.
    + destruct Hpost as [Hsync Hcalm].
      destruct (wf_put_failed st s rest f n) as [Hwf' Habs]; try done.
      unfold clear_slot. run_st. simpl.
      rewrite (proj2 (Z.ltb_lt _ _)).
      2: { eapply wf_free_range; [done|]. rewrite Hfree. set_solver. }
      eexists (Err _), _. split; [done|]. unfold put_post.
      split_and!; try done; [right; exists s; simpl; auto|]. right; by right.
  - unfold on_file, zoom, write_chunk_at. run_st.
    rewrite (proj2 (Z.leb_gt _ _)) by (apply Z.lt_nge; lia).
    eexists Panic, _. split; [done|]. unfold put_post.
    split_and!; try done; [|by left|slot_lia].
    split; simpl; try apply Hwf.
    + pose proof (wf_free_nodup _ Hwf) as Hnd. rewrite Hfree in Hnd.
      by apply list.NoDup_app in Hnd as (?&_&_).
    + intros s' Hs'. eapply wf_free_range; [done|]. rewrite Hfree. set_solver.
    + intros id' s' Hs'. destruct (wf_used_range _ Hwf _ _ Hs') as [? Hnf].
      split; [done|]. rewrite Hfree in Hnf. set_solver.
Qed.

(** ** get_chunk *)

Definition get_post (id : Z) (st : ChunkStore) (r : outcome ErrorKind (list byte * Z))
    (st' : ChunkStore) : Prop :=
  (∃ f, st' = set_file f st ∧ same_content (cs_file st) f ∧ script_suffix (cs_file st) f) ∧
  match r with
  | Ok (d, c) => abs st !! id = Some d ∧ c = compute_checksum d
  | Err e => (e = NotFound ∧ abs st !! id = None ∧ st' = st) ∨
             (is_Some (abs st !! id) ∧ ¬ calm (cs_file st))
  | Panic => False
  end.

Lemma set_file_same st : set_file (cs_file st) st = st.
Proof. by destruct st. Qed.

Lemma get_chunk_spec id st :
  cs_wf st → cs_poisoned st = false →
  ∃ r st', get_chunk id st = (r, st') ∧ get_post id st r st'.
Proof.
  intros Hwf Hp. unfold get_chunk, lock_index. run_st. rewrite Hp.
  destruct (cs_index st !! id) as [s|] eqn:Hs.
  2: { eexists (Err _), _. split; [done|]. split; [|left; split_and!; try done; by apply abs_None].
       exists (cs_file st). by rewrite set_file_same. }
  destruct (wf_used_range _ Hwf _ _ Hs) as [Hr _].
  destruct (wf_data _ Hwf _ _ Hs) as [data Hd].
  pose proof (abs_lookup _ _ _ _ Hs Hd) as Habs. destruct Hd as (Hlen & Hh & Hb).
  destruct (read_chunk_optimized_spec s (cs_file st)) as (r & f & Hrun & Hc & Hx & Hpost).
  { by eapply wf_slot_in_file. }
  rewrite (on_file_run _ st _ _ Hrun).
  destruct r as [[h d]|e|]; [| |done].
  - destruct Hpost as [-> ->]. rewrite Hh. cbn. rewrite Hb, Z.eqb_refl. cbn.
    eexists (Ok _), _. split; [done|]. split; [by exists f|]. done.
  - eexists (Err _), _. split; [done|]. split; [by exists f|]. right.
    split; [by rewrite Habs|]. intros Hcalm. destruct (Hpost Hcalm) as [_ Hbig].
    rewrite Hh in Hbig. cbn in Hbig. lia.
Qed.

(** ** delete_chunk *)

Definition zero_header : list byte := replicate (Z.to_nat CHUNK_HEADER_SIZE) x00.

Definition delete_post (id : Z) (st : ChunkStore) (r : outcome ErrorKind unit)
    (st' : ChunkStore) : Prop :=
  cs_wf st' ∧ same_config st st' ∧ script_suffix (cs_file st) (cs_file st') ∧
  cs_poisoned st' = false ∧ abs st' = delete id (abs st) ∧
  match cs_index st !! id with
  | None => r = Ok () ∧ st' = st
  | Some s =>
      cs_index st' = delete id (cs_index st) ∧
      slot_frame s (f_data (cs_file st)) (f_data (cs_file st')) ∧
      match r with
      | Ok _ => cs_free st' = cs_free st ++ [s] ∧
                header_at (f_data (cs_file st')) s = mkHeader 0 0 0 0 ∧
                (cs_fsync_on_delete st → f_synced (cs_file st') = f_data (cs_file st'))
      | Err _ => cs_free st' = cs_free st ∧ ¬ calm (cs_file st)
      | Panic => False
      end
  end.

Lemma wf_delete st id s f free :
  cs_wf st → cs_index st !! id = Some s → f_len f = f_len (cs_file st) →
  slot_frame s (f_data (cs_file st)) (f_data f) →
  free = cs_free st ∨ free = cs_free st ++ [s] →
  let st' := set_free free (set_file f (set_index (delete id (cs_index st)) st)) in
  cs_wf st' ∧ abs st' = delete id (abs st).
Proof.
  intros Hwf Hs Hl Hf Hfree st'. destruct (wf_used_range _ Hwf _ _ Hs) as [Hr Hns].
  assert (index_ok (f_data (cs_file st)) (delete id (cs_index st))) as Hok.
  { intros i s' [? Hi]%lookup_delete_Some. by apply (wf_data _ Hwf). }
  assert (∀ i, delete id (cs_index st) !! i ≠ Some s) as Hunused.
  { intros i [? Hi]%lookup_delete_Some. by pose proof (wf_used_inj _ Hwf _ _ _ Hs Hi). }
  split.
  - split; simpl; try apply Hwf.
    + rewrite Hl. apply Hwf.
    + destruct Hfree as [->| ->]; [apply Hwf|]. apply list.NoDup_app.
      split_and!; [apply Hwf| |apply NoDup_singleton].
      intros x Hx ->%list_elem_of_singleton. done.
    + intros x Hx. destruct Hfree as [->| ->]; [by eapply wf_free_range|].
      apply elem_of_app in Hx as [Hx| ->%list_elem_of_singleton]; [by eapply wf_free_range|done].
    + intros i x [? Hi]%lookup_delete_Some. destruct (wf_used_range _ Hwf _ _ Hi).
      split; [done|]. destruct Hfree as [->| ->]; [done|].
      rewrite elem_of_app, list_elem_of_singleton. intros [?| ->]; [done|].
      by pose proof (wf_used_inj _ Hwf _ _ _ Hs Hi).
    + intros i j x [? Hi]%lookup_delete_Some [? Hj]%lookup_delete_Some.
      by eapply wf_used_inj.
    + by eapply index_ok_frame.
  - unfold abs. simpl. rewrite (contents_frame s (f_data (cs_file st))) by done.
    unfold contents. by rewrite fmap_delete.
Qed.

(** The zeroing of a slot's header, then the optional [sync_data]. *)
Lemma zero_slot_spec s (sync : bool) f :
  slot_in_file s f →
  ∃ r f', (_ ← write_all_at zero_header (slot_offset s);
           if sync then sync_data else mret ()) f = (r, f') ∧
    script_suffix f f' ∧ f_len f' = f_len f ∧ slot_frame s (f_data f) (f_data f') ∧
    match r with
    | Ok _ => header_at (f_data f') s = mkHeader 0 0 0 0 ∧ (sync → f_synced f' = f_data f')
    | Err _ => ¬ calm f
    | Panic => False
    end.
Proof.
  intros Hin. pose proof Hin as (?&?&?). rewrite slot_offset_eq by eauto with store.
  assert (zlen zero_header = CHUNK_HEADER_SIZE) as Hz by by vm_compute.
  destruct (slot_write_spec s (s * SLOT_SIZE) zero_header f) as (r & f1 & Hr & Hs & Hl & Hf & _ & Hp);
    [done|lia|slot_lia|].
  destruct r as [[]|e|]; [| |done].
  2: { rewrite (bind_err _ _ _ _ _ Hr). eexists (Err _), _. by split_and!. }
  rewrite (bind_ok _ _ _ _ _ Hr).
  assert (header_at (f_data f1) s = mkHeader 0 0 0 0) as Hh.
  { unfold header_at. rewrite Hp, <-Hz, bytes_at_store. apply from_bytes_zero. }
  destruct sync; [|by eexists (Ok _), _].
  destruct (sync_data_spec f1) as (r & f2 & Hr2 & Hs2 & Hl2 & Hd2 & Hp2).
  exists r, f2. rewrite Hd2, Hl2. split_and!; [done|by etrans|done|done|].
  destruct r as [[]|e|]; [|destruct Hp2; eauto with store|done].
  split; [done|]. intros _. by rewrite Hp2, Hd2.
Qed.

(** The file part of a deletion, as one computation of the file. *)
Lemma delete_file_part (w : ST File ErrorKind unit) s st :
  (_ ← on_file w; sync ← gets cs_fsync_on_delete;
   _ ← (if sync : bool then on_file sync_data else mret ()); clear_slot s) st =
  (_ ← on_file (_ ← w; if cs_fsync_on_delete st then sync_data else mret ());
   clear_slot s) st.
Proof.
  unfold on_file, zoom. run_st. destruct (w (cs_file st)) as [[[]|e|] f]; [|done..].
  simpl. destruct (cs_fsync_on_delete st); [|done]. destruct (sync_data f) as [r f2] eqn:Hy. cbn. rewrite Hy. by destruct r as [[]| |].
Qed.

Lemma delete_chunk_spec id st :
  cs_wf st → cs_poisoned st = false →
  ∃ r st', delete_chunk id st = (r, st') ∧ delete_post id st r st'.
Proof.
  intros Hwf Hp. unfold delete_chunk. rewrite write_guard_run by done.
  unfold poison_on_panic, delete_post. rewrite (bind_ok _ _ st (cs_index st) st) by done.
  destruct (cs_index st !! id) as [s|] eqn:Hs.
  2: { eexists (Ok _), _. split; [done|]. split_and!; try done.
       symmetry. apply delete_id. by apply abs_None. }
  destruct (wf_used_range _ Hwf _ _ Hs) as [Hr Hns].
  destruct (zero_slot_spec s (cs_fsync_on_delete st) (cs_file st))
    as (r & f & Hrun & Hx & Hl & Hf & Hpost); [by eapply wf_slot_in_file|].
  set (st1 := set_index (delete id (cs_index st)) st).
  rewrite (bind_ok _ _ st () st1) by done. fold zero_header.
  rewrite delete_file_part.
  apply (on_file_run _ st1) in Hrun. destruct r as [[]|e|]; [| |done].
  - rewrite (bind_ok _ _ _ _ _ Hrun).
    destruct (wf_delete st id s f (cs_free st ++ [s])) as [Hwf' Habs]; auto.
    unfold clear_slot. run_st. simpl. rewrite (proj2 (Z.ltb_lt _ _)) by lia.
    eexists (Ok _), _. split; [done|]. by destruct Hpost; split_and!.
  - rewrite (bind_err _ _ _ _ _ Hrun).
    destruct (wf_delete st id s f (cs_free st)) as [Hwf' Habs]; auto.
    eexists (Err _), _. split; [done|]. by split_and!.
Qed.
End facts.
