(* ===== verification/ChunkStoreRecovery.v ===== *)
(** * ChunkStoreRecovery: the recovery scan, restarts and crashes

    What [recover_index] computes from any disk image, that it establishes the
    store's invariant, and what a restart or a crash leaves of the abstract
    contents. *)

From S2P Require Import Prelude.
From S2P Require Import Bytes.
From S2P Require Import PosFile.
From S2P Require Import Crc32.
From S2P Require Import ChunkStore.
From S2P Require Import SlotFacts.
From S2P Require Import ChunkStoreFacts.
Open Scope Z_scope.

Section recovery.
Context `{Crc32}.

(** ** The scan as a function of the image *)

(** The chunk id the scan finds in slot [s], if it accepts the slot. *)
Definition slot_entry (fast : bool) (m : gmap Z byte) (s : Z) : option Z :=
  let h := header_at m s in
  if (h_magic h =? MAGIC) && (h_data_len h <=? SLOT_DATA_SIZE) &&
     (fast || (h_checksum h =? compute_checksum (data_at m s)))
  then Some (h_id h) else None.

Definition add_slot (fast : bool) (m : gmap Z byte) (idx : gmap Z Z) (s : Z) : gmap Z Z :=
  match slot_entry fast m s with Some id => <[id := s]> idx | None => idx end.

(** A later slot replaces an earlier one with the same id ([HashMap::insert]). *)
Definition recovered_index (fast : bool) (m : gmap Z byte) (slots : list Z) : gmap Z Z :=
  foldl (add_slot fast m) ∅ slots.

Definition recovered_free (fast : bool) (m : gmap Z byte) (slots : list Z) : list Z :=
  filter (λ s, slot_entry fast m s = None) slots.

#[local] Arguments recovered_free : simpl never.

Definition with_parts (f : File) (idx : gmap Z Z) (free : list Z) (st : ChunkStore) :=
  set_free free (set_index idx (set_file f st)).

Lemma recover_slot_spec fast i st :
  slot_in_file i (cs_file st) →
  ∃ r st', recover_slot fast i st = (r, st') ∧
    same_content (cs_file st) (cs_file st') ∧ script_suffix (cs_file st) (cs_file st') ∧
    match r with
    | Ok _ =>
        let m := f_data (cs_file st) in
        st' = with_parts (cs_file st') (add_slot fast m (cs_index st) i)
                (cs_free st ++ recovered_free fast m [i]) st
    | Err _ => ¬ calm (cs_file st)
    | Panic => False
    end.
Proof.
  intros Hin. unfold recover_slot, recovered_free, add_slot.
  destruct (read_chunk_header_spec i (cs_file st) Hin) as (r & f1 & Hr & Hc & Hs & Hp).
  apply (on_file_run _ st) in Hr.
  destruct r as [h0|e|]; [rewrite (bind_ok _ _ _ _ _ Hr); subst h0
                        |rewrite (bind_err _ _ _ _ _ Hr); by eexists (Err _), _|done].
  rewrite filter_cons, filter_nil. unfold slot_entry.
  set (m := f_data (cs_file st)) in *. set (h := header_at m i) in *.
  destruct (h_magic h =? MAGIC) eqn:Hm; cbn [andb]; [|by eexists (Ok _), _].
  rewrite Z.ltb_antisym. destruct (Z.leb_spec (h_data_len h) SLOT_DATA_SIZE) as [Hl|Hl];
    cbn [negb andb]; [|by eexists (Ok _), _].
  destruct fast; cbn [orb].
  { eexists (Ok _), _. split_and!; [done..|]. simpl. by rewrite app_nil_r. }
  destruct (read_chunk_optimized_spec i f1) as (r & f2 & Hr2 & Hc2 & Hs2 & Hp2).
  { destruct Hc as (?&?&?). by eapply slot_in_file_len. }
  apply (on_file_run _ (set_file f1 st)) in Hr2.
  assert (same_content (cs_file st) f2) by by etrans.
  assert (script_suffix (cs_file st) f2) by by etrans.
  assert (f_data f1 = m) as Hfm by (symmetry; apply Hc). rewrite Hfm in Hp2.
  destruct r as [[h' d]|e|]; [rewrite (bind_ok _ _ _ _ _ Hr2)
                             |rewrite (bind_err _ _ _ _ _ Hr2)|done].
  - destruct Hp2 as [-> ->]. fold h. rewrite Hm.
    destruct (h_checksum h =? compute_checksum (data_at m i)) eqn:Hck; cbn [negb].
    all: eexists (Ok _), _; split_and!; [done..|]; simpl; by rewrite ?app_nil_r.
  - eexists (Err _), _. split_and!; [done..|]. intros Hcalm.
    assert (calm f1) as Hcalm1 by eauto with store.
    destruct (Hp2 Hcalm1) as [_ ?]. subst h. lia.
Qed.

Lemma recovered_free_app fast m l k :
  recovered_free fast m (l ++ k) = recovered_free fast m l ++ recovered_free fast m k.
Proof. apply list.filter_app. Qed.

Lemma recover_slots_spec fast slots st :
  (∀ i, i ∈ slots → slot_in_file i (cs_file st)) →
  ∃ r st', recover_slots fast slots st = (r, st') ∧
    same_content (cs_file st) (cs_file st') ∧ script_suffix (cs_file st) (cs_file st') ∧
    match r with
    | Ok _ =>
        let m := f_data (cs_file st) in
        st' = with_parts (cs_file st') (foldl (add_slot fast m) (cs_index st) slots)
                (cs_free st ++ recovered_free fast m slots) st
    | Err _ => ¬ calm (cs_file st)
    | Panic => False
    end.
Proof.
  revert st. induction slots as [|i slots IH]; intros st Hin; cbn [recover_slots foldl].
  { exists (Ok ()), st. split_and!; [done..|]. cbn.
    rewrite app_nil_r. by destruct st. }
  destruct (recover_slot_spec fast i st) as (r & st1 & Hr & Hc & Hs & Hp); [set_solver|].
  destruct r as [[]|e|]; [rewrite (bind_ok _ _ _ _ _ Hr)
                         |rewrite (bind_err _ _ _ _ _ Hr); by eexists (Err _), _|done].
  destruct (IH st1) as (r & st2 & Hr2 & Hc2 & Hs2 & Hp2).
  { intros j Hj. destruct Hc as (?&_). eapply slot_in_file_len, Hin; [done|set_solver]. }
  assert (f_data (cs_file st1) = f_data (cs_file st)) as Hm by (symmetry; apply Hc).
  exists r, st2. split_and!; [done|by etrans|by etrans|].
  destruct r as [[]|e|]; [|eauto with store|done].
  rewrite Hm in Hp2. rewrite Hp2. clear Hp2. rewrite Hp. cbn.
  change (i :: slots) with ([i] ++ slots). by rewrite recovered_free_app, app_assoc.
Qed.

(** The index and the free stack after a scan of [n] slots. *)
Lemma recover_index_spec fast n st :
  0 ≤ n → f_len (cs_file st) = n * SLOT_SIZE → n * SLOT_SIZE ≤ 2 ^ 63 →
  cs_poisoned st = false →
  ∃ r st', recover_index fast st = (r, st') ∧
    same_content (cs_file st) (cs_file st') ∧ script_suffix (cs_file st) (cs_file st') ∧
    match r with
    | Ok _ =>
        let m := f_data (cs_file st) in
        st' = with_parts (cs_file st') (recovered_index fast m (seqZ 0 n))
                (recovered_free fast m (seqZ 0 n)) st
    | Err _ => ¬ calm (cs_file st)
    | Panic => False
    end.
Proof.
  intros Hn Hlen Hfit Hpo. unfold recover_index, file_len.
  destruct (next_answer_spec (cs_file st)) as (r & f & Hr & Hc & Hs & Hp).
  unfold on_file at 1, zoom. run_st. rewrite Hr.
  destruct r as [lim|e|]; [|destruct Hp; by eexists (Err _), _|done].
  assert (f_len f / SLOT_SIZE = n) as ->.
  { destruct Hc as (<-&_). rewrite Hlen. apply Z.div_mul. by vm_compute. }
  rewrite write_guard_run by done. unfold poison_on_panic. simpl.
  destruct (recover_slots_spec fast (seqZ 0 n) (with_parts f ∅ [] st))
    as (r & st' & Hr' & Hc' & Hs' & Hp').
  { intros i Hi%elem_of_seqZ. simpl. unfold slot_in_file.
    destruct Hc as (<-&_). rewrite Hlen. slot_lia. }
  unfold with_parts in Hr' at 1. cbn in Hr'. rewrite Hr'.
  exists r, st'. assert (f_data f = f_data (cs_file st)) as Hm by (symmetry; apply Hc).
  destruct r as [[]|e|]; [| |done].
  - split_and!; [done|by etrans|by etrans|]. rewrite Hp'. cbn. by rewrite Hm.
  - split_and!; [done|by etrans|by etrans|]. eauto with store.
Qed.

(** ** Facts of the recovered index *)

Lemma foldl_add_slot_lookup fast m slots acc id s :
  foldl (add_slot fast m) acc slots !! id = Some s →
  acc !! id = Some s ∨ (s ∈ slots ∧ slot_entry fast m s = Some id).
Proof.
  revert acc. induction slots as [|i slots IH]; intros acc Hl; simpl in Hl; [by left|].
  apply IH in Hl as [Hl|[Hin He]]; [|right; set_solver].
  unfold add_slot in Hl. destruct (slot_entry fast m i) as [id'|] eqn:He; [|by left].
  apply lookup_insert_Some in Hl as [[-> ->]|[_ ?]]; [right; set_solver|by left].
Qed.

Lemma recovered_index_lookup fast m slots id s :
  recovered_index fast m slots !! id = Some s → s ∈ slots ∧ slot_entry fast m s = Some id.
Proof.
  unfold recovered_index. intros Hl. apply foldl_add_slot_lookup in Hl as [Hl|?]; [|done].
  by rewrite lookup_empty in Hl.
Qed.

Lemma recovered_index_snoc fast m slots s :
  recovered_index fast m (slots ++ [s]) = add_slot fast m (recovered_index fast m slots) s.
Proof. unfold recovered_index. by rewrite foldl_app. Qed.

(** A chunk that some slot holds is found. *)
Lemma recovered_index_complete fast m slots id s :
  s ∈ slots → slot_entry fast m s = Some id →
  ∃ s', recovered_index fast m slots !! id = Some s'.
Proof.
  induction slots as [|i slots IH] using rev_ind; [set_solver|].
  intros Hin He. rewrite recovered_index_snoc. unfold add_slot.
  destruct (decide (slot_entry fast m i = Some id)) as [Hi|Hi].
  { rewrite Hi, lookup_insert_eq. by exists i. }
  destruct IH as [s' Hs']; [set_solver|done|].
  destruct (slot_entry fast m i) as [id'|] eqn:Hi'; [|by exists s'].
  exists s'. rewrite lookup_insert_ne; [done|congruence].
Qed.

Lemma recovered_index_unique fast m slots id s :
  s ∈ slots → slot_entry fast m s = Some id →
  (∀ s', s' ∈ slots → slot_entry fast m s' = Some id → s' = s) →
  recovered_index fast m slots !! id = Some s.
Proof.
  intros Hin He Hu. destruct (recovered_index_complete _ _ _ _ _ Hin He) as [s' Hs'].
  rewrite Hs'. f_equal. apply recovered_index_lookup in Hs' as []. by apply Hu.
Qed.

Lemma elem_of_recovered_free fast m slots s :
  s ∈ recovered_free fast m slots ↔ slot_entry fast m s = None ∧ s ∈ slots.
Proof. unfold recovered_free. by rewrite list_elem_of_filter. Qed.

(** A slot that passes the checked scan holds the chunk it names. *)
Lemma slot_entry_holds m s id :
  slot_entry false m s = Some id → slot_holds m s id (data_at m s).
Proof.
  unfold slot_entry. pose proof (header_at_ok m s) as [_ _ _ Hl].
  assert (zlen (data_at m s) = h_data_len (header_at m s)) as Hz.
  { unfold data_at. apply zlen_bytes_at. slot_lia. }
  destruct (header_at m s) as [mg i ck dl] eqn:Hh. cbn in *.
  destruct (Z.eqb_spec mg MAGIC); [|done]. destruct (Z.leb_spec dl SLOT_DATA_SIZE); [|done].
  destruct (Z.eqb_spec ck (compute_checksum (data_at m s))); [|done].
  cbn. intros [= ->]. unfold slot_holds, header_for, header_new. rewrite Hz, Hh.
  split_and!; [lia|congruence|done].
Qed.

Lemma slot_holds_entry fast m s id data :
  slot_holds m s id data → slot_entry fast m s = Some id.
Proof.
  intros (Hd & Hh & Hb). unfold slot_entry. rewrite Hb, Hh. cbn.
  rewrite (proj2 (Z.leb_le _ _) Hd), Z.eqb_refl. cbn. by destruct fast.
Qed.

(** The scan that checks the checksums restores the invariant from any image. *)
Lemma recover_index_wf n st st' :
  0 ≤ n → cs_total st = n → f_len (cs_file st) = n * SLOT_SIZE → n * SLOT_SIZE ≤ 2 ^ 63 →
  cs_poisoned st = false →
  recover_index false st = (Ok (), st') → cs_wf st'.
Proof.
  intros Hn Ht Hlen Hfit Hpo Hrun.
  destruct (recover_index_spec false n st) as (r & st1 & Hr & Hc & _ & Hp); [done..|].
  rewrite Hrun in Hr. injection Hr as <- <-. destruct Hc as (Hl & Hd & _).
  rewrite Hp. rewrite Hp in Hl, Hd. cbn in *. split; cbn.
  - lia.
  - congruence.
  - by rewrite Ht.
  - apply list.NoDup_filter, NoDup_seqZ.
  - intros s [_ Hs%elem_of_seqZ]%elem_of_recovered_free. lia.
  - intros id s [Hs He]%recovered_index_lookup. apply elem_of_seqZ in Hs.
    split; [lia|]. intros [? _]%elem_of_recovered_free. congruence.
  - intros i j s [_ Hi]%recovered_index_lookup [_ Hj]%recovered_index_lookup. congruence.
  - intros id s [_ He]%recovered_index_lookup. rewrite <-Hd.
    eexists. by apply slot_entry_holds.
Qed.

(** ** Clean stores *)

(** Every slot is free and unmarked on the disk, or holds an indexed chunk. What
    runs without I/O errors keeps this; a failed write or delete may not. *)
Record clean (st : ChunkStore) : Prop := mkClean {
  cl_free s : s ∈ cs_free st → slot_entry true (f_data (cs_file st)) s = None;
  cl_all s : 0 ≤ s < cs_total st → s ∈ cs_free st ∨ ∃ id, cs_index st !! id = Some s;
}.

Lemma slot_entry_false_None m s : slot_entry true m s = None → slot_entry false m s = None.
Proof.
  unfold slot_entry. by destruct (h_magic _ =? _), (_ <=? _).
Qed.

Lemma clean_free_None st fast s :
  clean st → s ∈ cs_free st → slot_entry fast (f_data (cs_file st)) s = None.
Proof. intros Hcl Hs%(cl_free _ Hcl). destruct fast; [done|by apply slot_entry_false_None]. Qed.

Lemma wf_entry st fast id s :
  cs_wf st → cs_index st !! id = Some s →
  slot_entry fast (f_data (cs_file st)) s = Some id.
Proof. intros Hwf Hs. destruct (wf_data _ Hwf _ _ Hs). by eapply slot_holds_entry. Qed.

(** Two images that agree on the slots. *)
Definition same_slots (n : Z) (m m' : gmap Z byte) : Prop :=
  ∀ o, 0 ≤ o < n * SLOT_SIZE → m !! o = m' !! o.

#[export] Instance same_slots_equiv n : Equivalence (same_slots n).
Proof.
  unfold same_slots. split; [by intros m|intros m m' Hm o ?; by rewrite Hm|].
  intros x y z H1 H2 o ?. by rewrite H1, H2.
Qed.

Lemma same_slots_header n m m' s :
  same_slots n m m' → 0 ≤ s < n → header_at m s = header_at m' s.
Proof.
  intros Hm Hs. unfold header_at. f_equal. apply bytes_at_ext. intros o Ho. apply Hm. slot_lia.
Qed.

Lemma same_slots_data n m m' s :
  same_slots n m m' → 0 ≤ s < n → h_data_len (header_at m s) ≤ SLOT_DATA_SIZE →
  data_at m s = data_at m' s.
Proof.
  intros Hm Hs Hl. unfold data_at. rewrite <-(same_slots_header n m m' s) by done.
  apply bytes_at_ext. intros o Ho. apply Hm. slot_lia.
Qed.

Lemma same_slots_entry n fast m m' s :
  same_slots n m m' → 0 ≤ s < n → slot_entry fast m s = slot_entry fast m' s.
Proof.
  intros Hm Hs. unfold slot_entry. rewrite <-(same_slots_header n m m' s) by done.
  destruct (Z.leb_spec (h_data_len (header_at m s)) SLOT_DATA_SIZE).
  - by rewrite (same_slots_data n m m' s).
  - by destruct (_ =? MAGIC).
Qed.

(** A clean store stays one when its file keeps its slots and its free list is reordered. *)
Lemma wf_same_slots st st2 :
  cs_wf st → clean st → cs_index st2 = cs_index st → cs_free st2 ≡ₚ cs_free st →
  cs_total st2 = cs_total st → f_len (cs_file st2) = cs_total st * SLOT_SIZE →
  same_slots (cs_total st) (f_data (cs_file st)) (f_data (cs_file st2)) →
  cs_wf st2 ∧ clean st2.
Proof.
  intros Hwf Hcl Hi Hf Ht Hl Hm.
  assert (∀ s, s ∈ cs_free st2 ↔ s ∈ cs_free st) as Hin by (intros s; by rewrite Hf).
  split.
  - destruct Hwf as [W1 W2 W3 W4 W5 W6 W7 W8].
    split; rewrite ?Hi, ?Ht; [done|done|done| |by intros s ?%Hin; apply W5| |done|].
    + by rewrite Hf.
    + intros id s Hs. rewrite Hin. by apply (W6 id).
    + intros id s Hs. destruct (W6 _ _ Hs) as [Hr _]. destruct (W8 _ _ Hs) as (data & Hd & Hh & Hb).
      pose proof (same_slots_header _ _ _ s Hm Hr) as Hh'.
      assert (data_at (f_data (cs_file st)) s = data_at (f_data (cs_file st2)) s) as Hd'.
      { apply (same_slots_data _ _ _ _ Hm Hr). rewrite Hh. exact Hd. }
      exists data. unfold slot_holds. by rewrite <- Hd', <- Hh'.
  - destruct Hcl as [C1 C2]. split.
    + intros s Hs. apply Hin in Hs. rewrite <- (same_slots_entry _ true _ _ s Hm); [by apply C1|].
      by apply Hwf.
    + intros s Hs. rewrite Hi, Hin. apply C2. by rewrite <- Ht.
Qed.

(** The scan of a clean store's image rebuilds its index. *)
Lemma recovered_clean st fast m :
  cs_wf st → clean st → same_slots (cs_total st) (f_data (cs_file st)) m →
  recovered_index fast m (seqZ 0 (cs_total st)) = cs_index st ∧
  recovered_free fast m (seqZ 0 (cs_total st)) ≡ₚ cs_free st ∧
  contents m (cs_index st) = abs st.
Proof.
  intros Hwf Hcl Hm.
  assert (∀ s id, 0 ≤ s < cs_total st →
    slot_entry fast m s = Some id → cs_index st !! id = Some s) as Hback.
  { intros s id Hs He. rewrite <-(same_slots_entry _ _ _ _ _ Hm Hs) in He.
    destruct (cl_all _ Hcl _ Hs) as [Hf|[id' Hi]].
    - by rewrite (clean_free_None _ _ _ Hcl Hf) in He.
    - pose proof (wf_entry _ fast _ _ Hwf Hi). congruence. }
  assert (∀ s id, cs_index st !! id = Some s →
    0 ≤ s < cs_total st ∧ slot_entry fast m s = Some id) as Hforth.
  { intros s id Hi. destruct (wf_used_range _ Hwf _ _ Hi) as [Hs _]. split; [done|].
    rewrite <-(same_slots_entry _ _ _ _ _ Hm Hs). by apply wf_entry. }
  split_and!.
  - apply map_eq. intros id. destruct (cs_index st !! id) as [s|] eqn:Hi.
    + destruct (Hforth _ _ Hi) as [Hs He]. apply recovered_index_unique; [|done|].
      * apply elem_of_seqZ. lia.
      * intros s' Hs'%elem_of_seqZ He'. apply Hback in He'; [congruence|lia].
    + destruct (recovered_index _ _ _ !! id) as [s|] eqn:Hr; [|done].
      apply recovered_index_lookup in Hr as [Hs%elem_of_seqZ He].
      apply Hback in He; [congruence|lia].
  - apply NoDup_Permutation; [apply list.NoDup_filter, NoDup_seqZ|apply Hwf|].
    intros s. rewrite elem_of_recovered_free, elem_of_seqZ. split.
    + intros [He Hs]. destruct (cl_all _ Hcl s) as [|[id Hi]]; [lia|done|].
      apply Hforth in Hi as []. congruence.
    + intros Hs. pose proof (wf_free_range _ Hwf _ Hs). split; [|lia].
      rewrite <-(same_slots_entry _ _ _ _ _ Hm) by done. by apply clean_free_None.
  - unfold abs, contents. apply map_fmap_ext. intros id s Hi.
    destruct (wf_used_range _ Hwf _ _ Hi) as [Hs _]. symmetry. eapply same_slots_data; [done..|].
    destruct (wf_data _ Hwf _ _ Hi) as [data (Hd & Hh & _)]. by rewrite Hh.
Qed.

(** ** Opening the file *)

Lemma filter_same_slots n (m : gmap Z byte) :
  same_slots n m (filter (λ kv, kv.1 < n * SLOT_SIZE) m).
Proof.
  intros o Ho. destruct (m !! o) as [b|] eqn:Hb; symmetry.
  - apply map_lookup_filter_Some. split; [done|]. simpl. lia.
  - apply map_lookup_filter_None. by left.
Qed.

Definition opened (n : Z) (options : ChunkStoreOptions) (f : File) : ChunkStore :=
  mkStore f ∅ (seqZ 0 n) n (fsync_every_n_writes options) (fsync_on_delete options) 0 false.

Lemma open_spec n options f :
  0 ≤ n → n * SLOT_SIZE ≤ 2 ^ 63 →
  ∃ r f', open (Some n) options f = (r, f') ∧ script_suffix f f' ∧
    match r with
    | Ok st => st = opened n options f' ∧ f_len f' = n * SLOT_SIZE ∧
               same_slots n (f_data f) (f_data f')
    | Err _ => ¬ calm f
    | Panic => False
    end.
Proof.
  intros Hn Hfit. unfold open, set_len. cbn [default from_option id].
  replace (wrap64 (SLOT_SIZE * n)) with (n * SLOT_SIZE)
    by (rewrite Z.mul_comm; symmetry; apply wrap64_id; slot_lia).
  destruct (next_answer_spec f) as (r & f1 & Hr & Hc & Hs & Hp).
  destruct r as [lim|e|]; [|rewrite (bind_err _ _ _ _ _ Hr); destruct Hp; by eexists (Err _), _|done].
  rewrite (bind_ok _ _ _ _ _ Hr).
  destruct (next_answer_spec f1) as (r & f2 & Hr2 & Hc2 & Hs2 & Hp2).
  assert (script_suffix f f2) by by etrans.
  destruct r as [lim2|e|]; [rewrite (bind_ok _ _ _ _ _ Hr2)|rewrite (bind_err _ _ _ _ _ Hr2)|done].
  - eexists (Ok _), _. split_and!; [done|done|done|done|].
    destruct Hc as (_ & -> & _), Hc2 as (_ & -> & _). apply filter_same_slots.
  - eexists (Err _), _. split_and!; [done|done|]. destruct Hp2. eauto with store.
Qed.

End recovery.
