(* ===== verification/ChunkStoreSpec.v ===== *)
(** * ChunkStoreSpec: what the slot store promises

    The abstract store is a finite map with a capacity. The theorems: the slot
    store refines it over any sequence of operations, keeps its invariant under
    every behaviour of the kernel, and recovers its contents after a restart and
    after a crash; and what an oversized chunk or a failed [sync_data] does. *)

From S2P Require Import Prelude.
From S2P Require Import Bytes.
From S2P Require Import PosFile.
From S2P Require Import Crc32.
From S2P Require Import ChunkStore.
From S2P Require Import SlotFacts.
From S2P Require Import ChunkStoreFacts.
From S2P Require Import ChunkStoreRecovery.
Open Scope Z_scope.

(** ** The abstract store *)

Inductive op :=
  | OpPut (id : Z) (data : list byte)
  | OpGet (id : Z)
  | OpDelete (id : Z).

Inductive reply :=
  | RDone
  | RChunk (data : list byte) (checksum : Z).

Section spec.
Context `{Crc32}.

Definition spec_op (cap : Z) (o : op) (m : gmap Z (list byte)) :
    outcome ErrorKind reply * gmap Z (list byte) :=
  match o with
  | OpPut id data =>
      if decide (is_Some (m !! id)) then (Err AlreadyExists, m)
      else if cap <=? Z.of_nat (size m) then (Err StorageFull, m)
      else (Ok RDone, <[id := data]> m)
  | OpGet id =>
      match m !! id with
      | Some data => (Ok (RChunk data (compute_checksum data)), m)
      | None => (Err NotFound, m)
      end
  | OpDelete id => (Ok RDone, delete id m)
  end.

(** The same operations on the slot store. *)
Definition run_op (o : op) : ST ChunkStore ErrorKind reply :=
  match o with
  | OpPut id data => _ ← put_chunk id data; mret RDone
  | OpGet id => '(data, checksum) ← get_chunk id; mret (RChunk data checksum)
  | OpDelete id => _ ← delete_chunk id; mret RDone
  end.

(** A sequence of requests: a failed one does not stop the next. *)
Fixpoint run_all {S} (step : op → S → outcome ErrorKind reply * S) (ops : list op) (s : S) :
    list (outcome ErrorKind reply) * S :=
  match ops with
  | [] => ([], s)
  | o :: ops =>
      let '(r, s) := step o s in
      let '(rs, s) := run_all step ops s in
      (r :: rs, s)
  end.

Definition valid_op (o : op) : Prop :=
  match o with OpPut id data => is_u64 id ∧ zlen data ≤ SLOT_DATA_SIZE | _ => True end.

(** A store in normal service. *)
Record good (st : ChunkStore) : Prop := mkGood {
  g_wf : cs_wf st;
  g_clean : clean st;
  g_calm : calm (cs_file st);
  g_lock : cs_poisoned st = false;
}.

(** Everything written is durable. *)
Definition durable (st : ChunkStore) : Prop := f_synced (cs_file st) = f_data (cs_file st).
Definition sync_always (st : ChunkStore) : Prop :=
  cs_fsync_every st = Some 1 ∧ cs_fsync_on_delete st = true.

(** ** Capacity *)

Lemma elem_of_used (idx : gmap Z Z) s :
  s ∈ (map_to_list idx).*2 ↔ ∃ id, idx !! id = Some s.
Proof.
  rewrite list_elem_of_fmap. split.
  - intros ([id s'] & -> & Hin%elem_of_map_to_list). by exists id.
  - intros [id Hid]. exists (id, s). by rewrite elem_of_map_to_list.
Qed.

Lemma NoDup_used (idx : gmap Z Z) :
  (∀ i j s, idx !! i = Some s → idx !! j = Some s → i = j) → NoDup (map_to_list idx).*2.
Proof.
  intros Hinj. apply NoDup_fmap_2_strong; [|apply NoDup_map_to_list].
  intros [i s] [j s'] Hi%elem_of_map_to_list Hj%elem_of_map_to_list. simpl. intros ->.
  f_equal. by eapply Hinj.
Qed.

(** The used and the free slots are all the slots, each once. *)
Lemma clean_slots st :
  cs_wf st → clean st →
  (map_to_list (cs_index st)).*2 ++ cs_free st ≡ₚ seqZ 0 (cs_total st).
Proof.
  intros Hwf Hcl. apply NoDup_Permutation; [|apply NoDup_seqZ|].
  - apply list.NoDup_app. split_and!; [|intros s [id Hs]%elem_of_used|apply Hwf].
    + apply NoDup_used. intros i j s. by apply wf_used_inj.
    + by apply (wf_used_range _ Hwf id s).
  - intros s. rewrite elem_of_app, elem_of_used, elem_of_seqZ, Z.add_0_l. split.
    + intros [[id Hs]|Hs]; [by apply (wf_used_range _ Hwf id s)|by apply wf_free_range].
    + intros Hs. destruct (cl_all _ Hcl s Hs); auto.
Qed.

Lemma clean_capacity st :
  cs_wf st → clean st → Z.of_nat (size (abs st)) + zlen (cs_free st) = cs_total st.
Proof.
  intros Hwf Hcl. unfold abs, contents. rewrite map_size_fmap.
  pose proof (Permutation_length (clean_slots st Hwf Hcl)) as Hlen.
  rewrite length_app, length_fmap, length_map_to_list, length_seqZ in Hlen.
  pose proof (wf_total _ Hwf). unfold zlen. lia.
Qed.

Lemma free_nil_full st :
  cs_wf st → clean st → (cs_total st <=? Z.of_nat (size (abs st))) = bool_decide (cs_free st = []).
Proof.
  intros Hwf Hcl. pose proof (clean_capacity st Hwf Hcl) as Hcap.
  case_bool_decide as Hf.
  - rewrite Hf, zlen_nil in Hcap. apply Z.leb_le. lia.
  - pose proof (zlen_pos _ Hf). apply Z.leb_gt. lia.
Qed.

(** ** One operation *)

Lemma slot_frame_entry fast s s' m m' :
  slot_frame s m m' → 0 ≤ s' → s ≠ s' → slot_entry fast m' s' = slot_entry fast m s'.
Proof.
  intros Hf Hs' Hne. unfold slot_entry. rewrite (slot_frame_header s s' m m') by done.
  destruct (Z.leb_spec (h_data_len (header_at m s')) SLOT_DATA_SIZE); [|by destruct (_ =? MAGIC)].
  pose proof (header_at_ok m s') as [_ _ _ ?].
  unfold data_at. rewrite (slot_frame_header s s' m m') by done.
  by rewrite (slot_frame_bytes s m m') by (done || slot_lia).
Qed.

Lemma is_Some_abs st id : is_Some (abs st !! id) ↔ is_Some (cs_index st !! id).
Proof. rewrite <-!not_eq_None_Some. by rewrite abs_None. Qed.

Lemma clean_put st st' s id :
  cs_wf st → clean st → cs_total st' = cs_total st →
  cs_free st = cs_free st' ++ [s] → cs_index st' = <[id := s]> (cs_index st) →
  cs_index st !! id = None →
  slot_frame s (f_data (cs_file st)) (f_data (cs_file st')) → clean st'.
Proof.
  intros Hwf Hcl Ht Hfree Hidx Hnone Hf. destruct (wf_pop _ _ _ Hwf Hfree) as (_ & Hun & Hns).
  split.
  - intros x Hx. assert (x ∈ cs_free st) as Hx' by (rewrite Hfree; set_solver).
    rewrite (slot_frame_entry _ s) with (m := f_data (cs_file st)); [by apply Hcl|done| |].
    + by apply (wf_free_range _ Hwf).
    + by intros ->.
  - rewrite Ht, Hidx. intros x Hx. destruct (cl_all _ Hcl x Hx) as [Hin|[i Hi]].
    + rewrite Hfree in Hin. apply elem_of_app in Hin as [?| ->%list_elem_of_singleton]; [by left|].
      right. exists id. by rewrite lookup_insert_eq.
    + right. exists i. rewrite lookup_insert_ne; [done|congruence].
Qed.

Lemma clean_delete st st' s id :
  cs_wf st → clean st → cs_total st' = cs_total st → cs_index st !! id = Some s →
  cs_free st' = cs_free st ++ [s] → cs_index st' = delete id (cs_index st) →
  header_at (f_data (cs_file st')) s = mkHeader 0 0 0 0 →
  slot_frame s (f_data (cs_file st)) (f_data (cs_file st')) → clean st'.
Proof.
  intros Hwf Hcl Ht Hs Hfree Hidx Hh Hf. destruct (wf_used_range _ Hwf _ _ Hs) as [? Hns].
  split.
  - rewrite Hfree. intros x [Hx| ->%list_elem_of_singleton]%elem_of_app.
    + rewrite (slot_frame_entry _ s) with (m := f_data (cs_file st)); [by apply Hcl|done| |].
      * by apply (wf_free_range _ Hwf).
      * by intros ->.
    + unfold slot_entry. by rewrite Hh.
  - rewrite Ht, Hidx, Hfree. intros x Hx. destruct (decide (x = s)) as [->|Hne].
    { left. apply elem_of_app. right. by apply list_elem_of_singleton. }
    destruct (cl_all _ Hcl x Hx) as [Hin|[i Hi]]; [left; set_solver|].
    right. exists i. rewrite lookup_delete_ne; [done|congruence].
Qed.

Definition op_post (o : op) (st : ChunkStore) (r : outcome ErrorKind reply)
    (st' : ChunkStore) : Prop :=
  spec_op (cs_total st) o (abs st) = (r, abs st') ∧ good st' ∧ same_config st st' ∧
  (sync_always st → durable st → durable st').

Lemma run_put_spec id data st :
  good st → is_u64 id → zlen data ≤ SLOT_DATA_SIZE →
  ∃ r st', run_op (OpPut id data) st = (r, st') ∧ op_post (OpPut id data) st r st'.
Proof.
  intros [Hwf Hcl Hcalm Hlock] Hid Hd. unfold op_post. simpl.
  destruct (put_chunk_spec id data st Hwf Hlock Hid)
    as (r & st' & Hr & Hwf' & Hcfg & Hsuf & _ & Hp).
  destruct r as [[]|e|]; [| |lia].
  - rewrite (bind_ok _ _ _ _ _ Hr). destruct Hp as (Hn & _ & Hl & Habs & (s & Hfree & Hidx & Hf & _) & Hsync).
    eexists (Ok _), _. split; [done|]. rewrite decide_False.
    2: { rewrite is_Some_abs, Hn. by intros []. }
    rewrite free_nil_full, bool_decide_eq_false_2, Habs by (done || rewrite Hfree; by destruct (cs_free st')).
    split_and!; [done| |done|intros [? _] _; by apply Hsync].
    split; [done| |by eapply calm_suffix|done]. apply (clean_put st st' s id); try done. apply Hcfg.
  - rewrite (bind_err _ _ _ _ _ Hr).
    destruct Hp as (_ & _ & _ & _ & [(-> & His & ->)|[(-> & Hn & Hfree & ->)|[_ ?]]]); [| |done].
    + eexists (Err _), _. split; [done|]. rewrite decide_True by by apply is_Some_abs.
      by split_and!.
    + eexists (Err _), _. split; [done|]. rewrite decide_False.
      2: { rewrite is_Some_abs, Hn. by intros []. }
      rewrite free_nil_full, bool_decide_eq_true_2 by done. by split_and!.
Qed.

Lemma run_get_spec id st :
  good st → ∃ r st', run_op (OpGet id) st = (r, st') ∧ op_post (OpGet id) st r st'.
Proof.
  intros [Hwf Hcl Hcalm Hlock]. unfold op_post. simpl.
  destruct (get_chunk_spec id st Hwf Hlock) as (r & st' & Hr & (f & -> & Hc & Hs) & Hp).
  assert (abs (set_file f st) = abs st) as Habs.
  { unfold abs. simpl. destruct Hc as (_&->&_). done. }
  assert (good (set_file f st)) as Hg.
  { destruct Hc as (Hl&Hd&_). split; [| |by eapply calm_suffix|done].
    - apply cs_wf_set_file; [done|done|]. rewrite <-Hd. apply Hwf.
    - split; [|apply Hcl]. simpl. rewrite <-Hd. apply Hcl. }
  assert (same_config st (set_file f st)) as Hcfg.
  { destruct Hc as (Hl&_&_). by split_and!. }
  assert (durable st → durable (set_file f st)) as Hdur.
  { unfold durable. simpl. by destruct Hc as (_&->&->). }
  destruct r as [[d c]|e|]; [| |done].
  - rewrite (bind_ok _ _ _ _ _ Hr). destruct Hp as [Hm ->].
    eexists (Ok _), _. split; [done|]. rewrite Hm, Habs. by split_and!.
  - rewrite (bind_err _ _ _ _ _ Hr). destruct Hp as [(-> & Hm & _)|[_ ?]]; [|done].
    eexists (Err _), _. split; [done|]. rewrite Hm, Habs. by split_and!.
Qed.

Lemma run_delete_spec id st :
  good st → ∃ r st', run_op (OpDelete id) st = (r, st') ∧ op_post (OpDelete id) st r st'.
Proof.
  intros [Hwf Hcl Hcalm Hlock]. unfold op_post. simpl.
  destruct (delete_chunk_spec id st Hwf Hlock)
    as (r & st' & Hr & Hwf' & Hcfg & Hsuf & Hl & Habs & Hp).
  destruct (cs_index st !! id) as [s|] eqn:Hs.
  - destruct Hp as (Hidx & Hf & Hp). destruct r as [[]|e|]; [| |done].
    + rewrite (bind_ok _ _ _ _ _ Hr). destruct Hp as (Hfree & Hh & Hsync).
      eexists (Ok _), _. split; [done|]. rewrite Habs.
      split_and!; [done| |done|].
      2: { intros [_ Hd] _. apply Hsync. by rewrite Hd. }
      split; [done| |by eapply calm_suffix|done]. apply (clean_delete st st' s id); try done. apply Hcfg.
    + destruct Hp; contradiction.
  - destruct Hp as [-> ->]. rewrite (bind_ok _ _ _ _ _ Hr).
    eexists (Ok _), _. split; [done|]. rewrite <-Habs. by split_and!.
Qed.

Lemma run_op_spec o st :
  good st → valid_op o → ∃ r st', run_op o st = (r, st') ∧ op_post o st r st'.
Proof.
  intros Hg Hv. destruct o as [id data|id|id].
  - by destruct Hv; apply run_put_spec.
  - by apply run_get_spec.
  - by apply run_delete_spec.
Qed.

(** ** Sequences of operations *)

Lemma run_all_spec ops st :
  good st → Forall valid_op ops →
  ∃ rs st', run_all run_op ops st = (rs, st') ∧
    run_all (spec_op (cs_total st)) ops (abs st) = (rs, abs st') ∧
    good st' ∧ same_config st st' ∧ (sync_always st → durable st → durable st').
Proof.
  intros Hg Hv. revert st Hg. induction Hv as [|o ops Ho Hv IH]; intros st Hg; simpl.
  { by eexists [], st. }
  destruct (run_op_spec o st Hg Ho) as (r & st1 & Hr & Hspec & Hg1 & Hcfg & Hdur).
  destruct (IH st1 Hg1) as (rs & st2 & Hr2 & Hspec2 & Hg2 & Hcfg2 & Hdur2).
  destruct Hcfg as (Ht & He & Hd & Hl). rewrite Ht in Hspec2.
  exists (r :: rs), st2. rewrite Hr, Hr2, Hspec, Hspec2. split_and!; try done.
  - destruct Hcfg2 as (?&?&?&?). split_and!; congruence.
  - intros [? ?] ?. apply Hdur2; [|by apply Hdur]. split; congruence.
Qed.

(** ** A store on a new file *)

Definition new_store (n : Z) (options : ChunkStoreOptions) : ChunkStore :=
  opened n options (mkFile (n * SLOT_SIZE) ∅ ∅ []).

Lemma header_at_empty s : header_at ∅ s = mkHeader 0 0 0 0.
Proof. by vm_compute. Qed.

Lemma new_store_good n options :
  0 ≤ n → n * SLOT_SIZE ≤ 2 ^ 63 → good (new_store n options).
Proof.
  intros Hn Hfit. split; [| |by constructor|done].
  - split; simpl; try done; [apply NoDup_seqZ|].
    intros s Hs%elem_of_seqZ. lia.
  - split; simpl; [|intros s Hs; left; apply elem_of_seqZ; lia].
    intros s _. unfold slot_entry. by rewrite header_at_empty.
Qed.

(** ** Crashes *)

(** An image a crash can leave: each byte is one that was synced or the last one
    written. *)
Definition crash_image (f : File) (m : gmap Z byte) : Prop :=
  ∀ o, m !! o = f_synced f !! o ∨ m !! o = f_data f !! o.

Lemma crash_image_durable st m :
  durable st → crash_image (cs_file st) m → m = f_data (cs_file st).
Proof. unfold durable. intros Hd Hm. apply map_eq. intros o. destruct (Hm o); congruence. Qed.

(** What a checked scan of an image finds. *)
Definition recovered (n : Z) (m : gmap Z byte) : gmap Z (list byte) :=
  contents m (recovered_index false m (seqZ 0 n)).

Lemma recovered_lookup n m id data :
  recovered n m !! id = Some data →
  ∃ s, 0 ≤ s < n ∧ slot_entry false m s = Some id ∧ slot_holds m s id data.
Proof.
  unfold recovered, contents. rewrite lookup_fmap.
  destruct (recovered_index _ _ _ !! id) as [s|] eqn:Hs; [|done]. intros [= <-].
  apply recovered_index_lookup in Hs as [Hs%elem_of_seqZ He].
  exists s. split_and!; [lia|lia|done|by apply slot_entry_holds].
Qed.

(** A chunk survives when only a slot that does not name it may have changed. *)
Lemma recovered_frame st m t id data :
  cs_wf st → clean st → slot_frame t (f_data (cs_file st)) m → t ∈ cs_free st →
  slot_entry false m t ≠ Some id → abs st !! id = Some data →
  recovered (cs_total st) m !! id = Some data.
Proof.
  intros Hwf Hcl Hf Ht Hne Habs.
  destruct (cs_index st !! id) as [s|] eqn:Hs; [|by apply abs_None in Hs; congruence].
  destruct (wf_used_range _ Hwf _ _ Hs) as [Hr Hns].
  destruct (wf_data _ Hwf _ _ Hs) as [d Hd].
  assert (d = data) as -> by (pose proof (abs_lookup _ _ _ _ Hs Hd); congruence).
  assert (t ≠ s) as Hts by (by intros ->).
  pose proof (slot_holds_frame _ _ _ _ _ _ Hf Hts Hd) as Hd'.
  assert (recovered_index false m (seqZ 0 (cs_total st)) !! id = Some s) as Hidx.
  { apply recovered_index_unique; [apply elem_of_seqZ; lia|by eapply slot_holds_entry|].
    intros s' Hs'%elem_of_seqZ He. destruct (decide (t = s')) as [->|Hne']; [done|].
    rewrite (slot_frame_entry _ _ _ _ _ Hf) in He by (done || lia).
    destruct (cl_all _ Hcl s') as [Hfree|[i Hi]]; [lia| |].
    - by rewrite (clean_free_None _ _ _ Hcl Hfree) in He.
    - rewrite (wf_entry _ _ _ _ Hwf Hi) in He. congruence. }
  unfold recovered, contents. rewrite lookup_fmap, Hidx. simpl. f_equal.
  by eapply slot_holds_data.
Qed.

Lemma crash_frame st st' m :
  cs_wf st → durable st → slot_touched st st' → crash_image (cs_file st') m →
  m = f_data (cs_file st) ∨
  ∃ t, t ∈ cs_free st ∧ slot_frame t (f_data (cs_file st)) m.
Proof.
  unfold durable. intros Hwf Hdur [Heq|(t & Ht & Hf & Hsync)] Hm.
  - left. rewrite Heq in Hm. by apply crash_image_durable.
  - right. exists t. split; [done|]. intros o Ho.
    destruct (Hm o) as [->| ->]; [|by apply Hf].
    destruct Hsync as [->| ->]; [by rewrite Hdur|by apply Hf].
Qed.

Lemma recovered_same st m :
  cs_wf st → clean st → m = f_data (cs_file st) → recovered (cs_total st) m = abs st.
Proof.
  intros Hwf Hcl ->. unfold recovered, abs.
  by destruct (recovered_clean st false (f_data (cs_file st)) Hwf Hcl ltac:(reflexivity))
    as (-> & _ & _).
Qed.

End spec.
