(* ===== verification/ChunkStoreTheorems.v ===== *)
(** * ChunkStoreTheorems: the properties of the slot store

    The theorems about storage-node/src/chunk_store.rs, each with a witness on a
    store of two slots and the IEEE CRC-32. *)

From S2P Require Import Prelude.
From S2P Require Import Bytes.
From S2P Require Import PosFile.
From S2P Require Import Crc32.
From S2P Require Import ChunkStore.
From S2P Require Import SlotFacts.
From S2P Require Import ChunkStoreFacts.
From S2P Require Import ChunkStoreRecovery.
From S2P Require Import ChunkStoreSpec.
Open Scope Z_scope.

(** ** Concrete inputs *)

Definition hello : list byte := String.list_byte_of_string "hello".
Definition world : list byte := String.list_byte_of_string "world!".
Definition two_slots : ChunkStore := new_store 2 default_options.

Lemma two_slots_good : @good crc32_ieee two_slots.
Proof. by apply new_store_good. Qed.

Lemma hello_valid id : is_u64 id → valid_op (OpPut id hello).
Proof. intros Hid. split; [done|]. by vm_compute. Qed.
Lemma world_valid id : is_u64 id → valid_op (OpPut id world).
Proof. intros Hid. split; [done|]. by vm_compute. Qed.

Section theorems.
Context `{Crc32}.

(** C5: over any sequence of valid requests on a store in normal service, the slot
    store answers exactly as a finite map of the same capacity does, ends with the
    map's contents, and is still in normal service. *)
Theorem chunk_store_refines_map ops st :
  good st → Forall valid_op ops →
  ∃ rs st', run_all run_op ops st = (rs, st') ∧
    run_all (spec_op (cs_total st)) ops (abs st) = (rs, abs st') ∧ good st'.
Proof.
  intros Hg Hv. destruct (run_all_spec ops st Hg Hv) as (rs & st' & ? & ? & ? & _).
  by exists rs, st'.
Qed.

(** C7: whatever the kernel does (short transfers, failures), [put_chunk] on a
    well-formed store whose lock is not poisoned returns, keeps the invariant, touches one free slot at most,
    and either adds the chunk or leaves the contents and the free slots as they
    were; it panics only on a chunk larger than a slot. *)
Theorem put_chunk_every_outcome id data st :
  cs_wf st → cs_poisoned st = false → is_u64 id →
  ∃ r st', put_chunk id data st = (r, st') ∧ put_post id data st r st'.
Proof. apply put_chunk_spec. Qed.

(** C34: whatever the kernel does, [delete_chunk] on a well-formed store whose lock is not
    poisoned returns, keeps the invariant and removes the chunk from the contents, also when it reports an error; only after
    a success is its slot free and its header erased. *)
Theorem delete_chunk_every_outcome id st :
  cs_wf st → cs_poisoned st = false →
  ∃ r st', delete_chunk id st = (r, st') ∧ delete_post id st r st'.
Proof. apply delete_chunk_spec. Qed.

(** A chunk that [get_chunk] returns is the one stored under the id, with its
    checksum; a missing id is [NotFound]; any other failure is the kernel's. The
    store's contents do not change. *)
Theorem get_chunk_every_outcome id st :
  cs_wf st → cs_poisoned st = false →
  ∃ r st', get_chunk id st = (r, st') ∧ get_post id st r st' ∧ abs st' = abs st ∧ cs_wf st'.
Proof.
  intros Hwf Hl. destruct (get_chunk_spec id st Hwf Hl) as (r & st' & Hr & Hp).
  exists r, st'. split_and!; [done|done|..].
  all: destruct Hp as [(f & -> & (? & Hd & _) & _) _].
  - unfold abs. simpl. by rewrite Hd.
  - apply cs_wf_set_file; [done|done|]. rewrite <-Hd. apply Hwf.
Qed.

(** A header is read back from its bytes as it was written. *)
Theorem chunk_header_roundtrip h :
  header_ok h → from_bytes (to_bytes h) = h ∧ zlen (to_bytes h) = CHUNK_HEADER_SIZE.
Proof. intros Hh. split; [by apply from_to_bytes|apply zlen_to_bytes]. Qed.

(** [write_all_at] and [read_exact_at] never run out of turns, and with a kernel
    that makes progress they are one whole transfer however it cuts them up. *)
Theorem full_transfer_loops buf off f :
  calm f → 0 ≤ off → off + zlen buf < 2 ^ 64 → off + zlen buf ≤ f_len f →
  ∃ f' f'', write_all_at buf off f = (Ok (), f') ∧
    f_data f' = store_bytes (f_data f) off buf ∧ f_len f' = f_len f ∧
    read_exact_at (zlen buf) off f' = (Ok buf, f'') ∧ same_content f' f''.
Proof.
  intros Hc Ho Hb Hlen. pose proof (zlen_nonneg buf).
  destruct (write_all_at_spec buf off f Ho Hb) as (r & f' & Hw & Hs & Hp).
  destruct r as [[]|e|]; [|by destruct Hp|done]. destruct Hp as (Hl & Hd & _).
  destruct (read_exact_at_spec (zlen buf) off f') as (r & f'' & Hr & Hsc & _ & Hp); [lia..|].
  exists f', f''. split_and!; [done|done|by apply Hl| |done]. rewrite Hr. f_equal.
  destruct r as [bs|e|]; [| |done].
  - destruct Hp as [-> _]. by rewrite Hd, bytes_at_store.
  - assert (calm f') as Hc' by eauto with store. apply Hp in Hc'. rewrite Hl in Hc' by done. lia.
Qed.

(** C35: from any disk image whatsoever, opening the file and scanning it with
    checksums establishes the store's invariant, and the scan indexes exactly the
    chunks some slot holds intact. *)
Theorem recovery_from_any_image n options f st f' st' :
  0 ≤ n → n * SLOT_SIZE ≤ 2 ^ 63 →
  open (Some n) options f = (Ok st, f') → recover_index false st = (Ok (), st') →
  cs_wf st' ∧ abs st' = recovered n (f_data f') ∧
  (∀ id, is_Some (abs st' !! id) ↔
     ∃ s data, 0 ≤ s < n ∧ slot_holds (f_data f') s id data).
Proof.
  intros Hn Hfit Hopen Hrec.
  destruct (open_spec n options f Hn Hfit) as (r & f1 & Ho & _ & Hp).
  rewrite Hopen in Ho. injection Ho as <- <-. destruct Hp as (-> & Hlen & _).
  assert (cs_wf st') as Hwf by (by eapply (recover_index_wf n (opened n options f'))).
  destruct (recover_index_spec false n (opened n options f')) as (r & st1 & Hr & Hc & _ & Hp);
    [done..|]. rewrite Hrec in Hr. injection Hr as <- <-.
  assert (abs st' = recovered n (f_data f')) as Habs.
  { unfold abs. rewrite Hp at 2. cbn. destruct Hc as (_ & <- & _). done. }
  split_and!; [done..|]. intros id. rewrite Habs. split.
  - intros [data (s & ? & _ & ?)%recovered_lookup]. by exists s, data.
  - intros (s & data & Hs & Hd). unfold recovered, contents. rewrite lookup_fmap, fmap_is_Some.
    destruct (recovered_index_complete false (f_data f') (seqZ 0 n) id s) as [s' ->]; [|..|done].
    + apply elem_of_seqZ. lia.
    + by eapply slot_holds_entry.
Qed.

(** C6: with a sync on every write and every delete, whatever sequence of requests
    ran, a crash afterwards loses nothing: any image the crash can leave recovers to
    the contents of the store. *)
Theorem crash_after_requests_loses_nothing ops st rs st' m :
  good st → durable st → sync_always st → Forall valid_op ops →
  run_all run_op ops st = (rs, st') → crash_image (cs_file st') m →
  recovered (cs_total st') m = abs st'.
Proof.
  intros Hg Hd Hsa Hv Hrun Hm.
  destruct (run_all_spec ops st Hg Hv) as (rs1 & st1 & Hr & _ & [Hwf Hcl _ _] & _ & Hdur).
  rewrite Hrun in Hr. injection Hr as <- <-.
  apply recovered_same; [done..|]. apply crash_image_durable; auto.
Qed.

(** A crash in the middle of a [put_chunk] (its file calls stop anywhere, and
    any mix of old and new bytes reaches the disk) keeps every chunk stored before,
    unless the torn slot itself passes the checksum under that chunk's id. *)
Theorem torn_put_keeps_the_others id data st r st' m :
  cs_wf st → clean st → cs_poisoned st = false → durable st → is_u64 id →
  put_chunk id data st = (r, st') → crash_image (cs_file st') m →
  ∃ t, ∀ id' data', abs st !! id' = Some data' →
    slot_entry false m t ≠ Some id' → recovered (cs_total st) m !! id' = Some data'.
Proof.
  intros Hwf Hcl Hl Hdur Hid Hput Hm.
  destruct (put_chunk_spec id data st Hwf Hl Hid) as (r1 & st1 & Hr & _ & _ & _ & Ht & _).
  rewrite Hput in Hr. injection Hr as <- <-.
  destruct (crash_frame st st' m) as [->|(t & Htf & Hf)]; [done..| |].
  - exists 0. intros id' data' Hd _. by rewrite recovered_same.
  - exists t. intros id' data' Hd Hne. by eapply recovered_frame.
Qed.

(** A chunk larger than a slot makes [put_chunk] panic while it holds the index
    lock, and from then on every [put_chunk], [get_chunk] and [delete_chunk]
    panics. *)
Theorem oversized_put_poisons_the_store id data st :
  cs_wf st → cs_poisoned st = false → is_u64 id → cs_index st !! id = None →
  cs_free st ≠ [] → SLOT_DATA_SIZE < zlen data →
  ∃ st', put_chunk id data st = (Panic, st') ∧
    ∀ id' data', put_chunk id' data' st' = (Panic, st') ∧
      get_chunk id' st' = (Panic, st') ∧ delete_chunk id' st' = (Panic, st').
Proof.
  intros Hwf Hl Hid Hnone Hfree Hbig.
  destruct (put_chunk_spec id data st Hwf Hl Hid) as (r & st' & Hr & _ & _ & _ & _ & Hp).
  assert (r = Panic ∧ cs_poisoned st' = true) as [-> Hpo].
  { revert Hr. unfold put_chunk. rewrite write_guard_run by done. unfold poison_on_panic.
    run_st. rewrite decide_False by (rewrite Hnone; by intros []). unfold find_slot. run_st.
    destruct (vec_pop (cs_free st)) as [[s rest]|] eqn:Hv; [|by apply vec_pop_None in Hv].
    destruct (should_fsync_write_spec (set_free rest st)) as (b & n & -> & _).
    unfold on_file, zoom, write_chunk_at. run_st.
    rewrite (proj2 (Z.leb_gt _ _)) by done. by intros [= <- <-]. }
  exists st'. split; [done|]. intros id' data'.
  unfold put_chunk, get_chunk, delete_chunk, write_guard, lock_index. run_st. by rewrite Hpo.
Qed.

(** ** A write whose [sync_data] fails *)

Lemma write_all_at_once buf off n sc f :
  f_script f = Xfer n :: sc → buf ≠ [] → zlen buf ≤ n →
  ∃ f', write_all_at buf off f = (Ok (), f') ∧ f_script f' = sc ∧
    f_data f' = store_bytes (f_data f) off buf.
Proof.
  intros Hsc Hne Hn. pose proof (zlen_pos _ Hne) as Hp.
  exists (put_bytes off buf (with_script sc f)).
  split; [|by destruct buf]. unfold write_all_at. cbn [write_loop].
  destruct buf as [|b buf]; [done|]. set (bs := b :: buf) in *.
  unfold write_at, next_answer. run_st. rewrite Hsc. unfold clip.
  replace (Z.max 0 (Z.min n (zlen bs))) with (zlen bs) by lia.
  assert (Z.to_nat (zlen bs) = length bs) as -> by (unfold zlen; lia).
  rewrite (proj2 (Z.eqb_neq _ _)), take_ge, drop_ge by lia. by destruct buf.
Qed.

(** Every byte of a write arrives and the [sync_data] after it fails. *)
Definition sync_fails (data : list byte) (f : File) : Prop :=
  ∃ a b, f_script f = [Xfer a; Xfer b; SysErr] ∧ CHUNK_HEADER_SIZE ≤ a ∧ zlen data ≤ b.

Lemma write_chunk_sync_fails s h data f :
  slot_in_file s f → data ≠ [] → zlen data ≤ SLOT_DATA_SIZE → sync_fails data f →
  ∃ f', write_chunk_at s h data true f = (Err Other, f') ∧
    f_len f' = f_len f ∧ slot_frame s (f_data f) (f_data f') ∧ slot_image (f_data f') s h data.
Proof.
  intros Hin Hne Hd (a & b & Hsc & Ha & Hb). pose proof Hin as (?&?&?).
  destruct (write_chunk_at_spec s h data true f Hin Hd) as (r & f' & Hr & _ & Hl & Hf & _).
  assert (to_bytes h ≠ []) as Hh.
  { intros Hn. pose proof (length_to_bytes h) as Hlh. by rewrite Hn in Hlh. }
  destruct (write_all_at_once (to_bytes h) (s * SLOT_SIZE) a [Xfer b; SysErr] f)
    as (f1 & Hw1 & Hs1 & Hd1); [done|done|by rewrite zlen_to_bytes|].
  destruct (write_all_at_once data (s * SLOT_SIZE + CHUNK_HEADER_SIZE) b [SysErr] f1)
    as (f2 & Hw2 & Hs2 & Hd2); [done..|].
  assert (write_chunk_at s h data true f = (Err Other, with_script [] f2)) as Hrun.
  { unfold write_chunk_at. rewrite (proj2 (Z.leb_le _ _)) by done. cbn [assert_].
    rewrite (bind_ok _ _ _ () f) by done. rewrite slot_offset_eq by eauto with store.
    rewrite (bind_ok _ _ _ _ _ Hw1), decide_False by done.
    rewrite wrap64_id by slot_lia. rewrite (bind_ok _ _ _ _ _ Hw2).
    unfold sync_data, next_answer. run_st. by rewrite Hs2. }
  rewrite Hrun in Hr. injection Hr as <- <-.
  exists (with_script [] f2). split_and!; [done|done|done|]. simpl. rewrite Hd2, Hd1.
  apply slot_image_store; lia.
Qed.

(** When the [sync_data] of a [put_chunk] fails, the caller gets an error and
    the chunk is not in the store, yet its slot keeps a valid header: the next
    recovery brings the refused chunk back. *)
Theorem failed_sync_put_comes_back id data st :
  cs_wf st → clean st → cs_poisoned st = false → is_u64 id → cs_fsync_every st = Some 1 →
  cs_index st !! id = None → cs_free st ≠ [] → data ≠ [] → zlen data ≤ SLOT_DATA_SIZE →
  sync_fails data (cs_file st) →
  ∃ st', put_chunk id data st = (Err Other, st') ∧ abs st' !! id = None ∧
    is_Some (recovered (cs_total st) (f_data (cs_file st')) !! id).
Proof.
  intros Hwf Hcl Hl Hid Hev Hnone Hfree Hne Hd Hsf.
  destruct (put_chunk_spec id data st Hwf Hl Hid) as (r & st' & Hr & _ & _ & _ & _ & Hp).
  assert (r = Err Other ∧ ∃ s, s ∈ cs_free st ∧
    slot_image (f_data (cs_file st')) s (header_for id data) data) as [-> (s & Hs & Hi)].
  { clear Hp. revert Hr. unfold put_chunk. rewrite write_guard_run by done.
    unfold poison_on_panic. run_st. rewrite decide_False by (rewrite Hnone; by intros []).
    unfold find_slot. run_st.
    destruct (vec_pop (cs_free st)) as [[s rest]|] eqn:Hv; [|by apply vec_pop_None in Hv].
    apply vec_pop_Some in Hv. destruct (wf_pop _ _ _ Hwf Hv) as (Hslot & _ & _).
    destruct (should_fsync_write_spec (set_free rest st)) as (b & n & -> & Hb & _).
    rewrite Hb by done. rewrite wrap32_id by (pose proof (zlen_nonneg data); slot_lia).
    destruct (write_chunk_sync_fails s (header_for id data) data (cs_file st))
      as (f' & Hw & _ & _ & Hi); [done..|]. unfold header_for in Hw.
    rewrite (on_file_run _ (set_counter n (set_free rest st)) _ _ Hw).
    unfold clear_slot. run_st. simpl.
    assert (s ∈ cs_free st) as Hs by (rewrite Hv; set_solver).
    rewrite (proj2 (Z.ltb_lt _ _)) by (by apply (wf_free_range _ Hwf)).
    intros [= <- <-]. split; [done|]. by exists s. }
  destruct Hp as (Habs & _). exists st'. split_and!; [done|by rewrite Habs; apply abs_None|].
  pose proof (wf_free_range _ Hwf _ Hs). unfold recovered, contents.
  rewrite lookup_fmap, fmap_is_Some.
  destruct (recovered_index_complete false (f_data (cs_file st')) (seqZ 0 (cs_total st)) id s)
    as [s' ->]; [apply elem_of_seqZ; lia| |done].
  eapply slot_holds_entry. by apply slot_image_holds.
Qed.

End theorems.

(** ** Witnesses *)

#[local] Existing Instance crc32_ieee.

Definition some_ops : list op :=
  [OpPut 7 hello; OpPut 7 world; OpGet 7; OpPut 9 world; OpPut 11 hello; OpDelete 7; OpGet 7].

Lemma some_ops_valid : Forall valid_op some_ops.
Proof.
  unfold some_ops. repeat constructor; simpl; try done; by vm_compute.
Qed.

Lemma chunk_store_refines_map_witness :
  good two_slots ∧ Forall valid_op some_ops ∧
  ∃ rs st', run_all run_op some_ops two_slots = (rs, st') ∧
    run_all (spec_op (cs_total two_slots)) some_ops (abs two_slots) = (rs, abs st') ∧ good st'.
Proof.
  split; [exact two_slots_good|]. split; [exact some_ops_valid|].
  apply (chunk_store_refines_map some_ops two_slots two_slots_good some_ops_valid).
Defined.

Lemma put_chunk_every_outcome_witness :
  ∃ r st', put_chunk 7 hello two_slots = (r, st') ∧ put_post 7 hello two_slots r st'.
Proof. apply (put_chunk_every_outcome 7 hello two_slots); [apply two_slots_good|done|done]. Defined.

Lemma delete_chunk_every_outcome_witness :
  ∃ r st', delete_chunk 7 two_slots = (r, st') ∧ delete_post 7 two_slots r st'.
Proof. apply (delete_chunk_every_outcome 7 two_slots); [apply two_slots_good|done]. Defined.

Lemma get_chunk_every_outcome_witness :
  ∃ r st', get_chunk 7 two_slots = (r, st') ∧ get_post 7 two_slots r st' ∧
    abs st' = abs two_slots ∧ cs_wf st'.
Proof. apply (get_chunk_every_outcome 7 two_slots); [apply two_slots_good|done]. Defined.

Lemma chunk_header_roundtrip_witness :
  let h := header_new 7 (compute_checksum hello) 5 in
  from_bytes (to_bytes h) = h ∧ zlen (to_bytes h) = CHUNK_HEADER_SIZE.
Proof. apply chunk_header_roundtrip. split; by vm_compute. Defined.

(** A kernel that moves three bytes, then one, then all that is asked. *)
Definition choppy : File := mkFile 100 ∅ ∅ [Xfer 3; Xfer 1; Xfer 50; Xfer 2].

Lemma full_transfer_loops_witness :
  ∃ f' f'', write_all_at hello 10 choppy = (Ok (), f') ∧
    f_data f' = store_bytes (f_data choppy) 10 hello ∧ f_len f' = f_len choppy ∧
    read_exact_at (zlen hello) 10 f' = (Ok hello, f'') ∧ same_content f' f''.
Proof.
  apply (full_transfer_loops hello 10 choppy); [by repeat constructor|done..].
Defined.

(** The image the sequence above leaves on the disk, opened again. *)
Definition used_file : File := cs_file (run_all run_op some_ops two_slots).2.
Definition reopened : ChunkStore := opened 2 default_options used_file.

Lemma recovery_from_any_image_witness :
  open (Some 2) default_options used_file = (Ok reopened, used_file) ∧
  cs_wf (recover_index false reopened).2.
Proof.
  assert (open (Some 2) default_options used_file = (Ok reopened, used_file)) as Ho
    by (vm_compute; reflexivity).
  split; [exact Ho|].
  apply (recovery_from_any_image 2 default_options used_file reopened used_file
    (recover_index false reopened).2 ltac:(done) ltac:(done) Ho).
  vm_compute. reflexivity.
Defined.

Lemma crash_after_requests_loses_nothing_witness :
  let st' := (run_all run_op some_ops two_slots).2 in
  recovered (cs_total st') (f_synced (cs_file st')) = abs st'.
Proof.
  apply (crash_after_requests_loses_nothing some_ops two_slots
    (run_all run_op some_ops two_slots).1 _ _ two_slots_good); [done|by split|apply some_ops_valid| |].
  - exact (surjective_pairing (run_all run_op some_ops two_slots)).
  - intros o. by left.
Defined.

Lemma put_good id data st :
  good st → durable st → sync_always st → valid_op (OpPut id data) →
  good (put_chunk id data st).2 ∧ durable (put_chunk id data st).2.
Proof.
  intros Hg Hd Hs Hv. destruct (run_op_spec _ st Hg Hv) as (r & st' & Hr & _ & Hg' & _ & Hd').
  assert ((put_chunk id data st).2 = st') as ->.
  { revert Hr. simpl. cbv [mbind ST_bind mret ST_ret].
    by destruct (put_chunk id data st) as [[]]; intros [= _ <-]. }
  auto.
Qed.

(** The kernel stops the second [put] after 30 bytes. *)
Definition torn : ChunkStore :=
  let st := (put_chunk 7 hello two_slots).2 in
  set_file (with_script [Xfer 24; Xfer 6; SysErr] (cs_file st)) st.

Lemma torn_put_keeps_the_others_witness :
  let st' := (put_chunk 9 world torn).2 in
  ∃ t, ∀ id' data', abs torn !! id' = Some data' →
    slot_entry false (f_data (cs_file st')) t ≠ Some id' →
    recovered (cs_total torn) (f_data (cs_file st')) !! id' = Some data'.
Proof.
  destruct (put_good 7 hello two_slots) as [Hg Hd];
    [apply two_slots_good|done|done|apply (hello_valid 7 ltac:(done))|].
  apply (torn_put_keeps_the_others 9 world torn (put_chunk 9 world torn).1
    (put_chunk 9 world torn).2).
  - apply cs_wf_set_file; [apply Hg|done|apply Hg].
  - split; apply Hg.
  - apply Hg.
  - exact Hd.
  - vm_compute. by split.
  - exact (surjective_pairing (put_chunk 9 world torn)).
  - intros o. by right.
Defined.

(** One byte more than a slot takes, still within the limit of a request. *)
Definition oversized : list byte := replicate (Z.to_nat (SLOT_DATA_SIZE + 1)) x00.

Lemma oversized_long : SLOT_DATA_SIZE < zlen oversized.
Proof. unfold zlen, oversized. rewrite length_replicate. slot_lia. Qed.

Lemma oversized_put_poisons_the_store_witness :
  ∃ st', put_chunk 7 oversized two_slots = (Panic, st') ∧
    ∀ id' data', put_chunk id' data' st' = (Panic, st') ∧
      get_chunk id' st' = (Panic, st') ∧ delete_chunk id' st' = (Panic, st').
Proof.
  apply (oversized_put_poisons_the_store 7 oversized two_slots);
    [apply two_slots_good|done|done|done|done|apply oversized_long].
Defined.

Definition bad_sync : ChunkStore :=
  set_file (with_script [Xfer 100; Xfer 100; SysErr] (cs_file two_slots)) two_slots.

Lemma failed_sync_put_comes_back_witness :
  ∃ st', put_chunk 7 hello bad_sync = (Err Other, st') ∧ abs st' !! 7 = None ∧
    is_Some (recovered (cs_total bad_sync) (f_data (cs_file st')) !! 7).
Proof.
  apply (failed_sync_put_comes_back 7 hello bad_sync); try done.
  - apply cs_wf_set_file; [apply two_slots_good|done|apply two_slots_good].
  - split; apply two_slots_good.
  - by exists 100, 100.
Defined.
