(* ===== verification/Grpc.v ===== *)
(** * Grpc: statuses and bounded retries of remote calls

    [tonic::Code], the part of a [tonic::Status] that the program branches on (the
    message only reaches logs and clients), and storage-node/src/grpc_utils.rs:
    [call_with_retry]. *)

From S2P Require Import Prelude.
Open Scope Z_scope.

(** The codes of gRPC; two of them also name an I/O error kind. *)
Inductive Code :=
  | OkCode | Cancelled | Unknown | InvalidArgument | DeadlineExceeded | NotFoundCode
  | AlreadyExistsCode | PermissionDenied | ResourceExhausted | FailedPrecondition
  | Aborted | OutOfRange | Unimplemented | Internal | Unavailable | DataLoss
  | Unauthenticated.

#[export] Instance Code_eq_dec : EqDecision Code.
Proof. solve_decision. Defined.

(** ** call_with_retry *)

(** Durations in milliseconds. *)
Record RetryConfig := mkRetryConfig {
  max_attempts : Z;
  timeout_per_attempt : Z;
  delay_between_attempts : Z;
}.

Definition default_retry_config : RetryConfig := mkRetryConfig 3 10000 2000.

Inductive CallWithRetryError (E : Type) :=
  | Timeout
  | OperationFailed (e : E).
Arguments Timeout {E}.
Arguments OperationFailed {E} _.

(** What one call of the operation does: it finishes with a result after some
    time, or never finishes ([None]). *)
Record answer (E A : Type) := mkAnswer {
  an_result : option (E + A);
  an_time : Z;
}.
Arguments mkAnswer {E A} _ _.
Arguments an_result {E A} _.
Arguments an_time {E A} _.

(** [time::timeout(limit, call).await]: the result, unless the limit passes first. *)
Definition timeout {E A} (limit : Z) (a : answer E A) : option (E + A) :=
  if an_time a <=? limit then an_result a else None.

Section retry.
Context {S E A : Type}.

(** [attempt] runs over [attempt..=max_attempts]; the third component of the result
    counts the sleeps. *)
Fixpoint retry_loop (operation : S → answer E A * S) (config : RetryConfig)
    (attempts : list Z) (last_error : option E) (s : S) (sleeps : nat) :
    outcome (CallWithRetryError E) A * S * nat :=
  match attempts with
  | [] =>
      match last_error with
      | Some e => (Err (OperationFailed e), s, sleeps)
      | None => (Err Timeout, s, sleeps)
      end
  | attempt :: attempts =>
      let '(a, s) := operation s in
      let next last_error :=
        retry_loop operation config attempts last_error s
          (if attempt <? max_attempts config then Datatypes.S sleeps else sleeps) in
      match timeout (timeout_per_attempt config) a with
      | Some (inr result) => (Ok result, s, sleeps)
      | Some (inl e) => next (Some e)
      | None =>
          match last_error with
          | None => (Err Timeout, s, sleeps)
          | Some _ => next last_error
          end
      end
  end.

Definition call_with_retry (operation : S → answer E A * S) (config : RetryConfig) (s : S) :
    outcome (CallWithRetryError E) A * S * nat :=
  retry_loop operation config (seqZ 1 (max_attempts config)) None s 0.

End retry.
