(* ===== verification/StorageNode.v ===== *)
(** * StorageNode: the storage node's service

    storage-node/src/main.rs: building the node over the chunk store, and the
    handlers of its gRPC service with the counters they keep
    (storage-node/src/metrics.rs). *)

From S2P Require Import Prelude.
From S2P Require Import Bytes.
From S2P Require Import PosFile.
From S2P Require Import Crc32.
From S2P Require Import ChunkStore.
From S2P Require Import Grpc.
Open Scope string_scope.
Open Scope Z_scope.

Definition MAX_GRPC_MESSAGE_SIZE : Z := 16 * 1024 * 1024.

(** The counters and the gauge; a counter wraps at 64 bits. *)
Record Metrics := mkMetrics {
  chunks_written_total : Z;
  chunks_read_total : Z;
  chunks_deleted_total : Z;
  bytes_written_total : Z;
  bytes_read_total : Z;
  free_slots_gauge : Z;
  grpc_requests_total : gmap (string * string) Z;
}.

Definition metrics_new : Metrics := mkMetrics 0 0 0 0 0 0 ∅.

(** [get_or_create(RpcLabels { method, status }).inc()]. *)
Definition inc_request (method status : string) (t : gmap (string * string) Z) :=
  <[(method, status) := wrap64 (default 0 (t !! (method, status)) + 1)]> t.

Record StorageNodeImpl := mkNode {
  store : ChunkStore;
  metrics : Metrics;
}.

Definition set_store (st : ChunkStore) (n : StorageNodeImpl) : StorageNodeImpl :=
  mkNode st (metrics n).
Definition set_metrics (m : Metrics) (n : StorageNodeImpl) : StorageNodeImpl :=
  mkNode (store n) m.

(** The requests and the responses of the service. *)
Record ReadChunkResponse := mkReadChunkResponse {
  rc_chunk_id : Z;
  rc_chunk_bytes : list byte;
  rc_checksum : Z;
}.

Section node.
Context `{Crc32}.

(** [exists_answer]: what [std::fs::exists] said, [None] when it failed. The
    store starts from the file at the path, an empty one when there was none. *)
Definition construct (exists_answer : option bool) (allocated_slots : option Z)
    (options : ChunkStoreOptions) (f : File) : outcome ErrorKind StorageNodeImpl * File :=
  let recover := default false exists_answer in
  match open allocated_slots options f with
  | (Ok st, f) =>
      if recover then
        match recover_index (fast_recover options) st with
        | (Ok _, st) => (Ok (mkNode st metrics_new), cs_file st)
        | (Err e, st) => (Err e, cs_file st)
        | (Panic, st) => (Panic, cs_file st)
        end
      else (Ok (mkNode st metrics_new), f)
  | (Err e, f) => (Err e, f)
  | (Panic, f) => (Panic, f)
  end.

(** [spawn_blocking(..).await]: a panic of the task becomes an [Internal] status;
    an I/O error is translated by its kind. *)
Definition on_store {A} (status_of : ErrorKind → Code) (m : ST ChunkStore ErrorKind A) :
    ST StorageNodeImpl Code A := λ n,
  match m (store n) with
  | (Ok a, st) => (Ok a, set_store st n)
  | (Err e, st) => (Err (status_of e), set_store st n)
  | (Panic, st) => (Err Internal, set_store st n)
  end.

Definition on_metrics (f : Metrics → Metrics) : ST StorageNodeImpl Code unit :=
  modify (λ n, set_metrics (f (metrics n)) n).

Definition write_status (e : ErrorKind) : Code :=
  match e with
  | AlreadyExists => AlreadyExistsCode
  | StorageFull => ResourceExhausted
  | _ => Internal
  end.

Definition count_write (bytes_len : Z) (m : Metrics) : Metrics :=
  mkMetrics (wrap64 (chunks_written_total m + 1)) (chunks_read_total m)
    (chunks_deleted_total m) (wrap64 (bytes_written_total m + bytes_len))
    (bytes_read_total m) (free_slots_gauge m)
    (inc_request "write_chunk" "ok" (grpc_requests_total m)).

Definition set_free_gauge (free : Z) (m : Metrics) : Metrics :=
  mkMetrics (chunks_written_total m) (chunks_read_total m) (chunks_deleted_total m)
    (bytes_written_total m) (bytes_read_total m) free (grpc_requests_total m).

(** Answers with the chunk id. *)
Definition write_chunk (chunk_id : Z) (chunk_bytes : list byte) :
    ST StorageNodeImpl Code Z :=
  _ ← on_store write_status (put_chunk chunk_id chunk_bytes);
  _ ← on_metrics (count_write (zlen chunk_bytes));
  free ← gets (λ n, free_slots (store n));
  _ ← on_metrics (set_free_gauge free);
  mret chunk_id.

Definition read_status (e : ErrorKind) : Code :=
  match e with NotFound => NotFoundCode | _ => Internal end.

Definition count_read (bytes_len : Z) (m : Metrics) : Metrics :=
  mkMetrics (chunks_written_total m) (wrap64 (chunks_read_total m + 1))
    (chunks_deleted_total m) (bytes_written_total m)
    (wrap64 (bytes_read_total m + bytes_len)) (free_slots_gauge m)
    (inc_request "read_chunk" "ok" (grpc_requests_total m)).

Definition read_chunk (chunk_id : Z) : ST StorageNodeImpl Code ReadChunkResponse :=
  '(chunk_bytes, checksum) ← on_store read_status (get_chunk chunk_id);
  _ ← on_metrics (count_read (zlen chunk_bytes));
  mret (mkReadChunkResponse chunk_id chunk_bytes checksum).

Definition count_delete (m : Metrics) : Metrics :=
  mkMetrics (chunks_written_total m) (chunks_read_total m)
    (wrap64 (chunks_deleted_total m + 1)) (bytes_written_total m) (bytes_read_total m)
    (free_slots_gauge m) (inc_request "delete_chunk" "ok" (grpc_requests_total m)).

Definition node_delete_chunk (chunk_id : Z) : ST StorageNodeImpl Code Z :=
  _ ← on_store (λ _, Internal) (delete_chunk chunk_id);
  _ ← on_metrics count_delete;
  free ← gets (λ n, free_slots (store n));
  _ ← on_metrics (set_free_gauge free);
  mret chunk_id.

Definition get_free_chunks : ST StorageNodeImpl Code Z := gets (λ n, free_slots (store n)).
Definition node_get_chunk_size : ST StorageNodeImpl Code Z :=
  gets (λ n, get_chunk_size (store n)).
Definition check_health : ST StorageNodeImpl Code bool := mret true.

End node.
