(* ===== verification/NodeFacts.v ===== *)
(** * NodeFacts: the chunk handlers of a storage node in normal service

    What write, read and delete do to the contents of the node's store. *)

From S2P Require Import Prelude.
From S2P Require Import Bytes.
From S2P Require Import PosFile.
From S2P Require Import Crc32.
From S2P Require Import ChunkStore.
From S2P Require Import SlotFacts.
From S2P Require Import ChunkStoreFacts.
From S2P Require Import ChunkStoreRecovery.
From S2P Require Import ChunkStoreSpec.
From S2P Require Import Grpc.
From S2P Require Import StorageNode.
Open Scope Z_scope.

Section node.
Context `{Crc32}.

Lemma on_store_run {A} (so : ErrorKind → Code) (m : ST ChunkStore ErrorKind A) n r st :
  m (store n) = (r, st) →
  on_store so m n =
    (match r with Ok a => Ok a | Err e => Err (so e) | Panic => Err Internal end,
     set_store st n).
Proof. intros Hm. unfold on_store. rewrite Hm. by destruct r. Qed.

(** A stored chunk has a 64-bit id and fits a slot. *)
Lemma stored_bounds st id bytes :
  cs_wf st → abs st !! id = Some bytes → is_u64 id ∧ zlen bytes ≤ SLOT_DATA_SIZE.
Proof.
  intros Hwf. unfold abs, contents. rewrite lookup_fmap.
  destruct (cs_index st !! id) as [s|] eqn:Hs; [|done]. intros [= <-].
  destruct (wf_data _ Hwf _ _ Hs) as (data & Hlen & Hh & ->). split; [|done].
  pose proof (header_at_ok (f_data (cs_file st)) s) as [_ Hid _ _]. by rewrite Hh in Hid.
Qed.

Lemma node_write_spec id bytes n :
  good (store n) → is_u64 id → zlen bytes ≤ SLOT_DATA_SIZE →
  ∃ r n', write_chunk id bytes n = (r, n') ∧ good (store n') ∧
    match r with
    | Ok _ => abs (store n) !! id = None ∧ abs (store n') = <[id := bytes]> (abs (store n))
    | Err _ => abs (store n') = abs (store n)
    | Panic => False
    end.
Proof.
  intros Hg Hid Hd.
  destruct (run_put_spec id bytes (store n) Hg Hid Hd) as (r & st' & Hr & Hspec & Hg' & _).
  simpl in Hr. cbv [mbind ST_bind mret ST_ret] in Hr. unfold write_chunk.
  destruct (put_chunk id bytes (store n)) as [r0 st0] eqn:Hput.
  apply (on_store_run write_status) in Hput. simpl in Hspec.
  destruct r0 as [[]|e|]; injection Hr as <- <-.
  - rewrite (bind_ok _ _ _ _ _ Hput). eexists _, _. split; [done|]. split; [done|]. cbn.
    revert Hspec. case_decide as Hi; [done|]. destruct (_ <=? _); intros [= <-].
    split; [by apply eq_None_not_Some|done].
  - rewrite (bind_err _ _ _ _ _ Hput). eexists _, _. split; [done|]. split; [done|]. cbn.
    revert Hspec. case_decide; [by intros [= _ <-]|]. destruct (_ <=? _); [by intros [= _ <-]|done].
  - revert Hspec. case_decide; [done|]. by destruct (_ <=? _).
Qed.

Lemma node_read_spec id n :
  good (store n) →
  ∃ r n', read_chunk id n = (r, n') ∧ good (store n') ∧ abs (store n') = abs (store n) ∧
    cs_total (store n') = cs_total (store n) ∧
    match r with
    | Ok resp => abs (store n) !! id = Some (rc_chunk_bytes resp)
    | Err _ => abs (store n) !! id = None
    | Panic => False
    end.
Proof.
  intros Hg. destruct (run_get_spec id (store n) Hg) as (r & st' & Hr & Hspec & Hg' & (Ht & _) & _).
  simpl in Hr. cbv [mbind ST_bind mret ST_ret] in Hr. unfold read_chunk.
  destruct (get_chunk id (store n)) as [r0 st0] eqn:Hget.
  apply (on_store_run read_status) in Hget. simpl in Hspec.
  destruct r0 as [[d c]|e|]; injection Hr as <- <-.
  - rewrite (bind_ok _ _ _ _ _ Hget). eexists _, _. split; [done|]. cbn.
    revert Hspec. destruct (abs (store n) !! id) eqn:Ha; intros [= Hd _ Hab]. by subst.
  - rewrite (bind_err _ _ _ _ _ Hget). eexists _, _. split; [done|]. cbn.
    revert Hspec. destruct (abs (store n) !! id) eqn:Ha; by intros [= _ <-].
  - revert Hspec. by destruct (abs (store n) !! id).
Qed.

Lemma node_delete_spec id n :
  good (store n) →
  ∃ n', node_delete_chunk id n = (Ok id, n') ∧ good (store n') ∧
    abs (store n') = delete id (abs (store n)) ∧ cs_total (store n') = cs_total (store n).
Proof.
  intros Hg. destruct (run_delete_spec id (store n) Hg) as (r & st' & Hr & Hspec & Hg' & (Ht & _) & _).
  simpl in Hr. cbv [mbind ST_bind mret ST_ret] in Hr. unfold node_delete_chunk.
  destruct (delete_chunk id (store n)) as [r0 st0] eqn:Hdel.
  apply (on_store_run (λ _, Internal)) in Hdel. simpl in Hspec.
  destruct r0 as [[]|e|]; injection Hr as <- <-; [|done..].
  rewrite (bind_ok _ _ _ _ _ Hdel). eexists. split; [done|]. cbn. by injection Hspec.
Qed.

End node.
