(* ===== verification/NodeTheorems.v ===== *)
(** * NodeTheorems: the storage node's handlers, restart and retries

    The theorems about storage-node/src/main.rs and grpc_utils.rs. *)

From S2P Require Import Prelude.
From S2P Require Import Bytes.
From S2P Require Import PosFile.
From S2P Require Import Crc32.
From S2P Require Import ChunkStore.
From S2P Require Import SlotFacts.
From S2P Require Import ChunkStoreFacts.
From S2P Require Import ChunkStoreRecovery.
From S2P Require Import ChunkStoreSpec.
From S2P Require Import Grpc.
From S2P Require Import StorageNode.
From S2P Require Import NodeFacts.
Open Scope Z_scope.

(** ** Retries *)

(** [operation] fails with the errors of the list, each within the time limit. *)
Inductive failed_calls {S E A} (operation : S → answer E A * S) (limit : Z) :
    S → list E → S → Prop :=
  | failed_none s : failed_calls operation limit s [] s
  | failed_more s a s1 e es s2 :
      operation s = (a, s1) → timeout limit a = Some (inl e) →
      failed_calls operation limit s1 es s2 → failed_calls operation limit s (e :: es) s2.

Section retry.
Context {S E A : Type}.
Context (operation : S → answer E A * S) (config : RetryConfig).

(** After the errors [es], with attempts left: where the loop stands. *)
Lemma retry_loop_failed s es s1 k last sleeps :
  failed_calls operation (timeout_per_attempt config) s es s1 →
  k + zlen es < max_attempts config →
  retry_loop operation config (seqZ (k + 1) (max_attempts config - k)) last s sleeps =
  retry_loop operation config
    (seqZ (k + zlen es + 1) (max_attempts config - (k + zlen es)))
    (match list.last es with Some e => Some e | None => last end) s1 (sleeps + length es).
Proof.
  intros Hf. revert k last sleeps.
  induction Hf as [s|s a s1 e es s2 Hop Ht Hf IH]; intros k last sleeps Hk.
  { rewrite zlen_nil, Z.add_0_r, Nat.add_0_r. done. }
  rewrite zlen_cons in *. pose proof (zlen_nonneg es).
  rewrite seqZ_cons by lia. cbn [retry_loop]. rewrite Hop, Ht.
  rewrite (proj2 (Z.ltb_lt _ _)) by lia.
  replace (Z.succ (k + 1)) with (k + 1 + 1) by lia.
  replace (Z.pred (max_attempts config - k)) with (max_attempts config - (k + 1)) by lia.
  rewrite IH by lia. replace (k + 1 + zlen es) with (k + (zlen es + 1)) by lia.
  f_equal; [|simpl; lia]. rewrite last_cons. by destruct (list.last es).
Qed.

Lemma call_with_retry_failed s es s1 :
  failed_calls operation (timeout_per_attempt config) s es s1 →
  zlen es < max_attempts config →
  call_with_retry operation config s =
  retry_loop operation config (seqZ (zlen es + 1) (max_attempts config - zlen es))
    (list.last es) s1 (length es).
Proof.
  intros Hf Hl. unfold call_with_retry.
  pose proof (retry_loop_failed s es s1 0 None 0 Hf Hl) as Hr.
  rewrite Z.sub_0_r, !Z.add_0_l, Nat.add_0_l in Hr. rewrite Hr. by destruct (list.last es).
Qed.

(** [call_with_retry] goes on after up to [max_attempts - 1] errors and returns
    the first success, one sleep per failed attempt. *)
Theorem retry_returns_first_success s es s1 a s2 r :
  failed_calls operation (timeout_per_attempt config) s es s1 →
  zlen es < max_attempts config →
  operation s1 = (a, s2) → timeout (timeout_per_attempt config) a = Some (inr r) →
  call_with_retry operation config s = (Ok r, s2, length es).
Proof.
  intros Hf Hl Hop Ht. rewrite (call_with_retry_failed s es s1) by done.
  rewrite seqZ_cons by lia. simpl. by rewrite Hop, Ht.
Qed.

(** After [max_attempts] errors [call_with_retry] returns the last one; it called
    the operation [max_attempts] times and did not sleep after the last call. *)
Theorem retry_returns_last_error s es e s1 :
  failed_calls operation (timeout_per_attempt config) s (es ++ [e]) s1 →
  max_attempts config = zlen (es ++ [e]) →
  call_with_retry operation config s = (Err (OperationFailed e), s1, length es).
Proof.
  intros Hf Hl. rewrite zlen_app, zlen_cons, zlen_nil in Hl.
  assert (∃ s0 a, failed_calls operation (timeout_per_attempt config) s es s0 ∧
    operation s0 = (a, s1) ∧ timeout (timeout_per_attempt config) a = Some (inl e))
    as (s0 & a & Hf0 & Hop & Ht).
  { clear Hl. revert s Hf. induction es as [|e' es IH]; intros s Hf; simpl in Hf.
    - inversion_clear Hf as [|? ? ? ? ? ? Hop Ht Hr]. inversion_clear Hr in Hop Ht.
      eexists _, _. by split_and!; [constructor|..].
    - inversion_clear Hf as [|? ? ? ? ? ? Hop Ht Hr]. destruct (IH _ Hr) as (s0 & a0 & ? & ? & ?).
      eexists s0, a0. by split_and!; [econstructor|..]. }
  rewrite (call_with_retry_failed s es s0) by (done || lia).
  replace (max_attempts config - zlen es) with 1 by lia. simpl. rewrite Hop, Ht.
  by rewrite (proj2 (Z.ltb_ge _ _)) by lia.
Qed.

(** A timeout before any error is final: whatever [max_attempts] is, the operation
    is called once only, although the error's description says that all
    attempts timed out. *)
Theorem retry_stops_at_first_timeout s a s1 :
  0 < max_attempts config → operation s = (a, s1) →
  timeout (timeout_per_attempt config) a = None →
  call_with_retry operation config s = (Err Timeout, s1, O).
Proof.
  intros Hm Hop Ht. unfold call_with_retry. rewrite seqZ_cons by lia. simpl.
  by rewrite Hop, Ht.
Qed.
End retry.

(** ** Restarting the node *)

Section node.
Context `{Crc32}.

Lemma restart_spec opts st :
  good st →
  ∃ n f, construct (Some true) (Some (cs_total st)) opts (cs_file st) = (Ok n, f) ∧
    abs (store n) = abs st ∧ cs_index (store n) = cs_index st ∧
    cs_free (store n) ≡ₚ cs_free st ∧ cs_total (store n) = cs_total st ∧ good (store n).
Proof.
  intros [Hwf Hcl Hcalm _]. unfold construct. cbn [default from_option id].
  destruct (open_spec (cs_total st) opts (cs_file st)) as (r & f1 & Ho & Hs & Hp);
    [apply Hwf|apply Hwf|]. rewrite Ho.
  destruct r as [st1|e|]; [|done|done]. destruct Hp as (-> & Hlen & Hm).
  destruct (recover_index_spec (fast_recover opts) (cs_total st) (opened (cs_total st) opts f1))
    as (r & st2 & Hr & Hc & Hs2 & Hp); [apply Hwf|done|apply Hwf|done|].
  rewrite Hr. destruct r as [[]|e|]; [|destruct Hp; simpl; by eauto with store|done].
  eexists _, _. split; [done|]. cbn [store].
  destruct (recovered_clean st (fast_recover opts) (f_data f1) Hwf Hcl Hm) as (Hi & Hfr & Hco).
  destruct Hc as (Hl & Hd & _). cbn in Hl, Hd.
  assert (cs_index st2 = cs_index st ∧ cs_free st2 ≡ₚ cs_free st ∧ cs_total st2 = cs_total st ∧
    cs_poisoned st2 = false) as (Hi2 & Hf2 & Ht2 & Hpo2).
  { rewrite Hp. cbn [with_parts cs_index cs_free cs_total cs_poisoned opened].
    split_and!; [exact Hi|exact Hfr|done|done]. }
  destruct (wf_same_slots st st2 Hwf Hcl Hi2 Hf2 Ht2) as [Hwf2 Hcl2].
  { by rewrite <- Hl. }
  { by rewrite <- Hd. }
  split_and!; [|exact Hi2|exact Hf2|exact Ht2|].
  { unfold abs. rewrite <- Hd, Hi2. exact Hco. }
  split; [exact Hwf2|exact Hcl2| |exact Hpo2]. eapply calm_suffix; [|exact Hs2].
  eapply calm_suffix; [exact Hcalm|exact Hs].
Qed.

(** Stopping the node and starting it again on the same file, with either kind of
    recovery, gives a store in normal service with the same contents, the same
    index and the same free slots. *)
Theorem restart_keeps_the_chunks opts st :
  good st →
  ∃ n f, construct (Some true) (Some (cs_total st)) opts (cs_file st) = (Ok n, f) ∧
    abs (store n) = abs st ∧ cs_index (store n) = cs_index st ∧
    cs_free (store n) ≡ₚ cs_free st ∧ good (store n).
Proof.
  intros Hg. destruct (restart_spec opts st Hg) as (n & f & ? & ? & ? & ? & ? & ?).
  by exists n, f.
Qed.

(** ** Handlers *)

(** What the write handler answers, from what the abstract store answers. *)
Definition write_answer (id : Z) (r : outcome ErrorKind reply) : outcome Code Z :=
  match r with
  | Ok _ => Ok id
  | Err e => Err (write_status e)
  | Panic => Err Internal
  end.

(** A valid write to a node in normal service stores the chunk and answers with
    its id; a duplicate id is answered [AlreadyExists] and a full store
    [ResourceExhausted], with nothing changed. The gauge of free slots is exact after
    a success. *)
Theorem write_chunk_answers id bytes n :
  good (store n) → is_u64 id → zlen bytes ≤ SLOT_DATA_SIZE →
  ∃ r m n', spec_op (cs_total (store n)) (OpPut id bytes) (abs (store n)) = (r, m) ∧
    write_chunk id bytes n = (write_answer id r, n') ∧
    abs (store n') = m ∧ good (store n') ∧
    match r with
    | Ok _ => free_slots_gauge (metrics n') = cs_total (store n) - Z.of_nat (size m)
    | _ => metrics n' = metrics n
    end.
Proof.
  intros Hg Hid Hd.
  destruct (run_put_spec id bytes (store n) Hg Hid Hd) as (r & st' & Hr & Hspec & Hg' & Hcfg & _).
  destruct (put_chunk id bytes (store n)) as [r0 st0] eqn:Hput.
  assert (st0 = st' ∧ r = (match r0 with Ok _ => Ok RDone | Err e => Err e | Panic => Panic end))
    as [-> ->].
  { simpl in Hr. cbv [mbind ST_bind mret ST_ret] in Hr. rewrite Hput in Hr.
    by destruct r0; injection Hr as <- <-. }
  apply (on_store_run write_status) in Hput.
  unfold write_chunk. destruct r0 as [[]|e|].
  - rewrite (bind_ok _ _ _ _ _ Hput). eexists _, _, _.
    split_and!; [exact Hspec|reflexivity|done|done|]. cbn.
    pose proof (clean_capacity st' (g_wf _ Hg') (g_clean _ Hg')) as Hcap.
    destruct Hcfg as (Ht & _). rewrite Ht in Hcap. unfold free_slots. cbn in *. lia.
  - rewrite (bind_err _ _ _ _ _ Hput). by eexists _, _, _.
  - rewrite (bind_err _ _ _ _ _ Hput). by eexists _, _, _.
Qed.

(** Once the store's lock is poisoned every chunk request is answered
    [Internal], and the health check still answers that the node is healthy. *)
Theorem poisoned_node_reports_healthy n :
  cs_poisoned (store n) = true →
  check_health n = (Ok true, n) ∧
  ∀ id bytes, write_chunk id bytes n = (Err Internal, n) ∧
    read_chunk id n = (Err Internal, n) ∧ node_delete_chunk id n = (Err Internal, n).
Proof.
  intros Hpo. split; [done|]. intros id bytes.
  assert (∀ A (so : ErrorKind → Code) (m : ST ChunkStore ErrorKind A),
    m (store n) = (Panic, store n) → on_store so m n = (Err Internal, n)) as Hs.
  { intros A so m Hm. rewrite (on_store_run _ _ _ _ _ Hm). by destruct n. }
  unfold write_chunk, read_chunk, node_delete_chunk.
  split_and!; (erewrite bind_err; [done|]); apply Hs.
  all: unfold put_chunk, get_chunk, delete_chunk, write_guard, lock_index; run_st; by rewrite Hpo.
Qed.

End node.

(** ** Witnesses *)

(** A remote end that answers from a list, then never again. *)
Definition scripted (l : list (answer Code Z)) : answer Code Z * list (answer Code Z) :=
  match l with [] => (mkAnswer None 0, []) | a :: l => (a, l) end.
Definition refused : answer Code Z := mkAnswer (Some (inl Unavailable)) 10.
Definition accepted : answer Code Z := mkAnswer (Some (inr 42)) 10.
Definition slow : answer Code Z := mkAnswer (Some (inr 42)) 20000.

Lemma retry_returns_first_success_witness :
  call_with_retry scripted default_retry_config [refused; refused; accepted] =
  (Ok 42, [], 2%nat).
Proof.
  apply (retry_returns_first_success scripted default_retry_config _
    [Unavailable; Unavailable] [accepted] accepted); [|done|done|done].
  by repeat econstructor.
Defined.

Lemma retry_returns_last_error_witness :
  call_with_retry scripted default_retry_config [refused; refused; refused] =
  (Err (OperationFailed Unavailable), [], 2%nat).
Proof.
  apply (retry_returns_last_error scripted default_retry_config _
    [Unavailable; Unavailable] Unavailable []); [|done]. by repeat econstructor.
Defined.

Lemma retry_stops_at_first_timeout_witness :
  call_with_retry scripted default_retry_config [slow; accepted] = (Err Timeout, [accepted], O).
Proof. by apply (retry_stops_at_first_timeout scripted default_retry_config _ slow). Defined.

#[local] Existing Instance crc32_ieee.

Definition some_bytes : list byte := [x68; x69].
Definition small_store : ChunkStore := new_store 2 default_options.
Definition small_node : StorageNodeImpl := mkNode small_store metrics_new.

Lemma small_store_good : good small_store.
Proof. by apply new_store_good. Qed.

Lemma some_bytes_short : zlen some_bytes ≤ SLOT_DATA_SIZE.
Proof. by vm_compute. Qed.

Lemma node_put_good id data st :
  good st → is_u64 id → zlen data ≤ SLOT_DATA_SIZE → good (put_chunk id data st).2.
Proof.
  intros Hg Hid Hd. destruct (run_put_spec id data st Hg Hid Hd) as (r & st' & Hr & _ & Hg' & _).
  assert ((put_chunk id data st).2 = st') as ->; [|done].
  revert Hr. simpl. cbv [mbind ST_bind mret ST_ret].
  by destruct (put_chunk id data st) as [[]]; intros [= _ <-].
Qed.

Lemma restart_keeps_the_chunks_witness :
  let st := (put_chunk 7 some_bytes small_store).2 in
  ∃ n f, construct (Some true) (Some (cs_total st)) default_options (cs_file st) = (Ok n, f) ∧
    abs (store n) = abs st ∧ cs_index (store n) = cs_index st ∧
    cs_free (store n) ≡ₚ cs_free st ∧ good (store n).
Proof.
  apply (restart_keeps_the_chunks default_options (put_chunk 7 some_bytes small_store).2).
  by apply node_put_good; [apply small_store_good| |apply some_bytes_short].
Defined.

Lemma write_chunk_answers_witness :
  ∃ r m n', spec_op 2 (OpPut 7 some_bytes) (abs small_store) = (r, m) ∧
    write_chunk 7 some_bytes small_node = (write_answer 7 r, n') ∧
    abs (store n') = m ∧ good (store n') ∧
    match r with
    | Ok _ => free_slots_gauge (metrics n') = 2 - Z.of_nat (size m)
    | _ => metrics n' = metrics_new
    end.
Proof.
  apply (write_chunk_answers 7 some_bytes small_node small_store_good);
    [done|exact some_bytes_short].
Defined.

Lemma poisoned_node_reports_healthy_witness :
  let n := mkNode (set_poisoned true small_store) metrics_new in
  check_health n = (Ok true, n) ∧
  ∀ id bytes, write_chunk id bytes n = (Err Internal, n) ∧
    read_chunk id n = (Err Internal, n) ∧ node_delete_chunk id n = (Err Internal, n).
Proof. by apply (poisoned_node_reports_healthy (mkNode (set_poisoned true small_store) metrics_new)). Defined.
