(* ===== verification/Str.v ===== *)
(** * Str: Rust's [&str] operations on byte strings

    A [&str] is its UTF-8 bytes, one [ascii] per byte. *)

From Stdlib Require Export Ascii.
From S2P Require Import Prelude.
Open Scope string_scope.
Open Scope Z_scope.

Definition byte_of (c : ascii) : Z := Z.of_N (N_of_ascii c).
Definition chr (n : nat) : ascii := ascii_of_nat n.

(** [starts_with]. *)
Definition starts_with (p s : string) : bool := String.prefix p s.

(** [split(c)]: the pieces between the occurrences of [c], one more than there are. *)
Fixpoint split_on (c : ascii) (s : string) : list string :=
  match s with
  | "" => [""]
  | String x s =>
      if decide (x = c) then "" :: split_on c s
      else match split_on c s with
           | [] => [String x ""]
           | p :: ps => String x p :: ps
           end
  end.

(** The UTF-8 encodings of the [White_Space] characters. *)
Definition white_space : list (list Z) :=
  (((λ b, [b]) <$> [0x09; 0x0A; 0x0B; 0x0C; 0x0D; 0x20]) ++
  [[0xC2; 0x85]; [0xC2; 0xA0]; [0xE1; 0x9A; 0x80]] ++
  ((λ b, [0xE2; 0x80; b]) <$> (seqZ 0x80 11 ++ [0xA8; 0xA9; 0xAF])) ++
  [[0xE2; 0x81; 0x9F]; [0xE3; 0x80; 0x80]])%list.

Fixpoint strip (w l : list Z) : option (list Z) :=
  match w, l with
  | [], _ => Some l
  | a :: w, b :: l => if decide (a = b) then strip w l else None
  | _ :: _, [] => None
  end.

Definition strip_any (ws : list (list Z)) (l : list Z) : option (list Z) :=
  foldr (λ w r, match strip w l with Some l => Some l | None => r end) None ws.

(** Every turn removes at least a byte. *)
Fixpoint trim_loop (fuel : nat) (ws : list (list Z)) (l : list Z) : list Z :=
  match fuel with
  | O => l
  | S fuel =>
      match strip_any ws l with
      | Some l => trim_loop fuel ws l
      | None => l
      end
  end.

Definition bytes_of (s : string) : list Z := byte_of <$> String.list_ascii_of_string s.
Definition of_bytes (l : list Z) : string :=
  String.string_of_list_ascii ((λ b, ascii_of_N (Z.to_N b)) <$> l).

(** [trim]: from the front, then from the back. *)
Definition trim_bytes (l : list Z) : list Z :=
  let l := trim_loop (length l) white_space l in
  rev (trim_loop (length l) (rev (A:=Z) <$> white_space) (rev l)).
Definition trim (s : string) : string := of_bytes (trim_bytes (bytes_of s)).

Definition is_empty (s : string) : bool := match s with "" => true | _ => false end.

(** [parse] of an unsigned integer type with the given maximum: an optional [+], then
    at least one digit; too large a number is an error. *)
Definition digit (c : ascii) : option Z :=
  let d := byte_of c - 48 in if (0 <=? d) && (d <=? 9) then Some d else None.

Fixpoint parse_digits (limit acc : Z) (s : string) : option Z :=
  match s with
  | "" => Some acc
  | String c s =>
      match digit c with
      | Some d =>
          let acc := acc * 10 + d in
          if limit <? acc then None else parse_digits limit acc s
      | None => None
      end
  end.

Definition parse_unsigned (limit : Z) (s : string) : option Z :=
  match s with
  | "" | "+" | "-" => None
  | String "+" s => parse_digits limit 0 s
  | s => parse_digits limit 0 s
  end.

(** [parse::<bool>]. *)
Definition parse_bool (s : string) : option bool :=
  if String.eqb s "true" then Some true
  else if String.eqb s "false" then Some false else None.

(** ** Facts *)

Lemma starts_with_app p s : starts_with p (p +:+ s) = true.
Proof.
  unfold starts_with. induction p as [|c p IH]; simpl; [by destruct s|].
  by destruct (ascii_dec c c).
Qed.

Lemma split_on_nonempty c s : split_on c s ≠ [].
Proof. destruct s as [|x s]; simpl; [done|]. case_decide; [done|]. by destruct (split_on c s). Qed.

Lemma parse_digits_bound limit acc s n :
  0 ≤ acc ≤ limit → parse_digits limit acc s = Some n → 0 ≤ n ≤ limit.
Proof.
  revert acc. induction s as [|c s IH]; intros acc Hacc; simpl; [by intros [= <-]|].
  unfold digit. destruct (_ && _) eqn:Hd; [|done].
  apply andb_true_iff in Hd as [H1%Z.leb_le H2%Z.leb_le].
  destruct (Z.ltb_spec limit (acc * 10 + (byte_of c - 48))); [done|]. apply IH. lia.
Qed.

(** A parsed number is in the range of its type. *)
Lemma parse_unsigned_bound limit s n :
  0 ≤ limit → parse_unsigned limit s = Some n → 0 ≤ n ≤ limit.
Proof.
  intros Hl. unfold parse_unsigned. intros H.
  assert (∃ s', parse_digits limit 0 s' = Some n) as [s' Hs'].
  { repeat case_match; try done; eauto. }
  eapply parse_digits_bound; [|done]. lia.
Qed.

Example trim_both : trim "  http://a:1 " = "http://a:1". Proof. reflexivity. Qed.
Example trim_all : trim "  " = "". Proof. reflexivity. Qed.
Example split_two : split_on "," "a,b," = ["a"; "b"; ""]. Proof. reflexivity. Qed.
Example parse_port : parse_unsigned 65535 "4000" = Some 4000. Proof. reflexivity. Qed.
Example parse_plus : parse_unsigned 65535 "+7" = Some 7. Proof. reflexivity. Qed.
Example parse_big : parse_unsigned 65535 "65536" = None. Proof. reflexivity. Qed.
