(* ===== verification/NodeConfig.v ===== *)
(** * NodeConfig: the storage node's configuration

    storage-node/src/config.rs. The YAML parser is third-party: [load] takes what
    reading and parsing the file gave. The environment is a finite map. *)

From S2P Require Import Prelude.
From S2P Require Import ChunkStore.
From S2P Require Import Str.
Open Scope string_scope.
Open Scope list_scope.
Open Scope Z_scope.

Record StorageNodeConfig := mkConfig {
  metadata_addresses : list string;
  port : Z;
  metrics_port : Z;
  chunk_store_path : string;
  allocated_slots : option Z;
  cfg_fsync_every_n_writes : option Z;
  cfg_fsync_on_delete : bool;
  cfg_fast_recover : bool;
}.

Definition config_default : StorageNodeConfig :=
  mkConfig ["http://localhost:3001"] 3000 9092 "chunkstore.dat" None
    (Some DEFAULT_FSYNC_EVERY_N_WRITES) true false.

Definition env := gmap string string.

Definition with_scheme (addr : string) : string :=
  if starts_with "http://" addr || starts_with "https://" addr then addr
  else "http://" +:+ addr.

Definition set_addresses (l : list string) (c : StorageNodeConfig) :=
  mkConfig l (port c) (metrics_port c) (chunk_store_path c) (allocated_slots c)
    (cfg_fsync_every_n_writes c) (cfg_fsync_on_delete c) (cfg_fast_recover c).

(** [if let Ok(val) = env::var(name) { if let Ok(v) = val.parse() { .. } }]. *)
Definition env_parse {A} (e : env) (name : string) (parse : string → option A) : option A :=
  val ← e !! name; parse val.

Definition u16_max : Z := 65535.

Definition apply_env_overrides (e : env) (c : StorageNodeConfig) : StorageNodeConfig :=
  mkConfig
    (match e !! "METADATA_URLS" with
     | Some urls => (λ s, with_scheme (trim s)) <$> split_on "," urls
     | None => metadata_addresses c
     end)
    (default (port c) (env_parse e "GRPC_PORT" (parse_unsigned u16_max)))
    (default (metrics_port c) (env_parse e "METRICS_PORT" (parse_unsigned u16_max)))
    (chunk_store_path c)
    (match env_parse e "ALLOCATED_SLOTS" (parse_unsigned u64_max) with
     | Some slots => Some slots
     | None => allocated_slots c
     end)
    (match env_parse e "FSYNC_EVERY_N_WRITES" (parse_unsigned u64_max) with
     | Some n => Some n
     | None => cfg_fsync_every_n_writes c
     end)
    (default (cfg_fsync_on_delete c) (env_parse e "FSYNC_ON_DELETE" parse_bool))
    (default (cfg_fast_recover c) (env_parse e "FAST_RECOVER" parse_bool)).

Inductive ConfigError :=
  | FileError            (* reading or parsing the file failed *)
  | EmptyAddresses       (* metadata-addresses cannot be empty *)
  | EmptyAddress         (* metadata-addresses cannot contain empty strings *)
  | ZeroPort
  | ZeroMetricsPort.

Definition validate (c : StorageNodeConfig) : option ConfigError :=
  match metadata_addresses c with
  | [] => Some EmptyAddresses
  | addrs =>
      if existsb (λ addr, is_empty (trim addr)) addrs then Some EmptyAddress
      else if port c =? 0 then Some ZeroPort
      else if metrics_port c =? 0 then Some ZeroMetricsPort
      else None
  end.

Definition load (parsed : option StorageNodeConfig) (e : env) :
    outcome ConfigError StorageNodeConfig :=
  match parsed with
  | None => Err FileError
  | Some config =>
      let config := set_addresses (with_scheme <$> metadata_addresses config) config in
      let config := apply_env_overrides e config in
      match validate config with
      | Some err => Err err
      | None => Ok config
      end
  end.

Definition chunk_store_options (c : StorageNodeConfig) : ChunkStoreOptions :=
  mkOptions (cfg_fsync_every_n_writes c) (cfg_fsync_on_delete c) (cfg_fast_recover c).

(** ** Facts *)

Definition has_scheme (addr : string) : Prop :=
  starts_with "http://" addr = true ∨ starts_with "https://" addr = true.

Lemma with_scheme_has_scheme addr : has_scheme (with_scheme addr).
Proof.
  unfold with_scheme, has_scheme.
  destruct (starts_with "http://" addr) eqn:H1; [by left|].
  destruct (starts_with "https://" addr) eqn:H2; simpl; [by right|].
  left. apply (starts_with_app "http://").
Qed.

Lemma with_scheme_idemp addr : with_scheme (with_scheme addr) = with_scheme addr.
Proof.
  destruct (with_scheme_has_scheme addr) as [Hs|Hs]; unfold with_scheme at 1; rewrite Hs;
    [done|by rewrite orb_true_r].
Qed.

(** An address with a scheme starts with a letter: [trim] leaves something of it. *)
Lemma has_scheme_h addr : has_scheme addr → ∃ s, addr = String "h" s.
Proof.
  unfold has_scheme, starts_with. intros [H|H].
  all: destruct addr as [|c s]; simpl in H; [done|]; exists s.
  all: case_match; [by subst|done].
Qed.

Lemma strip_app w l l' : strip w l = Some l' → l = w ++ l'.
Proof.
  revert l. induction w as [|a w IH]; intros l; simpl; [by intros [= ->]|].
  destruct l as [|b l]; [done|]. case_decide; [|done]. subst. intros ->%IH. done.
Qed.

Lemma strip_any_in ws l l' x :
  Forall (λ w, x ∉ w) ws → x ∈ l → strip_any ws l = Some l' → x ∈ l'.
Proof.
  intros Hws Hx. induction Hws as [|w ws Hw Hws IH]; simpl; [done|].
  destruct (strip w l) as [k|] eqn:Hk; [|done]. intros [= <-].
  apply strip_app in Hk as ->. set_solver.
Qed.

(** [trim] never removes a byte that is not part of a white space. *)
Lemma trim_loop_in fuel ws l x :
  Forall (λ w, x ∉ w) ws → x ∈ l → x ∈ trim_loop fuel ws l.
Proof.
  intros Hws. revert l. induction fuel as [|fuel IH]; intros l Hx; simpl; [done|].
  destruct (strip_any ws l) as [k|] eqn:Hk; [|done]. apply IH. by eapply strip_any_in.
Qed.

Lemma trim_bytes_in l x :
  Forall (λ w, x ∉ w) white_space → Forall (λ w, x ∉ w) (rev (A:=Z) <$> white_space) →
  x ∈ l → x ∈ trim_bytes l.
Proof.
  intros H1 H2 Hx. unfold trim_bytes. apply list_elem_of_In, in_rev. rewrite rev_involutive.
  apply list_elem_of_In, trim_loop_in; [done|].
  apply list_elem_of_In. rewrite <-in_rev. by apply list_elem_of_In, trim_loop_in.
Qed.

Lemma h_not_white :
  Forall (λ w, 104 ∉ w) white_space ∧ Forall (λ w, 104 ∉ w) (rev (A:=Z) <$> white_space).
Proof. split; apply (bool_decide_unpack _); by vm_compute. Qed.

Lemma trim_has_scheme addr : has_scheme addr → is_empty (trim addr) = false.
Proof.
  intros [s ->]%has_scheme_h. unfold trim.
  assert (104 ∈ trim_bytes (bytes_of (String "h" s))) as Hin.
  { destruct h_not_white. apply trim_bytes_in; [done..|]. unfold bytes_of. simpl. left. }
  by destruct (trim_bytes _); [set_solver|].
Qed.

(** ** Properties *)

Definition addresses_ok (c : StorageNodeConfig) : Prop :=
  metadata_addresses c ≠ [] ∧ Forall has_scheme (metadata_addresses c).

Lemma overrides_scheme e c :
  Forall has_scheme (metadata_addresses c) →
  Forall has_scheme (metadata_addresses (apply_env_overrides e c)).
Proof.
  intros Hc. unfold apply_env_overrides. simpl. destruct (e !! "METADATA_URLS"); [|done].
  apply Forall_fmap, Forall_true. intros s1. apply with_scheme_has_scheme.
Qed.

Lemma env_parse_bound limit e name n :
  0 ≤ limit → env_parse e name (parse_unsigned limit) = Some n → 0 ≤ n ≤ limit.
Proof.
  intros Hl. unfold env_parse. destruct (e !! name); [|done]. simpl. by apply parse_unsigned_bound.
Qed.

(** C40: a configuration that loads has at least one metadata address, every address
    carries a scheme, and both ports are in 1..65535. *)
Theorem load_validates parsed e c :
  (∀ p, parsed = Some p → 0 ≤ port p ≤ u16_max ∧ 0 ≤ metrics_port p ≤ u16_max) →
  load parsed e = Ok c →
  addresses_ok c ∧ 1 ≤ port c ≤ u16_max ∧ 1 ≤ metrics_port c ≤ u16_max.
Proof.
  intros Hp. unfold load. destruct parsed as [p|]; [|done].
  destruct (Hp p eq_refl) as [Hp1 Hp2]. clear Hp.
  set (c0 := apply_env_overrides e _).
  destruct (validate c0) eqn:Hv; [done|]. intros [= <-].
  assert (0 ≤ port c0 ≤ u16_max ∧ 0 ≤ metrics_port c0 ≤ u16_max) as [Hr1 Hr2].
  { subst c0. unfold apply_env_overrides. simpl. split.
    - destruct (env_parse e "GRPC_PORT" _) eqn:He; [|done].
      by eapply env_parse_bound.
    - destruct (env_parse e "METRICS_PORT" _) eqn:He; [|done].
      by eapply env_parse_bound. }
  assert (Forall has_scheme (metadata_addresses c0)) as Hs.
  { apply overrides_scheme. simpl. apply Forall_fmap, Forall_true. intros s.
    apply with_scheme_has_scheme. }
  unfold validate in Hv. destruct (metadata_addresses c0) as [|a l] eqn:Ha; [done|].
  destruct (existsb _ _); [done|].
  destruct (Z.eqb_spec (port c0) 0); [done|]. destruct (Z.eqb_spec (metrics_port c0) 0); [done|].
  unfold addresses_ok. rewrite Ha. split_and!; try done; lia.
Qed.

(** The check for empty addresses can never fail: the scheme is added before the
    configuration is validated, so an empty [METADATA_URLS] is accepted as the one
    address "http://". *)
Theorem empty_address_check_is_dead parsed e :
  load parsed e ≠ Err EmptyAddress ∧
  (e !! "METADATA_URLS" = Some "" → ∀ c, load parsed e = Ok c →
     metadata_addresses c = ["http://"]).
Proof.
  unfold load. destruct parsed as [p|]; [|done].
  set (c0 := apply_env_overrides e _).
  assert (Forall has_scheme (metadata_addresses c0)) as Hs.
  { apply overrides_scheme. simpl. apply Forall_fmap, Forall_true. intros s.
    apply with_scheme_has_scheme. }
  split.
  - assert (existsb (λ addr, is_empty (trim addr)) (metadata_addresses c0) = false) as He.
    { apply not_true_iff_false. rewrite existsb_exists. intros (a & Ha%list_elem_of_In & Hb).
      rewrite list.Forall_forall in Hs. by rewrite trim_has_scheme in Hb by by apply Hs. }
    unfold validate. destruct (metadata_addresses c0) as [|a l]; [by intros [=]|]. rewrite He.
    repeat case_match; congruence.
  - intros Hm c. destruct (validate c0); [done|]. intros [= <-].
    subst c0. unfold apply_env_overrides. simpl. by rewrite Hm.
Qed.

Lemma load_validates_witness :
  load (Some config_default) {["GRPC_PORT" := "4000"; "METADATA_URLS" := "a:1, b:2"]} =
    Ok (mkConfig ["http://a:1"; "http://b:2"] 4000 9092 "chunkstore.dat" None (Some 1) true false) ∧
  addresses_ok (mkConfig ["http://a:1"; "http://b:2"] 4000 9092 "chunkstore.dat" None (Some 1) true false).
Proof.
  assert (load (Some config_default) {["GRPC_PORT" := "4000"; "METADATA_URLS" := "a:1, b:2"]} =
    Ok (mkConfig ["http://a:1"; "http://b:2"] 4000 9092 "chunkstore.dat" None (Some 1) true false))
    as Hl by (vm_compute; reflexivity).
  split; [exact Hl|].
  apply (load_validates _ _ _) in Hl; [apply Hl|]. intros p [= <-]. clear. unfold u16_max. simpl. lia.
Defined.

Lemma empty_address_check_is_dead_witness :
  load (Some config_default) {["METADATA_URLS" := ""]} ≠ Err EmptyAddress ∧
  ∀ c, load (Some config_default) {["METADATA_URLS" := ""]} = Ok c →
    metadata_addresses c = ["http://"].
Proof.
  destruct (empty_address_check_is_dead (Some config_default) {["METADATA_URLS" := ""]}) as [H1 H2].
  split; [exact H1|]. apply H2. by vm_compute.
Defined.
