(* ===== verification/HashRing.v ===== *)
(** * HashRing: consistent hashing of object names onto metadata nodes

    storage-metadata/src/hash_ring.rs. The [BTreeMap] of virtual nodes is its sorted
    list of entries; the xxh3 hash is third-party and only known to be a [u64]. *)

From stdpp Require Import pretty.
From S2P Require Import Prelude.
Open Scope string_scope.
Open Scope list_scope.
Open Scope Z_scope.

(** The hash function of the crate [xxhash_rust]. *)
Class Xxh3 := {
  xxh3_64 : string → Z;
  xxh3_64_u64 s : is_u64 (xxh3_64 s);
}.

Definition VNODES_PER_NODE : Z := 150.

(** [BTreeMap<u64, String>]: entries in increasing order of their keys. *)
Definition HashRing := list (Z * string).

Definition ring_new : HashRing := [].

(** [BTreeMap::insert]. *)
Fixpoint ring_insert (hash : Z) (node_id : string) (ring : HashRing) : HashRing :=
  match ring with
  | [] => [(hash, node_id)]
  | (k, v) :: rest =>
      if hash <? k then (hash, node_id) :: ring
      else if hash =? k then (k, node_id) :: rest
      else (k, v) :: ring_insert hash node_id rest
  end.

(** [range(hash..).next()]. *)
Fixpoint range_next (hash : Z) (ring : HashRing) : option (Z * string) :=
  match ring with
  | [] => None
  | (k, v) :: rest => if hash <=? k then Some (k, v) else range_next hash rest
  end.

(** The owner of a position of the ring. *)
Definition owner_at (ring : HashRing) (hash : Z) : option string :=
  match ring with
  | [] => None
  | (_, first) :: _ =>
      match range_next hash ring with
      | Some (_, node_id) => Some node_id
      | None => Some first
      end
  end.

(** The ranges of one vnode at [pos] after the vnode at [prev_pos]. *)
Definition vnode_ranges (prev_pos pos : Z) : list (Z * Z) :=
  if prev_pos <? pos then [(wrap64 (prev_pos + 1), wrap64 (pos + 1))]
  else [(wrap64 (prev_pos + 1), u64_max); (0, wrap64 (pos + 1))].

(** The loop over the entries, [prev_pos] being the position of the entry before. *)
Fixpoint owned_ranges_loop (node_id : string) (prev_pos : Z) (ring : HashRing) :
    list (Z * Z) :=
  match ring with
  | [] => []
  | (pos, owner) :: rest =>
      (if String.eqb owner node_id then vnode_ranges prev_pos pos else []) ++
      owned_ranges_loop node_id pos rest
  end.

Definition get_owned_ranges (ring : HashRing) (node_id : string) : list (Z * Z) :=
  match list.last ring with
  | None => []
  | Some (last_pos, _) => owned_ranges_loop node_id last_pos ring
  end.

Definition hash_in_ranges (hash : Z) (ranges : list (Z * Z)) : bool :=
  existsb (λ '(start, stop),
    if start <=? stop then (start <=? hash) && (hash <? stop)
    else (start <=? hash) || (hash <? stop)) ranges.

(** [sort] then [dedup]. *)
Fixpoint sort_insert (s : string) (l : list string) : list string :=
  match l with
  | [] => [s]
  | x :: l => if String.leb s x then s :: x :: l else x :: sort_insert s l
  end.
Definition sort (l : list string) : list string := foldr sort_insert [] l.
Fixpoint dedup (l : list string) : list string :=
  match l with
  | [] => []
  | x :: l =>
      match dedup l with
      | [] => [x]
      | y :: k => if String.eqb x y then y :: k else x :: y :: k
      end
  end.

Definition nodes (ring : HashRing) : list string := dedup (sort (ring.*2)).
Definition node_count (ring : HashRing) : Z := zlen (dedup (sort (ring.*2))).
Definition ring_is_empty (ring : HashRing) : bool :=
  match ring with [] => true | _ => false end.

(** [retain(|_, v| v != node_id)]. *)
Definition remove_node (node_id : string) (ring : list (Z * string)) : HashRing :=
  filter (λ kv, kv.2 ≠ node_id) ring.

Section ring.
Context `{Xxh3}.

Definition hash_key (key : string) : Z := xxh3_64 key.

Definition vnode_hash (node_id : string) (i : Z) : Z :=
  xxh3_64 (node_id +:+ "-vnode-" +:+ pretty i).

(** [for i in 0..VNODES_PER_NODE]. *)
Definition add_node (node_id : string) (ring : HashRing) : HashRing :=
  foldl (λ ring i, ring_insert (vnode_hash node_id i) node_id ring) ring
    (seqZ 0 VNODES_PER_NODE).

Definition get_owner (ring : HashRing) (key : string) : option string :=
  owner_at ring (xxh3_64 key).

End ring.
