(* ===== verification/HashRingFacts.v ===== *)
(** * HashRingFacts: owners, ranges and membership changes

    The sorted-entries invariant of the ring, the owner of a position as the vnode
    at the least clockwise distance, and the ranges a node owns. *)

From stdpp Require Import pretty.
From S2P Require Import Prelude.
From S2P Require Import HashRing.
Open Scope string_scope.
Open Scope list_scope.
Open Scope Z_scope.

(** ** The invariant *)

Record ring_wf (ring : HashRing) : Prop := mkRingWf {
  rw_sorted : StronglySorted Z.lt (ring.*1);
  rw_u64 : Forall is_u64 (ring.*1);
}.

(** How far clockwise [k] is from [h]. *)
Definition clockwise (h k : Z) : Z := wrap64 (k - h).

(** [v] owns the vnode at the least clockwise distance from [h]. *)
Definition owner_is (ring : HashRing) (h : Z) (v : string) : Prop :=
  ∃ k, (k, v) ∈ ring ∧ ∀ k' v', (k', v') ∈ ring → clockwise h k ≤ clockwise h k'.

(** No vnode sits on the last position of the hash space. *)
Definition below_max (ring : HashRing) : Prop := ∀ k v, (k, v) ∈ ring → k < u64_max.

Lemma Forall_keys (P : Z → Prop) (ring : HashRing) :
  Forall P (ring.*1) ↔ ∀ k v, (k, v) ∈ ring → P k.
Proof.
  rewrite Forall_fmap, list.Forall_forall. split; [|intros Hp [k v]; apply Hp].
  intros Hp k v. apply (Hp (k, v)).
Qed.

Lemma ring_wf_nil : ring_wf [].
Proof. split; constructor. Qed.

Lemma ring_wf_cons k v ring :
  ring_wf ((k, v) :: ring) ↔
    is_u64 k ∧ (∀ k' v', (k', v') ∈ ring → k < k') ∧ ring_wf ring.
Proof.
  rewrite <-(Forall_keys (λ k', k < k')). split.
  - intros [Hs Hu]. simpl in *. apply StronglySorted_inv in Hs as [Hs Hk].
    apply list.Forall_cons in Hu as [? ?]. by split_and!.
  - intros (? & ? & [Hs Hu]). split; simpl; by constructor.
Qed.

Lemma ring_insert_elem h n ring k v :
  ring_wf ring →
  (k, v) ∈ ring_insert h n ring ↔ (k = h ∧ v = n) ∨ (k ≠ h ∧ (k, v) ∈ ring).
Proof.
  induction ring as [|[k' v'] ring IH]; intros Hwf; simpl.
  { rewrite list_elem_of_singleton. split; [intros [= -> ->]; by left|].
    intros [[-> ->]|[_ Hin]]; [done|by apply not_elem_of_nil in Hin]. }
  apply ring_wf_cons in Hwf as (_ & Hk & Hwf).
  destruct (Z.ltb_spec h k').
  { rewrite !elem_of_cons. split; [|naive_solver].
    intros [[= -> ->]|[[= -> ->]|Hin]]; [by left|right; split; [lia|auto]|].
    apply Hk in Hin as ?. right. split; [lia|auto]. }
  destruct (Z.eqb_spec h k') as [->|Hne].
  { rewrite !elem_of_cons. split.
    - intros [[= -> ->]|Hin]; [by left|]. apply Hk in Hin as ?.
      right. split; [lia|auto].
    - intros [[-> ->]|[Hne [[= -> ->]|Hin]]]; [by left|done|by right]. }
  rewrite !elem_of_cons, IH by done. split; [|naive_solver].
  intros [[= -> ->]|[[-> ->]|[? ?]]]; [right; split; [congruence|by left]|by left|auto].
Qed.

Lemma ring_insert_wf h n ring : is_u64 h → ring_wf ring → ring_wf (ring_insert h n ring).
Proof.
  intros Hh. induction ring as [|[k v] ring IH]; intros Hwf; simpl.
  { apply ring_wf_cons. split_and!; [done|by intros ?? []%not_elem_of_nil|apply ring_wf_nil]. }
  pose proof Hwf as (Hk & Hlt & Hwf')%ring_wf_cons.
  destruct (Z.ltb_spec h k).
  { apply ring_wf_cons. split_and!; [done| |done].
    intros k' v' [[= -> ->]|Hin]%elem_of_cons; [done|]. apply Hlt in Hin. lia. }
  destruct (Z.eqb_spec h k); apply ring_wf_cons; [by split_and!|].
  split_and!; [done| |by apply IH].
  intros k' v' [[-> ->]|[_ Hin]]%ring_insert_elem; [lia| |done]. by eapply Hlt.
Qed.

Lemma ring_unique ring k v v' :
  ring_wf ring → (k, v) ∈ ring → (k, v') ∈ ring → v = v'.
Proof.
  induction ring as [|[k0 v0] ring IH]; intros Hwf; [by intros []%not_elem_of_nil|].
  apply ring_wf_cons in Hwf as (_ & Hlt & Hwf).
  rewrite !elem_of_cons. intros [[= -> ->]|H1] [[= Hv]|H2]; subst; try done.
  - apply Hlt in H2. lia.
  - apply Hlt in H1. lia.
  - by apply IH.
Qed.

Lemma ring_key_u64 ring k v : ring_wf ring → (k, v) ∈ ring → is_u64 k.
Proof. intros [_ Hu] Hin. rewrite Forall_keys in Hu. by eapply Hu. Qed.

(** ** Owners *)

Lemma clockwise_ge h k : is_u64 h → is_u64 k → h ≤ k → clockwise h k = k - h.
Proof. unfold clockwise, is_u64. intros. apply wrap64_id. unfold is_u64. lia. Qed.
Lemma clockwise_lt h k : is_u64 h → is_u64 k → k < h → clockwise h k = k - h + 2 ^ 64.
Proof.
  unfold clockwise, is_u64, wrap64. intros. symmetry.
  apply (Z.mod_unique _ _ (-1)); lia.
Qed.
Lemma clockwise_inj h k k' :
  is_u64 h → is_u64 k → is_u64 k' → clockwise h k = clockwise h k' → k = k'.
Proof.
  intros Hh Hk Hk'. destruct (Z.le_gt_cases h k), (Z.le_gt_cases h k').
  all: rewrite ?(clockwise_ge h k), ?(clockwise_lt h k), ?(clockwise_ge h k'),
    ?(clockwise_lt h k') by done.
  all: unfold is_u64 in *; lia.
Qed.

(** At most one node owns a position. *)
Lemma owner_is_unique ring h v v' :
  ring_wf ring → is_u64 h → owner_is ring h v → owner_is ring h v' → v = v'.
Proof.
  intros Hwf Hh (k & Hk & Hmin) (k' & Hk' & Hmin').
  assert (k = k') as ->; [|by eapply ring_unique].
  eapply clockwise_inj; [done|by eapply ring_key_u64|by eapply ring_key_u64|].
  specialize (Hmin _ _ Hk'). specialize (Hmin' _ _ Hk). lia.
Qed.

Lemma range_next_Some h ring k v :
  ring_wf ring → range_next h ring = Some (k, v) →
  (k, v) ∈ ring ∧ h ≤ k ∧ ∀ k' v', (k', v') ∈ ring → h ≤ k' → k ≤ k'.
Proof.
  induction ring as [|[k0 v0] ring IH]; intros Hwf; simpl; [done|].
  apply ring_wf_cons in Hwf as (_ & Hlt & Hwf).
  destruct (Z.leb_spec h k0) as [Hle|Hgt].
  - intros [= <- <-]. split_and!; [by left|done|].
    intros k' v' [[= -> ->]|Hin]%elem_of_cons _; [done|]. apply Hlt in Hin. lia.
  - intros (? & ? & Hmin)%IH; [|done]. split_and!; [by right|done|].
    intros k' v' [[= -> ->]|Hin]%elem_of_cons Hle; [lia|by eapply Hmin].
Qed.

Lemma range_next_None h ring :
  range_next h ring = None → ∀ k v, (k, v) ∈ ring → k < h.
Proof.
  induction ring as [|[k0 v0] ring IH]; simpl; [by intros _ ? ? []%not_elem_of_nil|].
  destruct (Z.leb_spec h k0); [done|]. intros Hn k v [[= -> ->]|Hin]%elem_of_cons; [done|].
  by eapply IH.
Qed.

(** The lookup finds the vnode at the least clockwise distance. *)
Lemma owner_at_sound ring h v :
  ring_wf ring → is_u64 h → owner_at ring h = Some v → owner_is ring h v.
Proof.
  intros Hwf Hh. unfold owner_at. destruct ring as [|[k0 v0] ring0] eqn:Hr; [done|].
  rewrite <-Hr in *. destruct (range_next h ring) as [[k v']|] eqn:Hn; intros [= <-].
  - apply range_next_Some in Hn as (Hin & Hle & Hmin); [|done]. exists k. split; [done|].
    intros k' v'' Hin'. pose proof (ring_key_u64 _ _ _ Hwf Hin).
    pose proof (ring_key_u64 _ _ _ Hwf Hin'). rewrite clockwise_ge by done.
    destruct (Z.le_gt_cases h k').
    + rewrite clockwise_ge by done. specialize (Hmin _ _ Hin'). lia.
    + rewrite clockwise_lt by done. unfold is_u64 in *. lia.
  - pose proof (range_next_None _ _ Hn) as Hall.
    assert ((k0, v0) ∈ ring) as Hin by (rewrite Hr; by left). exists k0. split; [done|].
    intros k' v' Hin'. rewrite !clockwise_lt by eauto using ring_key_u64.
    rewrite Hr in Hwf, Hin'. apply ring_wf_cons in Hwf as (_ & Hlt & _).
    apply elem_of_cons in Hin' as [[= -> ->]|Hin']; [done|].
    apply Hlt in Hin'. lia.
Qed.

Lemma owner_at_None ring h : owner_at ring h = None ↔ ring = [].
Proof. destruct ring as [|[k v] ring]; [done|]. simpl. split; [|done]. by repeat case_match. Qed.

Lemma owner_at_spec ring h v :
  ring_wf ring → is_u64 h → owner_at ring h = Some v ↔ owner_is ring h v.
Proof.
  intros Hwf Hh. split; [by apply owner_at_sound|]. intros Ho.
  destruct (owner_at ring h) as [v'|] eqn:He.
  - f_equal. apply owner_at_sound in He; [|done..]. by eapply owner_is_unique.
  - apply owner_at_None in He as ->. by destruct Ho as (k & []%not_elem_of_nil & _).
Qed.

(** ** Owned ranges *)

Lemma hash_in_ranges_app h l k :
  hash_in_ranges h (l ++ k) = hash_in_ranges h l || hash_in_ranges h k.
Proof. unfold hash_in_ranges. apply existsb_app. Qed.

Lemma vnode_ranges_next h prev k :
  0 ≤ prev → prev < k → k < u64_max →
  hash_in_ranges h (vnode_ranges prev k) = (prev <? h) && (h <=? k).
Proof.
  intros Hp Hk Hm. unfold vnode_ranges. rewrite (proj2 (Z.ltb_lt _ _)) by done. simpl.
  unfold u64_max in *. rewrite !wrap64_id by (unfold is_u64; lia).
  rewrite (proj2 (Z.leb_le _ _)), orb_false_r by lia.
  apply eq_true_iff_eq. rewrite !andb_true_iff, !Z.leb_le, !Z.ltb_lt. lia.
Qed.

(** The wrap-around stops short of the last position. *)
Lemma vnode_ranges_wrap h prev k :
  0 ≤ k → k ≤ prev → prev < u64_max → is_u64 h →
  hash_in_ranges h (vnode_ranges prev k) = (prev <? h) && (h <? u64_max) || (h <=? k).
Proof.
  intros Hk Hp Hm Hh. unfold vnode_ranges. rewrite (proj2 (Z.ltb_ge _ _)) by done. simpl.
  unfold is_u64, u64_max in *. rewrite !wrap64_id by (unfold is_u64; lia).
  rewrite (proj2 (Z.leb_le (prev + 1) _)), (proj2 (Z.leb_le 0 (k + 1))), orb_false_r by lia.
  apply eq_true_iff_eq. rewrite !orb_true_iff, !andb_true_iff, !Z.leb_le, !Z.ltb_lt. lia.
Qed.

Lemma below_max_cons p ring : below_max (p :: ring) → below_max ring.
Proof. intros Hm k v Hin. eapply Hm. by right. Qed.

(** The ranges after [prev]: the hashes above it whose next vnode is the node's. *)
Lemma owned_ranges_loop_spec n h prev ring :
  ring_wf ring → below_max ring → 0 ≤ prev → (∀ k v, (k, v) ∈ ring → prev < k) → is_u64 h →
  hash_in_ranges h (owned_ranges_loop n prev ring) =
  (prev <? h) && match range_next h ring with Some (_, v) => String.eqb v n | None => false end.
Proof.
  revert prev. induction ring as [|[k v] ring IH]; intros prev Hwf Hmax Hp Hlt Hh; simpl.
  { by rewrite andb_false_r. }
  apply ring_wf_cons in Hwf as (Hk & Hkl & Hwf).
  assert (prev < k) as Hpk by (eapply Hlt; by left).
  assert (k < u64_max) as Hkm by (eapply Hmax; by left).
  rewrite hash_in_ranges_app, IH;
    [|done|by eapply below_max_cons|unfold is_u64 in *; lia|done|done].
  assert (∀ b : bool, hash_in_ranges h (if b then vnode_ranges prev k else []) =
    b && ((prev <? h) && (h <=? k))) as ->.
  { intros []; [by rewrite vnode_ranges_next|done]. }
  destruct (Z.leb_spec h k), (Z.ltb_spec k h), (Z.ltb_spec prev h); try lia.
  all: by destruct (String.eqb v n); rewrite ?andb_false_r.
Qed.

Lemma ring_last_max k0 v0 ring :
  ring_wf ((k0, v0) :: ring) →
  ∃ kl vl, list.last ((k0, v0) :: ring) = Some (kl, vl) ∧ (kl, vl) ∈ (k0, v0) :: ring ∧
    ∀ k v, (k, v) ∈ (k0, v0) :: ring → k ≤ kl.
Proof.
  revert k0 v0. induction ring as [|[k1 v1] ring IH]; intros k0 v0 Hwf.
  { exists k0, v0. split_and!; [done|by left|]. by intros k v [= -> ->]%list_elem_of_singleton. }
  pose proof Hwf as (_ & Hlt & Hwf')%ring_wf_cons.
  destruct (IH _ _ Hwf') as (kl & vl & Hl & Hin & Hmax). exists kl, vl. split_and!.
  - by rewrite last_cons_cons.
  - by right.
  - intros k v [[= -> ->]|Hk]%elem_of_cons; [|by eapply Hmax].
    apply Hlt in Hin. lia.
Qed.

Lemma range_next_past h ring kl :
  (∀ k v, (k, v) ∈ ring → k ≤ kl) → kl < h → range_next h ring = None.
Proof.
  intros Hmax Hh. destruct (range_next h ring) as [[k v]|] eqn:Hn; [|done]. exfalso.
  induction ring as [|[k0 v0] ring IH]; simpl in Hn; [done|].
  destruct (Z.leb_spec h k0).
  - specialize (Hmax k0 v0 ltac:(by left)). lia.
  - apply IH; [|done]. intros. eapply Hmax. by right.
Qed.

Lemma range_next_before h ring kl vl :
  (kl, vl) ∈ ring → h ≤ kl → is_Some (range_next h ring).
Proof.
  intros Hin Hle. destruct (range_next h ring) as [[]|] eqn:Hn; [eauto|].
  pose proof (range_next_None _ _ Hn _ _ Hin). lia.
Qed.

(** The ranges of a node are the hashes it owns, except for the last position. *)
Lemma owned_ranges_spec ring n h :
  ring_wf ring → below_max ring → is_u64 h →
  hash_in_ranges h (get_owned_ranges ring n) =
  bool_decide (owner_at ring h = Some n) && (h <? u64_max).
Proof.
  intros Hwf Hmax Hh. destruct ring as [|[k0 v0] ring]; [done|].
  destruct (ring_last_max _ _ _ Hwf) as (kl & vl & Hlast & Hin & Hle).
  unfold get_owned_ranges. rewrite Hlast. cbn [owned_ranges_loop owner_at range_next].
  pose proof Hwf as (Hk0 & Hlt & Hwf')%ring_wf_cons.
  assert (k0 ≤ kl) as Hk0l by (eapply Hle; by left).
  assert (kl < u64_max) as Hklm by (by eapply Hmax).
  rewrite hash_in_ranges_app, owned_ranges_loop_spec;
    [|done|by eapply below_max_cons|unfold is_u64 in *; lia|done|done].
  assert (∀ b : bool, hash_in_ranges h (if b then vnode_ranges kl k0 else []) =
    b && ((kl <? h) && (h <? u64_max) || (h <=? k0))) as ->.
  { intros []; [|done]. rewrite vnode_ranges_wrap; [done|unfold is_u64 in *; lia|done..]. }
  assert (∀ v, String.eqb v n = bool_decide (Some v = Some n)) as Heq.
  { intros v. apply eq_true_iff_eq. rewrite String.eqb_eq, bool_decide_eq_true. naive_solver. }
  destruct (Z.leb_spec h k0).
  { rewrite (proj2 (Z.ltb_ge k0 h)), (proj2 (Z.ltb_lt h u64_max)) by lia.
    by rewrite orb_true_r, orb_false_r, Heq. }
  rewrite (proj2 (Z.ltb_lt k0 h)) by lia. rewrite orb_false_r.
  destruct (Z.le_gt_cases h kl).
  - rewrite (proj2 (Z.ltb_ge kl h)), (proj2 (Z.ltb_lt h u64_max)) by lia.
    destruct (range_next_before h ring kl vl) as [[k v] ->]; [|done|].
    + apply elem_of_cons in Hin as [[= -> ->]|?]; [lia|done].
    + by rewrite andb_false_r, Heq, andb_true_r.
  - rewrite (range_next_past h ring kl) by (done || intros; eapply Hle; by right).
    rewrite (proj2 (Z.ltb_lt kl h)) by lia. by rewrite orb_false_r, Heq.
Qed.
