(* ===== verification/MetadataStore.v ===== *)
(** * MetadataStore: objects, chunks and storage nodes

    storage-metadata/src/metadata_store.rs: the maps a metadata node keeps, their
    persistence by write-then-rename, and every operation on them. *)

From S2P Require Import Prelude.
From S2P Require Import HashRing.
Open Scope string_scope.
Open Scope list_scope.
Open Scope Z_scope.

(** ** Data *)

Record MetaStorageNode := mkMetaStorageNode {
  sn_id : Z;
  sn_address : string;
}.

Inductive ChunkStatus := Pending | Confirmed.

#[export] Instance ChunkStatus_eq_dec : EqDecision ChunkStatus.
Proof. solve_decision. Defined.

Definition chunk_status_default : ChunkStatus := Confirmed.

Record MetaChunk := mkMetaChunk {
  mc_id : Z;
  mc_object_name : string;
  mc_checksum : Z;
  mc_storage_nodes : list Z;
  mc_status : ChunkStatus;
}.

Record MetaObject := mkMetaObject {
  mo_name : string;
  mo_checksum : Z;
  mo_chunks : list Z;
  mo_total_size : Z;
}.

Definition PERSISTENT_STATE_VERSION : Z := 1.

Record PersistentState := mkPersistentState {
  ps_version : Z;
  ps_objects : gmap string MetaObject;
  ps_chunks : gmap Z MetaChunk;
}.

(** What the store needs of third-party crates: [http::Uri] accepts or refuses an
    address; [serde_json] reads back what it printed. *)
Class MetaDeps := {
  uri_ok : string → bool;
  json_to_string : PersistentState → option string;
  json_from_str : string → option PersistentState;
  json_roundtrip st s : json_to_string st = Some s → json_from_str s = Some st;
}.

(** ** The file system *)

(** The next file-system call succeeds, or fails (a write after so many bytes). *)
Inductive fs_answer := FsOk | FsFail (written : nat).

(** What may be found of a file after the machine has lost power: no file, a file whose data
    were synced, or a file whose data were not, of which anything may be left. *)
Inductive file_image := NoFile | Synced (contents : string) | Unsynced.

(** The metadata file and the temporary file beside it ([None]: not there) as programs see
    them, and the answers to come; after them every call succeeds. Then what is on the device:
    whether the data of the temporary file were synced, and every file that the name of the
    metadata file has stood for. The directory is never synced, so after a loss of power the
    name may stand for any of these. *)
Record Disk := mkDiskState {
  dk_main : option string;
  dk_tmp : option string;
  dk_script : list fs_answer;
  dk_tmp_synced : bool;
  dk_images : list file_image;
}.

Definition image_of (f : option string) (synced : bool) : file_image :=
  match f with
  | None => NoFile
  | Some c => if synced then Synced c else Unsynced
  end.

(** A disk on which nothing waits to be written. *)
Definition mkDisk (main tmp : option string) (script : list fs_answer) : Disk :=
  mkDiskState main tmp script true [image_of main true].

(** What a loss of power may leave of the metadata file. *)
Definition found_as (f : option string) (i : file_image) : Prop :=
  match i with
  | NoFile => f = None
  | Synced c => f = Some c
  | Unsynced => is_Some f
  end.
Definition power_loss (d : Disk) (f : option string) : Prop := Exists (found_as f) (dk_images d).

(** Randomness to come: the draws of [gen::<u64>], and the picks of
    [IteratorRandom::choose]. *)
Record Rng := mkRng {
  rng_draws : list Z;
  rng_picks : list nat;
}.

Record MetadataStore := mkMetadataStore {
  objects : gmap string MetaObject;
  chunks : gmap Z MetaChunk;
  storage_nodes : gmap Z MetaStorageNode;
  ms_disk : Disk;
  ms_rng : Rng;
}.

Definition set_objects (o : gmap string MetaObject) (s : MetadataStore) : MetadataStore :=
  mkMetadataStore o (chunks s) (storage_nodes s) (ms_disk s) (ms_rng s).
Definition set_chunks (c : gmap Z MetaChunk) (s : MetadataStore) : MetadataStore :=
  mkMetadataStore (objects s) c (storage_nodes s) (ms_disk s) (ms_rng s).
Definition set_storage_nodes (n : gmap Z MetaStorageNode) (s : MetadataStore) :
    MetadataStore :=
  mkMetadataStore (objects s) (chunks s) n (ms_disk s) (ms_rng s).
Definition set_disk (d : Disk) (s : MetadataStore) : MetadataStore :=
  mkMetadataStore (objects s) (chunks s) (storage_nodes s) d (ms_rng s).
Definition set_rng (r : Rng) (s : MetadataStore) : MetadataStore :=
  mkMetadataStore (objects s) (chunks s) (storage_nodes s) (ms_disk s) r.

(** One file-system call: [ok] is its effect, [partial] what a failure leaves. *)
Definition set_script (s : list fs_answer) (d : Disk) : Disk :=
  mkDiskState (dk_main d) (dk_tmp d) s (dk_tmp_synced d) (dk_images d).
Definition fs_call (ok : Disk → Disk) (partial : nat → Disk → Disk) :
    ST Disk ErrorKind unit := λ d,
  match dk_script d with
  | [] => (Ok (), ok d)
  | FsOk :: s => (Ok (), set_script s (ok d))
  | FsFail k :: s => (Err Other, set_script s (partial k d))
  end.

Definition set_tmp (c : option string) (synced : bool) (d : Disk) : Disk :=
  mkDiskState (dk_main d) c (dk_script d) synced (dk_images d).

(** Opens the temporary file with [create] and [truncate]. *)
Definition open_tmp : ST Disk ErrorKind unit := fs_call (set_tmp (Some "") false) (λ _ d, d).
Definition write_tmp (c : string) : ST Disk ErrorKind unit :=
  fs_call (set_tmp (Some c) false) (λ k, set_tmp (Some (String.substring 0 k c)) false).
(** [sync_data]: the contents of the file reach the device. *)
Definition sync_tmp : ST Disk ErrorKind unit :=
  fs_call (λ d, set_tmp (dk_tmp d) true d) (λ _ d, d).
(** The name of the metadata file now stands for the temporary file. *)
Definition rename_tmp : ST Disk ErrorKind unit :=
  fs_call (λ d, mkDiskState (dk_tmp d) None (dk_script d) true
                  (image_of (dk_tmp d) (dk_tmp_synced d) :: dk_images d)) (λ _ d, d).

(** ** Constructors *)

Definition new_chunk (id checksum : Z) (object_name : string) : MetaChunk :=
  mkMetaChunk id object_name checksum [] Confirmed.
Definition new_pending (id : Z) (object_name : string) : MetaChunk :=
  mkMetaChunk id object_name 0 [] Pending.
Definition add_storage_node (storage_node_id : Z) (c : MetaChunk) : MetaChunk :=
  mkMetaChunk (mc_id c) (mc_object_name c) (mc_checksum c)
    (mc_storage_nodes c ++ [storage_node_id]) (mc_status c).
Definition new_object (name : string) (checksum : Z) : MetaObject :=
  mkMetaObject name checksum [] 0.
Definition set_object_chunks (l : list Z) (o : MetaObject) : MetaObject :=
  mkMetaObject (mo_name o) (mo_checksum o) l (mo_total_size o).
Definition add_chunk (chunk_id : Z) (o : MetaObject) : MetaObject :=
  set_object_chunks (mo_chunks o ++ [chunk_id]) o.

Definition MAX_REPLICAS : Z := 3.

(** [sort_by_key] with a stable sort: equal keys keep their order. *)
Fixpoint insert_by {A} (key : A → Z) (x : A) (l : list A) : list A :=
  match l with
  | [] => [x]
  | y :: l => if key x <=? key y then x :: y :: l else y :: insert_by key x l
  end.
Definition sort_by_key {A} (key : A → Z) (l : list A) : list A := foldr (insert_by key) [] l.

Definition MS : Type → Type := ST MetadataStore ErrorKind.

(** [while id_map.contains_key(&id) { id = rng.gen() }]; no value when the given
    draws are all taken. *)
Fixpoint draw_unused {A} (id_map : gmap Z A) (draws : list Z) : option (Z * list Z) :=
  match draws with
  | [] => None
  | id :: draws =>
      if decide (is_Some (id_map !! id)) then draw_unused id_map draws else Some (id, draws)
  end.

(** A loop that has not ended within the draws given has no result: the model stops
    there with [Panic] ([generate_unique_id_ends] gives enough draws). *)
Definition generate_unique_id {A} (id_map : MetadataStore → gmap Z A) : MS Z := λ s,
  match draw_unused (id_map s) (rng_draws (ms_rng s)) with
  | Some (id, draws) => (Ok id, set_rng (mkRng draws (rng_picks (ms_rng s))) s)
  | None => (Panic, s)
  end.

(** A pick selects any of the values: the map's order is arbitrary. *)
Definition choose_storage_node : MS (option MetaStorageNode) := λ s,
  let nodes := (map_to_list (storage_nodes s)).*2 in
  match nodes with
  | [] => (Ok None, s)
  | _ =>
      let pick := default O (head (rng_picks (ms_rng s))) in
      (Ok (nodes !! (pick `mod` length nodes)%nat),
       set_rng (mkRng (rng_draws (ms_rng s)) (tail (rng_picks (ms_rng s)))) s)
  end.

Section store.
Context `{MetaDeps}.

Definition meta_storage_node_new (id : Z) (address : string) :
    outcome ErrorKind MetaStorageNode :=
  if uri_ok address then Ok (mkMetaStorageNode id address) else Err InvalidInput.

(** ** Persistence *)

Definition persistent (s : MetadataStore) : PersistentState :=
  mkPersistentState PERSISTENT_STATE_VERSION (objects s) (chunks s).

Definition on_disk {A} (m : ST Disk ErrorKind A) : MS A := zoom ms_disk set_disk m.

Definition save : MS unit :=
  json ← gets (λ s, json_to_string (persistent s));
  json ← lift_opt Other json;
  _ ← on_disk open_tmp;
  _ ← on_disk (write_tmp json);
  _ ← on_disk sync_tmp;
  on_disk rename_tmp.

(** Loads the file if there is one; a file that does not parse counts as empty. *)
Definition store_new (rng : Rng) (d : Disk) : outcome ErrorKind MetadataStore * Disk :=
  let start '(objects, chunks) d := mkMetadataStore objects chunks ∅ d rng in
  match dk_main d with
  | None => (Ok (start (∅, ∅) d), d)
  | Some contents =>
      let skip := fs_call id (λ _ d, d) in
      match (_ ← skip; _ ← skip; if decide (contents = "") then mret () else skip) d with
      | (Ok _, d) =>
          let loaded :=
            match json_from_str contents with
            | Some state => (ps_objects state, ps_chunks state)
            | None => (∅, ∅)
            end in
          (Ok (start (if decide (contents = "") then (∅, ∅) else loaded) d), d)
      | (Err e, d) => (Err e, d)
      | (Panic, d) => (Panic, d)
      end
  end.

(** ** Operations *)

Definition construct_storage_node (address : string) : MS Z :=
  id ← generate_unique_id storage_nodes;
  storage_node ← (λ s, (meta_storage_node_new id address, s));
  _ ← modify (λ s, set_storage_nodes (<[id := storage_node]> (storage_nodes s)) s);
  mret id.

Definition put_object (checksum : Z) (name : string) : MS unit :=
  objs ← gets objects;
  if decide (is_Some (objs !! name)) then throw AlreadyExists
  else
    _ ← modify (set_objects (<[name := new_object name checksum]> objs));
    save.

Definition get_object (object_name : string) : MS MetaObject :=
  objs ← gets objects; lift_opt NotFound (objs !! object_name).

Definition delete_object (object_name : string) : MS unit :=
  objs ← gets objects;
  object ← lift_opt NotFound (objs !! object_name);
  _ ← modify (set_objects (delete object_name objs));
  _ ← modify (λ s, set_chunks (foldl (λ m id, delete id m) (chunks s) (mo_chunks object)) s);
  save.

Definition put_chunk (object_name : string) (checksum : Z) : MS (Z * string) :=
  chunk_id ← generate_unique_id chunks;
  let chunk := new_chunk chunk_id checksum object_name in
  storage_node ← choose_storage_node;
  match storage_node with
  | None => throw HostUnreachable
  | Some storage_node =>
      let chunk := add_storage_node (sn_id storage_node) chunk in
      _ ← modify (λ s, set_chunks (<[chunk_id := chunk]> (chunks s)) s);
      objs ← gets objects;
      object ← lift_opt NotFound (objs !! object_name);
      _ ← modify (set_objects (<[object_name := add_chunk chunk_id object]> objs));
      _ ← save;
      mret (chunk_id, sn_address storage_node)
  end.

Definition allocate_chunk (object_name : string) : MS (Z * Z * string) :=
  chunk_id ← generate_unique_id chunks;
  storage_node ← choose_storage_node;
  match storage_node with
  | None => throw HostUnreachable
  | Some node =>
      _ ← modify (λ s, set_chunks (<[chunk_id := new_pending chunk_id object_name]> (chunks s)) s);
      mret (chunk_id, sn_id node, sn_address node)
  end.

Definition confirm_chunk (chunk_id : Z) (object_name : string) (checksum : Z)
    (storage_node_id : Z) : MS unit :=
  nodes ← gets storage_nodes;
  if decide (is_Some (nodes !! storage_node_id)) then
    cs ← gets chunks;
    match cs !! chunk_id with
    | Some (mkMetaChunk _ _ _ _ Confirmed) => throw AlreadyExists
    | _ =>
        objs ← gets objects;
        object ← lift_opt NotFound (objs !! object_name);
        let chunk := add_storage_node storage_node_id (new_chunk chunk_id checksum object_name) in
        _ ← modify (set_chunks (<[chunk_id := chunk]> cs));
        _ ← modify (set_objects (<[object_name := add_chunk chunk_id object]> objs));
        save
    end
  else throw NotFound.

Definition get_chunk (chunk_id : Z) : MS (string * MetaChunk) :=
  cs ← gets chunks;
  chunk ← lift_opt NotFound (cs !! chunk_id);
  mret (mc_object_name chunk, chunk).

Definition delete_chunk (chunk_id : Z) : MS unit :=
  cs ← gets chunks;
  chunk ← lift_opt NotFound (cs !! chunk_id);
  _ ← modify (set_chunks (delete chunk_id cs));
  objs ← gets objects;
  object ← lift_opt NotFound (objs !! mc_object_name chunk);
  let object := set_object_chunks (filter (λ c, c ≠ chunk_id) (mo_chunks object)) object in
  _ ← modify (set_objects (<[mc_object_name chunk := object]> objs));
  save.

Definition list_objects (s : MetadataStore) : list MetaObject := (map_to_list (objects s)).*2.

Definition get_storage_node (storage_node_id : Z) : MS string :=
  nodes ← gets storage_nodes;
  node ← lift_opt NotFound (nodes !! storage_node_id);
  mret (sn_address node).

Definition update_object_checksum (object_name : string) (checksum total_size : Z) : MS unit :=
  objs ← gets objects;
  object ← lift_opt NotFound (objs !! object_name);
  let object := mkMetaObject (mo_name object) checksum (mo_chunks object) total_size in
  _ ← modify (set_objects (<[object_name := object]> objs));
  save.

Definition list_storage_nodes (s : MetadataStore) : list MetaStorageNode :=
  (map_to_list (storage_nodes s)).*2.

Definition delete_storage_node (storage_node_id : Z) : MS unit :=
  nodes ← gets storage_nodes;
  match nodes !! storage_node_id with
  | Some _ => modify (set_storage_nodes (delete storage_node_id nodes))
  | None => throw NotFound
  end.

Definition under_replicated (max_replicas : Z) (c : MetaChunk) : bool :=
  bool_decide (mc_status c = Confirmed) && (zlen (mc_storage_nodes c) <? max_replicas).

Definition list_under_replicated_chunks (max_replicas : Z) (s : MetadataStore) :
    list MetaChunk :=
  sort_by_key (λ c, zlen (mc_storage_nodes c))
    (List.filter (under_replicated max_replicas) ((map_to_list (chunks s)).*2)).

Definition add_chunk_replica (chunk_id storage_node_id : Z) : MS unit :=
  nodes ← gets storage_nodes;
  if decide (is_Some (nodes !! storage_node_id)) then
    cs ← gets chunks;
    chunk ← lift_opt NotFound (cs !! chunk_id);
    if decide (storage_node_id ∈ mc_storage_nodes chunk) then throw AlreadyExists
    else if MAX_REPLICAS <=? zlen (mc_storage_nodes chunk) then throw InvalidInput
    else
      _ ← modify (set_chunks (<[chunk_id := add_storage_node storage_node_id chunk]> cs));
      save
  else throw NotFound.

(** ** Migration helpers *)

Definition ingest_partition (objs : list MetaObject) (cs : list MetaChunk) : MS unit :=
  _ ← modify (λ s, set_objects (foldl (λ m obj, <[mo_name obj := obj]> m) (objects s) objs) s);
  _ ← modify (λ s, set_chunks (foldl (λ m c, <[mc_id c := c]> m) (chunks s) cs) s);
  save.

Definition remove_object_of (s : MetadataStore) (name : string) : MetadataStore :=
  match objects s !! name with
  | Some obj =>
      set_chunks (foldl (λ m id, delete id m) (chunks s) (mo_chunks obj))
        (set_objects (delete name (objects s)) s)
  | None => s
  end.

Definition remove_objects (names : list string) : MS unit :=
  _ ← modify (λ s, foldl remove_object_of s names); save.

Definition objects_in_hash_ranges `{Xxh3} (ranges : list (Z * Z)) (s : MetadataStore) :
    list (MetaObject * list MetaChunk) :=
  omap (λ obj,
    if hash_in_ranges (hash_key (mo_name obj)) ranges
    then Some (obj, omap (λ id, chunks s !! id) (mo_chunks obj))
    else None) (list_objects s).

End store.
