(* ===== verification/MetadataStoreFacts.v ===== *)
(** * MetadataStoreFacts: invariant and persistence of the metadata store

    What [save] leaves on the disk under every failure, the invariant that ties
    objects, chunks and replicas together, and that every operation keeps it. *)

From S2P Require Import Prelude.
From S2P Require Import MetadataStore.
Open Scope string_scope.
Open Scope list_scope.
Open Scope Z_scope.

(** ** The invariant *)

(** A chunk is on at most [MAX_REPLICAS] distinct nodes, a confirmed one on at least
    one. *)
Definition replicas_ok (c : MetaChunk) : Prop :=
  NoDup (mc_storage_nodes c) ∧ zlen (mc_storage_nodes c) ≤ MAX_REPLICAS ∧
  (mc_status c = Confirmed → 1 ≤ zlen (mc_storage_nodes c)).

(** Object [k] may list chunk [id]. *)
Definition chunk_of (cs : gmap Z MetaChunk) (k : string) (id : Z) : Prop :=
  ∃ c, cs !! id = Some c ∧ mc_object_name c = k ∧ mc_status c = Confirmed.

Record ms_wf (s : MetadataStore) : Prop := mkMsWf {
  mw_object k o : objects s !! k = Some o → mo_name o = k ∧ NoDup (mo_chunks o);
  mw_listed k o id : objects s !! k = Some o → id ∈ mo_chunks o → chunk_of (chunks s) k id;
  mw_chunk id c : chunks s !! id = Some c → mc_id c = id ∧ replicas_ok c;
  mw_node id n : storage_nodes s !! id = Some n → sn_id n = id;
}.

Lemma ms_wf_disk s d : ms_wf s → ms_wf (set_disk d s).
Proof. by intros []. Qed.
Lemma ms_wf_rng s r : ms_wf s → ms_wf (set_rng r s).
Proof. by intros []. Qed.
#[export] Hint Resolve ms_wf_disk ms_wf_rng : store.

(** ** Randomness *)

Lemma draw_unused_spec {A} (m : gmap Z A) draws id rest :
  draw_unused m draws = Some (id, rest) → m !! id = None ∧ id ∈ draws.
Proof.
  induction draws as [|x draws IH]; simpl; [done|]. case_decide as Hx.
  - intros [? ?]%IH. split; [done|by right].
  - intros [= -> ->]. split; [by apply eq_None_not_Some|by left].
Qed.

(** What is left of the draws. *)
Lemma draw_unused_rest {A} (m : gmap Z A) draws id rest :
  draw_unused m draws = Some (id, rest) → ∀ i, i ∈ rest → i ∈ draws.
Proof.
  induction draws as [|x draws IH]; simpl; [done|]. case_decide as Hx.
  - intros Hr i Hi. right. by apply IH.
  - intros [= -> ->] i Hi. by right.
Qed.

(** A loop over more distinct draws than the map has ids ends. *)
Lemma draw_unused_ends {A} (m : gmap Z A) draws :
  NoDup draws → (size m < length draws)%nat → is_Some (draw_unused m draws).
Proof.
  intros Hnd Hsz. destruct (draw_unused m draws) as [p|] eqn:Hd; [eauto|].
  assert (∀ x, x ∈ draws → x ∈ dom m) as Hall.
  { clear Hnd Hsz. induction draws as [|x draws IH]; simpl in Hd; [by intros ? []%not_elem_of_nil|].
    case_decide as Hx; [|done]. intros y [->|Hy]%elem_of_cons; [by apply elem_of_dom|by apply IH]. }
  assert (list_to_set draws ⊆ dom m) as Hsub by (intros x Hx; apply Hall; set_solver).
  apply subseteq_size in Hsub. rewrite size_list_to_set, size_dom in Hsub by done. lia.
Qed.

Lemma generate_unique_id_spec {A} (f : MetadataStore → gmap Z A) s r s' :
  generate_unique_id f s = (r, s') →
  ∃ rng, s' = set_rng rng s ∧
    match r with Ok id => f s !! id = None | Err _ => False | Panic => True end.
Proof.
  unfold generate_unique_id. destruct (draw_unused _ _) as [[id rest]|] eqn:Hd; intros [= <- <-].
  - eexists. split; [done|]. by apply draw_unused_spec in Hd as [? _].
  - exists (ms_rng s). by destruct s.
Qed.

Lemma choose_storage_node_spec s :
  ∃ r rng, choose_storage_node s = (Ok r, set_rng rng s) ∧
    match r with
    | Some n => ∃ id, storage_nodes s !! id = Some n
    | None => storage_nodes s = ∅
    end.
Proof.
  unfold choose_storage_node. set (l := (map_to_list (storage_nodes s)).*2).
  assert (∀ n, n ∈ l → ∃ id, storage_nodes s !! id = Some n) as Hl.
  { intros n ([id n'] & -> & Hin%elem_of_map_to_list)%list_elem_of_fmap. by exists id. }
  destruct l as [|n0 l'] eqn:El.
  - exists None, (ms_rng s). split; [by destruct s|].
    apply fmap_nil_inv in El. by apply map_to_list_empty_iff.
  - rewrite <-El in *. set (i := (_ `mod` length l)%nat).
    assert (i < length l)%nat as Hi by (apply Nat.mod_upper_bound; rewrite El; done).
    apply lookup_lt_is_Some_2 in Hi as [n Hn]. rewrite Hn. eexists (Some n), _. split; [done|].
    apply Hl. by eapply list_elem_of_lookup_2.
Qed.

Section facts.
Context `{MetaDeps}.

(** ** Persistence *)

Lemma fs_call_cases ok partial d :
  ∃ r d', fs_call ok partial d = (r, d') ∧
    match r with
    | Ok _ => dk_main d' = dk_main (ok d) ∧ dk_tmp d' = dk_tmp (ok d)
    | Err e => e = Other ∧ dk_script d ≠ [] ∧ ∃ k, dk_main d' = dk_main (partial k d)
    | Panic => False
    end ∧ (dk_script d = [] → r = Ok () ∧ dk_script d' = dk_script (ok d)).
Proof.
  unfold fs_call. destruct (dk_script d) as [|[|k] s] eqn:Hs; eexists _, _; split; try done.
  split; [|done]. split_and!; [done|done|by exists k].
Qed.

(** Whatever fails, the metadata file is the old one or the new one, whole; and only
    a success makes it the new one. *)
Lemma save_spec s :
  ∃ r d, save s = (r, set_disk d s) ∧
    match r with
    | Ok _ => dk_main d = json_to_string (persistent s) ∧ is_Some (dk_main d)
    | Err _ => dk_main d = dk_main (ms_disk s) ∧
               (dk_script (ms_disk s) ≠ [] ∨ json_to_string (persistent s) = None)
    | Panic => False
    end.
Proof.
  unfold save. run_st. destruct (json_to_string (persistent s)) as [json|] eqn:Hj.
  2: { eexists (Err _), (ms_disk s). split; [by destruct s|]. auto. }
  unfold on_disk, zoom. set (d0 := ms_disk s).
  destruct (fs_call_cases (set_tmp (Some "") false) (λ _ d, d) d0) as (r & d1 & Hr & Hc & Hok).
  unfold open_tmp. rewrite Hr. destruct r as [[]|e|]; [| |done].
  2: { destruct Hc as (-> & Hns & k & Hm). eexists (Err _), _. split; [done|]. auto. }
  destruct Hc as [Hm1 _]. simpl in Hm1.
  destruct (fs_call_cases (set_tmp (Some json) false)
    (λ k, set_tmp (Some (String.substring 0 k json)) false) d1) as (r & d2 & Hr2 & Hc & Hok2).
  unfold write_tmp. cbn [ms_disk set_disk]. rewrite Hr2. destruct r as [[]|e|]; [| |done].
  2: { destruct Hc as (-> & Hns & k & Hm). eexists (Err _), _. split; [done|].
       simpl in Hm. split; [congruence|]. left. intros He. apply Hns.
       destruct (Hok He) as [_ ->]. done. }
  destruct Hc as [Hm2 Ht2]. simpl in Hm2, Ht2.
  destruct (fs_call_cases (λ d, set_tmp (dk_tmp d) true d) (λ _ d, d) d2) as (r & d3 & Hr3 & Hc & Hok3).
  unfold sync_tmp. cbn [ms_disk set_disk]. rewrite Hr3. destruct r as [[]|e|]; [| |done].
  2: { destruct Hc as (-> & Hns & k & Hm). eexists (Err _), _. split; [done|].
       split; [congruence|]. left. intros He. apply Hns.
       destruct (Hok He) as [_ He1]. simpl in He1.
       destruct Hok2 as [_ ->]; [congruence|]. simpl. congruence. }
  destruct Hc as [Hm3 Ht3]. simpl in Hm3, Ht3.
  destruct (fs_call_cases (λ d, mkDiskState (dk_tmp d) None (dk_script d) true
    (image_of (dk_tmp d) (dk_tmp_synced d) :: dk_images d)) (λ _ d, d) d3) as (r & d4 & Hr4 & Hc & Hok4).
  unfold rename_tmp. cbn [ms_disk set_disk]. rewrite Hr4. exists r, d4. split; [done|].
  destruct r as [[]|e|]; [| |done].
  - destruct Hc as [Hm4 _]. simpl in Hm4. rewrite Hm4, Ht3, Ht2. eauto.
  - destruct Hc as (_ & Hns & k & Hm). split; [congruence|]. left. intros He. apply Hns.
    destruct (Hok He) as [_ He1]. simpl in He1.
    destruct Hok2 as [_ He2]; [congruence|]. simpl in He2.
    destruct Hok3 as [_ ->]; [congruence|]. simpl. congruence.
Qed.

(** The file that a successful save puts in place is on the device, so that a loss of power
    finds it whole or finds one of those before it. *)
Lemma save_images s r s' :
  save s = (r, s') → dk_images (ms_disk s') =
    match r with
    | Ok _ => image_of (dk_main (ms_disk s')) true :: dk_images (ms_disk s)
    | _ => dk_images (ms_disk s)
    end.
Proof.
  unfold save. run_st. destruct (json_to_string (persistent s)) as [json|]; [|by intros [= <- <-]].
  unfold on_disk, zoom, open_tmp, write_tmp, sync_tmp, rename_tmp, fs_call.
  destruct (ms_disk s) as [main tmp script synced images]. cbn.
  destruct script as [|[|k] script]; [|..|by intros [= <- <-]].
  { cbn. by intros [= <- <-]. }
  all: cbn. destruct script as [|[|k] script]; cbn; [by intros [= <- <-]| |by intros [= <- <-]].
  destruct script as [|[|k] script]; cbn; [by intros [= <- <-]| |by intros [= <- <-]].
  destruct script as [|[|k] script]; cbn; by intros [= <- <-].
Qed.

Lemma save_wf s r s' : ms_wf s → save s = (r, s') → ms_wf s'.
Proof.
  intros Hwf. destruct (save_spec s) as (r1 & d & Hs & _). rewrite Hs. intros [= <- <-]. by apply ms_wf_disk.
Qed.

(** ** Each update keeps the invariant *)

Lemma chunk_of_insert cs k id id' c :
  (∀ c0, cs !! id = Some c0 → mc_status c0 = Pending) →
  chunk_of cs k id' → chunk_of (<[id := c]> cs) k id'.
Proof.
  intros Hp (c' & Hc' & Hn & Hs). exists c'. split; [|done].
  destruct (decide (id' = id)) as [->|Hne]; [|by rewrite lookup_insert_ne].
  specialize (Hp _ Hc'). congruence.
Qed.

Lemma wf_put_object s name checksum :
  ms_wf s → objects s !! name = None →
  ms_wf (set_objects (<[name := new_object name checksum]> (objects s)) s).
Proof.
  intros [] Hn. split; simpl; try done.
  - intros k o [[<- <-]|[_ Hk]]%lookup_insert_Some; [|by eauto].
    split; [done|constructor].
  - intros k o id [[<- <-]|[_ Hk]]%lookup_insert_Some; [|by eauto].
    by intros []%not_elem_of_nil.
Qed.

(** A chunk takes a free id, or the place of a pending one. *)
Lemma wf_insert_chunk s id c :
  ms_wf s → (∀ c0, chunks s !! id = Some c0 → mc_status c0 = Pending) →
  mc_id c = id → replicas_ok c → ms_wf (set_chunks (<[id := c]> (chunks s)) s).
Proof.
  intros [] Hp Hid Hr. split; simpl; try done.
  - intros k o i Ho Hi. apply chunk_of_insert; [done|by eauto].
  - intros i c' [[<- <-]|[_ Hi]]%lookup_insert_Some; [done|by eauto].
Qed.

Lemma wf_list_chunk s k o id :
  ms_wf s → objects s !! k = Some o → chunk_of (chunks s) k id → id ∉ mo_chunks o →
  ms_wf (set_objects (<[k := add_chunk id o]> (objects s)) s).
Proof.
  intros [Ho Hl ? ?] Hk Hc Hni. split; simpl; try done.
  - intros k' o' [[<- <-]|[_ Hk']]%lookup_insert_Some; [|by eauto].
    destruct (Ho _ _ Hk) as [Hn Hnd]. split; [done|]. simpl. apply list.NoDup_app.
    split_and!; [done| |apply NoDup_singleton]. by intros x Hx ->%list_elem_of_singleton.
  - intros k' o' i [[<- <-]|[_ Hk']]%lookup_insert_Some; [|by eauto]. simpl.
    intros [Hi| ->%list_elem_of_singleton]%elem_of_app; [by eauto|done].
Qed.

(** An update of an object that keeps its name and its list. *)
Lemma wf_update_object s k o o' :
  ms_wf s → objects s !! k = Some o → mo_name o' = mo_name o → mo_chunks o' = mo_chunks o →
  ms_wf (set_objects (<[k := o']> (objects s)) s).
Proof.
  intros [Ho Hl ? ?] Hk Hn Hc. split; simpl; try done.
  - intros k' o2 [[<- <-]|[_ Hk']]%lookup_insert_Some; [|by eauto].
    rewrite Hn, Hc. by apply Ho.
  - intros k' o2 i [[<- <-]|[_ Hk']]%lookup_insert_Some; [|by eauto]. rewrite Hc. by eauto.
Qed.

Lemma lookup_delete_all {A} (m : gmap Z A) ids id :
  foldl (λ m id, delete id m) m ids !! id = if decide (id ∈ ids) then None else m !! id.
Proof.
  revert m. induction ids as [|i ids IH]; intros m; simpl; [done|].
  rewrite IH. destruct (decide (id = i)) as [->|Hne].
  - rewrite lookup_delete_eq. repeat case_decide; set_solver.
  - rewrite lookup_delete_ne by done. repeat case_decide; set_solver.
Qed.

(** Chunks of two objects are different. *)
Lemma wf_disjoint s k k' o o' id :
  ms_wf s → objects s !! k = Some o → objects s !! k' = Some o' →
  id ∈ mo_chunks o → id ∈ mo_chunks o' → k = k'.
Proof.
  intros Hwf Hk Hk' Hi Hi'.
  destruct (mw_listed _ Hwf _ _ _ Hk Hi) as (c & Hc & <- & _).
  destruct (mw_listed _ Hwf _ _ _ Hk' Hi') as (c' & Hc' & <- & _). congruence.
Qed.

Lemma wf_remove_object s name : ms_wf s → ms_wf (remove_object_of s name).
Proof.
  intros Hwf. unfold remove_object_of. destruct (objects s !! name) as [o|] eqn:Ho; [|done].
  split; simpl; [| | |apply Hwf].
  - intros k o' [_ Hk]%lookup_delete_Some. by apply (mw_object _ Hwf).
  - intros k o' id [Hne Hk]%lookup_delete_Some Hi.
    destruct (mw_listed _ Hwf _ _ _ Hk Hi) as (c & Hc & ? & ?). exists c.
    rewrite lookup_delete_all, decide_False; [done|]. intros Hio.
    by apply Hne, (wf_disjoint s name k o o' id).
  - intros id c. rewrite lookup_delete_all. case_decide; [done|]. apply (mw_chunk _ Hwf).
Qed.

Lemma wf_delete_chunk s id c o :
  ms_wf s → chunks s !! id = Some c → objects s !! mc_object_name c = Some o →
  ms_wf (set_objects (<[mc_object_name c :=
      set_object_chunks (filter (λ i, i ≠ id) (mo_chunks o)) o]> (objects s))
    (set_chunks (delete id (chunks s)) s)).
Proof.
  intros Hwf Hc Ho. split; simpl; [| | |apply Hwf].
  - intros k o' [[<- <-]|[_ Hk]]%lookup_insert_Some; [|by apply (mw_object _ Hwf)].
    destruct (mw_object _ Hwf _ _ Ho) as [? ?]. split; [done|by apply list.NoDup_filter].
  - intros k o' i [[<- <-]|[Hne Hk]]%lookup_insert_Some Hi; simpl in *.
    + apply list_elem_of_filter in Hi as [? Hi].
      destruct (mw_listed _ Hwf _ _ _ Ho Hi) as (c' & ? & ? & ?).
      exists c'. by rewrite lookup_delete_ne.
    + destruct (mw_listed _ Hwf _ _ _ Hk Hi) as (c' & Hc' & Hn & ?).
      exists c'. rewrite lookup_delete_ne; [done|]. intros ->. congruence.
  - intros i c' [_ Hi]%lookup_delete_Some. by apply (mw_chunk _ Hwf).
Qed.

(** No object lists a chunk whose object is gone. *)
Lemma wf_delete_orphan s id c :
  ms_wf s → chunks s !! id = Some c → objects s !! mc_object_name c = None →
  ms_wf (set_chunks (delete id (chunks s)) s).
Proof.
  intros Hwf Hc Ho. split; simpl; [apply Hwf| | |apply Hwf].
  - intros k o i Hk Hi. destruct (mw_listed _ Hwf _ _ _ Hk Hi) as (c' & Hc' & Hn & ?).
    exists c'. rewrite lookup_delete_ne; [done|]. intros ->. congruence.
  - intros i c' [_ Hi]%lookup_delete_Some. by apply (mw_chunk _ Hwf).
Qed.

Lemma wf_add_replica s id c n :
  ms_wf s → chunks s !! id = Some c → n ∉ mc_storage_nodes c → zlen (mc_storage_nodes c) < MAX_REPLICAS →
  ms_wf (set_chunks (<[id := add_storage_node n c]> (chunks s)) s).
Proof.
  intros Hwf Hc Hn Hlt. split; simpl; [apply Hwf| | |apply Hwf].
  - intros k o i Hk Hi. destruct (mw_listed _ Hwf _ _ _ Hk Hi) as (c' & Hc' & ? & ?).
    destruct (decide (i = id)) as [->|Hne].
    + assert (c' = c) as -> by congruence. exists (add_storage_node n c).
      by rewrite lookup_insert_eq.
    + exists c'. by rewrite lookup_insert_ne.
  - intros i c' [[<- <-]|[_ Hi]]%lookup_insert_Some; [|by apply (mw_chunk _ Hwf)].
    destruct (mw_chunk _ Hwf _ _ Hc) as [? Hr]. split; [done|].
    destruct Hr as (Hnd & Hl & Hm). unfold replicas_ok. simpl. autorewrite with store.
    split_and!; [|lia|pose proof (zlen_nonneg (mc_storage_nodes c)); lia].
    apply list.NoDup_app. split_and!; [done| |apply NoDup_singleton].
    by intros x Hx ->%list_elem_of_singleton.
Qed.

(** ** Every operation keeps the invariant *)

Lemma replicas_ok_new id ck name n : replicas_ok (add_storage_node n (new_chunk id ck name)).
Proof. split_and!; [apply NoDup_singleton|by vm_compute|by vm_compute]. Qed.
Lemma replicas_ok_pending id name : replicas_ok (new_pending id name).
Proof. split_and!; [constructor|by vm_compute|done]. Qed.
#[local] Hint Resolve replicas_ok_new replicas_ok_pending : store.

(** [m] keeps the invariant. *)
Definition keeps {A} (m : MS A) : Prop := ∀ s r s', ms_wf s → m s = (r, s') → ms_wf s'.

Lemma save_keeps : keeps save.
Proof. intros s r s' Hwf Hs. by eapply save_wf. Qed.

Lemma save_bind_keeps {A} (a : A) : keeps (_ ← save; mret a).
Proof.
  intros s r s' Hwf. run_st. destruct (save s) as [r1 s1] eqn:Hs.
  apply save_keeps in Hs; [|done]. by destruct r1; intros [= _ <-].
Qed.

Lemma generate_unique_id_keeps {A} (f : MetadataStore → gmap Z A) s r s' :
  ms_wf s → generate_unique_id f s = (r, s') →
  ms_wf s' ∧ objects s' = objects s ∧ chunks s' = chunks s ∧ storage_nodes s' = storage_nodes s ∧
  match r with Ok id => f s !! id = None | Err _ => False | Panic => True end.
Proof.
  intros Hwf (rng & -> & Hp)%generate_unique_id_spec. split_and!; [by apply ms_wf_rng|done..].
Qed.

Lemma construct_storage_node_keeps address : keeps (construct_storage_node address).
Proof.
  intros s r s' Hwf. unfold construct_storage_node, meta_storage_node_new. run_st.
  destruct (generate_unique_id storage_nodes s) as [r1 s1] eqn:Hg.
  apply generate_unique_id_keeps in Hg as (Hwf1 & Ho & Hc & Hn & Hp); [|done].
  destruct r1 as [id|e|]; [|done|by intros [= _ <-]].
  destruct (uri_ok address); intros [= _ <-]; [|done].
  split; simpl; [apply Hwf1..|]. intros i n [[<- <-]|[_ Hi]]%lookup_insert_Some; [done|].
  by apply (mw_node _ Hwf1).
Qed.

Lemma put_object_keeps checksum name : keeps (put_object checksum name).
Proof.
  intros s r s' Hwf. unfold put_object. run_st. case_decide as Hin; [by intros [= _ <-]|].
  apply save_wf, wf_put_object; [done|by apply eq_None_not_Some].
Qed.

Lemma delete_object_run name s o :
  objects s !! name = Some o → delete_object name s = save (remove_object_of s name).
Proof. intros Ho. unfold delete_object, remove_object_of. run_st. by rewrite Ho. Qed.

Lemma delete_object_keeps name : keeps (delete_object name).
Proof.
  intros s r s' Hwf. destruct (objects s !! name) as [o|] eqn:Ho.
  - rewrite (delete_object_run name s o Ho). by apply save_wf, wf_remove_object.
  - unfold delete_object. run_st. rewrite Ho. by intros [= _ <-].
Qed.

(** A fresh chunk id is not listed by any object. *)
Lemma fresh_not_listed s k o id :
  ms_wf s → objects s !! k = Some o → (∀ c, chunks s !! id = Some c → mc_status c = Pending) →
  id ∉ mo_chunks o.
Proof.
  intros Hwf Ho Hp Hi. destruct (mw_listed _ Hwf _ _ _ Ho Hi) as (c & Hc & _ & Hs).
  specialize (Hp _ Hc). congruence.
Qed.

(** The insertion of a confirmed chunk and its listing. *)
Lemma wf_confirm s k o id ck n :
  ms_wf s → objects s !! k = Some o → (∀ c, chunks s !! id = Some c → mc_status c = Pending) →
  ms_wf (set_objects (<[k := add_chunk id o]> (objects s))
    (set_chunks (<[id := add_storage_node n (new_chunk id ck k)]> (chunks s)) s)).
Proof.
  intros Hwf Ho Hp. set (c := add_storage_node n (new_chunk id ck k)).
  apply (wf_list_chunk (set_chunks (<[id := c]> (chunks s)) s)).
  - apply wf_insert_chunk; [done|done|done|]. apply replicas_ok_new.
  - done.
  - exists c. simpl. by rewrite lookup_insert_eq.
  - by eapply fresh_not_listed.
Qed.

Lemma put_chunk_keeps name checksum : keeps (put_chunk name checksum).
Proof.
  intros s r s' Hwf. unfold put_chunk. cbv [mbind ST_bind].
  destruct (generate_unique_id chunks s) as [r1 s1] eqn:Hg.
  apply generate_unique_id_keeps in Hg as (Hwf1 & Ho & Hc & Hn & Hp); [|done].
  destruct r1 as [id|e|]; [|done|by intros [= _ <-]]. rewrite <-Hc in Hp.
  destruct (choose_storage_node_spec s1) as (n & rng & -> & Hch).
  apply (ms_wf_rng _ rng) in Hwf1. destruct n as [n|]; [|by intros [= _ <-]].
  run_st. cbn [objects set_chunks set_rng].
  destruct (objects s1 !! name) as [o|] eqn:Hob.
  - apply (save_bind_keeps (id, sn_address n)). cbn.
    apply (wf_confirm (set_rng rng s1)); [done|done|]. intros c. cbn. by rewrite Hp.
  - intros [= _ <-]. apply (wf_insert_chunk (set_rng rng s1)); [done| |done|apply replicas_ok_new].
    intros c. cbn. by rewrite Hp.
Qed.

Lemma allocate_chunk_keeps name : keeps (allocate_chunk name).
Proof.
  intros s r s' Hwf. unfold allocate_chunk. cbv [mbind ST_bind].
  destruct (generate_unique_id chunks s) as [r1 s1] eqn:Hg.
  apply generate_unique_id_keeps in Hg as (Hwf1 & Ho & Hc & Hn & Hp); [|done].
  destruct r1 as [id|e|]; [|done|by intros [= _ <-]]. rewrite <-Hc in Hp.
  destruct (choose_storage_node_spec s1) as (n & rng & -> & Hch).
  apply (ms_wf_rng _ rng) in Hwf1. destruct n as [n|]; [|by intros [= _ <-]].
  run_st. intros [= _ <-].
  apply (wf_insert_chunk (set_rng rng s1)); [done| |done|apply replicas_ok_pending].
  intros c. cbn. by rewrite Hp.
Qed.

Lemma confirm_chunk_keeps id name checksum n : keeps (confirm_chunk id name checksum n).
Proof.
  intros s r s' Hwf. unfold confirm_chunk. run_st.
  case_decide as Hn; [|by intros [= _ <-]].
  assert (∀ c0, chunks s !! id = Some c0 → mc_status c0 = Pending →
    ∀ c, chunks s !! id = Some c → mc_status c = Pending) as Hpend by congruence.
  destruct (chunks s !! id) as [[i nm ck ns st]|] eqn:Hc.
  - destruct st; [|by intros [= _ <-]].
    destruct (objects s !! name) as [o|] eqn:Ho; [|by intros [= _ <-]].
    apply save_wf, wf_confirm; [done|done|]. rewrite Hc. naive_solver.
  - destruct (objects s !! name) as [o|] eqn:Ho; [|by intros [= _ <-]].
    apply save_wf, wf_confirm; [done|done|]. by rewrite Hc.
Qed.

Lemma delete_chunk_keeps id : keeps (delete_chunk id).
Proof.
  intros s r s' Hwf. unfold delete_chunk. run_st.
  destruct (chunks s !! id) as [c|] eqn:Hc; [|by intros [= _ <-]]. cbn [objects set_chunks].
  destruct (objects s !! mc_object_name c) as [o|] eqn:Ho.
  - by apply save_wf, wf_delete_chunk.
  - intros [= _ <-]. by eapply wf_delete_orphan.
Qed.

Lemma update_object_checksum_keeps name checksum size :
  keeps (update_object_checksum name checksum size).
Proof.
  intros s r s' Hwf. unfold update_object_checksum. run_st.
  destruct (objects s !! name) as [o|] eqn:Ho; [|by intros [= _ <-]].
  by eapply save_wf, wf_update_object.
Qed.

Lemma delete_storage_node_keeps id : keeps (delete_storage_node id).
Proof.
  intros s r s' Hwf. unfold delete_storage_node. run_st.
  destruct (storage_nodes s !! id) as [n|]; intros [= _ <-]; [|done].
  split; simpl; [apply Hwf..|]. intros i n' [_ Hi]%lookup_delete_Some. by apply (mw_node _ Hwf).
Qed.

Lemma add_chunk_replica_keeps id n : keeps (add_chunk_replica id n).
Proof.
  intros s r s' Hwf. unfold add_chunk_replica. run_st.
  case_decide; [|by intros [= _ <-]].
  destruct (chunks s !! id) as [c|] eqn:Hc; [|by intros [= _ <-]].
  case_decide; [by intros [= _ <-]|].
  destruct (Z.leb_spec MAX_REPLICAS (zlen (mc_storage_nodes c))); [by intros [= _ <-]|].
  by apply save_wf, wf_add_replica.
Qed.

Lemma remove_objects_keeps names : keeps (remove_objects names).
Proof.
  intros s r s' Hwf. unfold remove_objects. run_st. apply save_wf. revert s Hwf.
  induction names as [|k names IH]; intros s Hwf; simpl; [done|]. by apply IH, wf_remove_object.
Qed.

End facts.
