(* ===== verification/Samples.v ===== *)
(** * Samples: concrete stand-ins for the third-party functions

    A 64-bit hash, an address check and a printer and parser of the saved state that
    satisfy the interfaces [Xxh3] and [MetaDeps]; only the concrete runs use them. *)

From Stdlib Require Import Ascii.
From S2P Require Import Prelude.
From S2P Require Import HashRing.
From S2P Require Import MetadataStore.
Open Scope string_scope.
Open Scope list_scope.
Open Scope Z_scope.

(** A stand-in for the hash: the bytes as digits of base 257, modulo 2^64. *)
Fixpoint toy_hash (acc : Z) (s : string) : Z :=
  match s with
  | "" => wrap64 acc
  | String c s => toy_hash (wrap64 (acc * 257 + Z.of_N (Ascii.N_of_ascii c) + 1)) s
  end.

#[local, refine] Instance toy_xxh3 : Xxh3 := {| xxh3_64 := toy_hash 0 |}.
Proof.
  intros s. generalize 0. induction s as [|c s IH]; intros acc; simpl; [apply wrap64_u64|apply IH].
Defined.

#[local] Instance MetaChunk_eq_dec : EqDecision MetaChunk.
Proof. solve_decision. Defined.
#[local] Instance MetaObject_eq_dec : EqDecision MetaObject.
Proof. solve_decision. Defined.
#[local] Instance PersistentState_eq_dec : EqDecision PersistentState.
Proof. solve_decision. Defined.

#[local, refine] Instance MetaChunk_countable : Countable MetaChunk :=
  inj_countable'
    (λ c, (mc_id c, mc_object_name c, mc_checksum c, mc_storage_nodes c,
           bool_decide (mc_status c = Confirmed)))
    (λ '(i, n, k, l, b), mkMetaChunk i n k l (if b : bool then Confirmed else Pending)) _.
Proof. by intros [? ? ? ? []]. Defined.
#[local, refine] Instance MetaObject_countable : Countable MetaObject :=
  inj_countable' (λ o, (mo_name o, mo_checksum o, mo_chunks o, mo_total_size o))
    (λ '(n, k, l, t), mkMetaObject n k l t) _.
Proof. by intros []. Defined.
#[local, refine] Instance PersistentState_countable : Countable PersistentState :=
  inj_countable' (λ s, (ps_version s, ps_objects s, ps_chunks s))
    (λ '(v, o, c), mkPersistentState v o c) _.
Proof. by intros []. Defined.

(** A stand-in for the JSON text: the digits of the state's code after a letter. *)
Fixpoint pos_text (p : positive) : string :=
  match p with xH => "" | xO p => String "0" (pos_text p) | xI p => String "1" (pos_text p) end.
Fixpoint text_pos (s : string) : positive :=
  match s with
  | "" => xH
  | String c s => if Ascii.eqb c "0" then xO (text_pos s) else xI (text_pos s)
  end.
Lemma text_pos_text p : text_pos (pos_text p) = p.
Proof. induction p; simpl; congruence. Qed.

#[local, refine] Instance toy_deps : MetaDeps := {|
  uri_ok a := String.prefix "http" a;
  json_to_string st := Some (String "J" (pos_text (encode st)));
  json_from_str s := match s with String _ s => decode (text_pos s) | "" => None end;
|}.
Proof. intros st s [= <-]. by rewrite text_pos_text, decode_encode. Defined.
