(* ===== verification/HashRingTheorems.v ===== *)
(** * HashRingTheorems: the properties of the hash ring

    The theorems about storage-metadata/src/hash_ring.rs. *)

From stdpp Require Import pretty.
From S2P Require Import Prelude.
From S2P Require Import HashRing.
From S2P Require Import HashRingFacts.
From S2P Require Import Samples.
Open Scope string_scope.
Open Scope list_scope.
Open Scope Z_scope.

(** ** Sorting and counting the nodes *)

Lemma elem_of_sort_insert s l x : x ∈ sort_insert s l ↔ x = s ∨ x ∈ l.
Proof.
  induction l as [|y l IH]; simpl; [rewrite elem_of_cons; naive_solver|].
  destruct (String.leb s y); rewrite !elem_of_cons; [done|]. rewrite IH. naive_solver.
Qed.

Lemma elem_of_sort l x : x ∈ sort l ↔ x ∈ l.
Proof.
  induction l as [|y l IH]; simpl; [done|]. by rewrite elem_of_sort_insert, elem_of_cons, IH.
Qed.

Lemma elem_of_dedup l x : x ∈ dedup l ↔ x ∈ l.
Proof.
  revert x. induction l as [|y l IH]; intros x; simpl; [done|].
  rewrite elem_of_cons, <-IH. destruct (dedup l) as [|z k].
  { by rewrite elem_of_cons. }
  destruct (String.eqb_spec y z) as [->|Hne]; rewrite !elem_of_cons; naive_solver.
Qed.

Lemma elem_of_nodes ring n : n ∈ nodes ring ↔ ∃ k, (k, n) ∈ ring.
Proof.
  unfold nodes. rewrite elem_of_dedup, elem_of_sort, list_elem_of_fmap. split.
  - intros ([k v] & -> & Hin). by exists k.
  - intros [k Hk]. by exists (k, n).
Qed.

Definition str_le (a b : string) : Prop := String.leb a b = true.

Lemma str_le_refl a : str_le a a.
Proof. by destruct (String.leb_total a a). Qed.

Lemma str_le_total a b : str_le a b ∨ str_le b a.
Proof. apply String.leb_total. Qed.

Lemma str_le_antisym a b : str_le a b → str_le b a → a = b.
Proof. apply String.leb_antisym. Qed.

Lemma ascii_compare_trans a b c x y :
  Ascii.compare a b = x → Ascii.compare b c = y → x ≠ Gt → y ≠ Gt →
  Ascii.compare a c = (match x, y with Eq, Eq => Eq | _, _ => Lt end).
Proof.
  unfold Ascii.compare. intros <- <-.
  destruct (N.compare_spec (Ascii.N_of_ascii a) (Ascii.N_of_ascii b)) as [H1|H1|H1];
    destruct (N.compare_spec (Ascii.N_of_ascii b) (Ascii.N_of_ascii c)) as [H2|H2|H2];
    try done; intros _ _.
  - apply N.compare_eq_iff. congruence.
  - apply N.compare_lt_iff. lia.
  - apply N.compare_lt_iff. lia.
  - apply N.compare_lt_iff. lia.
Qed.

Lemma str_compare_trans a b c :
  String.compare a b ≠ Gt → String.compare b c ≠ Gt →
  String.compare a c = (match String.compare a b, String.compare b c with Eq, Eq => Eq | _, _ => Lt end).
Proof.
  revert b c. induction a as [|x a IH]; intros [|y b] [|z c]; simpl; try done.
  intros H1 H2.
  destruct (Ascii.compare x y) eqn:E1; [| |done]; destruct (Ascii.compare y z) eqn:E2; try done;
    rewrite (ascii_compare_trans x y z _ _ E1 E2) by done; try done.
  - by apply IH.
  - by destruct (String.compare a b).
Qed.

Lemma str_le_trans a b c : str_le a b → str_le b c → str_le a c.
Proof.
  unfold str_le, String.leb. intros H1 H2.
  rewrite (str_compare_trans a b c).
  - by destruct (String.compare a b), (String.compare b c).
  - by destruct (String.compare a b).
  - by destruct (String.compare b c).
Qed.

Lemma sort_insert_sorted s l :
  StronglySorted str_le l → StronglySorted str_le (sort_insert s l).
Proof.
  induction 1 as [|x l Hs IH Hx]; simpl; [by repeat constructor|].
  destruct (String.leb s x) eqn:Hle.
  - constructor; [by constructor|]. constructor; [done|].
    eapply list.Forall_impl; [exact Hx|]. intros y. by apply str_le_trans.
  - constructor; [done|]. apply list.Forall_forall. intros y [->|Hy]%elem_of_sort_insert.
    + destruct (str_le_total x s) as [|Hc]; [done|]. unfold str_le in Hc. congruence.
    + rewrite list.Forall_forall in Hx. by apply Hx.
Qed.

Lemma sort_sorted l : StronglySorted str_le (sort l).
Proof. induction l; simpl; [constructor|]. by apply sort_insert_sorted. Qed.

Lemma dedup_NoDup l : StronglySorted str_le l → NoDup (dedup l).
Proof.
  induction 1 as [|x l Hs IH Hx]; simpl; [constructor|].
  destruct (dedup l) as [|y k] eqn:Hd; [apply NoDup_singleton|].
  destruct (String.eqb_spec x y) as [->|Hne]; [done|]. constructor; [|done].
  assert (∀ z, z ∈ y :: k → z ∈ l) as Hsub by (intros z; by rewrite <-Hd, elem_of_dedup).
  rewrite elem_of_cons. intros [?|Hin]; [done|].
  (* x is repeated below y: y ≤ x ≤ y *)
  assert (StronglySorted str_le (dedup l)) as Hsd.
  { clear -Hs. induction Hs as [|a l Hs IH Ha]; simpl; [constructor|].
    destruct (dedup l) as [|b k] eqn:Hb; [by repeat constructor|].
    destruct (String.eqb a b); [done|]. constructor; [done|].
    rewrite <-Hb. apply list.Forall_forall. intros z. rewrite elem_of_dedup.
    rewrite list.Forall_forall in Ha. apply Ha. }
  rewrite Hd in Hsd. apply StronglySorted_inv in Hsd as [_ Hy].
  rewrite list.Forall_forall in Hx, Hy.
  apply Hne, str_le_antisym; [apply Hx, Hsub; by left|by apply Hy].
Qed.

Lemma nodes_NoDup ring : NoDup (nodes ring).
Proof. apply dedup_NoDup, sort_sorted. Qed.

(** ** Adding and removing nodes *)

Lemma remove_node_elem n ring k v : (k, v) ∈ remove_node n ring ↔ v ≠ n ∧ (k, v) ∈ ring.
Proof. unfold remove_node. by rewrite list_elem_of_filter. Qed.

Lemma remove_node_wf n ring : ring_wf ring → ring_wf (remove_node n ring).
Proof.
  induction ring as [|[k v] ring IH]; intros Hwf; [done|].
  apply ring_wf_cons in Hwf as (Hk & Hlt & Hwf). unfold remove_node.
  rewrite filter_cons. case_decide; [|by apply IH].
  apply ring_wf_cons. split_and!; [done| |by apply IH].
  intros k' v' [_ Hin]%remove_node_elem. by eapply Hlt.
Qed.

Section ring.
Context `{Xxh3}.

Definition vnode_of (n : string) (k : Z) (ixs : list Z) : Prop :=
  ∃ i, i ∈ ixs ∧ k = vnode_hash n i.

#[export] Instance vnode_of_dec n k ixs : Decision (vnode_of n k ixs).
Proof.
  refine (cast_if (decide (Exists (λ i, k = vnode_hash n i) ixs)));
    unfold vnode_of; by rewrite <-list.Exists_exists.
Defined.

Lemma vnode_of_cons n k i ixs :
  vnode_of n k (i :: ixs) ↔ k = vnode_hash n i ∨ vnode_of n k ixs.
Proof.
  unfold vnode_of. split.
  - intros (j & [->|Hj]%elem_of_cons & ->); [by left|right; eauto].
  - intros [->|(j & Hj & ->)]; [exists i|exists j]; rewrite elem_of_cons; auto.
Qed.

Lemma add_vnodes_spec n ixs ring :
  ring_wf ring →
  let ring' := foldl (λ ring i, ring_insert (vnode_hash n i) n ring) ring ixs in
  ring_wf ring' ∧
  ∀ k v, (k, v) ∈ ring' ↔ (vnode_of n k ixs ∧ v = n) ∨ (¬ vnode_of n k ixs ∧ (k, v) ∈ ring).
Proof.
  revert ring. induction ixs as [|i ixs IH]; intros ring Hwf; simpl.
  { split; [done|]. intros k v. unfold vnode_of. set_solver. }
  assert (ring_wf (ring_insert (vnode_hash n i) n ring)) as Hwf1
    by (apply ring_insert_wf; [apply xxh3_64_u64|done]).
  destruct (IH _ Hwf1) as [Hwf2 Hin]. split; [done|]. intros k v.
  rewrite Hin, ring_insert_elem, vnode_of_cons by done.
  destruct (decide (vnode_of n k ixs)); tauto.
Qed.

Definition vnodes : list Z := seqZ 0 VNODES_PER_NODE.

Lemma add_node_wf n ring : ring_wf ring → ring_wf (add_node n ring).
Proof. intros Hwf. by apply add_vnodes_spec. Qed.

Lemma add_node_elem n ring k v :
  ring_wf ring →
  (k, v) ∈ add_node n ring ↔
    (vnode_of n k vnodes ∧ v = n) ∨ (¬ vnode_of n k vnodes ∧ (k, v) ∈ ring).
Proof. intros Hwf. by apply add_vnodes_spec. Qed.

Lemma add_node_has n ring : ring_wf ring → (vnode_hash n 0, n) ∈ add_node n ring.
Proof.
  intros Hwf. apply add_node_elem; [done|]. left. split; [|done]. exists 0. split; [|done].
  apply elem_of_seqZ. by vm_compute.
Qed.

Lemma hash_key_u64 key : is_u64 (hash_key key).
Proof. apply xxh3_64_u64. Qed.

(** C28: on a ring with entries, [get_owner] returns the node of the vnode at the least
    clockwise distance (modulo 2^64) from the key's hash; it returns [None] only on
    the empty ring. *)
Theorem get_owner_is_next_clockwise ring key :
  ring_wf ring →
  (∀ v, get_owner ring key = Some v ↔ owner_is ring (hash_key key) v) ∧
  (get_owner ring key = None ↔ ring = []).
Proof.
  intros Hwf. split; [|apply owner_at_None]. intros v.
  apply owner_at_spec; [done|apply hash_key_u64].
Qed.

(** C37: [add_node] moves keys to the new node only, and [remove_node] moves only the
    keys of the removed node. *)
Theorem membership_change_moves_little ring n key :
  ring_wf ring →
  (get_owner (add_node n ring) key = get_owner ring key ∨
   get_owner (add_node n ring) key = Some n) ∧
  (get_owner ring key ≠ Some n →
   get_owner (remove_node n ring) key = get_owner ring key).
Proof.
  intros Hwf. pose proof (hash_key_u64 key) as Hh. unfold get_owner. fold (hash_key key). split.
  - pose proof (add_node_wf n ring Hwf) as Hwf'.
    destruct (owner_at (add_node n ring) (hash_key key)) as [v|] eqn:Ho.
    2: { apply owner_at_None in Ho. pose proof (add_node_has n ring Hwf) as Hin.
         rewrite Ho in Hin. by apply not_elem_of_nil in Hin. }
    destruct (decide (v = n)) as [->|Hne]; [by right|]. left. symmetry.
    apply owner_at_spec; [done..|]. apply owner_at_spec in Ho as (k & Hk & Hmin); [|done..].
    apply add_node_elem in Hk as [[_ ?]|[Hnv Hk]]; [done| |done].
    exists k. split; [done|]. intros k' v' Hk'.
    destruct (decide (vnode_of n k' vnodes)).
    + apply (Hmin k' n), add_node_elem; [done|]. by left.
    + apply (Hmin k' v'), add_node_elem; [done|]. by right.
  - intros Hne. destruct (owner_at ring (hash_key key)) as [v|] eqn:Ho.
    2: { apply owner_at_None in Ho as ->. done. }
    apply owner_at_spec; [by apply remove_node_wf|done|].
    apply owner_at_spec in Ho as (k & Hk & Hmin); [|done..]. exists k. split.
    + apply remove_node_elem. split; [congruence|done].
    + intros k' v' [_ Hk']%remove_node_elem. by eapply Hmin.
Qed.

(** C31: when no vnode sits on the last position of the hash space, the ranges a node pulls on
    joining are the hashes it owns, all but that last position, which no node ever claims.
    ([vnode_at_max_claims_everything] says what happens otherwise.) *)
Theorem owned_ranges_are_the_owned_hashes ring n key :
  ring_wf ring → below_max ring →
  hash_in_ranges (hash_key key) (get_owned_ranges ring n) =
  bool_decide (get_owner ring key = Some n) && (hash_key key <? u64_max).
Proof. intros Hwf Hm. apply owned_ranges_spec; [done|done|apply hash_key_u64]. Qed.

(** When a vnode sits on the last position of the hash space, the node of the
    first vnode claims every hash but the last. *)
Theorem vnode_at_max_claims_everything k0 v0 ring vl h :
  ring_wf ((k0, v0) :: ring) → list.last ((k0, v0) :: ring) = Some (u64_max, vl) →
  k0 < u64_max → is_u64 h → h < u64_max →
  hash_in_ranges h (get_owned_ranges ((k0, v0) :: ring) v0) = true.
Proof.
  intros Hwf Hl Hk Hh Hm. unfold get_owned_ranges. rewrite Hl. cbn [owned_ranges_loop].
  rewrite String.eqb_refl, hash_in_ranges_app. apply orb_true_iff. left.
  unfold vnode_ranges. rewrite (proj2 (Z.ltb_ge _ _)) by lia. simpl.
  unfold is_u64 in Hh. apply orb_true_iff. left.
  change (wrap64 (u64_max + 1)) with 0. change (0 <=? u64_max) with true. cbv iota.
  by rewrite (proj2 (Z.leb_le 0 h)), (proj2 (Z.ltb_lt h u64_max)) by lia.
Qed.

(** A sequence of membership changes. *)
Inductive change := Join (n : string) | Leave (n : string).
Definition apply_change (ring : HashRing) (c : change) : HashRing :=
  match c with Join n => add_node n ring | Leave n => remove_node n ring end.
Definition apply_member (members : gset string) (c : change) : gset string :=
  match c with Join n => {[n]} ∪ members | Leave n => members ∖ {[n]} end.

(** No two vnodes of the nodes of a set fall on the same position. *)
Definition no_collision (members : gset string) : Prop :=
  ∀ n n' i j, n ∈ members → n' ∈ members → i ∈ vnodes → j ∈ vnodes →
    vnode_hash n i = vnode_hash n' j → n = n'.

Lemma changes_spec all cs ring members :
  ring_wf ring → no_collision all → members ⊆ all →
  (∀ n, Join n ∈ cs → n ∈ all) →
  (∀ k n, (k, n) ∈ ring → n ∈ members ∧ vnode_of n k vnodes) →
  (∀ n, n ∈ members → (vnode_hash n 0, n) ∈ ring) →
  let ring' := foldl apply_change ring cs in
  let members' := foldl apply_member members cs in
  ring_wf ring' ∧ (∀ k n, (k, n) ∈ ring' → n ∈ members' ∧ vnode_of n k vnodes) ∧
  (∀ n, n ∈ members' → (vnode_hash n 0, n) ∈ ring').
Proof.
  intros Hwf Hnc Hsub Hj Hin Hout.
  revert ring members Hwf Hsub Hin Hout.
  induction cs as [|c cs IH]; intros ring members Hwf Hsub Hin Hout; [done|].
  assert (∀ n, Join n ∈ cs → n ∈ all) as Hj' by (intros n Hn; apply Hj; by right).
  simpl. apply IH; [done|..]; destruct c as [n|n]; simpl.
  - by apply add_node_wf.
  - by apply remove_node_wf.
  - intros x [->%elem_of_singleton|Hx]%elem_of_union; [apply Hj; by left|by apply Hsub].
  - set_solver.
  - intros k v [[Hv ->]|[_ Hk]]%add_node_elem; [|..|done].
    + split; [set_solver|done].
    + apply Hin in Hk as [? ?]. split; [set_solver|done].
  - intros k v [Hne Hk]%remove_node_elem. apply Hin in Hk as [? ?].
    split; [set_solver|done].
  - intros x Hx. destruct (decide (x = n)) as [->|Hne]; [by apply add_node_has|].
    apply add_node_elem; [done|]. right. split; [|apply Hout; set_solver].
    intros (i & Hi & Heq). apply Hnc in Heq; [done|apply Hsub; set_solver| | |done].
    + apply Hj. by left.
    + apply elem_of_seqZ. by vm_compute.
  - intros x Hx. apply remove_node_elem. split; [set_solver|apply Hout; set_solver].
Qed.

(** After any sequence of joins and leaves the ring is sorted with 64-bit
    positions, and, without hash collisions among the nodes, its nodes are exactly the
    members, each once; [node_count] is their number. *)
Theorem ring_tracks_membership cs :
  no_collision (list_to_set (omap (λ c, match c with Join n => Some n | _ => None end) cs)) →
  let ring := foldl apply_change ring_new cs in
  let members := foldl apply_member ∅ cs in
  ring_wf ring ∧ NoDup (nodes ring) ∧ (∀ n, n ∈ nodes ring ↔ n ∈ members) ∧
  node_count ring = Z.of_nat (size members).
Proof.
  intros Hnc ring members.
  destruct (changes_spec _ cs ring_new ∅ ring_wf_nil Hnc) as (Hwf & Hin & Hout).
  - set_solver.
  - intros n Hn. apply elem_of_list_to_set, list_elem_of_omap. by exists (Join n).
  - by intros k n []%not_elem_of_nil.
  - set_solver.
  - fold ring in Hwf, Hin, Hout. fold members in Hin, Hout.
    assert (∀ n, n ∈ nodes ring ↔ n ∈ members) as Heq.
    { intros n. rewrite elem_of_nodes. split; [intros [k Hk]; by apply (Hin k)|].
      intros Hn. exists (vnode_hash n 0). by apply Hout. }
    split_and!; [done|apply nodes_NoDup|done|]. unfold node_count. fold (nodes ring).
    assert (members = list_to_set (nodes ring)) as -> by (apply set_eq; set_solver).
    rewrite size_list_to_set by apply nodes_NoDup. done.
Qed.
End ring.

(** ** Witnesses *)

#[local] Existing Instance toy_xxh3.

Definition ring_a : HashRing := add_node "a" [].
Definition ring_ab : HashRing := add_node "b" ring_a.

Lemma ring_a_wf : ring_wf ring_a.
Proof. apply add_node_wf, ring_wf_nil. Qed.
Lemma ring_ab_wf : ring_wf ring_ab.
Proof. apply add_node_wf, ring_a_wf. Qed.

Definition below_maxb (ring : list (Z * string)) : bool := forallb (λ kv, kv.1 <? u64_max) ring.
Lemma below_maxb_spec ring : below_maxb ring = true → below_max ring.
Proof.
  unfold below_maxb. rewrite forallb_forall. intros Hb k v Hin%list_elem_of_In.
  apply Hb in Hin. by apply Z.ltb_lt in Hin.
Qed.

Lemma get_owner_is_next_clockwise_witness :
  (∀ v, get_owner ring_ab "photos/1" = Some v ↔ owner_is ring_ab (hash_key "photos/1") v) ∧
  (get_owner ring_ab "photos/1" = None ↔ ring_ab = []).
Proof. apply (get_owner_is_next_clockwise ring_ab "photos/1" ring_ab_wf). Defined.

Lemma membership_change_moves_little_witness :
  (get_owner (add_node "b" ring_a) "photos/1" = get_owner ring_a "photos/1" ∨
   get_owner (add_node "b" ring_a) "photos/1" = Some "b") ∧
  (get_owner ring_a "photos/1" ≠ Some "b" →
   get_owner (remove_node "b" ring_a) "photos/1" = get_owner ring_a "photos/1").
Proof. apply (membership_change_moves_little ring_a "b" "photos/1" ring_a_wf). Defined.

Lemma owned_ranges_are_the_owned_hashes_witness :
  hash_in_ranges (hash_key "photos/1") (get_owned_ranges ring_ab "a") =
  bool_decide (get_owner ring_ab "photos/1" = Some "a") && (hash_key "photos/1" <? u64_max).
Proof.
  apply (owned_ranges_are_the_owned_hashes ring_ab "a" "photos/1" ring_ab_wf).
  apply below_maxb_spec. vm_compute. reflexivity.
Defined.

Lemma vnode_at_max_claims_everything_witness :
  hash_in_ranges 7 (get_owned_ranges [(5, "a"); (u64_max, "b")] "a") = true.
Proof.
  apply (vnode_at_max_claims_everything 5 "a" [(u64_max, "b")] "b" 7); try done.
  split; [|by repeat constructor]. repeat constructor.
Defined.

Definition clashb (n n' : string) : bool :=
  let hs := vnode_hash n' <$> vnodes in
  existsb (λ h, existsb (Z.eqb h) hs) (vnode_hash n <$> vnodes).

Lemma clashb_spec n n' i j :
  clashb n n' = false → i ∈ vnodes → j ∈ vnodes → vnode_hash n i ≠ vnode_hash n' j.
Proof.
  unfold clashb. intros Hb Hi Hj Heq. apply not_true_iff_false in Hb.
  apply Hb, existsb_exists. exists (vnode_hash n i).
  rewrite <-list_elem_of_In. split; [by apply list_elem_of_fmap_2|].
  apply existsb_exists. exists (vnode_hash n' j).
  rewrite <-list_elem_of_In. split; [by apply list_elem_of_fmap_2|]. by apply Z.eqb_eq.
Qed.

Lemma a_b_no_clash : clashb "a" "b" = false.
Proof. vm_compute. reflexivity. Qed.

Definition some_changes : list change := [Join "a"; Join "b"; Leave "a"].

Lemma ring_tracks_membership_witness :
  let ring := foldl apply_change ring_new some_changes in
  let members := foldl apply_member ∅ some_changes in
  ring_wf ring ∧ NoDup (nodes ring) ∧ (∀ n, n ∈ nodes ring ↔ n ∈ members) ∧
  node_count ring = Z.of_nat (size members).
Proof.
  apply (ring_tracks_membership some_changes). simpl.
  intros n n' i j Hn Hn' Hi Hj Heq.
  assert (n = "a" ∨ n = "b") as [-> | ->] by set_solver;
    assert (n' = "a" ∨ n' = "b") as [-> | ->] by set_solver; try done.
  - by apply (clashb_spec "a" "b" i j a_b_no_clash) in Heq.
  - symmetry in Heq. by apply (clashb_spec "a" "b" j i a_b_no_clash) in Heq.
Defined.
