(* ===== verification/MetadataStoreTheorems.v ===== *)
(** * MetadataStoreTheorems: the properties of the metadata store

    The theorems about storage-metadata/src/metadata_store.rs. *)

From S2P Require Import Prelude.
From S2P Require Import HashRing.
From S2P Require Import MetadataStore.
From S2P Require Import MetadataStoreFacts.
From S2P Require Import Samples.
Open Scope string_scope.
Open Scope list_scope.
Open Scope Z_scope.

(** The operations that change a store. *)
Inductive ms_op :=
  | MPutObject (checksum : Z) (name : string)
  | MDeleteObject (name : string)
  | MPutChunk (name : string) (checksum : Z)
  | MAllocateChunk (name : string)
  | MConfirmChunk (id : Z) (name : string) (checksum node : Z)
  | MDeleteChunk (id : Z)
  | MUpdateChecksum (name : string) (checksum total_size : Z)
  | MAddNode (address : string)
  | MDeleteNode (id : Z)
  | MAddReplica (id node : Z)
  | MRemoveObjects (names : list string).

Section theorems.
Context `{MetaDeps}.

Definition discard {A} (m : MS A) : MS unit := _ ← m; mret ().

Definition run_ms_op (o : ms_op) : MS unit :=
  match o with
  | MPutObject checksum name => put_object checksum name
  | MDeleteObject name => delete_object name
  | MPutChunk name checksum => discard (put_chunk name checksum)
  | MAllocateChunk name => discard (allocate_chunk name)
  | MConfirmChunk id name checksum node => confirm_chunk id name checksum node
  | MDeleteChunk id => delete_chunk id
  | MUpdateChecksum name checksum total_size => update_object_checksum name checksum total_size
  | MAddNode address => discard (construct_storage_node address)
  | MDeleteNode id => delete_storage_node id
  | MAddReplica id node => add_chunk_replica id node
  | MRemoveObjects names => remove_objects names
  end.

(** A sequence of requests; a failed one does not stop the next. *)
Definition run_ms_ops (ops : list ms_op) (s : MetadataStore) : MetadataStore :=
  foldl (λ s o, (run_ms_op o s).2) s ops.

(** The operations that write the file. *)
Definition saves (o : ms_op) : bool :=
  match o with
  | MAllocateChunk _ | MAddNode _ | MDeleteNode _ => false
  | _ => true
  end.

Lemma discard_keeps {A} (m : MS A) : keeps m → keeps (discard m).
Proof.
  intros Hm s r s' Hwf. unfold discard. cbv [mbind ST_bind mret ST_ret].
  destruct (m s) as [r1 s1] eqn:Hr. apply Hm in Hr; [|done]. by destruct r1; intros [= _ <-].
Qed.

Lemma run_ms_op_keeps o : keeps (run_ms_op o).
Proof.
  destruct o; simpl.
  - apply put_object_keeps.
  - apply delete_object_keeps.
  - apply discard_keeps, put_chunk_keeps.
  - apply discard_keeps, allocate_chunk_keeps.
  - apply confirm_chunk_keeps.
  - apply delete_chunk_keeps.
  - apply update_object_checksum_keeps.
  - apply discard_keeps, construct_storage_node_keeps.
  - apply delete_storage_node_keeps.
  - apply add_chunk_replica_keeps.
  - apply remove_objects_keeps.
Qed.

(** C25: whatever sequence of requests runs, and however the file system fails, every
    chunk an object lists is a confirmed chunk of that object, listed once; no chunk
    is on more than three nodes or twice on one, and a confirmed chunk is on at least
    one. *)
Theorem metadata_invariant ops s : ms_wf s → ms_wf (run_ms_ops ops s).
Proof.
  unfold run_ms_ops. revert s. induction ops as [|o ops IH]; intros s Hwf; simpl; [done|].
  apply IH. destruct (run_ms_op o s) as [r s'] eqn:Hr. by eapply run_ms_op_keeps.
Qed.

(** ** The metadata file *)

(** What an operation that saves does to the file. *)
Definition file_post (s : MetadataStore) (r : outcome ErrorKind unit) (s' : MetadataStore) :
    Prop :=
  match r with
  | Ok _ => dk_main (ms_disk s') = json_to_string (persistent s') ∧ is_Some (dk_main (ms_disk s')) ∧
      dk_images (ms_disk s') = image_of (dk_main (ms_disk s')) true :: dk_images (ms_disk s)
  | _ => dk_main (ms_disk s') = dk_main (ms_disk s) ∧ dk_images (ms_disk s') = dk_images (ms_disk s)
  end.

Lemma save_file_post s0 s r s' :
  ms_disk s = ms_disk s0 → save s = (r, s') → file_post s0 r s'.
Proof.
  intros Hd Hr. pose proof (save_images _ _ _ Hr) as Hi.
  destruct (save_spec s) as (r1 & d & Hs & Hp). rewrite Hs in Hr. injection Hr as <- <-.
  unfold file_post. rewrite <-Hd. destruct r1 as [[]|e|]; [|by destruct Hp|done].
  by destruct Hp.
Qed.

Lemma put_chunk_file name checksum s r s' :
  discard (put_chunk name checksum) s = (r, s') → file_post s r s'.
Proof.
  unfold discard, put_chunk. cbv [mbind ST_bind].
  destruct (generate_unique_id chunks s) as [r1 s1] eqn:Hg.
  apply generate_unique_id_spec in Hg as (rng & -> & _).
  destruct r1 as [id|e|]; [|by intros [= <- <-]..].
  destruct (choose_storage_node_spec (set_rng rng s)) as (n & rng' & -> & _).
  destruct n as [n|]; [|by intros [= <- <-]]. run_st. cbn [objects set_chunks set_rng].
  destruct (objects s !! name) as [o|]; [|by intros [= <- <-]].
  set (s1 := set_objects _ _). destruct (save s1) as [r2 s2] eqn:Hs.
  apply (save_file_post s) in Hs; [|done]. by destruct r2 as [[]| |]; intros [= <- <-].
Qed.

Lemma run_ms_op_file o s r s' :
  saves o = true → run_ms_op o s = (r, s') → file_post s r s'.
Proof.
  destruct o; try done; intros _; simpl.
  - unfold put_object. run_st. case_decide; [by intros [= <- <-]|]. by apply save_file_post.
  - unfold delete_object. run_st. destruct (objects s !! name); [|by intros [= <- <-]].
    by apply save_file_post.
  - apply put_chunk_file.
  - unfold confirm_chunk. run_st. case_decide; [|by intros [= <- <-]].
    destruct (chunks s !! id) as [[? ? ? ? []]|]; try by intros [= <- <-].
    all: destruct (objects s !! name); [|by intros [= <- <-]]; by apply save_file_post.
  - unfold delete_chunk. run_st. destruct (chunks s !! id) as [c|]; [|by intros [= <- <-]].
    cbn. destruct (objects s !! mc_object_name c); [|by intros [= <- <-]].
    by apply save_file_post.
  - unfold update_object_checksum. run_st. destruct (objects s !! name); [|by intros [= <- <-]].
    by apply save_file_post.
  - unfold add_chunk_replica. run_st. case_decide; [|by intros [= <- <-]].
    destruct (chunks s !! id) as [c|]; [|by intros [= <- <-]].
    case_decide; [by intros [= <- <-]|]. case_match; [by intros [= <- <-]|].
    by apply save_file_post.
  - unfold remove_objects. run_st. apply save_file_post.
    assert (∀ names s, ms_disk (foldl remove_object_of s names) = ms_disk s) as Hd; [|done].
    clear. intros names. induction names as [|k names IH]; intros s; simpl; [done|].
    rewrite IH. unfold remove_object_of. by destruct (objects s !! k).
Qed.

(** Reading the file back, when no call fails. *)
Lemma store_new_reads rng st contents :
  json_to_string st = Some contents → contents ≠ "" →
  ∃ s d, store_new rng (mkDisk (Some contents) None []) = (Ok s, d) ∧
    objects s = ps_objects st ∧ chunks s = ps_chunks st ∧ storage_nodes s = ∅.
Proof.
  intros Hj Hne. unfold store_new. cbn [dk_main]. run_st. unfold fs_call. cbn.
  rewrite !decide_False by done. cbn. rewrite (json_roundtrip _ _ Hj).
  by eexists _, _.
Qed.

(** An operation that saves and succeeds leaves a file from which a restarted node
    reads the very objects and chunks it has; one that fails leaves the file as it
    was, whichever file-system call failed. *)
Theorem metadata_survives_restart o s r s' rng :
  saves o = true → run_ms_op o s = (r, s') → dk_main (ms_disk s') ≠ Some "" →
  match r with
  | Ok _ => ∃ s2 d2, store_new rng (mkDisk (dk_main (ms_disk s')) None []) = (Ok s2, d2) ∧
      objects s2 = objects s' ∧ chunks s2 = chunks s' ∧ storage_nodes s2 = ∅
  | _ => dk_main (ms_disk s') = dk_main (ms_disk s)
  end.
Proof.
  intros Hsv Hr Hne. apply run_ms_op_file in Hr; [|done].
  destruct r as [[]|e|]; [|by destruct Hr..].
  destruct Hr as (Hj & [json Hm] & _). rewrite Hm in *.
  apply (store_new_reads rng (persistent s') json); [done|congruence].
Qed.

(** What a metadata file stands for: the maps of the state that was printed to it;
    no file stands for empty maps. *)
Definition on_file (st : gmap string MetaObject * gmap Z MetaChunk) (f : option string) : Prop :=
  match f with
  | None => st = (∅, ∅)
  | Some json => ∃ ps, json_to_string ps = Some json ∧ st = (ps_objects ps, ps_chunks ps)
  end.

(** The maps as they were when the last operation that saves was answered with
    success, [st] when none was. *)
Fixpoint last_saved (ops : list ms_op) (s : MetadataStore)
    (st : gmap string MetaObject * gmap Z MetaChunk) :=
  match ops with
  | [] => st
  | o :: ops =>
      let '(r, s') := run_ms_op o s in
      last_saved ops s' (if saves o && is_ok r then (objects s', chunks s') else st)
  end.

Lemma run_ms_op_no_save o s r s' :
  saves o = false → run_ms_op o s = (r, s') → ms_disk s' = ms_disk s.
Proof.
  destruct o; try done; intros _; simpl.
  - unfold discard, allocate_chunk. cbv [mbind ST_bind].
    destruct (generate_unique_id chunks s) as [r1 s1] eqn:Hg.
    apply generate_unique_id_spec in Hg as (rng & -> & _).
    destruct r1 as [id|e|]; [|by intros [= <- <-]..].
    destruct (choose_storage_node_spec (set_rng rng s)) as (n & rng' & -> & _).
    destruct n as [n|]; by intros [= <- <-].
  - unfold discard, construct_storage_node. cbv [mbind ST_bind].
    destruct (generate_unique_id storage_nodes s) as [r1 s1] eqn:Hg.
    apply generate_unique_id_spec in Hg as (rng & -> & _).
    destruct r1 as [id0|e|]; [|by intros [= <- <-]..].
    destruct (meta_storage_node_new id0 address); by intros [= <- <-].
  - unfold delete_storage_node. run_st. destruct (storage_nodes s !! id); by intros [= <- <-].
Qed.

Lemma run_ms_op_on_file o s r s' st :
  run_ms_op o s = (r, s') → on_file st (dk_main (ms_disk s)) →
  on_file (if saves o && is_ok r then (objects s', chunks s') else st) (dk_main (ms_disk s')).
Proof.
  intros Hr Hst. destruct (saves o) eqn:Hs; simpl.
  - apply run_ms_op_file in Hr; [|done]. destruct r as [[]|e|]; simpl in *;
      [|by rewrite (proj1 Hr)..].
    destruct Hr as (Hj & [json Hm] & _). rewrite Hm in *. by exists (persistent s').
  - by rewrite (run_ms_op_no_save _ _ _ _ Hs Hr).
Qed.

Lemma run_ms_ops_on_file ops s st :
  on_file st (dk_main (ms_disk s)) →
  on_file (last_saved ops s st) (dk_main (ms_disk (run_ms_ops ops s))).
Proof.
  unfold run_ms_ops. revert s st. induction ops as [|o ops IH]; intros s st Hst; simpl; [done|].
  destruct (run_ms_op o s) as [r s'] eqn:Hr. simpl. apply IH. by eapply run_ms_op_on_file.
Qed.

Lemma store_new_on_file rng st d :
  (∀ ps, json_to_string ps ≠ Some "") → dk_script d = [] → on_file st (dk_main d) →
  ∃ s d', store_new rng d = (Ok s, d') ∧
    (objects s, chunks s) = st ∧ storage_nodes s = ∅ ∧ dk_main d' = dk_main d ∧
    ms_disk s = d' ∧ dk_script d' = [].
Proof.
  intros Hne Hsc. unfold store_new. destruct (dk_main d) as [json|] eqn:Hf; cbn [on_file].
  - intros (ps & Hj & ->). assert (json ≠ "") by (intros ->; by apply (Hne ps)).
    run_st. unfold fs_call. rewrite Hsc. unfold id. rewrite Hsc, !decide_False, Hsc by done. cbn.
    rewrite (json_roundtrip _ _ Hj). by eexists _, _.
  - intros ->. by eexists _, _.
Qed.

(** ** Loss of power *)

Lemma run_ms_op_images o s r s' f :
  run_ms_op o s = (r, s') → power_loss (ms_disk s') f →
  power_loss (ms_disk s) f ∨ saves o && is_ok r = true ∧ on_file (objects s', chunks s') f.
Proof.
  intros Hr. unfold power_loss. destruct (saves o) eqn:Hs.
  2: { rewrite (run_ms_op_no_save _ _ _ _ Hs Hr). by left. }
  pose proof (run_ms_op_file _ _ _ _ Hs Hr) as Hp.
  destruct r as [[]|e|]; cbn in Hp; [|destruct Hp as [_ ->]; by left..].
  destruct Hp as (Hj & [json Hm] & ->). rewrite Hm in *.
  intros [Hf|Hf]%Exists_cons; [right|by left]. split; [done|]. cbn in Hf. subst f.
  by exists (persistent s').
Qed.

(** The file that a loss of power leaves was possible before, or is one that was saved. *)
Lemma run_ms_ops_images ops s st f :
  power_loss (ms_disk (run_ms_ops ops s)) f →
  power_loss (ms_disk s) f ∨ ∃ k, on_file (last_saved (take k ops) s st) f.
Proof.
  unfold run_ms_ops. revert s st. induction ops as [|o ops IH]; intros s st Hf; [by left|].
  cbn [foldl] in Hf. destruct (run_ms_op o s) as [r s'] eqn:Hr. cbn [snd] in Hf.
  destruct (IH s' (if saves o && is_ok r then (objects s', chunks s') else st) Hf) as [Hs'|[k Hk]].
  - destruct (run_ms_op_images _ _ _ _ _ Hr Hs') as [?|[Hok Hst]]; [by left|]. right. exists 1%nat.
    cbn. by rewrite Hr, Hok.
  - right. exists (S k). cbn. by rewrite Hr.
Qed.

(** C27: after any sequence of requests, whichever file-system calls failed and whatever
    they left in the temporary file, a node whose process stops and is started again has
    exactly the objects and chunks of the moment of the last change that was answered with
    success, and no storage nodes. When it is the machine that stops, by a loss of power, the
    node has those of the moment of one of the changes that were answered with success, or
    of the start: never a part of a change and never an unreadable file, because [save] syncs
    the new file before it renames it. *)
Theorem restart_gives_the_last_saved_state ops s st rng :
  (∀ ps, json_to_string ps ≠ Some "") → on_file st (dk_main (ms_disk s)) →
  (∀ f, power_loss (ms_disk s) f → on_file st f) →
  let d := ms_disk (run_ms_ops ops s) in
  (∃ s' d', store_new rng (set_script [] d) = (Ok s', d') ∧
    (objects s', chunks s') = last_saved ops s st ∧ storage_nodes s' = ∅ ∧
    dk_main d' = dk_main d) ∧
  ∀ f tmp, power_loss d f → ∃ s' d' k, store_new rng (mkDisk f tmp []) = (Ok s', d') ∧
    (objects s', chunks s') = last_saved (take k ops) s st ∧ storage_nodes s' = ∅.
Proof.
  intros Hne Hst Hloss d. split.
  - destruct (store_new_on_file rng (last_saved ops s st) (set_script [] d) Hne eq_refl)
      as (s' & d' & Hr & He & Hn & Hm & _); [by apply run_ms_ops_on_file|]. by exists s', d'.
  - intros f tmp Hf.
    assert (∃ k, on_file (last_saved (take k ops) s st) f) as [k Hk].
    { destruct (run_ms_ops_images _ _ st _ Hf) as [Hs|Hk]; [|exact Hk]. exists O. by apply Hloss. }
    destruct (store_new_on_file rng _ (mkDisk f tmp []) Hne eq_refl Hk) as (s' & d' & Hr & He & Hn & _).
    by exists s', d', k.
Qed.

(** The directory is not synced: what a loss of power could leave before some requests it can
    still leave after them, so that changes answered with success can be lost. *)
Theorem answered_changes_can_be_lost ops s f :
  power_loss (ms_disk s) f → power_loss (ms_disk (run_ms_ops ops s)) f.
Proof.
  unfold run_ms_ops. revert s. induction ops as [|o ops IH]; intros s Hf; [done|]. cbn [foldl].
  apply IH. destruct (run_ms_op o s) as [r s'] eqn:Hr. cbn [snd]. unfold power_loss in *.
  destruct (saves o) eqn:Hs; [|by rewrite (run_ms_op_no_save _ _ _ _ Hs Hr)].
  pose proof (run_ms_op_file _ _ _ _ Hs Hr) as Hp.
  destruct r as [[]|e|]; cbn in Hp; [|destruct Hp as [_ ->]; exact Hf..].
  destruct Hp as (_ & _ & ->). by apply Exists_cons_tl.
Qed.

(** A file that cannot be read as JSON counts as an empty store, and the next object that
    is put overwrites it: what the file held is gone. *)
Theorem unreadable_file_is_overwritten contents rng checksum name :
  contents ≠ "" → json_from_str contents = None → (∀ ps, is_Some (json_to_string ps)) →
  ∃ s d, store_new rng (mkDisk (Some contents) None []) = (Ok s, d) ∧
    objects s = ∅ ∧ chunks s = ∅ ∧ dk_main d = Some contents ∧
    ∃ s' json, put_object checksum name s = (Ok (), s') ∧ dk_main (ms_disk s') = Some json ∧
      json_from_str json =
        Some (mkPersistentState PERSISTENT_STATE_VERSION {[name := new_object name checksum]} ∅).
Proof.
  intros Hne Hj Hjs. unfold store_new. cbn [dk_main]. run_st. unfold fs_call. cbn.
  rewrite !decide_False by done. cbn. rewrite Hj. eexists _, _. split_and!; [done..|].
  unfold put_object. run_st. rewrite decide_False by (cbn; rewrite lookup_empty; by intros []).
  set (s1 := set_objects _ _). destruct (Hjs (persistent s1)) as [json Hjson].
  destruct (save_spec s1) as (r & d & Hs & Hp). rewrite Hs. destruct r as [[]|e|]; [| |done].
  - eexists _, json. split; [done|]. destruct Hp as [Hm _]. cbn. split; [congruence|].
    by rewrite (json_roundtrip _ _ Hjson).
  - exfalso. destruct Hp as [_ [Hd|Hn]]; [by apply Hd|congruence].
Qed.

(** When saving fails, [put_object] reports an error but the object is in the
    store: it can be read, and a retry is refused as a duplicate. *)
Theorem failed_put_object_stays_visible checksum name s s' e :
  objects s !! name = None → put_object checksum name s = (Err e, s') →
  get_object name s' = (Ok (new_object name checksum), s') ∧
  put_object checksum name s' = (Err AlreadyExists, s') ∧
  dk_main (ms_disk s') = dk_main (ms_disk s).
Proof.
  intros Hn. unfold put_object, get_object. run_st. rewrite decide_False by (rewrite Hn; by intros []).
  destruct (save_spec (set_objects (<[name := new_object name checksum]> (objects s)) s))
    as (r & d & -> & Hp). intros [= -> <-]. cbn. rewrite lookup_insert_eq.
  split_and!; [done|by rewrite decide_True|by destruct Hp].
Qed.

(** ** Chunks *)

(** Among more distinct random draws than there are ids in use, the search for an
    unused id ends, and the id it returns is unused. *)
Theorem generate_unique_id_ends s draws picks :
  NoDup draws → (size (chunks s) < length draws)%nat →
  ∃ id s', generate_unique_id chunks (set_rng (mkRng draws picks) s) = (Ok id, s') ∧
    chunks s !! id = None ∧ id ∈ draws.
Proof.
  intros Hnd Hsz. destruct (draw_unused_ends (chunks s) draws Hnd Hsz) as [[id rest] Hd].
  unfold generate_unique_id. cbn [ms_rng set_rng rng_draws chunks]. rewrite Hd.
  eexists _, _. split; [done|]. by eapply draw_unused_spec.
Qed.

(** Allocating then confirming a chunk appends it to its object and records it on
    the chosen node, when the file is saved; confirming it again is refused. *)
Theorem allocate_then_confirm name checksum s s1 s2 id node addr o r :
  ms_wf s → objects s !! name = Some o → dk_script (ms_disk s) = [] →
  (∀ st, is_Some (json_to_string st)) →
  allocate_chunk name s = (Ok (id, node, addr), s1) →
  confirm_chunk id name checksum node s1 = (r, s2) →
  r = Ok () ∧ chunks s !! id = None ∧
  objects s2 !! name = Some (add_chunk id o) ∧
  chunks s2 !! id = Some (mkMetaChunk id name checksum [node] Confirmed) ∧
  (confirm_chunk id name checksum node s2).1 = Err AlreadyExists.
Proof.
  intros Hwf Ho Hsc Hjs. unfold allocate_chunk. cbv [mbind ST_bind].
  destruct (generate_unique_id chunks s) as [r1 s0] eqn:Hg.
  apply generate_unique_id_spec in Hg as (rng & -> & Hid). destruct r1 as [id0|e|]; [|done..].
  destruct (choose_storage_node_spec (set_rng rng s)) as (n & rng' & -> & Hn).
  destruct n as [n|]; [|done]. run_st. intros [= -> <- <- <-].
  destruct Hn as [i Hi]. pose proof (mw_node _ Hwf _ _ Hi) as Hin.
  unfold confirm_chunk. run_st. cbn in Hi |- *. rewrite Hin.
  rewrite decide_True by by rewrite Hi. simpl. rewrite lookup_insert_eq. simpl. rewrite Ho.
  set (sx := set_objects _ _). destruct (save_spec sx) as (r2 & d & -> & Hp).
  intros [= <- <-]. split_and!; [|done| | |].
  - destruct r2 as [[]|e|]; [done| |done].
    destruct Hp as [_ [Hd|Hj]]; [done|]. destruct (Hjs (persistent sx)). congruence.
  - simpl. by rewrite lookup_insert_eq.
  - simpl. by rewrite lookup_insert_eq.
  - subst sx. simpl. rewrite decide_True by by rewrite Hi. simpl. by rewrite lookup_insert_eq.
Qed.

(** Deleting an object removes it and exactly the chunks it lists. *)
Theorem delete_object_removes_its_chunks name s o r s' :
  ms_wf s → objects s !! name = Some o → delete_object name s = (r, s') →
  objects s' = delete name (objects s) ∧
  ∀ id, chunks s' !! id = if decide (id ∈ mo_chunks o) then None else chunks s !! id.
Proof.
  intros Hwf Ho. rewrite (delete_object_run name s o Ho). unfold remove_object_of. rewrite Ho.
  set (sx := set_chunks _ _). destruct (save_spec sx) as (r1 & d & -> & _). intros [= <- <-].
  cbn. split; [done|]. intros id. apply lookup_delete_all.
Qed.

(** [put_chunk] on an object that is not there reports [NotFound] and yet leaves a
    confirmed chunk in the store, which the replication service is then told is
    under-replicated. *)
Theorem put_chunk_leaves_orphan name checksum s s' :
  objects s !! name = None → put_chunk name checksum s = (Err NotFound, s') →
  ∃ id c, chunks s !! id = None ∧ chunks s' !! id = Some c ∧
    mc_object_name c = name ∧ under_replicated MAX_REPLICAS c = true.
Proof.
  intros Ho. unfold put_chunk. cbv [mbind ST_bind].
  destruct (generate_unique_id chunks s) as [r1 s0] eqn:Hg.
  apply generate_unique_id_spec in Hg as (rng & -> & Hid). destruct r1 as [id|e|]; [|done..].
  destruct (choose_storage_node_spec (set_rng rng s)) as (n & rng' & -> & _).
  destruct n as [n|]; [|done]. run_st. cbn. rewrite Ho. intros [= <-].
  exists id. eexists. cbn. by rewrite lookup_insert_eq.
Qed.

(** ** Replication *)

Lemma insert_by_perm {A} (key : A → Z) x l : insert_by key x l ≡ₚ x :: l.
Proof.
  induction l as [|y l IH]; simpl; [done|]. destruct (key x <=? key y); [done|].
  rewrite IH. apply Permutation_swap.
Qed.

Lemma sort_by_key_perm {A} (key : A → Z) l : sort_by_key key l ≡ₚ l.
Proof. induction l as [|x l IH]; simpl; [done|]. by rewrite insert_by_perm, IH. Qed.

Lemma sort_by_key_sorted {A} (key : A → Z) l :
  StronglySorted (λ x y, key x ≤ key y) (sort_by_key key l).
Proof.
  induction l as [|x l IH]; simpl; [constructor|].
  induction IH as [|y k Hs IHk Hy]; simpl; [by repeat constructor|].
  destruct (Z.leb_spec (key x) (key y)).
  - constructor; [by constructor|]. constructor; [done|].
    eapply list.Forall_impl; [exact Hy|]. simpl. lia.
  - constructor; [done|]. rewrite insert_by_perm. constructor; [lia|done].
Qed.

(** The list given to the replication service has exactly the confirmed chunks with
    fewer than the wanted replicas, each once, those with the fewest replicas first. *)
Theorem under_replicated_list max s :
  let l := list_under_replicated_chunks max s in
  StronglySorted (λ c c', zlen (mc_storage_nodes c) ≤ zlen (mc_storage_nodes c')) l ∧
  ∀ c, c ∈ l ↔ ∃ id, chunks s !! id = Some c ∧ mc_status c = Confirmed ∧
    zlen (mc_storage_nodes c) < max.
Proof.
  split; [apply sort_by_key_sorted|]. intros c. unfold list_under_replicated_chunks.
  rewrite sort_by_key_perm, list_elem_of_In, filter_In, <-list_elem_of_In, list_elem_of_fmap.
  unfold under_replicated. rewrite andb_true_iff, bool_decide_eq_true, Z.ltb_lt. split.
  - intros [([id c'] & -> & Hin%elem_of_map_to_list) ?]. by exists id.
  - intros (id & Hid & ?). split; [|done]. exists (id, c). by rewrite elem_of_map_to_list.
Qed.

(** [add_chunk_replica] adds the node to a known chunk with fewer than three
    replicas that is not on it, and otherwise refuses with the matching error and no
    change. *)
Theorem add_chunk_replica_outcomes id n s r s' :
  add_chunk_replica id n s = (r, s') →
  match storage_nodes s !! n, chunks s !! id with
  | Some _, Some c =>
      if decide (n ∈ mc_storage_nodes c) then r = Err AlreadyExists ∧ s' = s
      else if MAX_REPLICAS <=? zlen (mc_storage_nodes c) then r = Err InvalidInput ∧ s' = s
      else chunks s' = <[id := add_storage_node n c]> (chunks s) ∧ objects s' = objects s ∧
           (r = Ok () ∨ dk_main (ms_disk s') = dk_main (ms_disk s))
  | _, _ => r = Err NotFound ∧ s' = s
  end.
Proof.
  unfold add_chunk_replica. run_st.
  destruct (storage_nodes s !! n) as [a|]; [|by intros [= <- <-]].
  rewrite decide_True by done.
  destruct (chunks s !! id) as [c|]; [|by intros [= <- <-]].
  case_decide; [by intros [= <- <-]|]. case_match; [by intros [= <- <-]|].
  set (sx := set_chunks _ _). destruct (save_spec sx) as (r1 & d & -> & Hp). intros [= <- <-].
  cbn. split_and!; [done|done|]. destruct r1 as [[]|e|]; [by left|right; by destruct Hp|done].
Qed.

End theorems.

(** ** Witnesses *)

#[local] Existing Instance toy_deps.

Definition empty_store : MetadataStore :=
  mkMetadataStore ∅ ∅ ∅ (mkDisk None None []) (mkRng [11; 21; 22; 23; 24] []).

Lemma empty_store_wf : ms_wf empty_store.
Proof. split; simpl; intros *; by rewrite lookup_empty. Qed.

Definition some_ms_ops : list ms_op :=
  [MAddNode "http://n1"; MPutObject 5 "photo"; MPutChunk "photo" 6].
Definition used_store : MetadataStore := run_ms_ops some_ms_ops empty_store.

Lemma metadata_invariant_witness : ms_wf (run_ms_ops some_ms_ops empty_store).
Proof. apply (metadata_invariant some_ms_ops empty_store empty_store_wf). Defined.

Lemma used_store_wf : ms_wf used_store.
Proof.
  unfold used_store, run_ms_ops, some_ms_ops. simpl.
  eapply (run_ms_op_keeps (MPutChunk "photo" 6)); [|apply surjective_pairing].
  eapply (run_ms_op_keeps (MPutObject 5 "photo")); [|apply surjective_pairing].
  eapply (run_ms_op_keeps (MAddNode "http://n1")); [|apply surjective_pairing].
  apply empty_store_wf.
Qed.

Definition put_photo : outcome ErrorKind unit * MetadataStore :=
  run_ms_op (MPutObject 5 "photo") empty_store.

Lemma metadata_survives_restart_witness :
  ∃ s2 d2, store_new (mkRng [] []) (mkDisk (dk_main (ms_disk put_photo.2)) None []) = (Ok s2, d2) ∧
    objects s2 = objects put_photo.2 ∧ chunks s2 = chunks put_photo.2 ∧ storage_nodes s2 = ∅.
Proof.
  apply (metadata_survives_restart (MPutObject 5 "photo") empty_store (Ok ()) put_photo.2
    (mkRng [] [])); [done|done|done].
Defined.

(** The rename of the second upload fails, the third request's write stops half-way. *)
Definition failing_disk : MetadataStore :=
  set_disk (mkDisk None None [FsOk; FsOk; FsOk; FsOk; FsOk; FsOk; FsOk; FsFail 0; FsOk; FsFail 3])
    empty_store.
Definition three_puts : list ms_op :=
  [MPutObject 5 "photo"; MPutObject 6 "film"; MPutObject 7 "song"].

Lemma restart_gives_the_last_saved_state_witness :
  last_saved three_puts failing_disk (∅, ∅) = ({["photo" := mkMetaObject "photo" 5 [] 0]}, ∅) ∧
  let d := ms_disk (run_ms_ops three_puts failing_disk) in
  (∃ s' d', store_new (mkRng [] []) (set_script [] d) = (Ok s', d') ∧
    (objects s', chunks s') = last_saved three_puts failing_disk (∅, ∅) ∧
    storage_nodes s' = ∅ ∧ dk_main d' = dk_main d) ∧
  ∃ s' d' k, store_new (mkRng [] []) (mkDisk None None []) = (Ok s', d') ∧
    (objects s', chunks s') = last_saved (take k three_puts) failing_disk (∅, ∅) ∧
    storage_nodes s' = ∅.
Proof.
  split; [vm_compute; reflexivity|].
  destruct (restart_gives_the_last_saved_state three_puts failing_disk (∅, ∅) (mkRng [] []))
    as [Hstop Hpower].
  - intros ps. done.
  - done.
  - by intros f [->|[]%Exists_nil]%Exists_cons.
  - split; [exact Hstop|]. apply Hpower. apply (answered_changes_can_be_lost three_puts failing_disk).
    by apply Exists_cons_hd.
Defined.

Lemma unreadable_file_is_overwritten_witness :
  ∃ s d, store_new (mkRng [] []) (mkDisk (Some "{") None []) = (Ok s, d) ∧
    objects s = ∅ ∧ chunks s = ∅ ∧ dk_main d = Some "{" ∧
    ∃ s' json, put_object 5 "photo" s = (Ok (), s') ∧ dk_main (ms_disk s') = Some json ∧
      json_from_str json =
        Some (mkPersistentState PERSISTENT_STATE_VERSION {["photo" := new_object "photo" 5]} ∅).
Proof.
  apply (unreadable_file_is_overwritten "{" (mkRng [] []) 5 "photo").
  - done.
  - vm_compute. reflexivity.
  - intros ps. by eexists.
Defined.

(** The disk is full when the temporary file is written. *)
Definition full_disk : MetadataStore := set_disk (mkDisk None None [FsOk; FsFail 3]) empty_store.

Lemma failed_put_object_stays_visible_witness :
  let s' := (put_object 5 "photo" full_disk).2 in
  get_object "photo" s' = (Ok (new_object "photo" 5), s') ∧
  put_object 5 "photo" s' = (Err AlreadyExists, s') ∧
  dk_main (ms_disk s') = dk_main (ms_disk full_disk).
Proof.
  apply (failed_put_object_stays_visible 5 "photo" full_disk (put_object 5 "photo" full_disk).2 Other);
    [done|vm_compute; reflexivity].
Defined.

Lemma generate_unique_id_ends_witness :
  ∃ id s', generate_unique_id chunks (set_rng (mkRng [21; 99] []) used_store) = (Ok id, s') ∧
    chunks used_store !! id = None ∧ id ∈ [21; 99].
Proof.
  apply (generate_unique_id_ends used_store [21; 99] []).
  - by apply (bool_decide_unpack _); vm_compute.
  - vm_compute. lia.
Defined.

Definition allocated : outcome ErrorKind (Z * Z * string) * MetadataStore :=
  allocate_chunk "photo" used_store.

Lemma allocate_then_confirm_witness :
  let r2 := confirm_chunk 22 "photo" 9 11 allocated.2 in
  r2.1 = Ok () ∧ chunks used_store !! 22 = None ∧
  objects r2.2 !! "photo" = Some (add_chunk 22 (mkMetaObject "photo" 5 [21] 0)) ∧
  chunks r2.2 !! 22 = Some (mkMetaChunk 22 "photo" 9 [11] Confirmed) ∧
  (confirm_chunk 22 "photo" 9 11 r2.2).1 = Err AlreadyExists.
Proof.
  apply (allocate_then_confirm "photo" 9 used_store allocated.2
    (confirm_chunk 22 "photo" 9 11 allocated.2).2 22 11 "http://n1"
    (mkMetaObject "photo" 5 [21] 0)).
  - exact used_store_wf.
  - vm_compute. reflexivity.
  - vm_compute. reflexivity.
  - intros st. by eexists.
  - vm_compute. reflexivity.
  - apply surjective_pairing.
Defined.

Lemma delete_object_removes_its_chunks_witness :
  let s' := (delete_object "photo" used_store).2 in
  objects s' = delete "photo" (objects used_store) ∧
  ∀ id, chunks s' !! id = if decide (id ∈ [21]) then None else chunks used_store !! id.
Proof.
  apply (delete_object_removes_its_chunks "photo" used_store (mkMetaObject "photo" 5 [21] 0)
    (delete_object "photo" used_store).1).
  - exact used_store_wf.
  - vm_compute. reflexivity.
  - apply surjective_pairing.
Defined.

Lemma put_chunk_leaves_orphan_witness :
  ∃ id c, chunks used_store !! id = None ∧
    chunks (put_chunk "gone" 1 used_store).2 !! id = Some c ∧
    mc_object_name c = "gone" ∧ under_replicated MAX_REPLICAS c = true.
Proof.
  apply (put_chunk_leaves_orphan "gone" 1 used_store); vm_compute; reflexivity.
Defined.

Lemma add_chunk_replica_outcomes_witness :
  (add_chunk_replica 21 11 used_store).1 = Err AlreadyExists.
Proof.
  pose proof (add_chunk_replica_outcomes 21 11 used_store _ _
    (surjective_pairing (add_chunk_replica 21 11 used_store))) as Hp.
  revert Hp. vm_compute. by intros [? _].
Defined.
