(* ===== verification/ChunkIndex.v ===== *)
(** * ChunkIndex: the cluster-wide map from chunks to their objects

    storage-metadata/src/chunk_index.rs. *)

From S2P Require Import Prelude.
From S2P Require Import MetadataStore.
Open Scope Z_scope.

Abbreviation ChunkIndex := (gmap Z string).

Definition index_new : ChunkIndex := ∅.
Definition index_insert (chunk_id : Z) (object_name : string) (idx : ChunkIndex) : ChunkIndex :=
  <[chunk_id := object_name]> idx.
Definition index_get (chunk_id : Z) (idx : ChunkIndex) : option string := idx !! chunk_id.
Definition index_remove (chunk_id : Z) (idx : ChunkIndex) : option string * ChunkIndex :=
  (idx !! chunk_id, delete chunk_id idx).
Definition bulk_insert (entries : list (Z * string)) (idx : ChunkIndex) : ChunkIndex :=
  foldl (λ idx '(chunk_id, object_name), <[chunk_id := object_name]> idx) idx entries.
(** [retain(|_, obj_name| !object_names.contains(obj_name))]. *)
Definition remove_by_objects (object_names : list string) (idx : ChunkIndex) : ChunkIndex :=
  filter (λ kv, kv.2 ∉ object_names) idx.
Definition populate_from_chunks (cs : gmap Z MetaChunk) (idx : ChunkIndex) : ChunkIndex :=
  foldl (λ idx '(chunk_id, chunk), <[chunk_id := mc_object_name chunk]> idx) idx
    (map_to_list cs).
Definition entries (idx : ChunkIndex) : list (Z * string) := map_to_list idx.
Definition index_len (idx : ChunkIndex) : Z := Z.of_nat (size idx).

(** ** Facts *)

Lemma bulk_insert_lookup es idx id :
  bulk_insert es idx !! id =
  match list.last (List.filter (λ e, e.1 =? id) es) with Some (_, n) => Some n | None => idx !! id end.
Proof.
  revert idx. induction es as [|[i n] es IH]; intros idx; [done|].
  unfold bulk_insert in *. cbn [foldl]. rewrite IH. cbn [List.filter fst].
  destruct (Z.eqb_spec i id) as [->|Hne].
  - rewrite last_cons. destruct (list.last _) as [[]|]; [done|]. by rewrite lookup_insert_eq.
  - destruct (list.last _) as [[]|]; [done|]. by rewrite lookup_insert_ne.
Qed.

Lemma foldl_insert_lookup (l : list (Z * MetaChunk)) idx id :
  NoDup (l.*1) →
  foldl (λ idx '(chunk_id, chunk), <[chunk_id := mc_object_name chunk]> idx) idx l !! id =
  match (list_to_map l : gmap Z MetaChunk) !! id with
  | Some c => Some (mc_object_name c)
  | None => (idx : ChunkIndex) !! id
  end.
Proof.
  revert idx. induction l as [|[i c] l IH]; intros idx Hnd; [done|].
  apply list.NoDup_cons in Hnd as [Hni Hnd]. cbn [foldl list_to_map foldr]. rewrite IH by done. simpl.
  destruct (decide (id = i)) as [->|Hne].
  - by rewrite !lookup_insert_eq, not_elem_of_list_to_map_1.
  - by rewrite !lookup_insert_ne by done.
Qed.

Lemma populate_lookup cs idx id :
  populate_from_chunks cs idx !! id =
  match cs !! id with Some c => Some (mc_object_name c) | None => idx !! id end.
Proof.
  unfold populate_from_chunks. rewrite foldl_insert_lookup by apply NoDup_fst_map_to_list.
  by rewrite list_to_map_to_list.
Qed.

Lemma foldl_remove_lookup (ids : list Z) (idx : ChunkIndex) id :
  foldl (λ idx i, (index_remove i idx).2) idx ids !! id =
  if decide (id ∈ ids) then None else idx !! id.
Proof.
  revert idx. induction ids as [|i ids IH]; intros idx; [done|]. cbn [foldl]. rewrite IH.
  unfold index_remove. simpl. destruct (decide (id = i)) as [->|Hne].
  - rewrite lookup_delete_eq. repeat case_decide; set_solver.
  - rewrite lookup_delete_ne by done. repeat case_decide; set_solver.
Qed.
