(* ===== verification/ClusterService.v ===== *)
(** * ClusterService: what a metadata node does for its peers

    storage-metadata/src/cluster_service.rs: the requests between metadata nodes,
    served against the node's store and chunk index; they never forward further. *)

From S2P Require Import Prelude.
From S2P Require Import Grpc.
From S2P Require Import HashRing.
From S2P Require Import MetadataStore.
From S2P Require Import ChunkIndex.
Open Scope string_scope.
Open Scope list_scope.
Open Scope Z_scope.

(** ** Messages (storage_metadata.proto) *)

Record ChunkInfo := mkChunkInfo {
  ci_id : Z;
  ci_checksum : Z;
  ci_storage_nodes : list MetaStorageNode;
}.

Record ObjectInfo := mkObjectInfo {
  oi_name : string;
  oi_checksum : Z;
  oi_chunks : list ChunkInfo;
  oi_total_size : Z;
}.

Record GetObjectResponse := mkGetObjectResponse {
  go_checksum : Z;
  go_chunks : list ChunkInfo;
}.

Record GetChunkResponse := mkGetChunkResponse {
  gc_object_name : string;
  gc_checksum : Z;
  gc_storage_nodes : list MetaStorageNode;
}.

Record AllocateChunkResponse := mkAllocateChunkResponse {
  ac_chunk_id : Z;
  ac_storage_node_address : string;
  ac_storage_node_id : Z;
}.

Record UnderReplicatedChunk := mkUnderReplicatedChunk {
  ur_chunk_id : Z;
  ur_checksum : Z;
  ur_current_storage_node_ids : list Z;
}.

(** An entry of a partition transfer: an object without its size, or a chunk without
    its status. *)
Inductive TransferPartitionEntry :=
  | TransferObject (name : string) (checksum : Z) (chunk_ids : list Z)
  | TransferChunk (id : Z) (object_name : string) (checksum : Z) (storage_node_ids : list Z).

Inductive PeerRequest :=
  | ForwardPutObject (name : string) (checksum : Z)
  | ForwardGetObject (object_name : string)
  | ForwardDeleteObject (object_name : string)
  | ForwardPutChunk (object_name : string) (checksum : Z)
  | ForwardAllocateChunk (object_name : string)
  | ForwardConfirmChunk (chunk_id : Z) (object_name : string) (checksum storage_node_id : Z)
  | ForwardGetChunk (chunk_id : Z)
  | ForwardDeleteChunk (chunk_id : Z)
  | ForwardAddChunkReplica (chunk_id storage_node_id : Z)
  | BroadcastPutStorageNode (address : string)
  | BroadcastDeleteStorageNode (id : Z)
  | ListLocalObjects
  | ListLocalUnderReplicatedChunks (max_replicas : Z)
  | TransferPartition (ranges : list (Z * Z))
  | BroadcastChunkIndex (entries : list (Z * string)).

Inductive PeerResponse :=
  | RespUnit
  | RespObject (r : GetObjectResponse)
  | RespPutChunk (chunk_id : Z) (storage_node_address : string)
  | RespAllocate (r : AllocateChunkResponse)
  | RespChunk (r : GetChunkResponse)
  | RespStorageNode (id : Z)
  | RespObjects (l : list ObjectInfo)
  | RespUnderReplicated (l : list UnderReplicatedChunk)
  | RespPartition (l : list TransferPartitionEntry).

(** ** State *)

Record ClusterServer := mkClusterServer {
  sv_store : MetadataStore;
  sv_index : ChunkIndex;
}.

Definition set_sv_store (s : MetadataStore) (c : ClusterServer) : ClusterServer :=
  mkClusterServer s (sv_index c).
Definition set_sv_index (i : ChunkIndex) (c : ClusterServer) : ClusterServer :=
  mkClusterServer (sv_store c) i.

Definition CS : Type → Type := ST ClusterServer Code.

(** A call of the store, its I/O errors translated. *)
Definition with_store {A} (status_of : ErrorKind → Code) (m : MS A) : CS A :=
  rethrow status_of (zoom sv_store set_sv_store m).

Definition on_index (f : ChunkIndex → ChunkIndex) : CS unit :=
  modify (λ c, set_sv_index (f (sv_index c)) c).

(** [for chunk_id in chunk_ids { chunk_index.remove(chunk_id) }]. *)
Definition remove_all (ids : list Z) (idx : ChunkIndex) : ChunkIndex :=
  foldl (λ idx i, (index_remove i idx).2) idx ids.

(** ** Translations of errors *)

Definition internal_status (e : ErrorKind) : Code := Internal.
Definition unavailable_status (e : ErrorKind) : Code := Unavailable.
Definition not_found_status (e : ErrorKind) : Code :=
  match e with NotFound => NotFoundCode | _ => Internal end.
Definition confirm_status (e : ErrorKind) : Code :=
  match e with
  | NotFound => NotFoundCode
  | AlreadyExists => AlreadyExistsCode
  | _ => Internal
  end.
Definition replica_status (e : ErrorKind) : Code :=
  match e with
  | NotFound => NotFoundCode
  | AlreadyExists => AlreadyExistsCode
  | InvalidInput => FailedPrecondition
  | _ => Internal
  end.

(** ** Views of the store *)

(** The known nodes of a chunk; the others are skipped. *)
Definition known_nodes (s : MetadataStore) (ids : list Z) : list MetaStorageNode :=
  omap (λ id, node ← storage_nodes s !! id; Some (mkMetaStorageNode id (sn_address node))) ids.

Definition chunk_info (s : MetadataStore) (c : MetaChunk) : ChunkInfo :=
  mkChunkInfo (mc_id c) (mc_checksum c) (known_nodes s (mc_storage_nodes c)).

(** [ok_or_else(internal)] for every chunk of the object. *)
Definition chunks_or_internal (s : MetadataStore) (ids : list Z) : outcome Code (list MetaChunk) :=
  match mapM (λ id, chunks s !! id) ids with Some l => Ok l | None => Err Internal end.

Definition object_info (s : MetadataStore) (obj : MetaObject) : ObjectInfo :=
  mkObjectInfo (mo_name obj) (mo_checksum obj)
    (chunk_info s <$> omap (λ id, chunks s !! id) (mo_chunks obj)) (mo_total_size obj).

Definition local_objects (s : MetadataStore) : list ObjectInfo :=
  object_info s <$> list_objects s.

Definition wanted_replicas (max_replicas : Z) : Z :=
  if max_replicas =? 0 then 3 else max_replicas.

Definition under_replicated_info (c : MetaChunk) : UnderReplicatedChunk :=
  mkUnderReplicatedChunk (mc_id c) (mc_checksum c) (mc_storage_nodes c).

Definition local_under_replicated (max_replicas : Z) (s : MetadataStore) :
    list UnderReplicatedChunk :=
  under_replicated_info <$> list_under_replicated_chunks (wanted_replicas max_replicas) s.

(** The entries of a transfer: each object followed by its chunks. *)
Definition partition_entries (l : list (MetaObject * list MetaChunk)) :
    list TransferPartitionEntry :=
  obj_chunks ← l;
  TransferObject (mo_name obj_chunks.1) (mo_checksum obj_chunks.1) (mo_chunks obj_chunks.1) ::
  ((λ c, TransferChunk (mc_id c) (mc_object_name c) (mc_checksum c) (mc_storage_nodes c))
     <$> obj_chunks.2).

Definition lift_outcome {S A} (r : outcome Code A) : ST S Code A := λ s, (r, s).

Section service.
Context `{MetaDeps} `{Xxh3}.

(** ** Handlers *)

Definition forward_put_object (name : string) (checksum : Z) : CS unit :=
  with_store internal_status (put_object checksum name).

Definition forward_get_object (object_name : string) : CS GetObjectResponse :=
  object ← with_store not_found_status (get_object object_name);
  s ← gets sv_store;
  cs ← lift_outcome (chunks_or_internal s (mo_chunks object));
  mret (mkGetObjectResponse (mo_checksum object) (chunk_info s <$> cs)).

Definition forward_delete_object (object_name : string) : CS unit :=
  s ← gets sv_store;
  let chunk_ids := match objects s !! object_name with Some obj => mo_chunks obj | None => [] end in
  _ ← with_store not_found_status (delete_object object_name);
  on_index (remove_all chunk_ids).

Definition forward_put_chunk (object_name : string) (checksum : Z) : CS (Z * string) :=
  '(chunk_id, address) ← with_store internal_status (put_chunk object_name checksum);
  _ ← on_index (index_insert chunk_id object_name);
  mret (chunk_id, address).

Definition forward_allocate_chunk (object_name : string) : CS AllocateChunkResponse :=
  '(chunk_id, node_id, address) ← with_store unavailable_status (allocate_chunk object_name);
  mret (mkAllocateChunkResponse chunk_id address node_id).

Definition forward_confirm_chunk (chunk_id : Z) (object_name : string)
    (checksum storage_node_id : Z) : CS unit :=
  _ ← with_store confirm_status (confirm_chunk chunk_id object_name checksum storage_node_id);
  on_index (index_insert chunk_id object_name).

Definition forward_get_chunk (chunk_id : Z) : CS GetChunkResponse :=
  '(object_name, chunk) ← with_store not_found_status (get_chunk chunk_id);
  s ← gets sv_store;
  mret (mkGetChunkResponse object_name (mc_checksum chunk)
          (known_nodes s (mc_storage_nodes chunk))).

Definition forward_delete_chunk (chunk_id : Z) : CS unit :=
  _ ← with_store not_found_status (delete_chunk chunk_id);
  on_index (λ idx, (index_remove chunk_id idx).2).

Definition forward_add_chunk_replica (chunk_id storage_node_id : Z) : CS unit :=
  with_store replica_status (add_chunk_replica chunk_id storage_node_id).

Definition broadcast_put_storage_node (address : string) : CS Z :=
  with_store internal_status (construct_storage_node address).

Definition broadcast_delete_storage_node (id : Z) : CS unit :=
  with_store internal_status (delete_storage_node id).

Definition list_local_objects : CS (list ObjectInfo) :=
  s ← gets sv_store; mret (local_objects s).

Definition list_local_under_replicated_chunks (max_replicas : Z) :
    CS (list UnderReplicatedChunk) :=
  s ← gets sv_store; mret (local_under_replicated max_replicas s).

Definition transfer_partition (ranges : list (Z * Z)) : CS (list TransferPartitionEntry) :=
  s ← gets sv_store; mret (partition_entries (objects_in_hash_ranges ranges s)).

Definition broadcast_chunk_index (es : list (Z * string)) : CS unit :=
  on_index (bulk_insert es).

(** The dispatch of the generated server. *)
Definition serve (req : PeerRequest) : CS PeerResponse :=
  match req with
  | ForwardPutObject name checksum =>
      _ ← forward_put_object name checksum; mret RespUnit
  | ForwardGetObject name => r ← forward_get_object name; mret (RespObject r)
  | ForwardDeleteObject name => _ ← forward_delete_object name; mret RespUnit
  | ForwardPutChunk name checksum =>
      '(id, address) ← forward_put_chunk name checksum; mret (RespPutChunk id address)
  | ForwardAllocateChunk name => r ← forward_allocate_chunk name; mret (RespAllocate r)
  | ForwardConfirmChunk id name checksum node =>
      _ ← forward_confirm_chunk id name checksum node; mret RespUnit
  | ForwardGetChunk id => r ← forward_get_chunk id; mret (RespChunk r)
  | ForwardDeleteChunk id => _ ← forward_delete_chunk id; mret RespUnit
  | ForwardAddChunkReplica id node => _ ← forward_add_chunk_replica id node; mret RespUnit
  | BroadcastPutStorageNode address =>
      id ← broadcast_put_storage_node address; mret (RespStorageNode id)
  | BroadcastDeleteStorageNode id => _ ← broadcast_delete_storage_node id; mret RespUnit
  | ListLocalObjects => l ← list_local_objects; mret (RespObjects l)
  | ListLocalUnderReplicatedChunks max =>
      l ← list_local_under_replicated_chunks max; mret (RespUnderReplicated l)
  | TransferPartition ranges => l ← transfer_partition ranges; mret (RespPartition l)
  | BroadcastChunkIndex es => _ ← broadcast_chunk_index es; mret RespUnit
  end.

End service.
