(* ===== verification/Cluster.v ===== *)
(** * Cluster: membership and connections of a metadata node

    storage-metadata/src/cluster.rs. Gossip (the crate chitchat) is third-party: a
    tick of the watcher takes the live nodes it reports. Peers are reached through
    the interface [Peers] on an abstract world. *)

From stdpp Require Import pretty.
From S2P Require Import Prelude.
From S2P Require Import Grpc.
From S2P Require Import HashRing.
From S2P Require Import ClusterService.
From S2P Require Import Str.
Open Scope string_scope.
Open Scope list_scope.
Open Scope Z_scope.

(** What the rest of the cluster does when an endpoint is connected to or called. *)
Class Peers (W : Type) := {
  peer_connect : string → W → bool * W;
  peer_call : string → PeerRequest → W → outcome Code PeerResponse * W;
}.

(** A client is known by the endpoint it is connected to. *)
Record ClusterManager := mkClusterManager {
  cm_ring : HashRing;
  cm_node_id : string;
  cm_grpc_addr : string;
  cm_peers : gmap string string;
  cm_peer_addrs : gmap string string;
}.

Definition set_peers (p : gmap string string) (c : ClusterManager) : ClusterManager :=
  mkClusterManager (cm_ring c) (cm_node_id c) (cm_grpc_addr c) p (cm_peer_addrs c).

Section cluster.
Context `{Xxh3}.

Definition cluster_new (node_id : string) (grpc_port : Z) : ClusterManager :=
  mkClusterManager (add_node node_id ring_new) node_id ("0.0.0.0:" +:+ pretty grpc_port) ∅ ∅.

(** One tick of the membership watcher; [live] lists the live nodes gossip reports, with
    the address each advertises, if its state is known. *)
Definition membership_tick (live : list (string * option string)) (c : ClusterManager) :
    ClusterManager :=
  let live_node_ids := live.*1 in
  let live_grpc_addrs : gmap string string :=
    foldl (λ m '(nid, a), match a with Some addr => <[nid := addr]> m | None => m end) ∅ live in
  let current_nodes := nodes (cm_ring c) in
  let added := foldl (λ r nid,
    if decide (nid ≠ cm_node_id c ∧ nid ∉ current_nodes) then add_node nid r else r)
    (cm_ring c) live_node_ids in
  let ring := foldl (λ r nid,
    if decide (nid ≠ cm_node_id c ∧ nid ∉ live_node_ids) then remove_node nid r else r)
    added current_nodes in
  mkClusterManager ring (cm_node_id c) (cm_grpc_addr c)
    (filter (λ kv, kv.1 ∈ live_node_ids) (cm_peers c)) live_grpc_addrs.

Definition is_local (key : string) (c : ClusterManager) : bool :=
  match get_owner (cm_ring c) key with
  | Some owner => String.eqb owner (cm_node_id c)
  | None => true
  end.

Definition get_owner_addr (key : string) (c : ClusterManager) : option string :=
  match get_owner (cm_ring c) key with
  | Some owner => if decide (owner = cm_node_id c) then None else cm_peer_addrs c !! owner
  | None => None
  end.

Definition get_owner_id (key : string) (c : ClusterManager) : option string :=
  get_owner (cm_ring c) key.

Definition get_all_peer_addrs (c : ClusterManager) : list string :=
  (List.filter (λ '(nid, _), negb (String.eqb nid (cm_node_id c)))
     (map_to_list (cm_peer_addrs c))).*2.

Definition is_clustered (c : ClusterManager) : bool := 1 <? node_count (cm_ring c).

(** The client of the first node at the address that has one. *)
Definition cached_client (addr : string) (c : ClusterManager) : option string :=
  head (omap (λ '(nid, a), if decide (a = addr) then cm_peers c !! nid else None)
    (map_to_list (cm_peer_addrs c))).

(** The first node at the address. *)
Definition node_at (addr : string) (c : ClusterManager) : option string :=
  head (omap (λ '(nid, a), if decide (a = addr) then Some nid else None)
    (map_to_list (cm_peer_addrs c))).

Definition endpoint_of (addr : string) : string :=
  if starts_with "http://" addr || starts_with "https://" addr then addr
  else "http://" +:+ addr.

Definition cache_client (addr client : string) (c : ClusterManager) : ClusterManager :=
  match node_at addr c with
  | Some nid => set_peers (<[nid := client]> (cm_peers c)) c
  | None => c
  end.

Definition get_peer_client {W} `{Peers W} (addr : string) : ST (ClusterManager * W) unit string :=
  λ '(c, w),
    match cached_client addr c with
    | Some client => (Ok client, (c, w))
    | None =>
        let endpoint := endpoint_of addr in
        match peer_connect endpoint w with
        | (true, w) => (Ok endpoint, (cache_client addr endpoint c, w))
        | (false, w) => (Err (), (c, w))
        end
    end.

End cluster.
