(* ===== verification/Forwarding.v ===== *)
(** * Forwarding: routing requests to the owner, and talking to all peers

    storage-metadata/src/forwarding.rs, over the state of one metadata node and the
    world its peers live in. *)

From S2P Require Import Prelude.
From S2P Require Import Grpc.
From S2P Require Import HashRing.
From S2P Require Import MetadataStore.
From S2P Require Import ChunkIndex.
From S2P Require Import ClusterService.
From S2P Require Import Cluster.
Open Scope string_scope.
Open Scope list_scope.
Open Scope Z_scope.

(** The counters and gauges of storage-metadata/src/metrics.rs. *)
Record MetaMetrics := mkMetaMetrics {
  mm_requests : gmap (string * string) Z;
  mm_objects_total : Z;
  mm_chunks_total : Z;
  mm_storage_nodes_total : Z;
  mm_health_checks_total : Z;
  mm_health_checks_failed_total : Z;
}.

(** A metadata node: its store and chunk index, its cluster manager, whether it has a
    forwarding layer, its metrics, and the rest of the cluster. *)
Record MetaNode (W : Type) := mkMetaNode {
  mn_server : ClusterServer;
  mn_cluster : ClusterManager;
  mn_forwarding : bool;
  mn_metrics : MetaMetrics;
  mn_world : W;
}.
Arguments mkMetaNode {W} _ _ _ _ _.
Arguments mn_server {W} _.
Arguments mn_cluster {W} _.
Arguments mn_forwarding {W} _.
Arguments mn_metrics {W} _.
Arguments mn_world {W} _.

Inductive RouteAction := Local | Forward (addr : string).

Section forwarding.
Context `{Xxh3} {W : Type} `{Peers W}.

Definition MN : Type → Type := ST (MetaNode W) Code.

Definition set_server (s : ClusterServer) (n : MetaNode W) : MetaNode W :=
  mkMetaNode s (mn_cluster n) (mn_forwarding n) (mn_metrics n) (mn_world n).
Definition set_net (cw : ClusterManager * W) (n : MetaNode W) : MetaNode W :=
  mkMetaNode (mn_server n) cw.1 (mn_forwarding n) (mn_metrics n) cw.2.
Definition set_mn_metrics (m : MetaMetrics) (n : MetaNode W) : MetaNode W :=
  mkMetaNode (mn_server n) (mn_cluster n) (mn_forwarding n) m (mn_world n).

Definition on_server {A} (m : CS A) : MN A := zoom mn_server set_server m.
Definition on_net {A} (m : ST (ClusterManager * W) Code A) : MN A :=
  zoom (λ n, (mn_cluster n, mn_world n)) set_net m.

(** ** Routing *)

Definition fl_route_by_object (object_name : string) (n : MetaNode W) : RouteAction :=
  match get_owner_addr object_name (mn_cluster n) with
  | Some addr => Forward addr
  | None => Local
  end.

Definition fl_route_by_chunk (chunk_id : Z) (n : MetaNode W) : outcome Code RouteAction :=
  match index_get chunk_id (sv_index (mn_server n)) with
  | Some object_name => Ok (fl_route_by_object object_name n)
  | None => Err NotFoundCode
  end.

(** ** One call of one peer *)

Definition rpc (client : string) (req : PeerRequest) :
    ST (ClusterManager * W) Code PeerResponse :=
  λ cw, let '(r, w) := peer_call client req cw.2 in (r, (cw.1, w)).

(** [get_peer_client(addr)?.call(request)], the connection error translated. *)
Definition call_peer (addr : string) (req : PeerRequest) :
    ST (ClusterManager * W) Code PeerResponse :=
  client ← rethrow (λ _, Unavailable) (get_peer_client addr);
  rpc client req.

(** The typed response of a call: a response of another type does not decode. *)
Definition expect {A} (project : PeerResponse → option A) (m : ST (ClusterManager * W) Code PeerResponse) :
    ST (ClusterManager * W) Code A :=
  resp ← m; lift_opt Internal (project resp).

Definition resp_unit (r : PeerResponse) : option unit :=
  match r with RespUnit => Some () | _ => None end.
Definition resp_object (r : PeerResponse) : option GetObjectResponse :=
  match r with RespObject o => Some o | _ => None end.
Definition resp_put_chunk (r : PeerResponse) : option (Z * string) :=
  match r with RespPutChunk i a => Some (i, a) | _ => None end.
Definition resp_allocate (r : PeerResponse) : option AllocateChunkResponse :=
  match r with RespAllocate a => Some a | _ => None end.
Definition resp_chunk (r : PeerResponse) : option GetChunkResponse :=
  match r with RespChunk c => Some c | _ => None end.
Definition resp_storage_node (r : PeerResponse) : option Z :=
  match r with RespStorageNode i => Some i | _ => None end.
Definition resp_objects (r : PeerResponse) : option (list ObjectInfo) :=
  match r with RespObjects l => Some l | _ => None end.
Definition resp_under_replicated (r : PeerResponse) : option (list UnderReplicatedChunk) :=
  match r with RespUnderReplicated l => Some l | _ => None end.
Definition resp_partition (r : PeerResponse) : option (list TransferPartitionEntry) :=
  match r with RespPartition l => Some l | _ => None end.

(** ** Object-scoped forwarding *)

Definition fl_forward_put_object (addr name : string) (checksum : Z) : MN unit :=
  on_net (expect resp_unit (call_peer addr (ForwardPutObject name checksum))).
Definition fl_forward_get_object (addr object_name : string) : MN GetObjectResponse :=
  on_net (expect resp_object (call_peer addr (ForwardGetObject object_name))).
Definition fl_forward_delete_object (addr object_name : string) : MN unit :=
  on_net (expect resp_unit (call_peer addr (ForwardDeleteObject object_name))).
Definition fl_forward_put_chunk (addr object_name : string) (checksum : Z) : MN (Z * string) :=
  on_net (expect resp_put_chunk (call_peer addr (ForwardPutChunk object_name checksum))).
Definition fl_forward_allocate_chunk (addr object_name : string) : MN AllocateChunkResponse :=
  on_net (expect resp_allocate (call_peer addr (ForwardAllocateChunk object_name))).
Definition fl_forward_confirm_chunk (addr : string) (chunk_id : Z) (object_name : string)
    (checksum storage_node_id : Z) : MN unit :=
  on_net (expect resp_unit
    (call_peer addr (ForwardConfirmChunk chunk_id object_name checksum storage_node_id))).
Definition fl_forward_get_chunk (addr : string) (chunk_id : Z) : MN GetChunkResponse :=
  on_net (expect resp_chunk (call_peer addr (ForwardGetChunk chunk_id))).
Definition fl_forward_delete_chunk (addr : string) (chunk_id : Z) : MN unit :=
  on_net (expect resp_unit (call_peer addr (ForwardDeleteChunk chunk_id))).
Definition fl_forward_add_chunk_replica (addr : string) (chunk_id storage_node_id : Z) :
    MN unit :=
  on_net (expect resp_unit (call_peer addr (ForwardAddChunkReplica chunk_id storage_node_id))).

(** ** Broadcasts: the result of each peer is kept *)

Fixpoint broadcast {A} (project : PeerResponse → option A) (req : PeerRequest)
    (addrs : list string) : ST (ClusterManager * W) Code (list (Code + A)) :=
  match addrs with
  | [] => mret []
  | addr :: addrs =>
      result ← attempt (expect project (call_peer addr req));
      results ← broadcast project req addrs;
      mret (result :: results)
  end.

Definition broadcast_all {A} (project : PeerResponse → option A) (req : PeerRequest) :
    MN (list (Code + A)) :=
  addrs ← gets (λ n, get_all_peer_addrs (mn_cluster n));
  on_net (broadcast project req addrs).

Definition fl_broadcast_put_storage_node (address : string) : MN (list (Code + Z)) :=
  broadcast_all resp_storage_node (BroadcastPutStorageNode address).
Definition fl_broadcast_delete_storage_node (id : Z) : MN (list (Code + unit)) :=
  broadcast_all resp_unit (BroadcastDeleteStorageNode id).

(** ** Scatter and gather: a peer that cannot be reached ends the gathering with an
    error, a peer whose call fails is skipped *)

Fixpoint gather {A} (project : PeerResponse → option (list A)) (req : PeerRequest)
    (addrs : list string) : ST (ClusterManager * W) Code (list A) :=
  match addrs with
  | [] => mret []
  | addr :: addrs =>
      client ← rethrow (λ _, Unavailable) (get_peer_client addr);
      result ← attempt (expect project (rpc client req));
      rest ← gather project req addrs;
      mret (match result with inl _ => rest | inr l => l ++ rest end)
  end.

Definition gather_all {A} (project : PeerResponse → option (list A)) (req : PeerRequest) :
    MN (list A) :=
  addrs ← gets (λ n, get_all_peer_addrs (mn_cluster n));
  on_net (gather project req addrs).

Definition scatter_gather_list_objects : MN (list ObjectInfo) :=
  gather_all resp_objects ListLocalObjects.
Definition scatter_gather_under_replicated_chunks (max_replicas : Z) :
    MN (list UnderReplicatedChunk) :=
  gather_all resp_under_replicated (ListLocalUnderReplicatedChunks max_replicas).

(** Errors of single peers are only logged. *)
Definition broadcast_chunk_index_update (es : list (Z * string)) : MN unit :=
  _ ← broadcast_all resp_unit (BroadcastChunkIndex es);
  mret ().

End forwarding.
