(* ===== verification/MetadataService.v ===== *)
(** * MetadataService: the public service of a metadata node

    storage-metadata/src/main.rs: every handler, with its routing, its use of the
    store, the chunk index and the metrics, and the health check of storage nodes. *)

From S2P Require Import Prelude.
From S2P Require Import Grpc.
From S2P Require Import HashRing.
From S2P Require Import MetadataStore.
From S2P Require Import ChunkIndex.
From S2P Require Import ClusterService.
From S2P Require Import Cluster.
From S2P Require Import Forwarding.
Open Scope string_scope.
Open Scope list_scope.
Open Scope Z_scope.

(** ** Metrics *)

Definition meta_metrics_new : MetaMetrics := mkMetaMetrics ∅ 0 0 0 0 0.

Definition inc_rpc (method status : string) (m : MetaMetrics) : MetaMetrics :=
  let t := mm_requests m in
  mkMetaMetrics (<[(method, status) := wrap64 (default 0 (t !! (method, status)) + 1)]> t)
    (mm_objects_total m) (mm_chunks_total m) (mm_storage_nodes_total m)
    (mm_health_checks_total m) (mm_health_checks_failed_total m).
Definition add_objects (d : Z) (m : MetaMetrics) : MetaMetrics :=
  mkMetaMetrics (mm_requests m) (mm_objects_total m + d) (mm_chunks_total m)
    (mm_storage_nodes_total m) (mm_health_checks_total m) (mm_health_checks_failed_total m).
Definition add_chunks (d : Z) (m : MetaMetrics) : MetaMetrics :=
  mkMetaMetrics (mm_requests m) (mm_objects_total m) (mm_chunks_total m + d)
    (mm_storage_nodes_total m) (mm_health_checks_total m) (mm_health_checks_failed_total m).
Definition set_storage_nodes_total (v : Z) (m : MetaMetrics) : MetaMetrics :=
  mkMetaMetrics (mm_requests m) (mm_objects_total m) (mm_chunks_total m) v
    (mm_health_checks_total m) (mm_health_checks_failed_total m).
Definition inc_health_checks (m : MetaMetrics) : MetaMetrics :=
  mkMetaMetrics (mm_requests m) (mm_objects_total m) (mm_chunks_total m)
    (mm_storage_nodes_total m) (wrap64 (mm_health_checks_total m + 1))
    (mm_health_checks_failed_total m).
Definition inc_health_checks_failed (m : MetaMetrics) : MetaMetrics :=
  mkMetaMetrics (mm_requests m) (mm_objects_total m) (mm_chunks_total m)
    (mm_storage_nodes_total m) (mm_health_checks_total m)
    (wrap64 (mm_health_checks_failed_total m + 1)).

Section service.
Context `{MetaDeps} `{Xxh3} {W : Type} `{Peers W}.

Definition count (f : MetaMetrics → MetaMetrics) : @MN W unit :=
  modify (λ n, set_mn_metrics (f (mn_metrics n)) n).

(** A call under the store's mutex, the error kept as the kind the handler matches. *)
Definition locked {A} (m : MS A) : @MN W (ErrorKind + A) :=
  on_server (λ c, let '(r, s) := m (sv_store c) in
    (match r with Ok a => Ok (inr a) | Err e => Ok (inl e) | Panic => Panic end,
     set_sv_store s c)).

Definition with_index (f : ChunkIndex → ChunkIndex) : @MN W unit := on_server (on_index f).

Definition current_store : @MN W MetadataStore := gets (λ n, sv_store (mn_server n)).

(** ** Construction *)

Definition construct (rng : Rng) (d : Disk) (cluster : ClusterManager) (w : W) :
    outcome ErrorKind (MetaNode W) * Disk :=
  match store_new rng d with
  | (Ok s, d) =>
      (Ok (mkMetaNode (mkClusterServer s index_new) cluster false meta_metrics_new w), d)
  | (Err e, d) => (Err e, d)
  | (Panic, d) => (Panic, d)
  end.

Definition set_forwarding_layer (n : MetaNode W) : MetaNode W :=
  mkMetaNode (mn_server n) (mn_cluster n) true (mn_metrics n) (mn_world n).

Definition populate_chunk_index : @MN W unit :=
  s ← current_store; with_index (populate_from_chunks (chunks s)).

(** ** Routing *)

Definition route_by_object (object_name : string) : @MN W RouteAction :=
  gets (λ n, if mn_forwarding n then fl_route_by_object object_name n else Local).

Definition route_by_chunk (chunk_id : Z) : @MN W (Code + RouteAction) :=
  gets (λ n,
    if mn_forwarding n then
      match fl_route_by_chunk chunk_id n with
      | Ok a => inr a
      | Err e => inl e
      | Panic => inl Internal
      end
    else inr Local).

(** Forwards when the object's owner is another node, else runs the local part. *)
Definition route_object {A} (object_name : string) (fwd : string → @MN W A) (here : @MN W A) :
    @MN W A :=
  action ← route_by_object object_name;
  match action with Forward addr => fwd addr | Local => here end.

(** The same by chunk; a chunk that is not in the index is tried locally. *)
Definition route_chunk {A} (chunk_id : Z) (fwd : string → @MN W A) (here : @MN W A) :
    @MN W A :=
  action ← route_by_chunk chunk_id;
  match action with inr (Forward addr) => fwd addr | _ => here end.

(** ** Objects *)

Definition put_object_status (e : ErrorKind) : Code :=
  match e with AlreadyExists => AlreadyExistsCode | _ => Internal end.

Definition svc_put_object (name : string) (checksum : Z) : @MN W unit :=
  route_object name (λ addr, fl_forward_put_object addr name checksum) (
    r ← locked (put_object checksum name);
    match r with
    | inr _ => _ ← count (inc_rpc "put_object" "ok"); count (add_objects 1)
    | inl e => _ ← count (inc_rpc "put_object" "error"); throw (put_object_status e)
    end).

Definition svc_put_chunk (object_name : string) (checksum : Z) : @MN W (Z * string) :=
  route_object object_name (λ addr, fl_forward_put_chunk addr object_name checksum) (
    r ← locked (put_chunk object_name checksum);
    match r with
    | inl e => throw (put_object_status e)
    | inr (chunk_id, storage_node_address) =>
        _ ← with_index (index_insert chunk_id object_name);
        _ ← count (inc_rpc "put_chunk" "ok");
        _ ← count (add_chunks 1);
        mret (chunk_id, storage_node_address)
    end).

(** Every node of the chunk must be registered. *)
Definition nodes_or_internal (s : MetadataStore) (ids : list Z) :
    outcome Code (list MetaStorageNode) :=
  match mapM (λ id, node ← storage_nodes s !! id; Some (mkMetaStorageNode id (sn_address node))) ids
  with Some l => Ok l | None => Err Internal end.

Fixpoint response_chunks (s : MetadataStore) (ids : list Z) : outcome Code (list ChunkInfo) :=
  match ids with
  | [] => Ok []
  | chunk_id :: ids =>
      match chunks s !! chunk_id with
      | None => Err Internal
      | Some chunk =>
          match nodes_or_internal s (mc_storage_nodes chunk), response_chunks s ids with
          | Ok nodes, Ok rest => Ok (mkChunkInfo (mc_id chunk) (mc_checksum chunk) nodes :: rest)
          | Ok _, Err e => Err e
          | Err e, _ => Err e
          | _, _ => Panic
          end
      end
  end.

(** The first lock section of [get_object]: the object is copied out. *)
Definition get_object_lookup (object_name : string) : @MN W MetaObject :=
  r ← locked (get_object object_name);
  match r with inr object => mret object | inl e => throw (not_found_status e) end.

(** The second lock section: its chunks and their nodes are looked up. *)
Definition get_object_resolve (object : MetaObject) : @MN W GetObjectResponse :=
  s ← current_store;
  _ ← count (inc_rpc "get_object" "ok");
  cs ← lift_outcome (response_chunks s (mo_chunks object));
  mret (mkGetObjectResponse (mo_checksum object) cs).

Definition svc_get_object (object_name : string) : @MN W GetObjectResponse :=
  route_object object_name (λ addr, fl_forward_get_object addr object_name) (
    object ← get_object_lookup object_name; get_object_resolve object).

Definition svc_get_chunk (chunk_id : Z) : @MN W GetChunkResponse :=
  route_chunk chunk_id (λ addr, fl_forward_get_chunk addr chunk_id) (
    r ← locked (get_chunk chunk_id);
    match r with
    | inl e => throw (not_found_status e)
    | inr (object_name, chunk) =>
        s ← current_store;
        nodes ← lift_outcome (nodes_or_internal s (mc_storage_nodes chunk));
        mret (mkGetChunkResponse object_name (mc_checksum chunk) nodes)
    end).

Definition svc_delete_object (object_name : string) : @MN W unit :=
  route_object object_name (λ addr, fl_forward_delete_object addr object_name) (
    s ← current_store;
    let chunk_ids := match objects s !! object_name with Some obj => mo_chunks obj | None => [] end in
    r ← locked (delete_object object_name);
    match r with
    | inl e => throw (not_found_status e)
    | inr _ =>
        _ ← with_index (remove_all chunk_ids);
        _ ← count (inc_rpc "delete_object" "ok");
        count (add_objects (-1))
    end).

Definition svc_delete_chunk (chunk_id : Z) : @MN W unit :=
  route_chunk chunk_id (λ addr, fl_forward_delete_chunk addr chunk_id) (
    r ← locked (delete_chunk chunk_id);
    match r with
    | inl e => throw (not_found_status e)
    | inr _ => with_index (λ idx, (index_remove chunk_id idx).2)
    end).

Definition svc_list_objects : @MN W (list ObjectInfo) :=
  s ← current_store;
  let here := local_objects s in
  forwarding ← gets mn_forwarding;
  if forwarding : bool then
    r ← attempt scatter_gather_list_objects;
    mret (match r with inr peer_objects => here ++ peer_objects | inl _ => here end)
  else mret here.

(** ** Storage nodes *)

Definition put_node_status (e : ErrorKind) : Code :=
  match e with InvalidInput => InvalidArgument | _ => Internal end.

Definition svc_put_storage_node (address : string) : @MN W Z :=
  r ← locked (construct_storage_node address);
  match r with
  | inl e => throw (put_node_status e)
  | inr storage_node_id =>
      forwarding ← gets mn_forwarding;
      _ ← (if forwarding : bool then fl_broadcast_put_storage_node address else mret []);
      _ ← count (inc_rpc "put_storage_node" "ok");
      _ ← count (λ m, set_storage_nodes_total (mm_storage_nodes_total m + 1) m);
      mret storage_node_id
  end.

Definition svc_get_storage_node (id : Z) : @MN W string :=
  r ← locked (get_storage_node id);
  match r with inr address => mret address | inl e => throw (not_found_status e) end.

Definition svc_list_storage_nodes : @MN W (list MetaStorageNode) :=
  s ← current_store; mret (list_storage_nodes s).

Definition svc_delete_storage_node (id : Z) : @MN W unit :=
  r ← locked (delete_storage_node id);
  match r with
  | inr _ =>
      forwarding ← gets mn_forwarding;
      _ ← (if forwarding : bool then fl_broadcast_delete_storage_node id else mret []);
      mret ()
  | inl _ => throw Internal
  end.

(** ** Replication *)

Definition svc_list_under_replicated_chunks (max_replicas : Z) :
    @MN W (list UnderReplicatedChunk) :=
  let max_replicas := wanted_replicas max_replicas in
  s ← current_store;
  let here := under_replicated_info <$> list_under_replicated_chunks max_replicas s in
  forwarding ← gets mn_forwarding;
  all ← (if forwarding : bool then
           r ← attempt (scatter_gather_under_replicated_chunks max_replicas);
           mret (match r with inr peer_chunks => here ++ peer_chunks | inl _ => here end)
         else mret here);
  _ ← count (inc_rpc "list_under_replicated_chunks" "ok");
  mret (sort_by_key (λ c, zlen (ur_current_storage_node_ids c)) all).

Definition svc_add_chunk_replica (chunk_id storage_node_id : Z) : @MN W unit :=
  route_chunk chunk_id (λ addr, fl_forward_add_chunk_replica addr chunk_id storage_node_id) (
    r ← locked (add_chunk_replica chunk_id storage_node_id);
    match r with
    | inr _ => count (inc_rpc "add_chunk_replica" "ok")
    | inl e => _ ← count (inc_rpc "add_chunk_replica" "error"); throw (replica_status e)
    end).

(** ** Allocation *)

Definition svc_allocate_chunk (object_name : string) : @MN W AllocateChunkResponse :=
  let here :=
    r ← locked (allocate_chunk object_name);
    match r with
    | inr (chunk_id, storage_node_id, storage_node_address) =>
        _ ← count (inc_rpc "allocate_chunk" "ok");
        mret (mkAllocateChunkResponse chunk_id storage_node_address storage_node_id)
    | inl _ => _ ← count (inc_rpc "allocate_chunk" "error"); throw Unavailable
    end in
  if String.eqb object_name "" then here
  else route_object object_name (λ addr, fl_forward_allocate_chunk addr object_name) here.

Definition svc_confirm_chunk (chunk_id : Z) (object_name : string)
    (checksum storage_node_id : Z) : @MN W unit :=
  route_object object_name
    (λ addr, fl_forward_confirm_chunk addr chunk_id object_name checksum storage_node_id) (
    r ← locked (confirm_chunk chunk_id object_name checksum storage_node_id);
    match r with
    | inr _ =>
        _ ← with_index (index_insert chunk_id object_name);
        _ ← count (inc_rpc "confirm_chunk" "ok");
        count (add_chunks 1)
    | inl e => _ ← count (inc_rpc "confirm_chunk" "error"); throw (confirm_status e)
    end).

(** Routed, but handled here whatever the route. *)
Definition svc_update_object_checksum (object_name : string) (checksum total_size : Z) :
    @MN W unit :=
  _ ← route_by_object object_name;
  r ← locked (update_object_checksum object_name checksum total_size);
  match r with
  | inr _ => count (inc_rpc "update_object_checksum" "ok")
  | inl e => throw (not_found_status e)
  end.

(** ** Health check

    One round: the nodes are copied, every one is asked ([inr healthy], [inl] an error,
    [None] a panic of the task), and those whose check failed are removed. The tasks, which
    the code joins, run one after the other. *)

(** [MetaStorageNode::check_health]: five seconds to connect and five for the answer;
    [connect] and [ask] are what the generated client does at an address. *)
Definition node_check_health {V} (connect : string → V → answer unit unit * V)
    (ask : string → V → answer Code bool * V) (node : MetaStorageNode) (v : V) :
    (unit + bool) * V :=
  let timeout_duration := 5000 in
  let '(a, v) := connect (sn_address node) v in
  match timeout timeout_duration a with
  | Some (inr _) =>
      let '(b, v) := ask (sn_address node) v in
      match timeout timeout_duration b with
      | Some (inr healthy) => (inr healthy, v)
      | _ => (inl (), v)
      end
  | _ => (inl (), v)
  end.

Fixpoint check_nodes {V} (connect : string → V → answer unit unit * V)
    (ask : string → V → answer Code bool * V) (nodes : list (Z * MetaStorageNode)) (v : V) :
    list (Z * option (unit + bool)) * V :=
  match nodes with
  | [] => ([], v)
  | (idx, node) :: nodes =>
      let '(result, v) := node_check_health connect ask node v in
      let '(results, v) := check_nodes connect ask nodes v in
      ((idx, Some result) :: results, v)
  end.

Definition failed_checks (results : list (Z * option (unit + bool))) : list Z :=
  omap (λ '(idx, r), match r with Some (inl _) => Some idx | _ => None end) results.

Definition health_check_round (results : list (Z * option (unit + bool))) : @MN W unit :=
  _ ← count inc_health_checks;
  let delete_ids := failed_checks results in
  _ ← count (λ m, foldr (λ _ m, inc_health_checks_failed m) m delete_ids);
  if decide (delete_ids = []) then mret ()
  else
    _ ← on_server (modify (λ c,
      set_sv_store (set_storage_nodes
        (foldl (λ m id, delete id m) (storage_nodes (sv_store c)) delete_ids) (sv_store c)) c));
    s ← current_store;
    count (set_storage_nodes_total (Z.of_nat (size (storage_nodes s)))).

End service.
