(* ===== verification/Migration.v ===== *)
(** * Migration: pulling one's hash ranges when joining the cluster

    storage-metadata/src/migration.rs. *)

From S2P Require Import Prelude.
From S2P Require Import Grpc.
From S2P Require Import HashRing.
From S2P Require Import MetadataStore.
From S2P Require Import ChunkIndex.
From S2P Require Import ClusterService.
From S2P Require Import Cluster.
From S2P Require Import Forwarding.
From S2P Require Import MetadataService.
Open Scope string_scope.
Open Scope list_scope.
Open Scope Z_scope.

(** The objects, the chunks and the index entries of a received stream. *)
Definition received_object (e : TransferPartitionEntry) : option MetaObject :=
  match e with
  | TransferObject name checksum chunk_ids => Some (mkMetaObject name checksum chunk_ids 0)
  | TransferChunk _ _ _ _ => None
  end.
Definition received_chunk (e : TransferPartitionEntry) : option MetaChunk :=
  match e with
  | TransferChunk id object_name checksum nodes =>
      Some (mkMetaChunk id object_name checksum nodes Confirmed)
  | TransferObject _ _ _ => None
  end.
Definition received_index_entry (e : TransferPartitionEntry) : option (Z * string) :=
  match e with
  | TransferChunk id object_name _ _ => Some (id, object_name)
  | TransferObject _ _ _ => None
  end.

(** The waiting loop over the answers of [is_clustered], one a second: it gives up
    after the 31st. The fuel is the number of answers it may still ask for. *)
Fixpoint wait_for_peers (fuel : nat) (clustered : nat → bool) (attempts : Z) : bool :=
  match fuel with
  | O => false
  | S fuel =>
      if clustered (Z.to_nat attempts) then true
      else
        let attempts := attempts + 1 in
        if 30 <? attempts then false else wait_for_peers fuel clustered attempts
  end.

Section migration.
Context `{MetaDeps} `{Xxh3} {W : Type} `{Peers W}.

(** The boxed error only reaches the log: its code is enough. *)
Definition pull_partition (source_addr : string) (ranges : list (Z * Z)) : @MN W unit :=
  es ← on_net (expect resp_partition (call_peer source_addr (TransferPartition ranges)));
  let objs := omap received_object es in
  let cs := omap received_chunk es in
  let index_entries := omap received_index_entry es in
  if decide (objs = [] ∧ cs = []) then mret ()
  else
    _ ← on_server (with_store internal_status (ingest_partition objs cs));
    _ ← with_index (bulk_insert index_entries);
    broadcast_chunk_index_update index_entries.

Fixpoint pull_from (peer_addrs : list string) (ranges : list (Z * Z)) : @MN W unit :=
  match peer_addrs with
  | [] => mret ()
  | addr :: addrs =>
      _ ← @attempt _ Code _ _ (pull_partition addr ranges);
      pull_from addrs ranges
  end.

Definition migrate_on_join (clustered : nat → bool) : @MN W unit :=
  if wait_for_peers 31 clustered 0 then
    owned_ranges ← gets (λ n, get_owned_ranges (cm_ring (mn_cluster n)) (cm_node_id (mn_cluster n)));
    if decide (owned_ranges = []) then mret ()
    else
      peer_addrs ← gets (λ n, get_all_peer_addrs (mn_cluster n));
      _ ← pull_from peer_addrs owned_ranges;
      es ← gets (λ n, entries (sv_index (mn_server n)));
      if decide (es = []) then mret () else broadcast_chunk_index_update es
  else mret ().

End migration.
