(* ===== verification/ClusterTheorems.v ===== *)
(** * ClusterTheorems: membership

    The theorems about storage-metadata/src/cluster.rs: what the watcher's ticks make of
    what gossip reports, and which connections a node uses. *)

From S2P Require Import Prelude.
From S2P Require Import HashRing.
From S2P Require Import HashRingFacts.
From S2P Require Import HashRingTheorems.
From S2P Require Import ClusterService.
From S2P Require Import Cluster.
From S2P Require Import Samples.
Open Scope string_scope.
Open Scope list_scope.
Open Scope Z_scope.

Section theorems.
Context `{Xxh3}.

(** ** The ring of a set of nodes *)

(** The ring has every vnode of the members, and no other. *)
Record ring_of (members : gset string) (ring : HashRing) : Prop := mkRingOf {
  ro_wf : ring_wf ring;
  ro_elem k n : (k, n) ∈ ring ↔ n ∈ members ∧ vnode_of n k vnodes;
}.

Lemma ring_of_add n members ring :
  no_collision ({[n]} ∪ members) → ring_of members ring →
  ring_of ({[n]} ∪ members) (add_node n ring).
Proof.
  intros Hnc [Hwf He]. split; [by apply add_node_wf|]. intros k x. rewrite add_node_elem, He by done.
  split; [set_solver|]. intros [Hx Hv]. destruct (decide (vnode_of n k vnodes)) as [Hn|Hn].
  - left. split; [done|]. destruct Hv as (i & Hi & ->), Hn as (j & Hj & Heq).
    symmetry. apply (Hnc n x j i); [set_solver|done|done|done|done].
  - right. split_and!; [done| |done]. assert (x ≠ n) by (by intros ->). set_solver.
Qed.

Lemma ring_of_remove n members ring :
  ring_of members ring → ring_of (members ∖ {[n]}) (remove_node n ring).
Proof.
  intros [Hwf He]. split; [by apply remove_node_wf|]. intros k x. rewrite remove_node_elem, He.
  set_solver.
Qed.

(** A set of nodes has one ring. *)
Lemma ring_of_unique members r r' : ring_of members r → ring_of members r' → r = r'.
Proof.
  intros [Hwf He] [Hwf' He']. assert (∀ x, x ∈ r ↔ x ∈ r') as Heq.
  { intros [k n]. by rewrite He, He'. }
  clear He He'. revert r' Hwf' Heq. induction r as [|[k n] r IH]; intros [|[k' n'] r'] Hwf' Heq.
  - done.
  - exfalso. eapply not_elem_of_nil, Heq. by left.
  - exfalso. eapply not_elem_of_nil, Heq. by left.
  - apply ring_wf_cons in Hwf as (_ & Hlt & Hwf), Hwf' as (_ & Hlt' & Hwf').
    assert ((k, n) = (k', n')) as [= -> ->].
    { pose proof (proj1 (Heq (k, n)) (list_elem_of_here _ _)) as [?|Hin]%elem_of_cons; [done|].
      pose proof (proj2 (Heq (k', n')) (list_elem_of_here _ _)) as [?|Hin']%elem_of_cons; [done|].
      apply Hlt' in Hin. apply Hlt in Hin'. lia. }
    f_equal. apply (IH Hwf r' Hwf'). intros [x y]. specialize (Heq (x, y)).
    rewrite !elem_of_cons in Heq. split; intros Hin.
    + destruct (proj1 Heq (or_intror Hin)) as [[= -> ->]|?]; [|done]. apply Hlt in Hin. lia.
    + destruct (proj2 Heq (or_intror Hin)) as [[= -> ->]|?]; [|done]. apply Hlt' in Hin. lia.
Qed.

(** ** A tick of the watcher *)

Lemma ring_of_ext members members' ring :
  ring_of members ring → (∀ n, n ∈ members ↔ n ∈ members') → ring_of members' ring.
Proof. intros [Hwf He] Hm. split; [done|]. intros k n. by rewrite He, Hm. Qed.

Lemma ring_of_nodes members ring n : ring_of members ring → n ∈ nodes ring ↔ n ∈ members.
Proof.
  intros [Hwf He]. rewrite elem_of_nodes. split; [intros [k Hk]; by apply He in Hk as []|].
  intros Hn. exists (vnode_hash n 0). apply He. split; [done|]. exists 0. split; [|done].
  apply elem_of_seqZ. by vm_compute.
Qed.

Lemma no_collision_sub (s all : gset string) : no_collision all → s ⊆ all → no_collision s.
Proof. intros Hnc Hs n n' i j Hn Hn'. apply Hnc; by apply Hs. Qed.

Lemma ring_of_adds all (P : string → Prop) `{∀ n, Decision (P n)} l members ring :
  no_collision all → members ⊆ all → (∀ n, n ∈ l → n ∈ all) → ring_of members ring →
  ring_of (members ∪ list_to_set (filter P l))
    (foldl (λ r n, if decide (P n) then add_node n r else r) ring l).
Proof.
  intros Hnc. revert members ring. induction l as [|n l IH]; intros members ring Hm Hl Hr.
  { apply (ring_of_ext _ _ _ Hr). set_solver. }
  simpl. assert (n ∈ all) by (apply Hl; by left). rewrite filter_cons. destruct (decide (P n)).
  - apply (ring_of_ext (({[n]} ∪ members) ∪ list_to_set (filter P l))); [|set_solver].
    apply IH; [set_solver|intros x Hx; apply Hl; by right|].
    apply ring_of_add; [|done]. apply (no_collision_sub _ all Hnc). set_solver.
  - apply IH; [done| |done]. intros x Hx. apply Hl. by right.
Qed.

Lemma ring_of_removes (P : string → Prop) `{∀ n, Decision (P n)} l members ring :
  ring_of members ring →
  ring_of (members ∖ list_to_set (filter P l))
    (foldl (λ r n, if decide (P n) then remove_node n r else r) ring l).
Proof.
  revert members ring. induction l as [|n l IH]; intros members ring Hr.
  { apply (ring_of_ext _ _ _ Hr). set_solver. }
  simpl. rewrite filter_cons. destruct (decide (P n)); [|by apply IH].
  apply (ring_of_ext ((members ∖ {[n]}) ∖ list_to_set (filter P l))); [|set_solver].
  by apply IH, ring_of_remove.
Qed.

(** The nodes that a report of gossip names, and the node itself. *)
Definition members_of (id : string) (live : list (string * option string)) : gset string :=
  {[id]} ∪ list_to_set live.*1.

Lemma membership_tick_ring all live members c :
  no_collision all → members_of (cm_node_id c) live ⊆ all → members ⊆ all →
  cm_node_id c ∈ members → ring_of members (cm_ring c) →
  ring_of (members_of (cm_node_id c) live) (cm_ring (membership_tick live c)).
Proof.
  intros Hnc Hlive Hm Hid Hr. unfold membership_tick. cbv zeta. cbn [cm_ring].
  unfold members_of in *.
  pose proof (ring_of_adds all (λ nid, nid ≠ cm_node_id c ∧ nid ∉ nodes (cm_ring c)) live.*1 members _
    Hnc Hm ltac:(set_solver) Hr) as Hadd.
  pose proof (ring_of_removes (λ nid, nid ≠ cm_node_id c ∧ nid ∉ live.*1) (nodes (cm_ring c)) _ _ Hadd)
    as Hrem.
  eapply ring_of_ext; [exact Hrem|]. intros n.
  assert (n ∈ nodes (cm_ring c) ↔ n ∈ members) as Hn by by apply ring_of_nodes.
  rewrite elem_of_difference, !elem_of_union, !elem_of_list_to_set, !list_elem_of_filter, Hn,
    elem_of_singleton.
  destruct (decide (n = cm_node_id c)) as [->|Hne]; [tauto|].
  destruct (decide (n ∈ members)), (decide (n ∈ live.*1)); tauto.
Qed.

(** ** The life of a node's membership *)

(** What happens to a manager: a report of gossip, or a new connection. *)
Inductive gossip_event :=
  | Reported (live : list (string * option string))
  | Connected (addr client : string).
Definition apply_event (c : ClusterManager) (e : gossip_event) : ClusterManager :=
  match e with
  | Reported live => membership_tick live c
  | Connected addr client => cache_client addr client c
  end.
Definition manager (id : string) (port : Z) (events : list gossip_event) : ClusterManager :=
  foldl apply_event (cluster_new id port) events.

Definition last_report (events : list gossip_event) : list (string * option string) :=
  foldl (λ live e, match e with Reported live => live | Connected _ _ => live end) [] events.
(** Every node that was ever reported, and the node itself. *)
Definition ever_reported (id : string) (events : list gossip_event) : gset string :=
  foldl (λ all e, match e with Reported live => all ∪ list_to_set live.*1 | _ => all end) {[id]} events.

Lemma apply_event_id c e : cm_node_id (apply_event c e) = cm_node_id c.
Proof. destruct e; [done|]. cbn. unfold cache_client. by destruct (node_at addr c). Qed.

Lemma manager_snoc id port events e :
  manager id port (events ++ [e]) = apply_event (manager id port events) e.
Proof. unfold manager. by rewrite foldl_app. Qed.

Lemma manager_spec all id port events :
  no_collision all → ever_reported id events ⊆ all →
  cm_node_id (manager id port events) = id ∧
  members_of id (last_report events) ⊆ ever_reported id events ∧
  ring_of (members_of id (last_report events)) (cm_ring (manager id port events)).
Proof.
  intros Hnc. induction events as [|e events IH] using rev_ind; intros Hall.
  - split; [done|]. assert (members_of id (last_report []) = {[id]} ∪ ∅) as -> by done.
    split; [unfold ever_reported; simpl; set_solver|]. apply ring_of_add.
    + apply (no_collision_sub _ all Hnc). unfold ever_reported in Hall. simpl in Hall. set_solver.
    + split; [apply ring_wf_nil|]. intros k n. split; [by intros []%not_elem_of_nil|set_solver].
  - unfold ever_reported, last_report in *. rewrite manager_snoc, !foldl_app in *. simpl in *.
    destruct IH as (Hid & Hsub & Hr).
    { destruct e; [|done]. intros x Hx. apply Hall. apply elem_of_union. by left. }
    rewrite apply_event_id. split; [done|]. destruct e as [live|addr client].
    + assert (id ∈ ever_reported id events) as Hin.
      { apply Hsub. unfold members_of. set_solver. }
      unfold ever_reported in Hin. split; [unfold members_of; set_solver|]. simpl.
      pose proof (λ m, membership_tick_ring all live m (manager id port events) Hnc) as Htick.
      rewrite Hid in Htick. eapply Htick; [| | |exact Hr].
      * unfold members_of. set_solver.
      * set_solver.
      * unfold members_of. set_solver.
    + split; [done|]. simpl. unfold cache_client. by destruct (node_at addr _).
Qed.

Lemma manager_owner all id port events key (c := manager id port events) :
  no_collision all → ever_reported id events ⊆ all →
  ∃ owner, owner ∈ members_of id (last_report events) ∧ get_owner_id key c = Some owner ∧
    is_local key c = bool_decide (owner = id).
Proof.
  intros Hnc Hall. destruct (manager_spec all id port events Hnc Hall) as (Hid & _ & Hr).
  fold c in Hid, Hr. unfold get_owner_id, is_local, get_owner.
  assert (is_u64 (xxh3_64 key)) as Hh by apply xxh3_64_u64.
  destruct (owner_at (cm_ring c) (xxh3_64 key)) as [owner|] eqn:Ho.
  - exists owner. split_and!; [|done|].
    + apply owner_at_sound in Ho as (k & Hk & _); [|apply Hr|done]. by apply (ro_elem _ _ Hr) in Hk as [].
    + rewrite Hid. destruct (String.eqb_spec owner id); symmetry;
        [by apply bool_decide_eq_true|by apply bool_decide_eq_false].
  - apply owner_at_None in Ho. assert (id ∈ nodes (cm_ring c)) as Hin.
    { apply (ring_of_nodes _ _ _ Hr). unfold members_of. set_solver. }
    by rewrite Ho in Hin; apply not_elem_of_nil in Hin.
Qed.

(** C14: As long as no two virtual nodes, of all the nodes ever reported, hash to the same
    position, nodes that gossip last reported the same members to have the same ring,
    whatever joins, departures and connections each of them has seen before, and in whatever
    order: for every key all of them name the same owner, which is a member, and exactly that
    node takes the key for its own. *)
Theorem nodes_agree_on_owners all id1 port1 events1 id2 port2 events2 :
  no_collision all → ever_reported id1 events1 ⊆ all → ever_reported id2 events2 ⊆ all →
  members_of id1 (last_report events1) = members_of id2 (last_report events2) →
  let c1 := manager id1 port1 events1 in
  let c2 := manager id2 port2 events2 in
  cm_ring c1 = cm_ring c2 ∧
  ∀ key, ∃ owner, owner ∈ members_of id1 (last_report events1) ∧
    get_owner_id key c1 = Some owner ∧ get_owner_id key c2 = Some owner ∧
    is_local key c1 = bool_decide (owner = id1) ∧ is_local key c2 = bool_decide (owner = id2).
Proof.
  intros Hnc H1 H2 Hm c1 c2.
  destruct (manager_spec all id1 port1 events1 Hnc H1) as (_ & _ & Hr1).
  destruct (manager_spec all id2 port2 events2 Hnc H2) as (_ & _ & Hr2).
  rewrite <- Hm in Hr2. assert (cm_ring c1 = cm_ring c2) as Heq by by eapply ring_of_unique.
  split; [done|]. intros key.
  destruct (manager_owner all id1 port1 events1 key Hnc H1) as (o1 & Hin & Ho1 & Hl1).
  destruct (manager_owner all id2 port2 events2 key Hnc H2) as (o2 & _ & Ho2 & Hl2).
  fold c1 in Ho1, Hl1. fold c2 in Ho2, Hl2. exists o1.
  assert (get_owner_id key c1 = get_owner_id key c2) as He by (unfold get_owner_id; by rewrite Heq).
  assert (o1 = o2) as <- by congruence. by split_and!.
Qed.

(** ** Addresses and connections *)

Lemma live_addrs_lookup live (m : gmap string string) nid :
  NoDup live.*1 →
  foldl (λ m '(nid, a), match a with Some addr => <[nid := addr]> m | None => m end) m live !! nid =
  match (list_to_map live : gmap string (option string)) !! nid with
  | Some (Some a) => Some a
  | _ => m !! nid
  end.
Proof.
  revert m. induction live as [|[x oa] live IH]; intros m Hnd; [done|].
  rewrite fmap_cons in Hnd. apply list.NoDup_cons in Hnd as [Hx Hnd]. simpl. rewrite IH by done.
  destruct (decide (x = nid)) as [->|Hne].
  - rewrite lookup_insert_eq. rewrite not_elem_of_list_to_map_1 by done.
    destruct oa; [by rewrite lookup_insert_eq|done].
  - rewrite lookup_insert_ne by done. destruct (_ !! nid) as [[]|]; try done.
    all: destruct oa; [by rewrite lookup_insert_ne|done].
Qed.

(** After a tick a node knows the address of exactly the nodes reported with one. *)
Lemma membership_tick_addrs live c nid a :
  NoDup live.*1 → cm_peer_addrs (membership_tick live c) !! nid = Some a ↔ (nid, Some a) ∈ live.
Proof.
  intros Hnd. unfold membership_tick. cbn [cm_peer_addrs]. rewrite live_addrs_lookup by done.
  split.
  - destruct (list_to_map live !! nid) as [[]|] eqn:Hl; [|by rewrite lookup_empty..].
    intros [= <-]. by apply elem_of_list_to_map_2 in Hl.
  - intros Hin. by rewrite (elem_of_list_to_map_1 live nid (Some a)).
Qed.

(** A node that gossips a new address is called on the connection to the old one as long as
    it stays live: the ticks keep the connection, which is kept by node and not by
    address. *)
Theorem new_address_old_connection {W} `{Peers W} nid old new live c (w : W) :
  NoDup live.*1 → cm_peers c !! nid = Some old → (nid, Some new) ∈ live →
  (∀ x, (x, Some new) ∈ live → x = nid) →
  get_peer_client new (membership_tick live c, w) = (Ok old, (membership_tick live c, w)).
Proof.
  intros Hnd Hold Hnew Honly. unfold get_peer_client.
  assert (cached_client new (membership_tick live c) = Some old) as ->; [|done].
  unfold cached_client. set (f := λ '(n, a), if decide (a = new) then _ else None).
  assert (∀ x a, cm_peer_addrs (membership_tick live c) !! x = Some a →
    f (x, a) = if decide (x = nid) then Some old else None) as Hf.
  { intros x a Hx. apply membership_tick_addrs in Hx; [|done]. simpl.
    destruct (decide (x = nid)) as [->|Hne].
    - assert (a = new) as ->.
      { assert (Some a = Some new) as [=]; [|done].
        assert ((list_to_map live : gmap string (option string)) !! nid = Some (Some a)) as Ha
          by by apply elem_of_list_to_map_1.
        apply (elem_of_list_to_map_1 live nid (Some new)) in Hnew; [|done]. congruence. }
      rewrite decide_True by done. apply map_lookup_filter_Some. split; [done|]. simpl.
      apply list_elem_of_fmap. by exists (nid, Some new).
    - rewrite decide_False; [done|]. intros ->. by apply Hne, Honly. }
  assert (cm_peer_addrs (membership_tick live c) !! nid = Some new) as Hl
    by by apply membership_tick_addrs.
  apply elem_of_map_to_list in Hl. revert Hl Hf.
  assert (∀ x a, (x, a) ∈ map_to_list (cm_peer_addrs (membership_tick live c)) →
    cm_peer_addrs (membership_tick live c) !! x = Some a) as Hmap by (intros *; apply elem_of_map_to_list).
  revert Hmap. generalize (map_to_list (cm_peer_addrs (membership_tick live c))) as l.
  generalize (cm_peer_addrs (membership_tick live c)) as m. intros m l Hmap Hl Hf.
  induction l as [|[x a] l IH]; [by apply not_elem_of_nil in Hl|].
  cbn [omap list_omap]. rewrite (Hf x a) by (apply Hmap; by left).
  destruct (decide (x = nid)); [done|]. apply IH.
  - intros y b Hy. apply Hmap. by right.
  - apply elem_of_cons in Hl as [[= -> ->]|Hl]; [done|exact Hl].
Qed.

(** Nodes that listen on the same port gossip the same address, 0.0.0.0 with that port: the
    address that a node knows for each of its peers is the one that it gossips itself, and
    leads to itself. *)
Theorem gossiped_address_is_ones_own id port live c key a :
  NoDup live.*1 → cm_node_id c = id → cm_grpc_addr c = cm_grpc_addr (cluster_new id port) →
  (∀ nid a, (nid, Some a) ∈ live → a = cm_grpc_addr (cluster_new nid port)) →
  get_owner_addr key (membership_tick live c) = Some a → a = cm_grpc_addr c.
Proof.
  intros Hnd Hid Ha Hlive. unfold get_owner_addr.
  destruct (get_owner _ key) as [owner|]; [|done].
  case_decide; [done|]. intros Hl%membership_tick_addrs; [|done].
  rewrite Ha. by rewrite (Hlive owner a Hl).
Qed.

End theorems.

(** ** Witnesses *)

#[local] Existing Instance toy_xxh3.

(** "a" was told of "b", then that it is gone, then of it again; "b" was told of "a" once. *)
Definition events_a : list gossip_event :=
  [Reported [("a", None); ("b", Some "b:3001")]; Connected "b:3001" "http://b:3001"; Reported [];
   Reported [("b", Some "b:3002"); ("a", Some "a:3001")]].
Definition events_b : list gossip_event := [Reported [("a", Some "a:3001")]].

Lemma a_b_no_collision : no_collision {["a"; "b"]}.
Proof.
  intros n n' i j Hn Hn' Hi Hj Heq.
  assert (n = "a" ∨ n = "b") as [-> | ->] by set_solver;
    assert (n' = "a" ∨ n' = "b") as [-> | ->] by set_solver; try done.
  - by apply (clashb_spec "a" "b" i j a_b_no_clash) in Heq.
  - symmetry in Heq. by apply (clashb_spec "a" "b" j i a_b_no_clash) in Heq.
Qed.

Lemma nodes_agree_on_owners_witness :
  let c1 := manager "a" 3001 events_a in
  let c2 := manager "b" 3001 events_b in
  cm_ring c1 = cm_ring c2 ∧
  ∀ key, ∃ owner, owner ∈ members_of "a" (last_report events_a) ∧
    get_owner_id key c1 = Some owner ∧ get_owner_id key c2 = Some owner ∧
    is_local key c1 = bool_decide (owner = "a") ∧ is_local key c2 = bool_decide (owner = "b").
Proof.
  apply (nodes_agree_on_owners {["a"; "b"]} "a" 3001 events_a "b" 3001 events_b).
  - exact a_b_no_collision.
  - unfold ever_reported, events_a. simpl. set_solver.
  - unfold ever_reported, events_b. simpl. set_solver.
  - unfold members_of, last_report, events_a, events_b. simpl. set_solver.
Defined.

(** No peer answers. *)
#[local] Instance no_peers : Peers unit :=
  {| peer_connect _ w := (false, w); peer_call _ _ w := (Err Grpc.Unavailable, w) |}.

Definition knows_b : ClusterManager :=
  mkClusterManager [(5, "b")] "a" "0.0.0.0:3001" {["b" := "http://b:3001"]} {["b" := "b:3001"]}.

Lemma new_address_old_connection_witness :
  get_peer_client "b:3002" (membership_tick [("b", Some "b:3002")] knows_b, tt) =
    (Ok "http://b:3001", (membership_tick [("b", Some "b:3002")] knows_b, tt)).
Proof.
  apply (new_address_old_connection "b" "http://b:3001" "b:3002" [("b", Some "b:3002")] knows_b tt).
  - by apply list.NoDup_singleton.
  - reflexivity.
  - by left.
  - by intros x [[= ->]|[]%not_elem_of_nil]%elem_of_cons.
Defined.

Lemma gossiped_address_is_ones_own_witness :
  let c := membership_tick [("b", Some "0.0.0.0:3001")] knows_b in
  get_owner_addr "photo" c = Some "0.0.0.0:3001" ∧ "0.0.0.0:3001" = cm_grpc_addr knows_b.
Proof.
  split; [reflexivity|].
  apply (gossiped_address_is_ones_own "a" 3001 [("b", Some "0.0.0.0:3001")] knows_b "photo").
  - by apply list.NoDup_singleton.
  - reflexivity.
  - reflexivity.
  - by intros nid a [[= -> ->]|[]%not_elem_of_nil]%elem_of_cons.
  - reflexivity.
Defined.
