(* ===== verification/Network.v ===== *)
(** * Network: a cluster of metadata nodes

    The implementation of the interface [Peers] by the peers' own service: the world
    is the set of reachable nodes, each serving requests on its state. Facts about
    one call. *)

From S2P Require Import Prelude.
From S2P Require Import Grpc.
From S2P Require Import HashRing.
From S2P Require Import MetadataStore.
From S2P Require Import MetadataStoreFacts.
From S2P Require Import ChunkIndex.
From S2P Require Import ClusterService.
From S2P Require Import Cluster.
From S2P Require Import Forwarding.
Open Scope string_scope.
Open Scope list_scope.
Open Scope Z_scope.

(** The reachable nodes by endpoint. *)
Abbreviation Network := (gmap string ClusterServer).

#[export] Instance network_peers `{MetaDeps} `{Xxh3} : Peers Network := {|
  peer_connect endpoint w := (bool_decide (is_Some (w !! endpoint)), w);
  peer_call endpoint req w :=
    match w !! endpoint with
    | Some c => let '(r, c) := serve req c in (r, <[endpoint := c]> w)
    | None => (Err Unavailable, w)
    end;
|}.

Section network.
Context `{MetaDeps} `{Xxh3}.

(** The connection to the node at [addr], new or cached, leads to [endpoint]. *)
Definition leads_to (addr endpoint : string) (c : ClusterManager) : Prop :=
  match cached_client addr c with Some client => client = endpoint | None => endpoint_of addr = endpoint end.

Lemma call_peer_spec addr endpoint req peer r peer' c (w : Network) :
  leads_to addr endpoint c → w !! endpoint = Some peer → serve req peer = (r, peer') →
  ∃ c', call_peer addr req (c, w) = (r, (c', <[endpoint := peer']> w)) ∧
    cm_ring c' = cm_ring c ∧ cm_node_id c' = cm_node_id c ∧ cm_peer_addrs c' = cm_peer_addrs c.
Proof.
  intros Hl Hw Hs. unfold call_peer, get_peer_client, leads_to in *. run_st.
  destruct (cached_client addr c) as [client|] eqn:Hc.
  - subst client. unfold rpc. cbn. rewrite Hw, Hs. by exists c.
  - subst endpoint. cbn. rewrite bool_decide_eq_true_2 by by rewrite Hw.
    unfold rpc. cbn. rewrite Hw, Hs. exists (cache_client addr (endpoint_of addr) c).
    unfold cache_client. by destruct (node_at addr c).
Qed.

(** A forwarded request: the answer and the effect are the peer's. *)
Lemma on_net_call {A} (project : PeerResponse → option A) addr endpoint req peer r peer'
    (n : MetaNode Network) :
  leads_to addr endpoint (mn_cluster n) → mn_world n !! endpoint = Some peer →
  serve req peer = (r, peer') →
  ∃ c', on_net (expect project (call_peer addr req)) n =
    (match r with
     | Ok resp => match project resp with Some a => Ok a | None => Err Internal end
     | Err e => Err e
     | Panic => Panic
     end, set_net (c', <[endpoint := peer']> (mn_world n)) n) ∧
    cm_ring c' = cm_ring (mn_cluster n) ∧ cm_node_id c' = cm_node_id (mn_cluster n) ∧
    cm_peer_addrs c' = cm_peer_addrs (mn_cluster n).
Proof.
  intros Hl Hw Hs.
  destruct (call_peer_spec addr endpoint req peer r peer' _ _ Hl Hw Hs) as (c' & Hc & Hp).
  exists c'. split; [|done]. unfold on_net, zoom, expect. cbv [mbind ST_bind]. rewrite Hc.
  run_st. destruct r as [resp|e|]; [|done|done]. by destruct (project resp).
Qed.

(** A call of any kind changes at most one node, by serving the request. *)
Lemma rpc_inv (Q : ClusterServer → Prop) client req r c w c' (w' : Network) endpoint peer :
  (∀ s, Q s → Q (serve req s).2) → rpc client req (c, w) = (r, (c', w')) →
  w !! endpoint = Some peer → Q peer → ∃ peer', w' !! endpoint = Some peer' ∧ Q peer'.
Proof.
  intros HQ. unfold rpc. cbn. destruct (w !! client) as [s|] eqn:Hc.
  - destruct (serve req s) as [r1 s1] eqn:Hs. intros [= <- <- <-] Hw Hp.
    destruct (decide (client = endpoint)) as [->|Hne].
    + rewrite Hc in Hw. injection Hw as ->. exists s1. rewrite lookup_insert_eq.
      specialize (HQ peer Hp). by rewrite Hs in HQ.
    + rewrite lookup_insert_ne by done. eauto.
  - intros [= <- <- <-]. eauto.
Qed.

Lemma get_peer_client_world addr r c c' (w w' : Network) :
  get_peer_client addr (c, w) = (r, (c', w')) → w' = w.
Proof.
  unfold get_peer_client. destruct (cached_client addr c); [by intros [= _ _ <-]|].
  cbn. case_bool_decide; by intros [= _ _ <-].
Qed.

Lemma call_peer_inv (Q : ClusterServer → Prop) addr req r c w c' (w' : Network) endpoint peer :
  (∀ s, Q s → Q (serve req s).2) → call_peer addr req (c, w) = (r, (c', w')) →
  w !! endpoint = Some peer → Q peer → ∃ peer', w' !! endpoint = Some peer' ∧ Q peer'.
Proof.
  intros HQ. unfold call_peer. run_st.
  destruct (get_peer_client addr (c, w)) as [r1 [c1 w1]] eqn:Hg.
  pose proof (get_peer_client_world _ _ _ _ _ _ Hg) as ->.
  destruct r1; [by apply rpc_inv|intros [= _ _ <-]; eauto..].
Qed.

(** A broadcast changes every node by serving the request some number of times. *)
Lemma broadcast_inv {A} (project : PeerResponse → option A) (Q : ClusterServer → Prop) req addrs
    r c w c' (w' : Network) endpoint peer :
  (∀ s, Q s → Q (serve req s).2) → broadcast project req addrs (c, w) = (r, (c', w')) →
  w !! endpoint = Some peer → Q peer → ∃ peer', w' !! endpoint = Some peer' ∧ Q peer'.
Proof.
  intros HQ. revert r c w c' w' peer. induction addrs as [|a addrs IH]; intros r c w c' w' peer.
  { simpl. run_st. intros [= _ _ <-]. eauto. }
  simpl. unfold expect. run_st.
  destruct (call_peer a req (c, w)) as [r1 [c1 w1]] eqn:Hc. intros Hb Hw Hp.
  destruct (call_peer_inv Q a req _ _ _ _ _ endpoint peer HQ Hc Hw Hp) as (p1 & Hw1 & Hp1).
  destruct (broadcast project req addrs (c1, w1)) as [r2 [c2 w2]] eqn:Hb2.
  destruct (IH _ _ _ _ _ _ Hb2 Hw1 Hp1) as (p2 & Hw2 & Hp2).
  destruct r1 as [resp|e|]; [destruct (project resp)| |]; rewrite ?Hb2 in Hb; revert Hb;
    try (destruct r2); intros [= _ _ <-]; eauto.
Qed.

(** ** Connections that are up

    Every cached client is connected to its node's address, and that node is there. *)
Definition clients_live (cw : ClusterManager * Network) : Prop :=
  ∀ nid client addr, cm_peers cw.1 !! nid = Some client → cm_peer_addrs cw.1 !! nid = Some addr →
    client = endpoint_of addr ∧ is_Some (cw.2 !! client).

Definition reachable (w : Network) (addr : string) : Prop := is_Some (w !! endpoint_of addr).

#[export] Instance reachable_dec w addr : Decision (reachable w addr) :=
  is_Some_dec (w !! endpoint_of addr).

Lemma head_omap_Some {A B} (f : A → option B) l b :
  head (omap f l) = Some b → ∃ a, a ∈ l ∧ f a = Some b.
Proof.
  intros Hh. assert (b ∈ omap f l) as Hb by (destruct (omap f l); simplify_eq/=; by left).
  apply list_elem_of_omap in Hb as (a & ? & ?). by exists a.
Qed.

Lemma cached_client_live c (w : Network) addr client :
  clients_live (c, w) → cached_client addr c = Some client →
  client = endpoint_of addr ∧ reachable w addr.
Proof.
  intros Hl. unfold cached_client. intros ([nid a] & Hin & Hf)%head_omap_Some.
  apply elem_of_map_to_list in Hin. case_decide; [subst a|done].
  destruct (Hl nid client addr Hf Hin) as [-> ?]. done.
Qed.

Lemma get_peer_client_live c (w : Network) addr :
  clients_live (c, w) →
  if decide (reachable w addr)
  then ∃ c', get_peer_client addr (c, w) = (Ok (endpoint_of addr), (c', w)) ∧
    clients_live (c', w) ∧ cm_peer_addrs c' = cm_peer_addrs c
  else get_peer_client addr (c, w) = (Err (), (c, w)).
Proof.
  intros Hl. unfold get_peer_client.
  destruct (cached_client addr c) as [client|] eqn:Hc.
  - destruct (cached_client_live _ _ _ _ Hl Hc) as [-> Hr]. rewrite decide_True by done.
    by exists c.
  - cbn. case_decide as Hr.
    + rewrite bool_decide_eq_true_2 by done. eexists. split; [done|].
      unfold cache_client. destruct (node_at addr c) as [nid|] eqn:Hn; [|done].
      split; [|done]. intros n2 cl a2. simpl.
      unfold node_at in Hn. apply head_omap_Some in Hn as ([n3 a3] & Hin%elem_of_map_to_list & Hf).
      case_decide; [subst a3|done]. injection Hf as ->.
      intros [[<- <-]|[Hne Hp]]%lookup_insert_Some Ha; [|by apply (Hl n2)].
      rewrite Hin in Ha. by injection Ha as <-.
    + by rewrite bool_decide_eq_false_2 by done.
Qed.

(** Gathering answers that only read: all of them, or an error when a peer cannot be
    reached. *)
Lemma gather_reads {A} (project : PeerResponse → option (list A)) req (f : ClusterServer → list A)
    addrs c (w : Network) :
  (∀ s, ∃ resp, serve req s = (Ok resp, s) ∧ project resp = Some (f s)) →
  clients_live (c, w) →
  ∃ c', gather project req addrs (c, w) =
    (if decide (Forall (reachable w) addrs)
     then Ok (addrs ≫= λ a, default [] (f <$> w !! endpoint_of a))
     else Err Unavailable, (c', w)).
Proof.
  intros Hreq. revert c. induction addrs as [|a addrs IH]; intros c Hl; [by exists c|].
  simpl. run_st. pose proof (get_peer_client_live c w a Hl) as Hg.
  destruct (decide (reachable w a)) as [[s Hs]|Hr].
  - destruct Hg as (c1 & -> & Hl1 & _). unfold expect, rpc. run_st. cbn. rewrite Hs.
    destruct (Hreq s) as (resp & Hse & Hp). rewrite Hse. cbn. rewrite Hp. cbn.
    rewrite insert_id by done. destruct (IH c1 Hl1) as (c2 & ->). exists c2.
    destruct (decide (Forall (reachable w) addrs)) as [Hf|Hf].
    + by rewrite decide_True by (constructor; [eexists; exact Hs|done]).
    + rewrite decide_False; [done|]. by intros [_ ?]%list.Forall_cons.
  - rewrite Hg. exists c. rewrite decide_False; [done|]. by intros [? _]%list.Forall_cons.
Qed.

End network.

(** ** The chunk index covers the store *)

(** Every chunk an object lists is in the index under the object's name. *)
Definition index_covers (c : ClusterServer) : Prop :=
  ∀ k o id, objects (sv_store c) !! k = Some o → id ∈ mo_chunks o → sv_index c !! id = Some k.

Section calm.
Context `{MetaDeps}.

(** The file system fails no call. *)
Definition store_calm (s : MetadataStore) : Prop :=
  dk_script (ms_disk s) = [] ∧ ∀ st, is_Some (json_to_string st).

Lemma save_calm s :
  store_calm s → ∃ d, save s = (Ok (), set_disk d s) ∧ dk_script d = [].
Proof.
  intros [Hsc Hj]. destruct (Hj (persistent s)) as [json Hjs].
  unfold save, on_disk, zoom. run_st. rewrite Hjs.
  unfold open_tmp, write_tmp, sync_tmp, rename_tmp, fs_call. rewrite Hsc. cbn. rewrite Hsc. cbn.
  rewrite Hsc. cbn. rewrite Hsc. cbn. eexists. split; [done|]. cbn. done.
Qed.

End calm.
