(* ===== verification/ClusterFacts.v ===== *)
(** * ClusterFacts: the chunk index stays in step with the store

    Every request between peers keeps the invariant that the chunk index covers the
    store, when the file system fails no call. *)

From S2P Require Import Prelude.
From S2P Require Import Grpc.
From S2P Require Import HashRing.
From S2P Require Import MetadataStore.
From S2P Require Import MetadataStoreFacts.
From S2P Require Import ChunkIndex.
From S2P Require Import ClusterService.
From S2P Require Import Network.
Open Scope string_scope.
Open Scope list_scope.
Open Scope Z_scope.

Section facts.
Context `{MetaDeps} `{Xxh3}.

(** The state of a node whose store is well formed, covered and calm. *)
Record server_ok (c : ClusterServer) : Prop := mkServerOk {
  so_wf : ms_wf (sv_store c);
  so_index : index_covers c;
  so_calm : store_calm (sv_store c);
}.

(** A handler keeps such a state. *)
Definition serves {A} (m : CS A) : Prop := ∀ c r c', server_ok c → m c = (r, c') → server_ok c'.

Lemma server_ok_set s idx c :
  server_ok c → ms_wf s → dk_script (ms_disk s) = [] →
  (∀ k o id, objects s !! k = Some o → id ∈ mo_chunks o → idx !! id = Some k) →
  server_ok (mkClusterServer s idx).
Proof. intros [Hwf Hi [Hsc Hj]] Hs Hd Hx. split; [done|exact Hx|done]. Qed.

(** [s'] lists no chunk that [s] does not, under the same object. *)
Definition lists_no_more (s s' : MetadataStore) : Prop :=
  dk_script (ms_disk s') = [] ∧
  ∀ k o', objects s' !! k = Some o' → mo_chunks o' = [] ∨
    ∃ o, objects s !! k = Some o ∧ mo_chunks o' ⊆ mo_chunks o.

Lemma lists_no_more_same s s1 :
  objects s1 = objects s → dk_script (ms_disk s1) = [] → lists_no_more s s1.
Proof. intros He Hd. split; [done|]. rewrite He. intros k o' Hk. right. by exists o'. Qed.

(** A handler made of one store operation that lists no new chunk. *)
Lemma with_store_serves {A} so (m : MS A) :
  keeps m → (∀ s r s', store_calm s → m s = (r, s') → lists_no_more s s') →
  serves (with_store so m).
Proof.
  intros Hk Hm c r c' Hc. unfold with_store, zoom, rethrow.
  destruct (m (sv_store c)) as [r1 s1] eqn:Hr. intros [= <- <-].
  destruct (Hm _ _ _ (so_calm _ Hc) Hr) as [Hd Ho].
  apply (server_ok_set s1 (sv_index c) c); [done|by eapply Hk, Hr; apply Hc|done|].
  intros k o' id Hk' Hi. destruct (Ho _ _ Hk') as [Hnil|(o & Hok & Hsub)].
  - rewrite Hnil in Hi. by apply not_elem_of_nil in Hi.
  - eapply (so_index _ Hc); [done|by apply Hsub].
Qed.

Ltac calm_save Hc :=
  let d := fresh "d" in let Hs := fresh "Hs" in let Hd := fresh "Hd" in
  match goal with
  | |- context [save ?s] =>
      let Hx := fresh in
      assert (store_calm s) as Hx by apply Hc; destruct (save_calm s Hx) as (d & Hs & Hd);
      rewrite Hs; clear Hx
  end.

Lemma put_object_serves name checksum : serves (forward_put_object name checksum).
Proof.
  apply with_store_serves; [apply put_object_keeps|]. intros s r s' Hc.
  unfold put_object. run_st. case_decide; [by intros [= <- <-]; apply lists_no_more_same, Hc|].
  calm_save Hc. intros [= <- <-]. split; [done|]. simpl.
  intros k o' [[<- <-]|[_ Hk]]%lookup_insert_Some; [by left|right; by exists o'].
Qed.

Lemma allocate_chunk_serves name : serves (forward_allocate_chunk name).
Proof.
  intros c r c' Hc. unfold forward_allocate_chunk. cbv [mbind ST_bind].
  destruct (with_store unavailable_status (allocate_chunk name) c) as [r1 c1] eqn:Hr.
  assert (server_ok c1) as Hc1; [|by destruct r1 as [[[]]| |]; intros [= <- <-]].
  revert Hr. apply with_store_serves; [apply allocate_chunk_keeps| |done].
  clear. intros s r s' Hc. unfold allocate_chunk. cbv [mbind ST_bind].
  destruct (generate_unique_id chunks s) as [r1 s1] eqn:Hg.
  apply generate_unique_id_spec in Hg as (rng & -> & _).
  destruct r1 as [id|e|]; [|by intros [= <- <-]; apply lists_no_more_same, Hc..].
  destruct (choose_storage_node_spec (set_rng rng s)) as (n & rng' & -> & _).
  destruct n as [n|]; run_st; intros [= <- <-]; by apply lists_no_more_same, Hc.
Qed.

Lemma add_chunk_replica_serves id n : serves (forward_add_chunk_replica id n).
Proof.
  apply with_store_serves; [apply add_chunk_replica_keeps|]. intros s r s' Hc.
  unfold add_chunk_replica. run_st.
  case_decide; [|by intros [= <- <-]; apply lists_no_more_same, Hc].
  destruct (chunks s !! id) as [c|]; [|by intros [= <- <-]; apply lists_no_more_same, Hc].
  case_decide; [by intros [= <- <-]; apply lists_no_more_same, Hc|].
  case_match; [by intros [= <- <-]; apply lists_no_more_same, Hc|].
  calm_save Hc. intros [= <- <-]. by apply lists_no_more_same.
Qed.

Lemma put_storage_node_serves address : serves (broadcast_put_storage_node address).
Proof.
  apply with_store_serves; [apply construct_storage_node_keeps|].
  intros s r s' Hc. unfold construct_storage_node, meta_storage_node_new. run_st.
  destruct (generate_unique_id storage_nodes s) as [r1 s1] eqn:Hg.
  apply generate_unique_id_spec in Hg as (rng & -> & _).
  destruct r1 as [id|e|]; [|by intros [= <- <-]; apply lists_no_more_same, Hc..].
  destruct (uri_ok address); intros [= <- <-]; by apply lists_no_more_same, Hc.
Qed.

Lemma delete_storage_node_serves id : serves (broadcast_delete_storage_node id).
Proof.
  apply with_store_serves; [apply delete_storage_node_keeps|].
  intros s r s' Hc. unfold delete_storage_node. run_st.
  destruct (storage_nodes s !! id); intros [= <- <-]; by apply lists_no_more_same, Hc.
Qed.

(** A chunk joins its object's list and the index together. *)
Lemma server_ok_list_chunk c s k o id ck n :
  server_ok c → objects (sv_store c) !! k = Some o → ms_wf s →
  objects s = <[k := add_chunk id o]> (objects (sv_store c)) →
  chunks s = <[id := add_storage_node n (new_chunk id ck k)]> (chunks (sv_store c)) →
  (∀ c0, chunks (sv_store c) !! id = Some c0 → mc_status c0 = Pending) →
  dk_script (ms_disk s) = [] →
  server_ok (mkClusterServer s (<[id := k]> (sv_index c))).
Proof.
  intros Hc Ho Hwf Hobj Hch Hp Hd.
  apply (server_ok_set s _ c); [done..|].
  simpl. rewrite Hobj. intros k' o' i [[<- <-]|[Hne Hk]]%lookup_insert_Some Hi.
  - simpl in Hi. apply elem_of_app in Hi as [Hi| ->%list_elem_of_singleton];
      [|by rewrite lookup_insert_eq].
    rewrite lookup_insert_ne; [by eapply so_index|]. intros ->.
    by eapply (fresh_not_listed _ _ _ _ (so_wf _ Hc) Ho Hp).
  - rewrite lookup_insert_ne; [by eapply so_index|]. intros ->.
    by eapply (fresh_not_listed _ _ _ _ (so_wf _ Hc) Hk Hp).
Qed.

(** A store that lists no more than before keeps the index covering it. *)
Lemma server_ok_same_lists c s :
  server_ok c → ms_wf s → dk_script (ms_disk s) = [] → objects s = objects (sv_store c) →
  server_ok (mkClusterServer s (sv_index c)).
Proof.
  intros Hc Hwf Hd Ho. apply (server_ok_set s _ c); [done..|].
  rewrite Ho. intros k o id Hk Hi. by eapply so_index.
Qed.

Ltac same_lists Hc := apply server_ok_same_lists; [done|done|apply Hc|done].

Lemma put_chunk_serves name ck : serves (forward_put_chunk name ck).
Proof.
  intros c r c' Hc. unfold forward_put_chunk, with_store, zoom, rethrow. cbv [mbind ST_bind].
  destruct (put_chunk name ck (sv_store c)) as [r1 s1] eqn:Hr.
  pose proof (put_chunk_keeps _ _ _ _ _ (so_wf _ Hc) Hr) as Hwf.
  revert Hr. unfold put_chunk. cbv [mbind ST_bind].
  destruct (generate_unique_id chunks (sv_store c)) as [r0 s0] eqn:Hg.
  apply generate_unique_id_spec in Hg as (rng & -> & Hid).
  destruct r0 as [id|e|]; [|done|intros [= <- <-] [= <- <-]; same_lists Hc].
  destruct (choose_storage_node_spec (set_rng rng (sv_store c))) as (n & rng' & -> & _).
  destruct n as [n|]; [|intros [= <- <-] [= <- <-]; same_lists Hc].
  run_st. simpl. destruct (objects (sv_store c) !! name) as [o|] eqn:Ho.
  2: { intros [= <- <-] [= <- <-]. same_lists Hc. }
  calm_save Hc. intros [= <- <-] [= <- <-].
  eapply (server_ok_list_chunk c); [done|exact Ho|done|done|done| |done].
  intros c0. by rewrite Hid.
Qed.

(** What [confirm_chunk] does: nothing, or the two updates and a save. *)
Lemma confirm_chunk_cases id name ck n s r s' :
  confirm_chunk id name ck n s = (r, s') →
  (∃ e, r = Err e ∧ s' = s) ∨
  ∃ o, objects s !! name = Some o ∧
    (∀ c0, chunks s !! id = Some c0 → mc_status c0 = Pending) ∧
    save (set_objects (<[name := add_chunk id o]> (objects s))
      (set_chunks (<[id := add_storage_node n (new_chunk id ck name)]> (chunks s)) s)) = (r, s').
Proof.
  unfold confirm_chunk. run_st. case_decide; [|intros [= <- <-]; left; eauto].
  destruct (chunks s !! id) as [[i nm k ns []]|] eqn:Hc;
    [|intros [= <- <-]; left; eauto|].
  all: destruct (objects s !! name) as [o|] eqn:Ho; [|intros [= <- <-]; left; eauto].
  all: intros Hs; right; exists o; split_and!; [done| |exact Hs]; naive_solver.
Qed.

Lemma confirm_chunk_serves id name ck n : serves (forward_confirm_chunk id name ck n).
Proof.
  intros c r c' Hc. unfold forward_confirm_chunk, with_store, zoom, rethrow. cbv [mbind ST_bind].
  destruct (confirm_chunk id name ck n (sv_store c)) as [r1 s1] eqn:Hr.
  pose proof (confirm_chunk_keeps _ _ _ _ _ _ _ (so_wf _ Hc) Hr) as Hwf.
  apply confirm_chunk_cases in Hr as [(e & -> & ->)|(o & Ho & Hp & Hs)].
  - intros [= <- <-]. same_lists Hc.
  - revert Hs. calm_save Hc. intros [= <- <-] [= <- <-].
    by eapply (server_ok_list_chunk c _ name o id ck n).
Qed.

Lemma delete_object_serves name : serves (forward_delete_object name).
Proof.
  intros c r c' Hc. unfold forward_delete_object, with_store, zoom, rethrow. run_st.
  destruct (delete_object name (sv_store c)) as [r1 s1] eqn:Hr.
  pose proof (delete_object_keeps _ _ _ _ (so_wf _ Hc) Hr) as Hwf.
  destruct (objects (sv_store c) !! name) as [o|] eqn:Ho.
  - rewrite (delete_object_run _ _ _ Ho) in Hr. revert Hr. unfold remove_object_of. rewrite Ho.
    calm_save Hc. intros [= <- <-] [= <- <-].
    apply (server_ok_set _ _ c); [done..|].
    simpl. intros k o' id [Hne Hk]%lookup_delete_Some Hi.
    unfold remove_all. rewrite foldl_remove_lookup, decide_False; [by eapply so_index|].
    intros Hio. by apply Hne, (wf_disjoint _ _ _ _ _ id (so_wf _ Hc) Ho Hk).
  - unfold delete_object in Hr. run_st. rewrite Ho in Hr. injection Hr as <- <-.
    intros [= <- <-]. same_lists Hc.
Qed.

Lemma delete_chunk_serves id : serves (forward_delete_chunk id).
Proof.
  intros c r c' Hc. unfold forward_delete_chunk, with_store, zoom, rethrow. run_st.
  destruct (delete_chunk id (sv_store c)) as [r1 s1] eqn:Hr.
  pose proof (delete_chunk_keeps _ _ _ _ (so_wf _ Hc) Hr) as Hwf.
  revert Hr. unfold delete_chunk. run_st.
  destruct (chunks (sv_store c) !! id) as [ch|] eqn:Hch.
  2: { intros [= <- <-] [= <- <-]. same_lists Hc. }
  simpl. destruct (objects (sv_store c) !! mc_object_name ch) as [o|] eqn:Ho.
  2: { intros [= <- <-] [= <- <-]. same_lists Hc. }
  calm_save Hc. intros [= <- <-] [= <- <-].
  apply (server_ok_set _ _ c); [done..|].
  simpl. intros k o' i [[<- <-]|[Hne Hk]]%lookup_insert_Some Hi.
  - simpl in Hi. apply list_elem_of_filter in Hi as [? Hi].
    rewrite lookup_delete_ne by done. by eapply so_index.
  - rewrite lookup_delete_ne; [by eapply so_index|]. intros <-.
    destruct (mw_listed _ (so_wf _ Hc) _ _ _ Hk Hi) as (ch' & Hch' & ? & _). congruence.
Qed.

(** Requests that only read. *)
Lemma read_serves {A} (m : CS A) : (∀ c, (m c).2 = c) → serves m.
Proof. intros Hm c r c' Hc Hr. specialize (Hm c). rewrite Hr in Hm. by subst. Qed.

Lemma serves_bind_ret {A B} (m : CS A) (f : A → B) : serves m → serves (x ← m; mret (f x)).
Proof.
  intros Hm c r c' Hc. run_st. destruct (m c) as [r1 c1] eqn:Hr. apply Hm in Hr; [|done].
  by destruct r1; intros [= _ <-].
Qed.

Lemma with_store_state {A} so (m : MS A) c :
  (m (sv_store c)).2 = sv_store c → (with_store so m c).2 = c.
Proof.
  intros Hm. unfold with_store, zoom, rethrow. destruct (m (sv_store c)) as [r s]. simpl in *.
  subst s. by destruct c.
Qed.

Lemma get_object_serves name : serves (forward_get_object name).
Proof.
  apply read_serves. intros c. unfold forward_get_object.
  assert ((with_store not_found_status (get_object name) c).2 = c) as Hw.
  { apply with_store_state. unfold get_object. run_st. by destruct (_ !! _). }
  cbv [mbind ST_bind]. destruct (with_store not_found_status (get_object name) c) as [[o|e|] c1];
    simpl in Hw; subst c1; [|done..].
  run_st. unfold lift_outcome. by destruct (chunks_or_internal _ _).
Qed.

Lemma get_chunk_serves id : serves (forward_get_chunk id).
Proof.
  apply read_serves. intros c. unfold forward_get_chunk.
  assert ((with_store not_found_status (get_chunk id) c).2 = c) as Hw.
  { apply with_store_state. unfold get_chunk. run_st. by destruct (_ !! _). }
  cbv [mbind ST_bind]. by destruct (with_store not_found_status (get_chunk id) c) as [[[]|e|] c1];
    simpl in Hw; subst c1.
Qed.

(** A request other than a peer's update of the chunk index. *)
Definition own_request (req : PeerRequest) : Prop :=
  match req with BroadcastChunkIndex _ => False | _ => True end.

Lemma serve_serves req : own_request req → serves (serve req).
Proof.
  destruct req; intros Hreq; try done; simpl.
  - apply serves_bind_ret, put_object_serves.
  - apply (serves_bind_ret _ RespObject), get_object_serves.
  - apply serves_bind_ret, delete_object_serves.
  - intros c r c' Hc. run_st. destruct (forward_put_chunk object_name checksum c) as [r1 c1] eqn:Hr.
    apply put_chunk_serves in Hr; [|done]. by destruct r1 as [[]| |]; intros [= _ <-].
  - apply (serves_bind_ret _ RespAllocate), allocate_chunk_serves.
  - apply serves_bind_ret, confirm_chunk_serves.
  - apply (serves_bind_ret _ RespChunk), get_chunk_serves.
  - apply serves_bind_ret, delete_chunk_serves.
  - apply serves_bind_ret, add_chunk_replica_serves.
  - apply (serves_bind_ret _ RespStorageNode), put_storage_node_serves.
  - apply serves_bind_ret, delete_storage_node_serves.
  - by apply read_serves.
  - by apply read_serves.
  - by apply read_serves.
Qed.

End facts.
