(* ===== verification/RoutingFacts.v ===== *)
(** * RoutingFacts: where a request ends up

    Requests served here, passed on to the owner or broadcast to every peer, and what
    each leaves; the answer to a read. *)

From S2P Require Import Prelude.
From S2P Require Import Grpc.
From S2P Require Import HashRing.
From S2P Require Import MetadataStore.
From S2P Require Import MetadataStoreFacts.
From S2P Require Import ChunkIndex.
From S2P Require Import ClusterService.
From S2P Require Import Cluster.
From S2P Require Import Forwarding.
From S2P Require Import MetadataService.
From S2P Require Import Network.
From S2P Require Import ClusterFacts.
Open Scope string_scope.
Open Scope list_scope.
Open Scope Z_scope.

Section routing.
Context `{MetaDeps} `{Xxh3}.

(** [n] forwards requests on [name] to the node serving [endpoint], in state [peer]. *)
Record forwards (n : MetaNode Network) (name endpoint : string) (peer : ClusterServer) : Prop :=
  mkForwards {
    fw_on : mn_forwarding n = true;
    fw_owner : ∃ addr, get_owner_addr name (mn_cluster n) = Some addr ∧
      leads_to addr endpoint (mn_cluster n);
    fw_peer : mn_world n !! endpoint = Some peer;
  }.

(** [n] serves requests on [name] itself. *)
Definition serves_itself (n : MetaNode Network) (name : string) : Prop :=
  mn_forwarding n = false ∨ get_owner_addr name (mn_cluster n) = None.

(** What a request passed on to [endpoint] leaves: the peer's new state there, and the
    node's own store, index and metrics as they were. *)
Definition passed_on (n n' : MetaNode Network) (endpoint : string) (peer' : ClusterServer) : Prop :=
  mn_server n' = mn_server n ∧ mn_metrics n' = mn_metrics n ∧
  mn_forwarding n' = mn_forwarding n ∧ cm_ring (mn_cluster n') = cm_ring (mn_cluster n) ∧
  mn_world n' = <[endpoint := peer']> (mn_world n).

Lemma route_object_forwards {A} n name endpoint peer (fwd : string → MN A) here :
  forwards n name endpoint peer →
  ∃ addr, leads_to addr endpoint (mn_cluster n) ∧ route_object name fwd here n = fwd addr n.
Proof.
  intros [Hf (addr & Ho & Hl) Hp]. exists addr. split; [done|].
  unfold route_object, route_by_object, fl_route_by_object. run_st. by rewrite Hf, Ho.
Qed.

Lemma route_object_here {A} n name (fwd : string → MN A) here :
  serves_itself n name → route_object name fwd here n = here n.
Proof.
  intros Hs. unfold route_object, route_by_object, fl_route_by_object. run_st.
  destruct Hs as [-> | Ho]; [done|]. rewrite Ho. by destruct (mn_forwarding n).
Qed.

(** A routed request that is one forwarded call. *)
Lemma route_object_is_peers {A} n name endpoint peer (project : PeerResponse → option A) req
    (fwd : string → MN A) here (m : CS A) (inj : A → PeerResponse) :
  forwards n name endpoint peer →
  (∀ addr, fwd addr = on_net (expect project (call_peer addr req))) →
  (∀ c, serve req c = (x ← m; mret (inj x)) c) → (∀ a, project (inj a) = Some a) →
  ∃ n', route_object name fwd here n = ((m peer).1, n') ∧ passed_on n n' endpoint (m peer).2.
Proof.
  intros Hfw Hf Hs Hpr.
  destruct (route_object_forwards n name endpoint peer fwd here Hfw) as (addr & Hl & ->).
  rewrite Hf. specialize (Hs peer). destruct (m peer) as [r peer'] eqn:Hm.
  assert (serve req peer = (match r with Ok a => Ok (inj a) | Err e => Err e | Panic => Panic end,
    peer')) as Hsv.
  { rewrite Hs. run_st. rewrite Hm. by destruct r. }
  edestruct (on_net_call project addr endpoint req peer) as (c' & -> & Hc & _ & _);
    [done|apply Hfw|exact Hsv|].
  eexists. split.
  - f_equal. destruct r; simpl; [by rewrite Hpr|done..].
  - by split_and!.
Qed.

Lemma forwarded_put n name endpoint peer checksum :
  forwards n name endpoint peer →
  ∃ n', svc_put_object name checksum n = ((forward_put_object name checksum peer).1, n') ∧
    passed_on n n' endpoint (forward_put_object name checksum peer).2.
Proof.
  intros Hfw. by eapply (route_object_is_peers _ _ _ _ resp_unit _ _ _ _ (λ _, RespUnit));
    [done..|intros []].
Qed.

Lemma forwarded_get n name endpoint peer :
  forwards n name endpoint peer →
  ∃ n', svc_get_object name n = ((forward_get_object name peer).1, n') ∧
    passed_on n n' endpoint (forward_get_object name peer).2.
Proof.
  intros Hfw. by eapply (route_object_is_peers _ _ _ _ resp_object _ _ _ _ RespObject).
Qed.

Lemma forwarded_confirm n name endpoint peer id checksum node :
  forwards n name endpoint peer →
  ∃ n', svc_confirm_chunk id name checksum node n =
      ((forward_confirm_chunk id name checksum node peer).1, n') ∧
    passed_on n n' endpoint (forward_confirm_chunk id name checksum node peer).2.
Proof.
  intros Hfw. by eapply (route_object_is_peers _ _ _ _ resp_unit _ _ _ _ (λ _, RespUnit));
    [done..|intros []].
Qed.

Lemma forwarded_delete n name endpoint peer :
  forwards n name endpoint peer →
  ∃ n', svc_delete_object name n = ((forward_delete_object name peer).1, n') ∧
    passed_on n n' endpoint (forward_delete_object name peer).2.
Proof.
  intros Hfw. eapply (route_object_is_peers _ _ _ _ resp_unit _ _ _ _ (λ _, RespUnit));
    [done..|by intros []].
Qed.

Lemma forwarded_put_chunk n name endpoint peer checksum :
  forwards n name endpoint peer →
  ∃ n', svc_put_chunk name checksum n = ((forward_put_chunk name checksum peer).1, n') ∧
    passed_on n n' endpoint (forward_put_chunk name checksum peer).2.
Proof.
  intros Hfw.
  eapply (route_object_is_peers _ _ _ _ resp_put_chunk _ _ _ _ (λ p, RespPutChunk p.1 p.2));
    [done|done| |by intros []].
  intros c. simpl. run_st. by destruct (forward_put_chunk _ _ c) as [[[]| |] ?].
Qed.

Lemma forwarded_allocate n name endpoint peer :
  forwards n name endpoint peer → name ≠ "" →
  ∃ n', svc_allocate_chunk name n = ((forward_allocate_chunk name peer).1, n') ∧
    passed_on n n' endpoint (forward_allocate_chunk name peer).2.
Proof.
  intros Hfw Hne. unfold svc_allocate_chunk. rewrite (proj2 (String.eqb_neq name "")) by done.
  eapply (route_object_is_peers _ _ _ _ resp_allocate _ _ _ _ RespAllocate); done.
Qed.

(** ** Requests on chunks *)

Lemma route_chunk_unknown {A} (n : MetaNode Network) id (fwd : string → MN A) here :
  sv_index (mn_server n) !! id = None → route_chunk id fwd here n = here n.
Proof.
  intros Hi. unfold route_chunk, route_by_chunk, fl_route_by_chunk, index_get. run_st. rewrite Hi.
  by destruct (mn_forwarding n).
Qed.

Lemma route_chunk_known {A} (n : MetaNode Network) id name (fwd : string → MN A) here :
  sv_index (mn_server n) !! id = Some name →
  route_chunk id fwd here n = route_object name fwd here n.
Proof.
  intros Hi. unfold route_chunk, route_by_chunk, fl_route_by_chunk, route_object, route_by_object,
    index_get. run_st. rewrite Hi. by destruct (mn_forwarding n).
Qed.

(** What a node without the chunk answers on its own. *)
Lemma chunk_requests_not_found (n : MetaNode Network) id node :
  sv_index (mn_server n) !! id = None → chunks (sv_store (mn_server n)) !! id = None →
  (svc_get_chunk id n).1 = Err NotFoundCode ∧ (svc_delete_chunk id n).1 = Err NotFoundCode ∧
  (svc_add_chunk_replica id node n).1 = Err NotFoundCode.
Proof.
  intros Hi Hc. unfold svc_get_chunk, svc_delete_chunk, svc_add_chunk_replica.
  rewrite !route_chunk_unknown by done.
  unfold locked, on_server, zoom, get_chunk, delete_chunk, add_chunk_replica. run_st. rewrite !Hc.
  simpl. split_and!; [done..|]. destruct (decide _); [|done]. by rewrite Hc.
Qed.

(** ** Registration of storage nodes *)

(** A broadcast leaves the node's own server alone and serves the request to the peers. *)
Lemma broadcast_all_inv {A} (project : PeerResponse → option A) req n r (n' : MetaNode Network) :
  broadcast_all project req n = (r, n') →
  mn_server n' = mn_server n ∧ mn_forwarding n' = mn_forwarding n ∧
  ∀ (Q : ClusterServer → Prop) endpoint peer,
    (∀ s, Q s → Q (serve req s).2) → mn_world n !! endpoint = Some peer → Q peer →
    ∃ peer', mn_world n' !! endpoint = Some peer' ∧ Q peer'.
Proof.
  unfold broadcast_all, on_net, zoom. run_st.
  destruct (broadcast project req _ _) as [r1 [c1 w1]] eqn:Hb. intros [= _ <-].
  split_and!; [done|done|]. intros Q endpoint peer HQ Hw Hp. simpl.
  by eapply broadcast_inv.
Qed.

(** Connecting and calling keep what routing looks at. *)
Definition same_routing (c c' : ClusterManager) : Prop :=
  cm_ring c' = cm_ring c ∧ cm_node_id c' = cm_node_id c ∧ cm_peer_addrs c' = cm_peer_addrs c.

Lemma cache_client_routing addr client c : same_routing c (cache_client addr client c).
Proof. unfold cache_client. by destruct (node_at addr c). Qed.

Lemma get_peer_client_routing addr c (w : Network) :
  same_routing c (get_peer_client addr (c, w)).2.1.
Proof.
  unfold get_peer_client. destruct (cached_client addr c); [done|]. cbn.
  case_bool_decide; [apply cache_client_routing|done].
Qed.

Lemma call_peer_routing addr req c (w : Network) :
  same_routing c (call_peer addr req (c, w)).2.1.
Proof.
  pose proof (get_peer_client_routing addr c w) as Hg. unfold call_peer. run_st.
  destruct (get_peer_client addr (c, w)) as [[client|[]|] [c1 w1]]; [|done..].
  unfold rpc. cbn in *. destruct (w1 !! client) as [s|]; [|done]. by destruct (serve req s).
Qed.

Lemma broadcast_routing {A} (project : PeerResponse → option A) req addrs c (w : Network) :
  same_routing c (broadcast project req addrs (c, w)).2.1.
Proof.
  revert c w. induction addrs as [|a addrs IH]; intros c w; [done|].
  simpl. unfold expect. run_st. pose proof (call_peer_routing a req c w) as (H1 & H2 & H3).
  destruct (call_peer a req (c, w)) as [r [c1 w1]]. cbn in H1, H2, H3.
  pose proof (IH c1 w1) as (H4 & H5 & H6). revert H4 H5 H6.
  destruct r as [resp|e|]; [destruct (project resp)| |]; cbn; try done;
    (destruct (broadcast project req addrs (c1, w1)) as [[] [c2 w2]]; cbn;
     intros; split_and!; congruence).
Qed.

Lemma broadcast_all_serves {A} (project : PeerResponse → option A) req n r n' name :
  broadcast_all project req n = (r, n') → serves_itself n name → serves_itself n' name.
Proof.
  unfold broadcast_all, on_net, zoom. run_st.
  pose proof (broadcast_routing project req (get_all_peer_addrs (mn_cluster n)) (mn_cluster n)
    (mn_world n)) as (Hr & Hi & Ha).
  destruct (broadcast project req _ _) as [r1 [c1 w1]]. intros [= _ <-].
  unfold serves_itself, get_owner_addr. cbn in *. by rewrite Hr, Hi, Ha.
Qed.

(** Storage node [id] is not known to [c] and no draw to come gives it. *)
Definition never_gets (id : Z) (c : ClusterServer) : Prop :=
  storage_nodes (sv_store c) !! id = None ∧ id ∉ rng_draws (ms_rng (sv_store c)).

Lemma draw_unused_suffix {A} (m : gmap Z A) draws id rest :
  draw_unused m draws = Some (id, rest) → ∀ x, x ∈ rest → x ∈ draws.
Proof.
  induction draws as [|d draws IH]; simpl; [done|]. case_decide.
  - intros Hd x Hx. right. by apply (IH Hd).
  - intros [= -> ->] x Hx. by right.
Qed.

Lemma register_keeps_never id address c :
  never_gets id c → never_gets id (serve (BroadcastPutStorageNode address) c).2.
Proof.
  intros [Hn Hd]. cbn. unfold broadcast_put_storage_node, with_store, zoom, rethrow,
    construct_storage_node, generate_unique_id, meta_storage_node_new. run_st.
  destruct (draw_unused _ _) as [[i rest]|] eqn:Hdr; [|by destruct c].
  pose proof (draw_unused_spec _ _ _ _ Hdr) as [_ Hi].
  pose proof (draw_unused_suffix _ _ _ _ Hdr) as Hs.
  destruct (uri_ok address); simpl; split; simpl; [|naive_solver|done|naive_solver].
  rewrite lookup_insert_ne by (intros ->; done). done.
Qed.

Lemma unregister_keeps_nodes id nodes c :
  nodes !! id = None → storage_nodes (sv_store c) = nodes →
  storage_nodes (sv_store (serve (BroadcastDeleteStorageNode id) c).2) = nodes.
Proof.
  intros Hn <-. cbn. unfold broadcast_delete_storage_node, with_store, zoom, rethrow,
    delete_storage_node. run_st. by rewrite Hn.
Qed.

End routing.

(** ** Reading an object *)

Section reading.
Context `{MetaDeps} `{Xxh3}.

(** Every storage node of every chunk of [o] is registered. *)
Definition all_registered (s : MetadataStore) (o : MetaObject) : Prop :=
  Forall (λ id, ∀ c, chunks s !! id = Some c →
    Forall (λ x, is_Some (storage_nodes s !! x)) (mc_storage_nodes c)) (mo_chunks o).

Lemma nodes_or_internal_cases s ids :
  (Forall (λ x, is_Some (storage_nodes s !! x)) ids ∧
   nodes_or_internal s ids = Ok (known_nodes s ids)) ∨
  (¬ Forall (λ x, is_Some (storage_nodes s !! x)) ids ∧ nodes_or_internal s ids = Err Internal).
Proof.
  unfold nodes_or_internal, known_nodes. induction ids as [|x ids IH]; [by left|].
  simpl. destruct (storage_nodes s !! x) as [nd|] eqn:Hx; simpl.
  - destruct (mapM _ ids) eqn:Hm; simpl; destruct IH as [[Hall [= IH]]|[Hall IH]]; try done.
    + left. rewrite IH. split; [by constructor|done].
    + right. split; [|done]. by intros [_ ?]%list.Forall_cons.
  - right. split; [|done]. intros [[? Hs] _]%list.Forall_cons. congruence.
Qed.

Lemma response_chunks_cases s ids :
  (∀ id, id ∈ ids → is_Some (chunks s !! id)) →
  let reg := Forall (λ id, ∀ c, chunks s !! id = Some c →
    Forall (λ x, is_Some (storage_nodes s !! x)) (mc_storage_nodes c)) ids in
  (reg ∧ response_chunks s ids = Ok (chunk_info s <$> omap (λ id, chunks s !! id) ids)) ∨
  (¬ reg ∧ response_chunks s ids = Err Internal).
Proof.
  induction ids as [|id ids IH]; intros Hin reg; [by left; split; [constructor|]|].
  destruct (Hin id) as [c Hc]; [by left|]. simpl. rewrite Hc.
  destruct IH as [[Hr IH]|[Hr IH]]; [by intros; apply Hin; right|..].
  all: destruct (nodes_or_internal_cases s (mc_storage_nodes c)) as [[Hn ->]|[Hn ->]].
  - left. rewrite IH. split; [|done]. constructor; [|done]. intros c'. rewrite Hc. by intros [= <-].
  - right. split; [|done]. intros [Hf _]%list.Forall_cons. by apply Hn, Hf.
  - right. rewrite IH. split; [|done]. by intros [_ ?]%list.Forall_cons.
  - right. split; [|done]. intros [Hf _]%list.Forall_cons. by apply Hn, Hf.
Qed.

Lemma chunks_or_internal_listed s ids :
  (∀ id, id ∈ ids → is_Some (chunks s !! id)) →
  chunks_or_internal s ids = Ok (omap (λ id, chunks s !! id) ids).
Proof.
  unfold chunks_or_internal. induction ids as [|id ids IH]; intros Hin; [done|].
  destruct (Hin id) as [c Hc]; [by left|]. simpl. rewrite Hc. simpl.
  specialize (IH (λ i Hi, Hin i (list_elem_of_further _ _ _ Hi))).
  destruct (mapM _ ids); by simplify_eq/=.
Qed.

Lemma listed_chunks s k o :
  ms_wf s → objects s !! k = Some o → ∀ id, id ∈ mo_chunks o → is_Some (chunks s !! id).
Proof. intros Hwf Ho id Hi. destruct (mw_listed _ Hwf _ _ _ Ho Hi) as (c & -> & _). eauto. Qed.

Lemma store_new_fresh rng d s d' : store_new rng d = (Ok s, d') → storage_nodes s = ∅.
Proof.
  unfold store_new. destruct (dk_main d); [|by intros [= <- _]].
  match goal with |- context [match ?m with _ => _ end] => destruct m as [[[]| |] d1] end;
    [|done..].
  intros [= <- _]. by repeat case_match.
Qed.

(** Without storage nodes no chunk is allocated. *)
Lemma allocate_needs_nodes name s :
  storage_nodes s = ∅ → ∀ r s', allocate_chunk name s = (r, s') → ¬ is_ok r.
Proof.
  intros Hn r s'. unfold allocate_chunk. cbv [mbind ST_bind].
  destruct (generate_unique_id chunks s) as [r1 s1] eqn:Hg.
  apply generate_unique_id_spec in Hg as (rng & -> & _).
  destruct r1; [|by intros [= <- _]; intros []..].
  unfold choose_storage_node. simpl. rewrite Hn, map_to_list_empty. intros [= <- _]. by intros [].
Qed.

Lemma get_object_local (n : MetaNode Network) name (s := sv_store (mn_server n)) :
  serves_itself n name → ms_wf s →
  match objects s !! name with
  | None => (svc_get_object name n).1 = Err NotFoundCode
  | Some o =>
      (all_registered s o → (svc_get_object name n).1 =
        Ok (mkGetObjectResponse (mo_checksum o) (oi_chunks (object_info s o)))) ∧
      (¬ all_registered s o → (svc_get_object name n).1 = Err Internal)
  end ∧ mn_server (svc_get_object name n).2 = mn_server n.
Proof.
  intros Hs Hwf. unfold svc_get_object. rewrite route_object_here by done.
  unfold get_object_lookup, get_object_resolve, locked, on_server, zoom, get_object, count,
    current_store, lift_outcome. run_st. fold s.
  destruct (objects s !! name) as [o|] eqn:Ho; simpl; [|split; [done|by destruct n as [[]]]].
  unfold all_registered.
  destruct (response_chunks_cases s (mo_chunks o) (listed_chunks s name o Hwf Ho))
    as [[Hr ->]|[Hr ->]]; simpl; (split; [by split|by destruct n as [[]]]).
Qed.

(** ** The owner's own service and its service for peers

    Two handlers for each request, over the same operation of the store: what the owner does
    for a client, and for a peer that passes the request on. They leave the same state. *)

(** [svc] does on [n] for clients what [fwd] does there for peers; [told] is how the status
    differs. *)
Definition serves_as {A} (told : outcome Code A → outcome Code A) (svc : MN A) (fwd : CS A)
    (n : MetaNode Network) : Prop :=
  (fwd (mn_server n)).1 = told (svc n).1 ∧ (fwd (mn_server n)).2 = mn_server (svc n).2.

(** Peers are told [Internal] of a duplicate. *)
Definition hide_duplicate {A} (r : outcome Code A) : outcome Code A :=
  match r with Err AlreadyExistsCode => Err Internal | _ => r end.

Ltac unfold_service :=
  unfold serves_as, with_store, rethrow, locked, with_index, on_server, on_index, count,
    current_store, zoom; run_st.

Lemma put_serves_as n name checksum :
  serves_itself n name →
  serves_as hide_duplicate (svc_put_object name checksum) (forward_put_object name checksum) n.
Proof.
  intros Hs. unfold svc_put_object, forward_put_object, serves_as. rewrite route_object_here by done.
  unfold_service. by destruct (put_object _ _ _) as [[[]|[]|] s].
Qed.

Lemma delete_serves_as n name :
  serves_itself n name →
  serves_as id (svc_delete_object name) (forward_delete_object name) n.
Proof.
  intros Hs. unfold svc_delete_object, forward_delete_object, serves_as. rewrite route_object_here by done.
  unfold_service. by destruct (delete_object _ _) as [[[]|[]|] s].
Qed.

Lemma put_chunk_serves_as n name checksum :
  serves_itself n name →
  serves_as hide_duplicate (svc_put_chunk name checksum) (forward_put_chunk name checksum) n.
Proof.
  intros Hs. unfold svc_put_chunk, forward_put_chunk, serves_as. rewrite route_object_here by done.
  unfold_service. by destruct (put_chunk _ _ _) as [[[]|[]|] s].
Qed.

Lemma allocate_serves_as n name :
  serves_itself n name → name ≠ "" →
  serves_as id (svc_allocate_chunk name) (forward_allocate_chunk name) n.
Proof.
  intros Hs Hn. unfold svc_allocate_chunk, forward_allocate_chunk, serves_as.
  rewrite (proj2 (String.eqb_neq name "") Hn), route_object_here by done.
  unfold_service. by destruct (allocate_chunk _ _) as [[[[]]|[]|] s].
Qed.

Lemma confirm_serves_as n name id_ checksum node :
  serves_itself n name →
  serves_as id (svc_confirm_chunk id_ name checksum node) (forward_confirm_chunk id_ name checksum node) n.
Proof.
  intros Hs. unfold svc_confirm_chunk, forward_confirm_chunk, serves_as. rewrite route_object_here by done.
  unfold_service. by destruct (confirm_chunk _ _ _ _ _) as [[[]|[]|] s].
Qed.

Lemma get_serves_as n name (s := sv_store (mn_server n)) :
  serves_itself n name → ms_wf s → (∀ o, objects s !! name = Some o → all_registered s o) →
  serves_as id (svc_get_object name) (forward_get_object name) n.
Proof.
  intros Hs Hwf Hreg. destruct (get_object_local n name Hs Hwf) as [Hg Hsrv]. fold s in Hg.
  unfold serves_as. rewrite Hsrv. unfold forward_get_object, with_store, zoom, rethrow, get_object,
    lift_outcome. run_st. fold s. destruct (objects s !! name) as [o|] eqn:Ho; cbn.
  - rewrite (proj1 Hg (Hreg o eq_refl)). cbn. fold s.
    rewrite (chunks_or_internal_listed _ _ (listed_chunks _ name o Hwf Ho)). cbn.
    by destruct n as [[]].
  - rewrite Hg. by destruct n as [[]].
Qed.

(** A request that [n] passes on is answered as [owner] answers it to its own clients, and
    leaves the state that it leaves there. *)
Definition answered_as {A} (told : outcome Code A → outcome Code A) (svc : MN A)
    (n owner : MetaNode Network) (endpoint : string) : Prop :=
  ∃ n', svc n = (told (svc owner).1, n') ∧ passed_on n n' endpoint (mn_server (svc owner).2).

Lemma passed_on_answered {A} told (svc : MN A) fwd n owner endpoint :
  (∃ n', svc n = ((fwd (mn_server owner)).1, n') ∧ passed_on n n' endpoint (fwd (mn_server owner)).2) →
  serves_as told svc fwd owner → answered_as told svc n owner endpoint.
Proof. intros (n' & Hr & Hp) [H1' H2']. exists n'. by rewrite <- H1', <- H2'. Qed.

(** A read served here leaves the node serving the object. *)
Lemma svc_get_object_serves (n : MetaNode Network) name r n' :
  svc_get_object name n = (r, n') → serves_itself n name → serves_itself n' name.
Proof.
  intros Hr Hs. revert Hr. unfold svc_get_object. rewrite route_object_here by done.
  unfold get_object_lookup, get_object_resolve, locked, on_server, zoom, get_object, count,
    current_store, lift_outcome. run_st.
  destruct (objects _ !! name) as [o|]; simpl; [|by intros [= _ <-]].
  destruct (response_chunks _ _); by intros [= _ <-].
Qed.

(** A deletion served here leaves neither the object nor its chunks. *)
Lemma deleted_state (n : MetaNode Network) name o (s := sv_store (mn_server n))
    (n' := (svc_delete_object name n).2) :
  serves_itself n name → ms_wf s → objects s !! name = Some o →
  objects (sv_store (mn_server n')) !! name = None ∧
  (∀ id, id ∈ mo_chunks o → chunks (sv_store (mn_server n')) !! id = None) ∧
  serves_itself n' name.
Proof.
  intros Hs Hwf Ho. unfold n', svc_delete_object. rewrite route_object_here by done.
  unfold locked, on_server, zoom, with_index, count, current_store. run_st. fold s.
  rewrite (delete_object_run name s o Ho). unfold remove_object_of. rewrite Ho.
  set (sx := set_chunks _ _). destruct (save_spec sx) as (r1 & d & -> & _).
  assert (objects sx !! name = None) as Hox by apply lookup_delete_eq.
  assert (∀ id, id ∈ mo_chunks o → chunks sx !! id = None) as Hcx.
  { intros id Hi. unfold sx. simpl. by rewrite lookup_delete_all, decide_True. }
  by destruct r1.
Qed.

End reading.
