(* ===== verification/PublicService.v ===== *)
(** * PublicService: the public requests of a metadata node, as data

    storage-metadata/src/main.rs: the dispatch of the public service, which node a request
    ends up on, and what each request does: exactly what the request between peers does,
    on the node that serves it. *)

From S2P Require Import Prelude.
From S2P Require Import Grpc.
From S2P Require Import HashRing.
From S2P Require Import MetadataStore.
From S2P Require Import ChunkIndex.
From S2P Require Import ClusterService.
From S2P Require Import Cluster.
From S2P Require Import Forwarding.
From S2P Require Import MetadataService.
From S2P Require Import Network.
From S2P Require Import RoutingFacts.
Open Scope string_scope.
Open Scope list_scope.
Open Scope Z_scope.

(** The requests of the public service (storage_metadata.proto). *)
Inductive MetaRequest :=
  | PutObject (name : string) (checksum : Z)
  | PutChunk (object_name : string) (checksum : Z)
  | GetObject (object_name : string)
  | GetChunk (chunk_id : Z)
  | DeleteObject (object_name : string)
  | DeleteChunk (chunk_id : Z)
  | PutStorageNode (address : string)
  | ListObjects
  | GetStorageNode (id : Z)
  | ListStorageNodes
  | DeleteStorageNode (id : Z)
  | ListUnderReplicatedChunks (max_replicas : Z)
  | AddChunkReplica (chunk_id storage_node_id : Z)
  | AllocateChunk (object_name : string)
  | ConfirmChunk (chunk_id : Z) (object_name : string) (checksum storage_node_id : Z)
  | UpdateObjectChecksum (object_name : string) (checksum total_size : Z).

(** The answers: those that peers give too, an address, a list of storage nodes. *)
Inductive MetaResponse :=
  | Plain (r : PeerResponse)
  | RespAddress (address : string)
  | RespStorageNodes (l : list MetaStorageNode).

Section handle.
Context `{MetaDeps} `{Xxh3} {W : Type} `{Peers W}.

Definition answer_with {A} (f : A → MetaResponse) (m : @MN W A) : @MN W MetaResponse :=
  a ← m; mret (f a).

(** The dispatch of the generated server. *)
Definition handle (req : MetaRequest) : @MN W MetaResponse :=
  let plain {A} (f : A → PeerResponse) := answer_with (λ a, Plain (f a)) in
  match req with
  | PutObject name checksum => plain (λ _, RespUnit) (svc_put_object name checksum)
  | PutChunk name checksum => plain (λ p, RespPutChunk p.1 p.2) (svc_put_chunk name checksum)
  | GetObject name => plain RespObject (svc_get_object name)
  | GetChunk id => plain RespChunk (svc_get_chunk id)
  | DeleteObject name => plain (λ _, RespUnit) (svc_delete_object name)
  | DeleteChunk id => plain (λ _, RespUnit) (svc_delete_chunk id)
  | PutStorageNode address => plain RespStorageNode (svc_put_storage_node address)
  | ListObjects => plain RespObjects svc_list_objects
  | GetStorageNode id => answer_with RespAddress (svc_get_storage_node id)
  | ListStorageNodes => answer_with RespStorageNodes svc_list_storage_nodes
  | DeleteStorageNode id => plain (λ _, RespUnit) (svc_delete_storage_node id)
  | ListUnderReplicatedChunks max =>
      plain RespUnderReplicated (svc_list_under_replicated_chunks max)
  | AddChunkReplica id node => plain (λ _, RespUnit) (svc_add_chunk_replica id node)
  | AllocateChunk name => plain RespAllocate (svc_allocate_chunk name)
  | ConfirmChunk id name checksum node =>
      plain (λ _, RespUnit) (svc_confirm_chunk id name checksum node)
  | UpdateObjectChecksum name checksum size =>
      plain (λ _, RespUnit) (svc_update_object_checksum name checksum size)
  end.

(** ** Where a request goes *)

(** The object whose owner is asked, as far as the node can tell. *)
Definition routed_by (req : MetaRequest) (n : MetaNode W) : option string :=
  match req with
  | PutObject name _ | PutChunk name _ | GetObject name | DeleteObject name
  | ConfirmChunk _ name _ _ => Some name
  | AllocateChunk name => if String.eqb name "" then None else Some name
  | GetChunk id | DeleteChunk id | AddChunkReplica id _ => sv_index (mn_server n) !! id
  | _ => None
  end.

(** The address it is passed on to, if it is not served here. *)
Definition destination (req : MetaRequest) (n : MetaNode W) : option string :=
  if mn_forwarding n then name ← routed_by req n; get_owner_addr name (mn_cluster n) else None.

(** The request between peers that does the same. *)
Definition peer_request (req : MetaRequest) : option PeerRequest :=
  match req with
  | PutObject name checksum => Some (ForwardPutObject name checksum)
  | PutChunk name checksum => Some (ForwardPutChunk name checksum)
  | GetObject name => Some (ForwardGetObject name)
  | GetChunk id => Some (ForwardGetChunk id)
  | DeleteObject name => Some (ForwardDeleteObject name)
  | DeleteChunk id => Some (ForwardDeleteChunk id)
  | PutStorageNode address => Some (BroadcastPutStorageNode address)
  | ListObjects => Some ListLocalObjects
  | GetStorageNode _ | ListStorageNodes => None
  | DeleteStorageNode id => Some (BroadcastDeleteStorageNode id)
  | ListUnderReplicatedChunks max => Some (ListLocalUnderReplicatedChunks (wanted_replicas max))
  | AddChunkReplica id node => Some (ForwardAddChunkReplica id node)
  | AllocateChunk name => Some (ForwardAllocateChunk name)
  | ConfirmChunk id name checksum node => Some (ForwardConfirmChunk id name checksum node)
  | UpdateObjectChecksum _ _ _ => None
  end.

(** The request that every peer is sent. *)
Definition broadcast_request (req : MetaRequest) : option PeerRequest :=
  match req with
  | PutStorageNode _ | ListObjects | DeleteStorageNode _ | ListUnderReplicatedChunks _ =>
      peer_request req
  | _ => None
  end.

(** What a request does to the store and the index of the node that serves it. *)
Definition own_effect (req : MetaRequest) (c : ClusterServer) : ClusterServer :=
  match req with
  | UpdateObjectChecksum name checksum size =>
      set_sv_store (update_object_checksum name checksum size (sv_store c)).2 c
  | _ => match peer_request req with Some p => (serve p c).2 | None => c end
  end.

End handle.
