(* ===== verification/PublicFacts.v ===== *)
(** * PublicFacts: what a public request does, to whom

    Every public request either is passed on to one node, which serves it, or is served
    here, with the effect of the request between peers, and some are broadcast. *)

From S2P Require Import Prelude.
From S2P Require Import Grpc.
From S2P Require Import HashRing.
From S2P Require Import MetadataStore.
From S2P Require Import ChunkIndex.
From S2P Require Import ClusterService.
From S2P Require Import Cluster.
From S2P Require Import Forwarding.
From S2P Require Import MetadataService.
From S2P Require Import Network.
From S2P Require Import RoutingFacts.
From S2P Require Import PublicService.
Open Scope string_scope.
Open Scope list_scope.
Open Scope Z_scope.

Section served.
Context `{MetaDeps} `{Xxh3}.

(** What serving a request makes of a node. *)
Definition served_by (p : PeerRequest) (c : ClusterServer) : ClusterServer := (serve p c).2.

Lemma alter_none {A} (f : A → A) (w : gmap string A) e : w !! e = None → alter f e w = w.
Proof.
  intros He. apply map_eq. intros x. destruct (decide (e = x)) as [<-|Hne].
  - by rewrite lookup_alter_eq, He.
  - by rewrite lookup_alter_ne.
Qed.

End served.

(** Runs a local handler next to the request between peers, on the result of the store's
    operation. *)
Ltac run_here op :=
  let n := fresh "n" in intros n ? ?;
  unfold locked, current_store, on_server, with_index, on_server, on_index, zoom, count, served_by;
  cbn [serve];
  unfold forward_put_object, forward_put_chunk, forward_get_object, forward_get_chunk,
    forward_delete_object, forward_delete_chunk, forward_add_chunk_replica,
    forward_allocate_chunk, forward_confirm_chunk, broadcast_put_storage_node,
    broadcast_delete_storage_node, on_index, with_store, zoom, rethrow, lift_outcome;
  run_st;
  destruct (op (sv_store (mn_server n))) as [[?a|?e|] ?s]; cbn.

Section calls.
Context `{MetaDeps} `{Xxh3}.

(** Every node has served the request, any number of times. *)
Definition all_served (p : PeerRequest) (w w' : Network) : Prop :=
  ∀ e, ∃ k, w' !! e = Nat.iter k (served_by p) <$> w !! e.

#[export] Instance all_served_refl p : Reflexive (all_served p).
Proof. intros w e. exists O. by destruct (w !! e). Qed.
#[export] Instance all_served_trans p : Transitive (all_served p).
Proof.
  intros a b c Hab Hbc e. destruct (Hab e) as [k Hk], (Hbc e) as [j Hj]. exists (j + k)%nat.
  rewrite Hj, Hk. destruct (a !! e) as [x|]; [|done]. simpl. by rewrite Nat.iter_add.
Qed.

Lemma all_served_alter p endpoint w : all_served p w (alter (served_by p) endpoint w).
Proof.
  intros e. destruct (decide (endpoint = e)) as [->|Hne].
  - exists 1%nat. by rewrite lookup_alter_eq.
  - exists O. rewrite lookup_alter_ne by done. by destruct (w !! e).
Qed.

(** A cached connection leads to the address that its node has now. *)
Definition clients_right (c : ClusterManager) : Prop :=
  ∀ nid client addr, cm_peers c !! nid = Some client → cm_peer_addrs c !! nid = Some addr →
    client = endpoint_of addr.

Lemma cache_client_right addr c :
  clients_right c → clients_right (cache_client addr (endpoint_of addr) c).
Proof.
  intros Hc. unfold cache_client. destruct (node_at addr c) as [nid|] eqn:Hn; [|done].
  unfold node_at in Hn. apply head_omap_Some in Hn as ([n3 a3] & Hin%elem_of_map_to_list & Hf).
  case_decide; [subst a3|done]. injection Hf as ->.
  intros n2 cl a2. simpl. intros [[<- <-]|[Hne Hp]]%lookup_insert_Some Ha.
  - rewrite Hin in Ha. by injection Ha as <-.
  - by apply (Hc n2).
Qed.

Lemma leads_to_right addr endpoint c :
  clients_right c → leads_to addr endpoint c → endpoint = endpoint_of addr.
Proof.
  intros Hc. unfold leads_to. destruct (cached_client addr c) as [client|] eqn:Hcl; [|done].
  intros ->. unfold cached_client in Hcl.
  apply head_omap_Some in Hcl as ([nid a] & Hin%elem_of_map_to_list & Hf).
  case_decide; [subst a|done]. by apply (Hc nid).
Qed.

(** What a connection leaves: the same world, and right connections. *)
Lemma get_peer_client_changes addr r c c' (w w' : Network) :
  get_peer_client addr (c, w) = (r, (c', w')) →
  w' = w ∧ (clients_right c → clients_right c') ∧
  match r with
  | Ok client => leads_to addr client c
  | _ => leads_to addr (endpoint_of addr) c ∧ w !! endpoint_of addr = None
  end.
Proof.
  unfold get_peer_client, leads_to. destruct (cached_client addr c) as [client|] eqn:Hc.
  - by intros [= <- <- <-].
  - cbn. case_bool_decide as Hw; intros [= <- <- <-].
    + split_and!; [done|apply cache_client_right|done].
    + by rewrite eq_None_not_Some.
Qed.

(** A call changes at most the node it is connected to, which serves it. *)
Lemma call_peer_changes addr p r c w c' (w' : Network) :
  call_peer addr p (c, w) = (r, (c', w')) →
  (clients_right c → clients_right c') ∧
  ∃ endpoint, leads_to addr endpoint c ∧ w' = alter (served_by p) endpoint w.
Proof.
  unfold call_peer. run_st. destruct (get_peer_client addr (c, w)) as [r1 [c1 w1]] eqn:Hg.
  apply get_peer_client_changes in Hg as (-> & Hc & Hl).
  destruct r1 as [client|[]|].
  - unfold rpc. cbn. destruct (w !! client) as [s|] eqn:Hw.
    + destruct (serve p s) as [r2 s2] eqn:Hs. intros [= <- <- <-]. split; [done|].
      exists client. split; [done|]. apply map_eq. intros e.
      destruct (decide (client = e)) as [<-|Hne].
      * rewrite lookup_insert_eq, lookup_alter_eq, Hw. unfold served_by. simpl. by rewrite Hs.
      * by rewrite lookup_insert_ne, lookup_alter_ne.
    + intros [= <- <- <-]. split; [done|]. exists client. split; [done|].
      by rewrite alter_none.
  - destruct Hl as [Hl Hw]. intros [= <- <- <-]. split; [done|]. exists (endpoint_of addr).
    split; [done|]. by rewrite alter_none.
  - destruct Hl as [Hl Hw]. intros [= <- <- <-]. split; [done|]. exists (endpoint_of addr).
    split; [done|]. by rewrite alter_none.
Qed.

Lemma call_peer_served addr p r c w c' (w' : Network) :
  call_peer addr p (c, w) = (r, (c', w')) →
  (clients_right c → clients_right c') ∧ all_served p w w'.
Proof.
  intros (Hc & endpoint & _ & ->)%call_peer_changes. split; [done|]. apply all_served_alter.
Qed.

Lemma broadcast_served {A} (project : PeerResponse → option A) p addrs r c w c' (w' : Network) :
  broadcast project p addrs (c, w) = (r, (c', w')) →
  (clients_right c → clients_right c') ∧ all_served p w w'.
Proof.
  revert r c w c' w'. induction addrs as [|a addrs IH]; intros r c w c' w'; simpl.
  { run_st. by intros [= _ <- <-]. }
  unfold expect. run_st. destruct (call_peer a p (c, w)) as [r1 [c1 w1]] eqn:Hc.
  apply call_peer_served in Hc as [Hc1 Hs1].
  destruct (broadcast project p addrs (c1, w1)) as [r2 [c2 w2]] eqn:Hb.
  pose proof (IH _ _ _ _ _ Hb) as [Hc2 Hs2]. assert (all_served p w w2) by by trans w1.
  intros Hr. assert ((c' = c1 ∧ w' = w1) ∨ (c' = c2 ∧ w' = w2)) as [[-> ->]|[-> ->]]; [|by auto..].
  revert Hr. destruct r1 as [resp|e|]; [destruct (project resp)| |]; simpl; rewrite ?Hb; try destruct r2; simpl;
    intros [= _ <- <-]; auto.
Qed.

Lemma gather_served {A} (project : PeerResponse → option (list A)) p addrs r c w c' (w' : Network) :
  gather project p addrs (c, w) = (r, (c', w')) →
  (clients_right c → clients_right c') ∧ all_served p w w' ∧ same_routing c c'.
Proof.
  revert r c w c' w'. induction addrs as [|a addrs IH]; intros r c w c' w'; simpl.
  { run_st. by intros [= _ <- <-]. }
  run_st. pose proof (get_peer_client_routing a c w) as Hg.
  destruct (get_peer_client a (c, w)) as [r1 [c1 w1]] eqn:Hgc. simpl in Hg.
  apply get_peer_client_changes in Hgc as (-> & Hc1 & Hl).
  destruct r1 as [client|[]|]; [|by intros [= _ <- <-]..].
  unfold expect, rpc. run_st. cbn.
  assert (∃ r2 w2, (match w !! client with
    | Some c0 => let '(r0, c2) := serve p c0 in (r0, <[client:=c2]> w)
    | None => (Err Unavailable, w) end) = (r2, w2) ∧ all_served p w w2) as (r2 & w2 & -> & Hs2).
  { destruct (w !! client) as [s|] eqn:Hw; [|by eexists _, _].
    destruct (serve p s) as [r0 s'] eqn:Hs. eexists _, _. split; [done|].
    intros e. destruct (decide (client = e)) as [<-|Hne].
    - exists 1%nat. rewrite lookup_insert_eq, Hw. unfold served_by. simpl. by rewrite Hs.
    - exists O. rewrite lookup_insert_ne by done. by destruct (w !! e). }
  destruct (gather project p addrs (c1, w2)) as [r3 [c3 w3]] eqn:Hb.
  pose proof (IH _ _ _ _ _ Hb) as (Hc3 & Hs3 & Hr3). assert (all_served p w w3) by by trans w2.
  assert (same_routing c c3) by (destruct Hg as (? & ? & ?), Hr3 as (? & ? & ?); split_and!; congruence).
  intros Hr. assert ((c' = c1 ∧ w' = w2) ∨ (c' = c3 ∧ w' = w3)) as [[-> ->]|[-> ->]]; [|by auto..].
  revert Hr. destruct r2 as [resp|e|]; [destruct (project resp)| |]; simpl; rewrite ?Hb;
    try (destruct r3; simpl); intros [= _ <- <-]; auto.
Qed.

End calls.

(** ** Requests *)

Section requests.
Context `{MetaDeps} `{Xxh3}.

(** What no request changes: the membership, and the connections' being right. *)
Definition same_membership (n n' : MetaNode Network) : Prop :=
  mn_forwarding n' = mn_forwarding n ∧ same_routing (mn_cluster n) (mn_cluster n') ∧
  (clients_right (mn_cluster n) → clients_right (mn_cluster n')).

(** A local handler: it changes the node's own server only, as [f] says. *)
Definition local_effect {A} (f : ClusterServer → ClusterServer) (here : @MN Network A) : Prop :=
  ∀ n r n', here n = (r, n') →
    mn_forwarding n' = mn_forwarding n ∧ mn_cluster n' = mn_cluster n ∧
    mn_world n' = mn_world n ∧ mn_server n' = f (mn_server n).

(** A routed request: served by the node that the owner's address leads to, or here. *)
Definition routed_effect (req : MetaRequest) (p : PeerRequest) (n n' : MetaNode Network) : Prop :=
  same_membership n n' ∧
  match destination req n with
  | Some addr => mn_server n' = mn_server n ∧
      ∃ endpoint, leads_to addr endpoint (mn_cluster n) ∧
        mn_world n' = alter (served_by p) endpoint (mn_world n)
  | None => mn_server n' = served_by p (mn_server n) ∧ mn_world n' = mn_world n
  end.

Lemma answer_with_run {A} (f : A → MetaResponse) (m : @MN Network A) n r n' :
  answer_with f m n = (r, n') → ∃ r1, m n = (r1, n').
Proof.
  unfold answer_with. run_st. destruct (m n) as [r1 n1].
  intros Hr. exists r1. f_equal. by destruct r1; injection Hr.
Qed.

Lemma on_net_effect {A} (project : PeerResponse → option A) addr p n r n' :
  on_net (expect project (call_peer addr p)) n = (r, n') →
  same_membership n n' ∧ mn_server n' = mn_server n ∧
  ∃ endpoint, leads_to addr endpoint (mn_cluster n) ∧
    mn_world n' = alter (served_by p) endpoint (mn_world n).
Proof.
  unfold on_net, zoom, expect. run_st.
  pose proof (call_peer_routing addr p (mn_cluster n) (mn_world n)) as Hr.
  destruct (call_peer addr p (mn_cluster n, mn_world n)) as [r1 [c1 w1]] eqn:Hc.
  apply call_peer_changes in Hc as (Hcl & endpoint & Hl & Hw).
  assert (∀ r2, (r2, set_net (c1, w1) n) = (r, n') →
    same_membership n n' ∧ mn_server n' = mn_server n ∧
    ∃ endpoint, leads_to addr endpoint (mn_cluster n) ∧
      mn_world n' = alter (served_by p) endpoint (mn_world n)) as Hdone.
  { intros r2 [= _ <-]. split_and!; [done|done|by exists endpoint]. }
  destruct r1 as [resp|e|]; [destruct (project resp)|..]; apply Hdone.
Qed.

Lemma route_object_effect {A} req p name project (fwd : string → MN A) here n r n' :
  (∀ addr, fwd addr = on_net (expect project (call_peer addr p))) →
  local_effect (served_by p) here → routed_by req n = Some name →
  route_object name fwd here n = (r, n') → routed_effect req p n n'.
Proof.
  intros Hf Hh Hreq. unfold routed_effect, destination. rewrite Hreq. simpl.
  unfold route_object, route_by_object, fl_route_by_object. run_st.
  assert (∀ m : MetaNode Network, here n = (r, m) →
    same_membership n m ∧ mn_server m = served_by p (mn_server n) ∧ mn_world m = mn_world n) as Hhere.
  { intros m Hm. destruct (Hh _ _ _ Hm) as (? & Hc & ? & ?).
    unfold same_membership, same_routing. by rewrite Hc. }
  destruct (mn_forwarding n) eqn:Hfw; [|apply Hhere].
  destruct (get_owner_addr name (mn_cluster n)) as [addr|]; [|apply Hhere].
  rewrite Hf. apply on_net_effect.
Qed.

Lemma route_chunk_effect {A} req p id project (fwd : string → MN A) here n r n' :
  (∀ addr, fwd addr = on_net (expect project (call_peer addr p))) →
  local_effect (served_by p) here → routed_by req n = sv_index (mn_server n) !! id →
  route_chunk id fwd here n = (r, n') → routed_effect req p n n'.
Proof.
  intros Hf Hh Hreq. destruct (sv_index (mn_server n) !! id) as [name|] eqn:Hi.
  - rewrite (route_chunk_known _ _ _ _ _ Hi). by apply route_object_effect with project.
  - rewrite (route_chunk_unknown _ _ _ _ Hi). unfold routed_effect, destination. rewrite Hreq.
    intros Hr. apply Hh in Hr as (Hfw & Hc & Hw & Hs).
    unfold same_membership, same_routing. rewrite Hc. by destruct (mn_forwarding n).
Qed.

Lemma put_object_effect name checksum n r n' :
  svc_put_object name checksum n = (r, n') →
  routed_effect (PutObject name checksum) (ForwardPutObject name checksum) n n'.
Proof.
  apply route_object_effect with resp_unit; [done| |done].
  run_here (put_object checksum name); by intros [= _ <-].
Qed.

Lemma put_chunk_effect name checksum n r n' :
  svc_put_chunk name checksum n = (r, n') →
  routed_effect (PutChunk name checksum) (ForwardPutChunk name checksum) n n'.
Proof.
  apply route_object_effect with resp_put_chunk; [done| |done].
  run_here (put_chunk name checksum); [destruct a|..]; by intros [= _ <-].
Qed.

Lemma get_object_effect name n r n' :
  svc_get_object name n = (r, n') →
  routed_effect (GetObject name) (ForwardGetObject name) n n'.
Proof.
  apply route_object_effect with resp_object; [done| |done].
  unfold get_object_lookup, get_object_resolve. run_here (get_object name).
  - destruct (response_chunks _ _); intros [= _ <-]; destruct (chunks_or_internal _ _); done.
  - by intros [= _ <-].
  - by intros [= _ <-].
Qed.

Lemma delete_object_effect name n r n' :
  svc_delete_object name n = (r, n') →
  routed_effect (DeleteObject name) (ForwardDeleteObject name) n n'.
Proof.
  apply route_object_effect with resp_unit; [done| |done].
  run_here (delete_object name); by intros [= _ <-].
Qed.

Lemma allocate_chunk_effect name n r n' :
  svc_allocate_chunk name n = (r, n') →
  routed_effect (AllocateChunk name) (ForwardAllocateChunk name) n n'.
Proof.
  unfold svc_allocate_chunk.
  assert (local_effect (served_by (ForwardAllocateChunk name)) (
    r ← locked (W := Network) (allocate_chunk name);
    match r with
    | inr (chunk_id, storage_node_id, storage_node_address) =>
        _ ← count (inc_rpc "allocate_chunk" "ok");
        mret (mkAllocateChunkResponse chunk_id storage_node_address storage_node_id)
    | inl _ => _ ← count (inc_rpc "allocate_chunk" "error"); throw Unavailable
    end)) as Hh.
  { run_here (allocate_chunk name); [destruct a as [[]]|..]; by intros [= _ <-]. }
  destruct (String.eqb name "") eqn:Hn.
  - intros (Hfw & Hc & Hw & Hs)%Hh. unfold routed_effect, destination, same_membership, same_routing.
    simpl. rewrite Hn, Hc. by destruct (mn_forwarding n).
  - apply route_object_effect with resp_allocate; [done|exact Hh|]. simpl. by rewrite Hn.
Qed.

Lemma confirm_chunk_effect id name checksum node n r n' :
  svc_confirm_chunk id name checksum node n = (r, n') →
  routed_effect (ConfirmChunk id name checksum node) (ForwardConfirmChunk id name checksum node) n n'.
Proof.
  apply route_object_effect with resp_unit; [done| |done].
  run_here (confirm_chunk id name checksum node); by intros [= _ <-].
Qed.

Lemma get_chunk_effect id n r n' :
  svc_get_chunk id n = (r, n') → routed_effect (GetChunk id) (ForwardGetChunk id) n n'.
Proof.
  apply route_chunk_effect with resp_chunk; [done| |done].
  run_here (get_chunk id); [destruct a; simpl; destruct (nodes_or_internal _ _)|..];
    by intros [= _ <-].
Qed.

Lemma delete_chunk_effect id n r n' :
  svc_delete_chunk id n = (r, n') → routed_effect (DeleteChunk id) (ForwardDeleteChunk id) n n'.
Proof.
  apply route_chunk_effect with resp_unit; [done| |done].
  run_here (delete_chunk id); by intros [= _ <-].
Qed.

Lemma add_chunk_replica_effect id node n r n' :
  svc_add_chunk_replica id node n = (r, n') →
  routed_effect (AddChunkReplica id node) (ForwardAddChunkReplica id node) n n'.
Proof.
  apply route_chunk_effect with resp_unit; [done| |done].
  run_here (add_chunk_replica id node); by intros [= _ <-].
Qed.

(** ** Broadcasts and gathering *)

(** [n'] is [n] after [f] on its server, with the peers asked [p] any number of times. *)
Definition broadcast_effect (p : PeerRequest) (f : ClusterServer → ClusterServer)
    (n n' : MetaNode Network) : Prop :=
  same_membership n n' ∧ mn_server n' = f (mn_server n) ∧ all_served p (mn_world n) (mn_world n').

Lemma broadcast_all_effect {A} (project : PeerResponse → option A) p n r n' :
  broadcast_all project p n = (r, n') → broadcast_effect p id n n'.
Proof.
  unfold broadcast_all, on_net, zoom. run_st.
  pose proof (broadcast_routing project p (get_all_peer_addrs (mn_cluster n)) (mn_cluster n)
    (mn_world n)) as Hr.
  destruct (broadcast project p _ _) as [r1 [c1 w1]] eqn:Hb. intros [= _ <-].
  apply broadcast_served in Hb as [Hc Hs]. by split_and!.
Qed.

Lemma gather_all_effect {A} (project : PeerResponse → option (list A)) p n r n' :
  gather_all project p n = (r, n') → broadcast_effect p id n n'.
Proof.
  unfold gather_all, on_net, zoom. run_st.
  destruct (gather project p _ _) as [r1 [c1 w1]] eqn:Hb. intros [= _ <-].
  apply gather_served in Hb as (Hc & Hs & Hr). by split_and!.
Qed.

Lemma put_storage_node_effect address n r n' :
  svc_put_storage_node address n = (r, n') →
  broadcast_effect (BroadcastPutStorageNode address)
    (served_by (BroadcastPutStorageNode address)) n n'.
Proof.
  unfold svc_put_storage_node, locked, on_server, zoom, count. run_st.
  unfold served_by. cbn [serve]. unfold broadcast_put_storage_node, with_store, zoom, rethrow.
  destruct (construct_storage_node address (sv_store (mn_server n))) as [[id|e|] s] eqn:Hop; cbn.
  2, 3: intros [= _ <-]; unfold broadcast_effect; run_st; rewrite Hop; by split_and!.
  destruct (mn_forwarding n) eqn:Hf.
  - destruct (fl_broadcast_put_storage_node address _) as [r1 n1] eqn:Hb.
    apply broadcast_all_effect in Hb as ((Hm1 & Hm2 & Hm3) & Hs & Hw). cbn in *.
    intros Hr. assert (mn_forwarding n' = mn_forwarding n1 ∧ mn_cluster n' = mn_cluster n1 ∧
      mn_server n' = mn_server n1 ∧ mn_world n' = mn_world n1) as (H1 & H2 & H3 & H4).
    { by destruct r1; injection Hr as _ <-. }
    unfold broadcast_effect, same_membership. run_st. rewrite H1, H2, H3, H4, Hs, Hop.
    split_and!; [congruence|done|done|done|done].
  - intros [= _ <-]. unfold broadcast_effect. run_st. rewrite Hop. by split_and!.
Qed.

Lemma delete_storage_node_effect id n r n' :
  svc_delete_storage_node id n = (r, n') →
  broadcast_effect (BroadcastDeleteStorageNode id)
    (served_by (BroadcastDeleteStorageNode id)) n n'.
Proof.
  unfold svc_delete_storage_node, locked, on_server, zoom. run_st.
  unfold served_by. cbn [serve]. unfold broadcast_delete_storage_node, with_store, zoom, rethrow.
  destruct (delete_storage_node id (sv_store (mn_server n))) as [[[]|e|] s] eqn:Hop; cbn.
  2, 3: intros [= _ <-]; unfold broadcast_effect; run_st; rewrite Hop; by split_and!.
  destruct (mn_forwarding n) eqn:Hf.
  - destruct (fl_broadcast_delete_storage_node id _) as [r1 n1] eqn:Hb.
    apply broadcast_all_effect in Hb as ((Hm1 & Hm2 & Hm3) & Hs & Hw). cbn in *.
    intros Hr. assert (n' = n1) as -> by (by destruct r1; injection Hr as _ <-).
    unfold broadcast_effect, same_membership. run_st. rewrite Hs, Hop.
    split_and!; [congruence|done|done|done|done].
  - intros [= _ <-]. unfold broadcast_effect. run_st. rewrite Hop. by split_and!.
Qed.

Lemma list_objects_effect n r n' :
  svc_list_objects n = (r, n') → broadcast_effect ListLocalObjects id n n'.
Proof.
  unfold svc_list_objects, current_store. run_st. destruct (mn_forwarding n) eqn:Hf.
  - destruct (scatter_gather_list_objects n) as [r1 n1] eqn:Hb. apply gather_all_effect in Hb.
    intros Hr. by assert (n' = n1) as -> by (by destruct r1; injection Hr as _ <-).
  - by intros [= _ <-].
Qed.

Lemma under_replicated_effect max n r n' :
  svc_list_under_replicated_chunks max n = (r, n') →
  broadcast_effect (ListLocalUnderReplicatedChunks (wanted_replicas max)) id n n'.
Proof.
  unfold svc_list_under_replicated_chunks, current_store, count. run_st.
  destruct (mn_forwarding n) eqn:Hf; [|by intros [= _ <-]].
  destruct (scatter_gather_under_replicated_chunks _ n) as [r1 n1] eqn:Hb.
  apply gather_all_effect in Hb as ((Hm1 & Hm2 & Hm3) & Hs & Hw). intros Hr.
  assert (mn_forwarding n' = mn_forwarding n1 ∧ mn_cluster n' = mn_cluster n1 ∧
    mn_server n' = mn_server n1 ∧ mn_world n' = mn_world n1) as (H1 & H2 & H3 & H4).
  { by destruct r1; injection Hr as _ <-. }
  unfold broadcast_effect, same_membership. rewrite H1, H2, H3, H4.
  by split_and!.
Qed.

(** ** Any request *)

(** Whatever the request: the membership stays; passed on, it is served by one node and
    changes no other; not passed on, it has its effect here, and at most the same request
    is served by others. *)
Definition request_effect (req : MetaRequest) (n n' : MetaNode Network) : Prop :=
  same_membership n n' ∧
  match destination req n with
  | Some addr => mn_server n' = mn_server n ∧
      ∃ p endpoint, peer_request req = Some p ∧ leads_to addr endpoint (mn_cluster n) ∧
        mn_world n' = alter (served_by p) endpoint (mn_world n)
  | None => mn_server n' = own_effect req (mn_server n) ∧
      match broadcast_request req with
      | Some p => all_served p (mn_world n) (mn_world n')
      | None => mn_world n' = mn_world n
      end
  end.

Lemma routed_request_effect req p n n' :
  peer_request req = Some p → broadcast_request req = None →
  (∀ c, own_effect req c = served_by p c) → routed_effect req p n n' → request_effect req n n'.
Proof.
  intros Hp Hb Ho [Hm Hd]. split; [done|]. rewrite Hb, Ho. destruct (destination req n); [|done].
  destruct Hd as (Hs & endpoint & ? & ?). split; [done|]. by exists p, endpoint.
Qed.

Lemma broadcast_request_effect req p n n' :
  broadcast_request req = Some p → destination req n = None →
  broadcast_effect p (own_effect req) n n' → request_effect req n n'.
Proof. intros Hp Hd (Hm & Hs & Hw). split; [done|]. by rewrite Hd, Hp. Qed.

Lemma no_destination req (n : MetaNode Network) :
  routed_by req n = None → destination req n = None.
Proof. intros Hr. unfold destination. rewrite Hr. by destruct (mn_forwarding n). Qed.

(** A request that only its own node serves. *)
Lemma here_only req (n n' : MetaNode Network) :
  broadcast_request req = None → routed_by req n = None →
  mn_forwarding n' = mn_forwarding n ∧ mn_cluster n' = mn_cluster n ∧
  mn_world n' = mn_world n ∧ mn_server n' = own_effect req (mn_server n) →
  request_effect req n n'.
Proof.
  intros Hp Hr (Hf & Hc & Hw & Hs). unfold request_effect, same_membership, same_routing.
  rewrite (no_destination _ _ Hr), Hp, Hc. by split_and!.
Qed.

Lemma handle_effect req n r n' : handle req n = (r, n') → request_effect req n n'.
Proof.
  destruct req; cbn [handle]; intros (r1 & Hr)%answer_with_run.
  - by eapply routed_request_effect, put_object_effect.
  - by eapply routed_request_effect, put_chunk_effect.
  - by eapply routed_request_effect, get_object_effect.
  - by eapply routed_request_effect, get_chunk_effect.
  - by eapply routed_request_effect, delete_object_effect.
  - by eapply routed_request_effect, delete_chunk_effect.
  - eapply broadcast_request_effect; [done|by apply no_destination|].
    by eapply put_storage_node_effect.
  - eapply broadcast_request_effect; [done|by apply no_destination|].
    by eapply list_objects_effect.
  - revert Hr. unfold svc_get_storage_node, locked, on_server, zoom, get_storage_node. run_st.
    intros Hr. apply here_only; [done|done|]. revert Hr.
    by destruct (storage_nodes _ !! id); intros [= _ <-]; destruct n as [[]].
  - apply here_only; [done|done|]. by injection Hr as _ <-.
  - eapply broadcast_request_effect; [done|by apply no_destination|].
    by eapply delete_storage_node_effect.
  - eapply broadcast_request_effect; [done|by apply no_destination|].
    by eapply under_replicated_effect.
  - by eapply routed_request_effect, add_chunk_replica_effect.
  - by eapply routed_request_effect, allocate_chunk_effect.
  - by eapply routed_request_effect, confirm_chunk_effect.
  - revert Hr. unfold svc_update_object_checksum, route_by_object, locked, on_server, zoom, count.
    run_st. destruct (update_object_checksum _ _ _ _) as [r2 s] eqn:Hop. intros Hr.
    apply here_only; [done|done|]. simpl. rewrite Hop. destruct r2; by injection Hr as _ <-.
Qed.

End requests.
