(* ===== verification/ClusterRun.v ===== *)
(** * ClusterRun: the metadata cluster as a whole, step by step

    All metadata nodes at once: a request arrives at a node while some of the others can be
    reached, a health check ends, a node learns of the members. What any such run keeps. *)

From S2P Require Import Prelude.
From S2P Require Import Grpc.
From S2P Require Import HashRing.
From S2P Require Import MetadataStore.
From S2P Require Import MetadataStoreFacts.
From S2P Require Import ChunkIndex.
From S2P Require Import ClusterService.
From S2P Require Import Cluster.
From S2P Require Import Forwarding.
From S2P Require Import MetadataService.
From S2P Require Import Network.
From S2P Require Import ClusterFacts.
From S2P Require Import RoutingFacts.
From S2P Require Import PublicService.
From S2P Require Import PublicFacts.
Open Scope string_scope.
Open Scope list_scope.
Open Scope Z_scope.

(** The nodes by the endpoint each is reached at. *)
Abbreviation Cluster := (gmap string (MetaNode unit)).

(** A node in front of a network, and without it. *)
Definition plug (w : Network) (n : MetaNode unit) : MetaNode Network :=
  mkMetaNode (mn_server n) (mn_cluster n) (mn_forwarding n) (mn_metrics n) w.
Definition unplug (n : MetaNode Network) : MetaNode unit :=
  mkMetaNode (mn_server n) (mn_cluster n) (mn_forwarding n) (mn_metrics n) ().

(** What the node at [e] can reach when the endpoints [up] answer. *)
Definition others (e : string) (up : gset string) (C : Cluster) : Network :=
  filter (λ kv, kv.1 ∈ up) (mn_server <$> delete e C).

(** The other nodes after they served what they were asked. *)
Definition write_back (w : Network) (C : Cluster) : Cluster :=
  map_imap (λ e n, Some (match w !! e with
    | Some c => mkMetaNode c (mn_cluster n) (mn_forwarding n) (mn_metrics n) ()
    | None => n end)) C.

(** Runs a handler of the node at [e]. *)
Definition at_node {A} (e : string) (up : gset string) (m : @MN Network A) (C : Cluster) :
    option (outcome Code A * Cluster) :=
  n ← C !! e;
  let '(r, n') := m (plug (others e up C) n) in
  Some (r, <[e := unplug n']> (write_back (mn_world n') C)).

Section run.
Context `{MetaDeps} `{Xxh3}.

(** A public request, with any of the other nodes out of reach. *)
Inductive request_step (C : Cluster) : Cluster → Prop :=
  | step_request e up req r C' :
      at_node e up (handle req) C = Some (r, C') → request_step C C'.

(** Also a round of the health check, and a tick of the membership watcher. *)
Inductive cluster_step (C : Cluster) : Cluster → Prop :=
  | step_handle C' : request_step C C' → cluster_step C C'
  | step_health e results r C' :
      at_node e ∅ (health_check_round results) C = Some (r, C') → cluster_step C C'
  | step_tick e live n :
      C !! e = Some n →
      cluster_step C (<[e := mkMetaNode (mn_server n) (membership_tick live (mn_cluster n))
        (mn_forwarding n) (mn_metrics n) ()]> C).

(** ** What a step does to each node *)

Lemma lookup_others e up C x :
  others e up C !! x =
  if decide (x ∈ up ∧ x ≠ e) then mn_server <$> C !! x else None.
Proof.
  unfold others. destruct (decide _) as [[Hu Hx]|Hx].
  - destruct (C !! x) as [n|] eqn:Hn; simpl.
    + apply map_lookup_filter_Some. split; [|done].
      by rewrite lookup_fmap, lookup_delete_ne, Hn.
    + apply map_lookup_filter_None. left. by rewrite lookup_fmap, lookup_delete_ne, Hn.
  - apply map_lookup_filter_None. destruct (decide (x = e)) as [->|Hne].
    + left. by rewrite lookup_fmap, lookup_delete_eq.
    + right. intros c _ Hu. simpl in Hu. by apply Hx.
Qed.

Lemma lookup_write_back w C x :
  write_back w C !! x = (λ n, match w !! x with
    | Some c => mkMetaNode c (mn_cluster n) (mn_forwarding n) (mn_metrics n) ()
    | None => n end) <$> C !! x.
Proof. unfold write_back. rewrite map_lookup_imap. by destruct (C !! x). Qed.

(** Every node's membership is the same; the connections are right if they were. *)
Definition same_member (n n' : MetaNode unit) : Prop :=
  mn_forwarding n' = mn_forwarding n ∧ same_routing (mn_cluster n) (mn_cluster n') ∧
  (clients_right (mn_cluster n) → clients_right (mn_cluster n')).

(** A handler's run, seen from any node [x]: the server of [e] is the handler's, that of
    another what the network has made of it. *)
Lemma at_node_spec {A} e up (m : MN A) C r C' :
  at_node e up m C = Some (r, C') →
  ∃ n n', C !! e = Some n ∧ m (plug (others e up C) n) = (r, n') ∧
    C' !! e = Some (unplug n') ∧
    ∀ x, x ≠ e → C' !! x = write_back (mn_world n') C !! x.
Proof.
  unfold at_node. destruct (C !! e) as [n|] eqn:Hn; [|done]. simpl.
  destruct (m (plug (others e up C) n)) as [r1 n'] eqn:Hm. intros [= <- <-].
  exists n, n'. split_and!; [done|done|by rewrite lookup_insert_eq|].
  intros x Hx. by rewrite lookup_insert_ne.
Qed.

(** How the servers change in a request: [step_of] says what [x]'s becomes. *)
Definition server_change (req : MetaRequest) (c c' : ClusterServer) : Prop :=
  c' = c ∨ c' = own_effect req c ∨
  ∃ p k, peer_request req = Some p ∧ c' = Nat.iter k (served_by p) c.

Lemma request_change e up req r C C' x n' :
  at_node e up (handle req) C = Some (r, C') → C' !! x = Some n' →
  ∃ n, C !! x = Some n ∧ same_member n n' ∧ server_change req (mn_server n) (mn_server n').
Proof.
  intros (n & m & Hn & Hm & He & Ho)%at_node_spec Hx. apply handle_effect in Hm as [Hsame Hd].
  destruct (decide (x = e)) as [->|Hxe].
  - rewrite He in Hx. injection Hx as <-. exists n. split; [done|]. split; [exact Hsame|].
    destruct (destination req _); destruct Hd as [Hs _]; cbn in *; rewrite Hs; [by left|right; by left].
  - rewrite Ho, lookup_write_back in Hx by done.
    destruct (C !! x) as [n0|] eqn:Hn0; [|done]. simpl in Hx. injection Hx as <-. exists n0.
    split; [done|]. split; [by destruct (mn_world m !! x)|].
    destruct (mn_world m !! x) as [c|] eqn:Hw; [|by left].
    assert (∀ p, peer_request req = Some p → all_served p (others e up C) (mn_world m) →
      server_change req (mn_server n0) c) as Hall.
    { intros p Hp Hserved. destruct (Hserved x) as [k Hk]. rewrite Hw, lookup_others in Hk.
      case_decide; [|done]. rewrite Hn0 in Hk. injection Hk as ->. right. right. by exists p, k. }
    cbn. destruct (destination req _).
    + destruct Hd as (_ & p & endpoint & Hp & _ & Hww). apply (Hall p Hp). rewrite Hww.
      apply all_served_alter.
    + destruct Hd as [_ Hd]. destruct (broadcast_request req) as [p|] eqn:Hb.
      * apply (Hall p); [|done]. revert Hb. by destruct req.
      * rewrite Hd in Hw. cbn in Hw. rewrite lookup_others in Hw. case_decide; [|done].
        rewrite Hn0 in Hw. injection Hw as <-. by left.
Qed.

(** A request that is not broadcast changes one server: that of the node it is passed on
    to, when that can be reached, or the node's own. *)
Lemma routed_change e up req r C C' :
  at_node e up (handle req) C = Some (r, C') → broadcast_request req = None →
  ∃ n, C !! e = Some n ∧
  match destination req (plug (others e up C) n) with
  | Some addr => ∃ p endpoint, peer_request req = Some p ∧ leads_to addr endpoint (mn_cluster n) ∧
      ∀ x n', C' !! x = Some n' → ∃ n0, C !! x = Some n0 ∧
        mn_server n' = if decide (x = endpoint ∧ x ∈ up ∧ x ≠ e) then served_by p (mn_server n0)
                       else mn_server n0
  | None => ∀ x n', C' !! x = Some n' → ∃ n0, C !! x = Some n0 ∧
        mn_server n' = if decide (x = e) then own_effect req (mn_server n0) else mn_server n0
  end.
Proof.
  intros (n & m & Hn & Hm & He & Ho)%at_node_spec Hb. exists n. split; [done|].
  apply handle_effect in Hm as [_ Hd]. destruct (destination req _) as [addr|].
  - destruct Hd as (Hs & p & endpoint & Hp & Hl & Hw). exists p, endpoint. split_and!; [done|done|].
    intros x n' Hx. destruct (decide (x = e)) as [->|Hxe].
    + rewrite He in Hx. injection Hx as <-. exists n. split; [done|].
      rewrite decide_False by naive_solver. exact Hs.
    + rewrite Ho, lookup_write_back, Hw in Hx by done. cbn in Hx.
      destruct (C !! x) as [n0|] eqn:Hn0; [|done]. exists n0. split; [done|].
      simpl in Hx. injection Hx as <-. destruct (decide (x = endpoint)) as [->|Hne].
      * rewrite lookup_alter_eq, lookup_others. case_decide as Hu.
        -- rewrite Hn0. simpl. by rewrite decide_True by naive_solver.
        -- simpl. by rewrite decide_False by naive_solver.
      * rewrite lookup_alter_ne, lookup_others by done.
        rewrite (decide_False (P := x = endpoint ∧ _)) by naive_solver.
        case_decide; [by rewrite Hn0|done].
  - destruct Hd as [Hs Hw]. rewrite Hb in Hw. intros x n' Hx.
    destruct (decide (x = e)) as [->|Hxe].
    + rewrite He in Hx. injection Hx as <-. by exists n.
    + rewrite Ho, lookup_write_back, Hw in Hx by done. cbn in Hx. rewrite lookup_others in Hx.
      destruct (C !! x) as [n0|] eqn:Hn0; [|done]. exists n0. split; [done|].
      simpl in Hx. injection Hx as <-. by case_decide.
Qed.

(** ** Stores and indexes *)

Lemma served_ok p c : own_request p → server_ok c → server_ok (served_by p c).
Proof.
  intros Hp Hc. unfold served_by. destruct (serve p c) as [r c'] eqn:Hs. by eapply serve_serves.
Qed.

(** A request that is served here keeps the store and the index in order. *)
Lemma served_here_ok req p n n' :
  routed_effect req p n n' → destination req n = None → own_request p →
  server_ok (mn_server n) → server_ok (mn_server n').
Proof.
  intros [_ He] Hd Hp Hok. rewrite Hd in He. destruct He as [-> _]. by apply served_ok.
Qed.

Lemma destination_here req n name :
  serves_itself n name → (∀ k, routed_by req n = Some k → k = name) → destination req n = None.
Proof.
  intros Hs Hr. unfold destination. destruct (mn_forwarding n) eqn:Hf; [|done].
  destruct (routed_by req n) as [k|]; [|done]. rewrite (Hr k) by done. simpl.
  destruct Hs as [Hs|Hs]; congruence.
Qed.

Lemma served_ok_iter p k c : own_request p → server_ok c → server_ok (Nat.iter k (served_by p) c).
Proof. intros Hp Hc. induction k as [|k IH]; [done|]. by apply served_ok. Qed.

Lemma peer_request_own req p : peer_request req = Some p → own_request p.
Proof. destruct req; by intros [= <-]. Qed.

Lemma own_effect_ok req c : server_ok c → server_ok (own_effect req c).
Proof.
  intros Hc. destruct (peer_request req) as [p|] eqn:Hp.
  - assert (own_effect req c = served_by p c) as -> by (destruct req; by simplify_eq/=).
    by eapply served_ok, Hc; eapply peer_request_own.
  - destruct req; try done. cbn [own_effect].
    destruct (update_object_checksum object_name checksum total_size (sv_store c)) as [r s] eqn:Hu.
    pose proof (update_object_checksum_keeps _ _ _ _ _ _ (so_wf _ Hc) Hu) as Hwf.
    revert Hu. unfold update_object_checksum. run_st.
    destruct (objects (sv_store c) !! object_name) as [o|] eqn:Ho.
    2: { intros [= <- <-]. by destruct c. }
    set (s1 := set_objects _ _). destruct (save_calm s1) as (d & -> & Hd); [apply Hc|].
    intros [= <- <-]. apply (server_ok_set _ _ c); [done|done|done|].
    simpl. intros k o' id [[<- <-]|[Hne Hk]]%lookup_insert_Some Hi; by eapply (so_index _ Hc).
Qed.

Lemma change_ok req c c' : server_change req c c' → server_ok c → server_ok c'.
Proof.
  intros [->|[->|(p & k & Hp & ->)]] Hc; [done|by apply own_effect_ok|].
  by apply served_ok_iter; [eapply peer_request_own|].
Qed.

Lemma health_ok results (n : MetaNode Network) r n' :
  health_check_round results n = (r, n') → server_ok (mn_server n) →
  server_ok (mn_server n') ∧ mn_world n' = mn_world n.
Proof.
  unfold health_check_round, count, on_server, zoom, current_store. run_st.
  case_decide as Hd; intros [= _ <-] [Hwf Hi Hc]; cbn; [done|]. split; [|done].
  split; cbn; [|done|done]. destruct Hwf as [H1 H2 H3 H4]. split; [done..|].
  cbn. intros id node. rewrite lookup_delete_all. case_decide; [done|]. apply H4.
Qed.

Definition all_ok (C : Cluster) : Prop := ∀ e n, C !! e = Some n → server_ok (mn_server n).

Lemma step_all_ok C C' : cluster_step C C' → all_ok C → all_ok C'.
Proof.
  intros Hs Hok x n' Hx. destruct Hs as [C' [e up req r C2 Hr]|e results r C' Hr|e live n Hn].
  - destruct (request_change _ _ _ _ _ _ _ _ Hr Hx) as (n & Hn & _ & Hc).
    by eapply change_ok, Hok.
  - apply at_node_spec in Hr as (n & m & Hn & Hm & He & Ho).
    apply health_ok in Hm as [Hm Hw]; [|by apply (Hok e)].
    destruct (decide (x = e)) as [->|Hxe]; [rewrite He in Hx; by injection Hx as <-|].
    rewrite Ho, lookup_write_back, Hw in Hx by done. cbn in Hx. rewrite lookup_others in Hx.
    rewrite decide_False in Hx by set_solver.
    destruct (C !! x) as [n0|] eqn:Hn0; [|done]. injection Hx as <-. by apply (Hok x).
  - apply lookup_insert_Some in Hx as [[<- <-]|[_ Hx]]; [by apply (Hok e n)|by apply (Hok x)].
Qed.

End run.
