(* ===== verification/SampleCluster.v ===== *)
(** * SampleCluster: two metadata nodes with one object

    Node "b" owns and stores the object "photo", with one chunk on its storage node 11;
    node "a" stores nothing and knows one storage node of its own. The concrete runs of
    the cluster theorems use them. *)

From S2P Require Import Prelude.
From S2P Require Import Grpc.
From S2P Require Import HashRing.
From S2P Require Import MetadataStore.
From S2P Require Import MetadataStoreFacts.
From S2P Require Import ChunkIndex.
From S2P Require Import ClusterService.
From S2P Require Import Cluster.
From S2P Require Import Forwarding.
From S2P Require Import MetadataService.
From S2P Require Import Network.
From S2P Require Import ClusterFacts.
From S2P Require Import RoutingFacts.
From S2P Require Import PublicFacts.
From S2P Require Import ClusterRun.
From S2P Require Import Samples.
Open Scope string_scope.
Open Scope list_scope.
Open Scope Z_scope.

#[local] Existing Instance toy_deps.
#[local] Existing Instance toy_xxh3.

Definition photo : MetaObject := mkMetaObject "photo" 5 [22] 10.
Definition photo_chunk : MetaChunk := mkMetaChunk 22 "photo" 6 [11] Confirmed.

Definition store_b : MetadataStore :=
  mkMetadataStore {["photo" := photo]} {[22 := photo_chunk]}
    {[11 := mkMetaStorageNode 11 "http://n1"]} (mkDisk None None []) (mkRng [31; 32] []).
Definition server_b : ClusterServer := mkClusterServer store_b {[22 := "photo"]}.

Definition store_a : MetadataStore :=
  mkMetadataStore ∅ ∅ {[12 := mkMetaStorageNode 12 "http://n1"]}
    (mkDisk None None []) (mkRng [41; 42] []).

(** The ring of the two: every key belongs to "b". *)
Definition sample_ring : HashRing := [(5, "b")].
Definition b_addr : string := "b:3001".
Definition b_endpoint : string := "http://b:3001".

Definition node_a : MetaNode Network :=
  mkMetaNode (mkClusterServer store_a ∅)
    (mkClusterManager sample_ring "a" "0.0.0.0:3001" ∅ {["b" := b_addr]})
    true meta_metrics_new {[b_endpoint := server_b]}.
(** [node_a] once "b" has left the ring. *)
Definition node_a_alone : MetaNode Network :=
  mkMetaNode (mkClusterServer store_a ∅)
    (mkClusterManager [(5, "a")] "a" "0.0.0.0:3001" ∅ {["b" := b_addr]})
    true meta_metrics_new {[b_endpoint := server_b]}.
Definition node_b : MetaNode Network :=
  mkMetaNode server_b (mkClusterManager sample_ring "b" "0.0.0.0:3001" ∅ ∅)
    true meta_metrics_new ∅.

Lemma store_b_wf : ms_wf store_b.
Proof.
  split; simpl.
  - intros k o [<- <-]%lookup_singleton_Some. split; [done|apply NoDup_singleton].
  - intros k o id [<- <-]%lookup_singleton_Some ->%list_elem_of_singleton.
    by exists photo_chunk.
  - intros id c [<- <-]%lookup_singleton_Some. split; [done|].
    split_and!; [apply NoDup_singleton|done|done].
  - by intros id n [<- <-]%lookup_singleton_Some.
Qed.

Lemma store_b_calm : store_calm store_b.
Proof. split; [done|]. intros st. by eexists. Qed.
Lemma store_a_calm : store_calm store_a.
Proof. split; [done|]. intros st. by eexists. Qed.

Lemma node_a_leads : leads_to b_addr b_endpoint (mn_cluster node_a).
Proof. done. Qed.

Lemma node_a_forwards : forwards node_a "photo" b_endpoint server_b.
Proof. split; [done| |done]. by exists b_addr. Qed.

Lemma node_b_serves : serves_itself node_b "photo".
Proof. by right. Qed.

Lemma photo_registered : all_registered store_b photo.
Proof.
  constructor; [|constructor]. intros c [= <-]. constructor; [|constructor]. by eexists.
Qed.

(** ** Both nodes as one cluster *)

Lemma store_a_wf : ms_wf store_a.
Proof.
  split; simpl; [by intros ? ?; rewrite lookup_empty..|].
  by intros id n [<- <-]%lookup_singleton_Some.
Qed.

Lemma server_a_ok : server_ok (mn_server node_a).
Proof. split; [apply store_a_wf| |apply store_a_calm]. intros k o id. cbn. by rewrite lookup_empty. Qed.
Lemma server_b_ok : server_ok server_b.
Proof.
  split; [apply store_b_wf| |apply store_b_calm].
  intros k o id. cbn. by intros [<- <-]%lookup_singleton_Some ->%list_elem_of_singleton.
Qed.

Definition a_endpoint : string := "http://a:3001".

Definition two_nodes : Cluster := {[a_endpoint := unplug node_a; b_endpoint := unplug node_b]}.

Lemma two_nodes_cases e n :
  two_nodes !! e = Some n →
  (e = a_endpoint ∧ n = unplug node_a) ∨ (e = b_endpoint ∧ n = unplug node_b).
Proof.
  unfold two_nodes. intros [[<- <-]|[_ [<- <-]%lookup_singleton_Some]]%lookup_insert_Some; auto.
Qed.

Lemma two_nodes_ok : all_ok two_nodes.
Proof.
  intros e n [[_ ->]|[_ ->]]%two_nodes_cases; [apply server_a_ok|apply server_b_ok].
Qed.
