(* ===== verification/MetadataTheorems.v ===== *)
(** * MetadataTheorems: the properties of the metadata cluster

    The theorems about routing, forwarding, broadcasts, the chunk index, migration and
    the public service of a metadata node. *)

From S2P Require Import Prelude.
From S2P Require Import Grpc.
From S2P Require Import HashRing.
From S2P Require Import MetadataStore.
From S2P Require Import MetadataStoreFacts.
From S2P Require Import ChunkIndex.
From S2P Require Import ClusterService.
From S2P Require Import Cluster.
From S2P Require Import Forwarding.
From S2P Require Import MetadataService.
From S2P Require Import Migration.
From S2P Require Import Network.
From S2P Require Import ClusterFacts.
From S2P Require Import RoutingFacts.
From S2P Require Import Samples.
From S2P Require Import SampleCluster.
Open Scope string_scope.
Open Scope list_scope.
Open Scope Z_scope.

Section theorems.
Context `{MetaDeps} `{Xxh3}.

(** C26: [put_object], [get_object], [delete_object], [put_chunk], [confirm_chunk] and
    [allocate_chunk] for an object, sent to a node that does not own it, are answered as the
    owner answers them to its own clients, leave the owner in the same state, and leave the
    store, index and metrics of the node they went through unchanged. There are two
    differences: an object that exists already is [AlreadyExists] on the owner and [Internal]
    elsewhere, and a read is the same only if the object's storage nodes are registered on
    the owner. ([update_object_checksum] is never passed on.) *)
Theorem forwarded_requests_are_the_owners n owner name endpoint checksum id_ node :
  forwards n name endpoint (mn_server owner) → serves_itself owner name →
  answered_as hide_duplicate (svc_put_object name checksum) n owner endpoint ∧
  (ms_wf (sv_store (mn_server owner)) →
   (∀ o, objects (sv_store (mn_server owner)) !! name = Some o →
      all_registered (sv_store (mn_server owner)) o) →
   answered_as id (svc_get_object name) n owner endpoint) ∧
  answered_as id (svc_delete_object name) n owner endpoint ∧
  answered_as hide_duplicate (svc_put_chunk name checksum) n owner endpoint ∧
  answered_as id (svc_confirm_chunk id_ name checksum node) n owner endpoint ∧
  (name ≠ "" → answered_as id (svc_allocate_chunk name) n owner endpoint).
Proof.
  intros Hfw Hown. split_and!.
  - eapply passed_on_answered; [by apply forwarded_put|by apply put_serves_as].
  - intros Hwf Hreg. eapply passed_on_answered; [by apply forwarded_get|by apply get_serves_as].
  - eapply passed_on_answered; [by apply forwarded_delete|by apply delete_serves_as].
  - eapply passed_on_answered; [by apply forwarded_put_chunk|by apply put_chunk_serves_as].
  - eapply passed_on_answered; [by apply forwarded_confirm|by apply confirm_serves_as].
  - intros Hne. eapply passed_on_answered; [by apply forwarded_allocate|by apply allocate_serves_as].
Qed.

(** Putting an object that exists is answered [AlreadyExists] by its owner and
    [Internal] by every other node; nothing is stored. *)
Theorem duplicate_put_answer_depends_on_the_node n name endpoint peer checksum :
  (serves_itself n name → is_Some (objects (sv_store (mn_server n)) !! name) →
   (svc_put_object name checksum n).1 = Err AlreadyExistsCode ∧
   mn_server (svc_put_object name checksum n).2 = mn_server n) ∧
  (forwards n name endpoint peer → is_Some (objects (sv_store peer) !! name) →
   (svc_put_object name checksum n).1 = Err Internal ∧
   passed_on n (svc_put_object name checksum n).2 endpoint peer).
Proof.
  split.
  - intros Hs Hn. unfold svc_put_object. rewrite route_object_here by done.
    unfold locked, on_server, zoom, put_object. run_st. rewrite decide_True by done. simpl.
    split; [done|]. by destruct n as [[]].
  - intros Hf Hn.
    edestruct (forwarded_put n name endpoint peer checksum Hf) as (n' & -> & Hp).
    revert Hp. unfold forward_put_object, with_store, zoom, rethrow, put_object. run_st.
    rewrite decide_True by done. simpl. intros Hp. split; [done|]. by destruct peer.
Qed.

(** [update_object_checksum] is never forwarded: through a node that does not have
    the object it is answered [NotFound], although the owner has it. *)
Theorem update_checksum_stays_here n name endpoint peer checksum total_size :
  forwards n name endpoint peer → objects (sv_store (mn_server n)) !! name = None →
  (svc_update_object_checksum name checksum total_size n).1 = Err NotFoundCode ∧
  mn_world (svc_update_object_checksum name checksum total_size n).2 = mn_world n.
Proof.
  intros _ Hn. unfold svc_update_object_checksum, route_by_object, locked, on_server, zoom,
    update_object_checksum. run_st. by rewrite Hn.
Qed.

(** While the address of the owner is not known a node takes requests on the
    owner's objects for its own: it stores an object that the owner may have too. *)
Theorem owner_without_address_is_replaced (n : MetaNode Network) name owner checksum :
  get_owner_id name (mn_cluster n) = Some owner → cm_peer_addrs (mn_cluster n) !! owner = None →
  objects (sv_store (mn_server n)) !! name = None → store_calm (sv_store (mn_server n)) →
  ∃ n', svc_put_object name checksum n = (Ok (), n') ∧ mn_world n' = mn_world n ∧
    objects (sv_store (mn_server n')) !! name = Some (new_object name checksum).
Proof.
  intros Ho Ha Hn Hc. unfold svc_put_object. rewrite route_object_here.
  2: { right. unfold get_owner_addr, get_owner_id in *. rewrite Ho. by case_decide. }
  unfold locked, on_server, zoom, put_object. run_st.
  rewrite decide_False by (rewrite Hn; by intros []). simpl.
  assert (store_calm (set_objects (<[name:=new_object name checksum]>
    (objects (sv_store (mn_server n)))) (sv_store (mn_server n)))) as Hc' by apply Hc.
  destruct (save_calm _ Hc') as (d & -> & _). simpl.
  eexists. split_and!; [done|done|]. simpl. by rewrite lookup_insert_eq.
Qed.

(** A request on a chunk goes to the owner of the object the chunk index gives, and
    is answered as the owner's service answers it. *)
Theorem chunk_requests_follow_the_index n id name endpoint peer node :
  sv_index (mn_server n) !! id = Some name → forwards n name endpoint peer →
  (∃ n', svc_get_chunk id n = ((forward_get_chunk id peer).1, n') ∧
    passed_on n n' endpoint (forward_get_chunk id peer).2) ∧
  (∃ n', svc_delete_chunk id n = ((forward_delete_chunk id peer).1, n') ∧
    passed_on n n' endpoint (forward_delete_chunk id peer).2) ∧
  (∃ n', svc_add_chunk_replica id node n = ((forward_add_chunk_replica id node peer).1, n') ∧
    passed_on n n' endpoint (forward_add_chunk_replica id node peer).2).
Proof.
  intros Hi Hfw. unfold svc_get_chunk, svc_delete_chunk, svc_add_chunk_replica.
  rewrite !(route_chunk_known _ _ name) by done. split_and!.
  - eapply (route_object_is_peers _ _ _ _ resp_chunk _ _ _ _ RespChunk); done.
  - eapply (route_object_is_peers _ _ _ _ resp_unit _ _ _ _ (λ _, RespUnit)); [done|done|done|by intros []].
  - eapply (route_object_is_peers _ _ _ _ resp_unit _ _ _ _ (λ _, RespUnit)); [done|done|done|by intros []].
Qed.

(** A chunk confirmed through a node that does not own its object is confirmed on
    the owner and entered in the owner's index alone: the node that passed the
    confirmation on answers [NotFound] to every request on the chunk. *)
Theorem confirmed_chunk_unknown_elsewhere n n' name endpoint peer id checksum node :
  forwards n name endpoint peer →
  sv_index (mn_server n) !! id = None → chunks (sv_store (mn_server n)) !! id = None →
  svc_confirm_chunk id name checksum node n = (Ok (), n') →
  (∃ peer', mn_world n' !! endpoint = Some peer' ∧ sv_index peer' !! id = Some name ∧
    chunks (sv_store peer') !! id = Some (mkMetaChunk id name checksum [node] Confirmed)) ∧
  (svc_get_chunk id n').1 = Err NotFoundCode ∧ (svc_delete_chunk id n').1 = Err NotFoundCode ∧
  ∀ node', (svc_add_chunk_replica id node' n').1 = Err NotFoundCode.
Proof.
  intros Hfw Hi Hc Hr.
  destruct (forwarded_confirm n name endpoint peer id checksum node Hfw) as (n1 & Hr1 & Hp).
  rewrite Hr1 in Hr. injection Hr as Hok <-. destruct Hp as (Hsv & _ & _ & _ & Hw).
  rewrite <- Hsv in Hi, Hc. split.
  - rewrite Hw, lookup_insert_eq. eexists. split; [done|].
    revert Hok. unfold forward_confirm_chunk, with_store, zoom, rethrow. cbv [mbind ST_bind].
    destruct (confirm_chunk id name checksum node (sv_store peer)) as [r s] eqn:Hcc.
    destruct r as [[]|e|]; simpl; [|done..]. intros _.
    split; [apply lookup_insert_eq|].
    apply confirm_chunk_cases in Hcc as [(e & [=] & _)|(o & _ & _ & Hs)].
    revert Hs. destruct (save_spec (set_objects (<[name := add_chunk id o]> (objects (sv_store peer)))
      (set_chunks (<[id := add_storage_node node (new_chunk id checksum name)]>
        (chunks (sv_store peer))) (sv_store peer)))) as (r & d & -> & _).
    intros [= _ <-]. apply lookup_insert_eq.
  - destruct (chunk_requests_not_found n1 id 0 Hi Hc) as (-> & -> & _). split_and!; [done..|].
    intros node'. by destruct (chunk_requests_not_found n1 id node' Hi Hc) as (_ & _ & ->).
Qed.

(** Every metadata node draws its own id for a registered storage node. The id a
    client is given is, unless a peer draws the same 64-bit number, unknown to every
    peer: a peer refuses to confirm or replicate a chunk on it. *)
Theorem registered_id_is_unknown_to_peers (n n' : MetaNode Network) address id endpoint peer :
  svc_put_storage_node address n = (Ok id, n') →
  mn_world n !! endpoint = Some peer → never_gets id peer →
  storage_nodes (sv_store (mn_server n')) !! id = Some (mkMetaStorageNode id address) ∧
  ∃ peer', mn_world n' !! endpoint = Some peer' ∧
    storage_nodes (sv_store peer') !! id = None ∧
    (∀ chunk name checksum,
      (forward_confirm_chunk chunk name checksum id peer').1 = Err NotFoundCode) ∧
    (∀ chunk, (forward_add_chunk_replica chunk id peer').1 = Err NotFoundCode).
Proof.
  intros Hr Hw Hp. unfold svc_put_storage_node, locked, on_server, zoom in Hr. run_st.
  destruct (construct_storage_node address (sv_store (mn_server n))) as [r s] eqn:Hc.
  destruct r as [i|e|]; [|done..]. simpl in Hr.
  set (n1 := set_server _ n) in Hr.
  assert (storage_nodes s !! i = Some (mkMetaStorageNode i address)) as Hi.
  { revert Hc. unfold construct_storage_node, meta_storage_node_new. run_st.
    destruct (generate_unique_id _ _) as [[j| |] ?]; [|done..].
    destruct (uri_ok address); [|done]. intros [= <- <-]. apply lookup_insert_eq. }
  assert (id = i ∧ mn_server n' = mn_server n1 ∧
    ∃ peer', mn_world n' !! endpoint = Some peer' ∧ never_gets id peer') as Hres.
  { destruct (mn_forwarding n).
    - destruct (fl_broadcast_put_storage_node address n1) as [r2 n2] eqn:Hb.
      apply broadcast_all_inv in Hb as (Hs & _ & HQ).
      destruct r2; [|done..]. injection Hr as -> <-. split_and!; [done|done|].
      apply (HQ (never_gets id) endpoint peer); [apply register_keeps_never|done|done].
    - injection Hr as -> <-. split_and!; [done|done|]. by exists peer. }
  destruct Hres as (-> & Hs & peer' & Hw' & Hn & _).
  rewrite Hs. split; [done|]. exists peer'. split_and!; [done|done| |].
  - intros. unfold forward_confirm_chunk, with_store, zoom, rethrow, confirm_chunk. run_st.
    by rewrite decide_False by (rewrite Hn; by intros []).
  - intros. unfold forward_add_chunk_replica, with_store, zoom, rethrow, add_chunk_replica. run_st.
    by rewrite decide_False by (rewrite Hn; by intros []).
Qed.

(** Deleting a storage node answers [Ok] and changes nothing on a peer that does
    not know the id: the peer keeps the node under its own id and goes on giving it
    out. *)
Theorem deleted_node_stays_on_peers (n : MetaNode Network) id node endpoint peer :
  storage_nodes (sv_store (mn_server n)) !! id = Some node →
  mn_world n !! endpoint = Some peer → storage_nodes (sv_store peer) !! id = None →
  ∃ r n' peer', svc_delete_storage_node id n = (r, n') ∧
    storage_nodes (sv_store (mn_server n')) = delete id (storage_nodes (sv_store (mn_server n))) ∧
    mn_world n' !! endpoint = Some peer' ∧
    storage_nodes (sv_store peer') = storage_nodes (sv_store peer).
Proof.
  intros Hi Hw Hn. unfold svc_delete_storage_node, locked, on_server, zoom, delete_storage_node.
  run_st. rewrite Hi. simpl. set (n1 := set_server _ n).
  destruct (mn_forwarding n); [|by exists (Ok ()), n1, peer].
  destruct (fl_broadcast_delete_storage_node id n1) as [r2 n2] eqn:Hb.
  apply broadcast_all_inv in Hb as (Hs & _ & HQ).
  destruct (HQ (λ c, storage_nodes (sv_store c) = storage_nodes (sv_store peer)) endpoint peer)
    as (p & ? & ?); [by intros; apply unregister_keeps_nodes|done|done|].
  destruct r2; eexists _, n2, p; (split; [done|]); by rewrite Hs.
Qed.

(** C29: the owner answers [get_object] with the object's checksum and every chunk, in
    order, with all its storage nodes; one storage node that is not registered makes
    the answer [Internal]. The same request through another node gets an answer
    anyway, in which the unknown storage nodes are missing. *)
Theorem get_object_answers n name endpoint peer (s := sv_store (mn_server n)) :
  (serves_itself n name → ms_wf s →
   match objects s !! name with
   | None => (svc_get_object name n).1 = Err NotFoundCode
   | Some o =>
       (all_registered s o → (svc_get_object name n).1 =
         Ok (mkGetObjectResponse (mo_checksum o) (oi_chunks (object_info s o)))) ∧
       (¬ all_registered s o → (svc_get_object name n).1 = Err Internal)
   end ∧ mn_server (svc_get_object name n).2 = mn_server n) ∧
  (forwards n name endpoint peer → ms_wf (sv_store peer) →
   (svc_get_object name n).1 =
   match objects (sv_store peer) !! name with
   | None => Err NotFoundCode
   | Some o => Ok (mkGetObjectResponse (mo_checksum o) (oi_chunks (object_info (sv_store peer) o)))
   end).
Proof.
  split.
  - apply get_object_local.
  - intros Hf Hwf. destruct (forwarded_get _ _ _ _ Hf) as (n' & -> & _).
    unfold forward_get_object, with_store, zoom, rethrow, get_object, lift_outcome. run_st. simpl.
    destruct (objects (sv_store peer) !! name) as [o|] eqn:Ho; simpl; [|done].
    by rewrite (chunks_or_internal_listed _ _ (listed_chunks _ name o Hwf Ho)).
Qed.

(** Storage nodes are not saved: a metadata node that was restarted knows none, so
    it answers [Internal] to a read of any object with a chunk, and [Unavailable] to an
    allocation, until the storage nodes register again. *)
Theorem restart_makes_objects_unreadable rng d cluster (w : Network) n d' n' name o :
  construct rng d cluster w = (Ok n, d') →
  sv_store (mn_server n') = sv_store (mn_server n) → serves_itself n' name →
  ms_wf (sv_store (mn_server n)) →
  objects (sv_store (mn_server n)) !! name = Some o → mo_chunks o ≠ [] →
  (svc_get_object name n').1 = Err Internal ∧
  ∀ resp, (svc_allocate_chunk name n').1 ≠ Ok resp.
Proof.
  intros Hc Hs Hr Hwf Ho Hne.
  assert (storage_nodes (sv_store (mn_server n)) = ∅) as Hnodes.
  { revert Hc. unfold construct. destruct (store_new rng d) as [[s| |] d1] eqn:Hst; [|done..].
    intros [= <- _]. by eapply store_new_fresh. }
  split.
  - destruct (get_object_local n' name Hr) as [Hg _]; [by rewrite Hs|].
    rewrite Hs, Ho in Hg. apply Hg. intros Hall.
    destruct (mo_chunks o) as [|id ids] eqn:Hids; [done|].
    destruct (mw_listed _ Hwf _ _ id Ho) as (c & Hcid & _ & Hst); [rewrite Hids; by left|].
    unfold all_registered in Hall. rewrite Hids in Hall. apply list.Forall_cons in Hall as [Hall _].
    specialize (Hall c Hcid). rewrite Hnodes in Hall.
    destruct (mw_chunk _ Hwf _ _ Hcid) as (_ & _ & _ & Hlen). specialize (Hlen Hst).
    destruct (mc_storage_nodes c); [done|]. apply list.Forall_cons in Hall as [[? Hx] _].
    by rewrite lookup_empty in Hx.
  - intros resp. unfold svc_allocate_chunk.
    destruct (String.eqb name ""); [|rewrite route_object_here by done].
    all: unfold locked, on_server, zoom; run_st; rewrite Hs.
    all: destruct (allocate_chunk name (sv_store (mn_server n))) as [r s1] eqn:Ha.
    all: apply allocate_needs_nodes in Ha; [|done]; destruct r; [by destruct Ha|done..].
Qed.


(** After a restart and any sequence of requests from peers (other than index
    broadcasts) the chunk index has every chunk that an object lists, under that object,
    so that requests on it are routed to the object's owner. *)
Theorem chunk_index_covers_the_store rng d cluster (w : Network) n d' reqs :
  construct rng d cluster w = (Ok n, d') → ms_wf (sv_store (mn_server n)) →
  store_calm (sv_store (mn_server n)) → Forall own_request reqs →
  index_covers (foldl (λ c req, (serve req c).2)
    (mn_server (populate_chunk_index (set_forwarding_layer n)).2) reqs).
Proof.
  intros Hc Hwf Hcalm Hreqs.
  cut (server_ok (mn_server (populate_chunk_index (set_forwarding_layer n)).2)).
  - generalize (mn_server (populate_chunk_index (set_forwarding_layer n)).2).
    induction reqs as [|req reqs IH]; intros c Hok; simpl; [apply Hok|].
    apply list.Forall_cons in Hreqs as [Hreq Hreqs]. apply IH; [done|].
    destruct (serve req c) as [r c'] eqn:Hs. by eapply serve_serves.
  - split; [done| |done]. intros k o id Ho Hi. cbn in Ho |- *.
    destruct (mw_listed _ Hwf k o id Ho Hi) as (ch & Hch & Hn & _).
    etrans; [apply populate_lookup|]. cbn. rewrite Hch. by rewrite Hn.
Qed.

(** [get_object] takes the store's lock twice. When the object is deleted in between,
    a read that found the object answers [Internal], which neither order of the two
    requests would: it is [Ok] before the deletion and [NotFound] after it. *)
Theorem get_object_race (n : MetaNode Network) name o (s := sv_store (mn_server n)) :
  serves_itself n name → ms_wf s → objects s !! name = Some o → mo_chunks o ≠ [] →
  all_registered s o →
  let '(r, n1) := get_object_lookup name n in
  let n2 := (svc_delete_object name n1).2 in
  r = Ok o ∧ (get_object_resolve o n2).1 = Err Internal ∧
  is_ok (svc_get_object name n).1 ∧ (svc_get_object name n2).1 = Err NotFoundCode.
Proof.
  intros Hs Hwf Ho Hne Hreg.
  destruct (get_object_local n name Hs Hwf) as [Hget _]. fold s in Hget. rewrite Ho in Hget.
  destruct Hget as [Hget _].
  unfold get_object_lookup, locked, on_server, zoom, get_object. run_st. fold s. rewrite Ho. simpl.
  set (n1 := set_server _ n). assert (serves_itself n1 name) as Hs1 by exact Hs.
  destruct (deleted_state n1 name o Hs1 Hwf Ho) as (Hobj & Hch & Hs2).
  split_and!; [done| |by rewrite Hget|].
  - unfold get_object_resolve, current_store, count, lift_outcome. run_st. simpl.
    destruct (mo_chunks o) as [|id ids] eqn:Hids; [done|]. simpl.
    by rewrite (Hch id) by by left.
  - unfold svc_get_object. rewrite route_object_here by exact Hs2.
    unfold get_object_lookup, locked, on_server, zoom, get_object. run_st. by rewrite Hobj.
Qed.

(** A round of health checks forgets exactly the storage nodes whose check failed;
    a node that answers that it is not healthy, or whose check panicked, stays. Objects
    and chunks, even those on the removed nodes, stay as they are. *)
Theorem health_check_round_removes (n : MetaNode Network) results :
  ∃ n', health_check_round results n = (Ok (), n') ∧
    objects (sv_store (mn_server n')) = objects (sv_store (mn_server n)) ∧
    chunks (sv_store (mn_server n')) = chunks (sv_store (mn_server n)) ∧
    ∀ id, storage_nodes (sv_store (mn_server n')) !! id =
      if decide ((id, Some (inl ())) ∈ results) then None
      else storage_nodes (sv_store (mn_server n)) !! id.
Proof.
  assert (∀ id, id ∈ failed_checks results ↔ (id, Some (inl ())) ∈ results) as Hf.
  { intros id. unfold failed_checks. rewrite list_elem_of_omap. split.
    - by intros ([i [[[]|b]|]] & Hin & [= <-]).
    - intros Hin. by exists (id, Some (inl ())). }
  unfold health_check_round, count, on_server, zoom, current_store. run_st.
  case_decide as Hd.
  - eexists. split_and!; [done..|]. intros id. rewrite decide_False; [done|].
    rewrite <- Hf, Hd. apply not_elem_of_nil.
  - eexists. split_and!; [done..|]. intros id. simpl. rewrite lookup_delete_all.
    by rewrite (decide_ext _ _ _ _ (Hf id)).
Qed.

(** [list_objects] lists the node's own objects and those of every peer, each peer's
    in turn; when one peer cannot be reached it lists the node's own alone, and still
    answers [Ok]. *)
Theorem list_objects_all_or_own (n : MetaNode Network)
    (addrs := get_all_peer_addrs (mn_cluster n)) (here := local_objects (sv_store (mn_server n))) :
  mn_forwarding n = true → clients_live (mn_cluster n, mn_world n) →
  (svc_list_objects n).1 = Ok (
    if decide (Forall (reachable (mn_world n)) addrs)
    then here ++ (addrs ≫= λ a,
      default [] ((λ c, local_objects (sv_store c)) <$> mn_world n !! endpoint_of a))
    else here).
Proof.
  intros Hf Hl. unfold svc_list_objects, scatter_gather_list_objects, gather_all, on_net, zoom,
    current_store. run_st. rewrite Hf.
  edestruct (gather_reads resp_objects ListLocalObjects (λ c, local_objects (sv_store c)) addrs)
    as (c' & Hg); [by intros s; eexists|exact Hl|].
  unfold addrs in Hg |- *. cbn in Hg |- *. rewrite Hg. by case_decide.
Qed.

End theorems.

(** ** Witnesses *)

#[local] Existing Instance toy_deps.
#[local] Existing Instance toy_xxh3.

Lemma forwarded_requests_are_the_owners_witness :
  answered_as hide_duplicate (svc_put_object "photo" 5) node_a node_b b_endpoint ∧
  answered_as id (svc_get_object "photo") node_a node_b b_endpoint ∧
  answered_as id (svc_confirm_chunk 23 "photo" 5 11) node_a node_b b_endpoint.
Proof.
  destruct (forwarded_requests_are_the_owners node_a node_b "photo" b_endpoint 5 23 11
    node_a_forwards node_b_serves) as (Hp & Hg & _ & _ & Hc & _).
  split; [exact Hp|]. split; [|exact Hc]. apply Hg; [apply store_b_wf|].
  intros o Ho. injection Ho as <-. apply list.Forall_cons. split; [|by apply list.Forall_nil].
  intros c Hch. injection Hch as <-. apply list.Forall_cons. split; [by eexists|by apply list.Forall_nil].
Defined.

Lemma duplicate_put_answer_depends_on_the_node_witness :
  (svc_put_object "photo" 5 node_b).1 = Err AlreadyExistsCode ∧
  (svc_put_object "photo" 5 node_a).1 = Err Internal.
Proof.
  split.
  - apply (duplicate_put_answer_depends_on_the_node node_b "photo" b_endpoint server_b 5);
      [apply node_b_serves|by eexists].
  - apply (duplicate_put_answer_depends_on_the_node node_a "photo" b_endpoint server_b 5);
      [apply node_a_forwards|by eexists].
Defined.

Lemma update_checksum_stays_here_witness :
  (svc_update_object_checksum "photo" 7 9 node_a).1 = Err NotFoundCode.
Proof.
  apply (update_checksum_stays_here node_a "photo" b_endpoint server_b 7 9);
    [apply node_a_forwards|done].
Defined.

Definition node_a_no_address : MetaNode Network :=
  set_net (mkClusterManager sample_ring "a" "0.0.0.0:3001" ∅ ∅, mn_world node_a) node_a.

Lemma owner_without_address_is_replaced_witness :
  ∃ n', svc_put_object "photo" 9 node_a_no_address = (Ok (), n') ∧
    mn_world n' = mn_world node_a_no_address ∧
    objects (sv_store (mn_server n')) !! "photo" = Some (new_object "photo" 9).
Proof.
  apply (owner_without_address_is_replaced node_a_no_address "photo" "b" 9);
    [done|done|done|apply store_a_calm].
Defined.

(** [node_a] once it has been told of the chunk. *)
Definition node_a_told : MetaNode Network :=
  set_server (mkClusterServer store_a {[22 := "photo"]}) node_a.

Lemma chunk_requests_follow_the_index_witness :
  ∃ n', svc_get_chunk 22 node_a_told = ((forward_get_chunk 22 server_b).1, n') ∧
    passed_on node_a_told n' b_endpoint (forward_get_chunk 22 server_b).2.
Proof.
  apply (chunk_requests_follow_the_index node_a_told 22 "photo" b_endpoint server_b 11);
    [done|split; [done|by exists b_addr|done]].
Defined.

Lemma confirmed_chunk_unknown_elsewhere_witness :
  let n' := (svc_confirm_chunk 23 "photo" 8 11 node_a).2 in
  (svc_get_chunk 23 n').1 = Err NotFoundCode ∧
  ∃ peer', mn_world n' !! b_endpoint = Some peer' ∧
    chunks (sv_store peer') !! 23 = Some (mkMetaChunk 23 "photo" 8 [11] Confirmed).
Proof.
  intros n'.
  assert (svc_confirm_chunk 23 "photo" 8 11 node_a = (Ok (), n')) as Hr.
  { rewrite (surjective_pairing (svc_confirm_chunk 23 "photo" 8 11 node_a)).
    apply (f_equal (λ r, (r, n'))). vm_compute. reflexivity. }
  destruct (confirmed_chunk_unknown_elsewhere node_a n' "photo" b_endpoint server_b 23 8 11
    node_a_forwards eq_refl eq_refl Hr) as ((peer' & Hw & _ & Hc) & Hg & _).
  split; [exact Hg|exists peer'; split; [exact Hw|exact Hc]].
Defined.

Lemma registered_id_is_unknown_to_peers_witness :
  let n' := (svc_put_storage_node "http://n2" node_a).2 in
  storage_nodes (sv_store (mn_server n')) !! 41 = Some (mkMetaStorageNode 41 "http://n2") ∧
  ∃ peer', mn_world n' !! b_endpoint = Some peer' ∧
    (forward_add_chunk_replica 22 41 peer').1 = Err NotFoundCode.
Proof.
  intros n'.
  assert (svc_put_storage_node "http://n2" node_a = (Ok 41, n')) as Hr.
  { rewrite (surjective_pairing (svc_put_storage_node "http://n2" node_a)).
    apply (f_equal (λ r, (r, n'))). vm_compute. reflexivity. }
  destruct (registered_id_is_unknown_to_peers node_a n' "http://n2" 41 b_endpoint server_b Hr)
    as (Hs & peer' & Hw & _ & _ & Ha); [reflexivity|split; [done|set_solver]|].
  split; [exact Hs|exists peer'; split; [exact Hw|apply Ha]].
Defined.

Lemma deleted_node_stays_on_peers_witness :
  ∃ r n' peer', svc_delete_storage_node 12 node_a = (r, n') ∧
    storage_nodes (sv_store (mn_server n')) = delete 12 (storage_nodes store_a) ∧
    mn_world n' !! b_endpoint = Some peer' ∧
    storage_nodes (sv_store peer') = storage_nodes store_b.
Proof.
  apply (deleted_node_stays_on_peers node_a 12 (mkMetaStorageNode 12 "http://n1") b_endpoint
    server_b); reflexivity.
Defined.

(** [node_b] without its storage node. *)
Definition node_b_bare : MetaNode Network :=
  set_server (set_sv_store (set_storage_nodes ∅ store_b) server_b) node_b.

Lemma get_object_answers_witness :
  (svc_get_object "photo" node_b).1 = Ok (mkGetObjectResponse 5
     [mkChunkInfo 22 6 [mkMetaStorageNode 11 "http://n1"]]) ∧
  (svc_get_object "photo" node_a).1 = Ok (mkGetObjectResponse 5
     [mkChunkInfo 22 6 [mkMetaStorageNode 11 "http://n1"]]).
Proof.
  destruct (get_object_answers node_b "photo" b_endpoint server_b) as [Hb _].
  destruct (get_object_answers node_a "photo" b_endpoint server_b) as [_ Ha].
  destruct (Hb node_b_serves store_b_wf) as [[Hok _] _]. split.
  - rewrite (Hok photo_registered). reflexivity.
  - rewrite (Ha node_a_forwards store_b_wf). reflexivity.
Defined.

(** The metadata file that [store_b] leaves. *)
Definition disk_b : Disk := mkDisk (json_to_string (persistent store_b)) None [].

Definition node_b_restarted : MetaNode Network :=
  mkMetaNode (mkClusterServer (mkMetadataStore (objects store_b) (chunks store_b) ∅ disk_b
    (mkRng [50] [])) ∅) (mn_cluster node_b) false meta_metrics_new ∅.

Lemma node_b_restarted_wf : ms_wf (sv_store (mn_server node_b_restarted)).
Proof. destruct store_b_wf. split; [done..|]. intros id n. simpl. by rewrite lookup_empty. Qed.

Lemma node_b_restarts :
  construct (mkRng [50] []) disk_b (mn_cluster node_b) ∅ = (Ok node_b_restarted, disk_b).
Proof. vm_compute. reflexivity. Qed.

Lemma restart_makes_objects_unreadable_witness :
  (svc_get_object "photo" (set_forwarding_layer node_b_restarted)).1 = Err Internal.
Proof.
  apply (restart_makes_objects_unreadable (mkRng [50] []) disk_b (mn_cluster node_b) ∅
    node_b_restarted disk_b (set_forwarding_layer node_b_restarted) "photo" photo).
  - apply node_b_restarts.
  - reflexivity.
  - by right.
  - apply node_b_restarted_wf.
  - reflexivity.
  - done.
Defined.

Lemma chunk_index_covers_the_store_witness :
  index_covers (foldl (λ c req, (serve req c).2)
    (mn_server (populate_chunk_index (set_forwarding_layer node_b_restarted)).2)
    [BroadcastPutStorageNode "http://n1"; ForwardPutChunk "photo" 9; ForwardDeleteChunk 22]).
Proof.
  apply (chunk_index_covers_the_store (mkRng [50] []) disk_b (mn_cluster node_b) ∅
    node_b_restarted disk_b).
  - apply node_b_restarts.
  - apply node_b_restarted_wf.
  - split; [reflexivity|]. intros st. by eexists.
  - by repeat constructor.
Defined.

Lemma get_object_race_witness :
  let '(r, n1) := get_object_lookup "photo" node_b in
  let n2 := (svc_delete_object "photo" n1).2 in
  r = Ok photo ∧ (get_object_resolve photo n2).1 = Err Internal ∧
  is_ok (svc_get_object "photo" node_b).1 ∧ (svc_get_object "photo" n2).1 = Err NotFoundCode.
Proof.
  apply (get_object_race node_b "photo" photo);
    [apply node_b_serves|apply store_b_wf|reflexivity|done|apply photo_registered].
Defined.

Lemma list_objects_all_or_own_witness :
  (svc_list_objects node_a).1 = Ok (local_objects store_b) ∧
  (svc_list_objects (set_net (mn_cluster node_a, ∅) node_a)).1 = Ok [].
Proof.
  split.
  - rewrite (list_objects_all_or_own node_a eq_refl); [vm_compute; reflexivity|].
    intros nid client addr. simpl. by rewrite lookup_empty.
  - rewrite (list_objects_all_or_own (set_net (mn_cluster node_a, ∅) node_a) eq_refl);
      [vm_compute; reflexivity|].
    intros nid client addr. simpl. by rewrite lookup_empty.
Defined.
