(* ===== verification/MigrationTheorems.v ===== *)
(** * MigrationTheorems: what joining the cluster moves

    The theorems about storage-metadata/src/migration.rs. *)

From S2P Require Import Prelude.
From S2P Require Import Grpc.
From S2P Require Import HashRing.
From S2P Require Import MetadataStore.
From S2P Require Import MetadataStoreFacts.
From S2P Require Import MetadataStoreTheorems.
From S2P Require Import ChunkIndex.
From S2P Require Import ClusterService.
From S2P Require Import Cluster.
From S2P Require Import Forwarding.
From S2P Require Import MetadataService.
From S2P Require Import Migration.
From S2P Require Import Network.
From S2P Require Import RoutingFacts.
From S2P Require Import Samples.
From S2P Require Import SampleCluster.
Open Scope string_scope.
Open Scope list_scope.
Open Scope Z_scope.

(** ** Inserting a list of values by their keys *)

Section keyed.
Context {K} `{Countable K} {A : Type} (key : A → K).

Lemma foldl_insert_out l (m : gmap K A) k :
  k ∉ key <$> l → foldl (λ m x, <[key x := x]> m) m l !! k = m !! k.
Proof.
  revert m. induction l as [|x l IH]; intros m Hk; [done|]. simpl in *.
  apply not_elem_of_cons in Hk as [Hne Hk]. by rewrite IH, lookup_insert_ne.
Qed.

Lemma foldl_insert_in l (m : gmap K A) x :
  (∀ y, y ∈ l → key y = key x → y = x) → x ∈ l →
  foldl (λ m x, <[key x := x]> m) m l !! key x = Some x.
Proof.
  revert m. induction l as [|y l IH]; intros m Hu Hx; [by apply not_elem_of_nil in Hx|]. simpl.
  destruct (decide (key x ∈ key <$> l)) as [Hin|Hin].
  - apply list_elem_of_fmap in Hin as (z & Hk & Hz).
    assert (z = x) as -> by (apply Hu; [by right|done]).
    apply IH; [|done]. intros y' Hy'. apply Hu. by right.
  - rewrite foldl_insert_out by done. apply elem_of_cons in Hx as [->|Hx].
    + apply lookup_insert_eq.
    + destruct Hin. apply list_elem_of_fmap. by exists x.
Qed.
End keyed.

Lemma bulk_insert_in es (idx : ChunkIndex) id name :
  (∀ n, (id, n) ∈ es → n = name) → (id, name) ∈ es → bulk_insert es idx !! id = Some name.
Proof.
  revert idx. induction es as [|[i n] es IH]; intros idx Hu Hin; [by apply not_elem_of_nil in Hin|].
  unfold bulk_insert. simpl. fold (bulk_insert es (<[i := n]> idx)).
  destruct (decide ((id, name) ∈ es)) as [Hes|Hes].
  - apply IH; [|done]. intros n' Hn'. apply Hu. by right.
  - apply elem_of_cons in Hin as [[= <- <-]|]; [|done].
    rewrite bulk_insert_lookup. destruct (list.last _) as [[i' n']|] eqn:Hl; [|apply lookup_insert_eq].
    apply last_Some_elem_of, list_elem_of_In, filter_In in Hl as [Hl%list_elem_of_In He].
    simpl in He. apply Z.eqb_eq in He as ->. f_equal. apply Hu. by right.
Qed.

(** ** The stream of a transfer *)

(** An object as the receiver rebuilds it: the stream has no size. *)
Definition as_received (o : MetaObject) : MetaObject :=
  mkMetaObject (mo_name o) (mo_checksum o) (mo_chunks o) 0.
Definition as_confirmed (c : MetaChunk) : MetaChunk :=
  mkMetaChunk (mc_id c) (mc_object_name c) (mc_checksum c) (mc_storage_nodes c) Confirmed.

Lemma elem_of_partition_entries l e :
  e ∈ partition_entries l ↔ ∃ p, p ∈ l ∧
    (e = TransferObject (mo_name p.1) (mo_checksum p.1) (mo_chunks p.1) ∨
     ∃ c, c ∈ p.2 ∧ e = TransferChunk (mc_id c) (mc_object_name c) (mc_checksum c) (mc_storage_nodes c)).
Proof.
  unfold partition_entries. rewrite list_elem_of_bind.
  split; intros (p & H1 & H2); exists p.
  - split; [done|]. apply elem_of_cons in H1 as [->|(c & -> & Hc)%list_elem_of_fmap]; [by left|].
    right. by exists c.
  - split; [|done]. apply elem_of_cons. destruct H2 as [->|(c & Hc & ->)]; [by left|right].
    apply list_elem_of_fmap. by exists c.
Qed.

Lemma elem_of_received_objects l o :
  o ∈ omap received_object (partition_entries l) ↔ ∃ p, p ∈ l ∧ o = as_received p.1.
Proof.
  rewrite list_elem_of_omap. split.
  - intros (e & (p & Hp & [->|(c & Hc & ->)])%elem_of_partition_entries & Ho); [|done].
    injection Ho as <-. by exists p.
  - intros (p & Hp & ->). eexists. split; [apply elem_of_partition_entries; eauto|done].
Qed.

Lemma elem_of_received_chunks l c :
  c ∈ omap received_chunk (partition_entries l) ↔ ∃ p c', p ∈ l ∧ c' ∈ p.2 ∧ c = as_confirmed c'.
Proof.
  rewrite list_elem_of_omap. split.
  - intros (e & (p & Hp & [->|(c' & Hc & ->)])%elem_of_partition_entries & Ho); [done|].
    injection Ho as <-. by exists p, c'.
  - intros (p & c' & Hp & Hc & ->).
    eexists. split; [apply elem_of_partition_entries; exists p; split; [done|right; by exists c']|done].
Qed.

Lemma elem_of_received_index l id name :
  (id, name) ∈ omap received_index_entry (partition_entries l) ↔
  ∃ p c, p ∈ l ∧ c ∈ p.2 ∧ id = mc_id c ∧ name = mc_object_name c.
Proof.
  rewrite list_elem_of_omap. split.
  - intros (e & (p & Hp & [->|(c' & Hc & ->)])%elem_of_partition_entries & Ho); [done|].
    injection Ho as <- <-. by exists p, c'.
  - intros (p & c' & Hp & Hc & -> & ->).
    eexists. split; [apply elem_of_partition_entries; exists p; split; [done|right; by exists c']|done].
Qed.

Section transfer.
Context `{MetaDeps} `{Xxh3}.

(** What a peer sends: the objects whose hash is in the ranges, with their chunks. *)
Lemma elem_of_in_ranges ranges s o l :
  ms_wf s →
  (o, l) ∈ objects_in_hash_ranges ranges s ↔
  objects s !! mo_name o = Some o ∧ hash_in_ranges (hash_key (mo_name o)) ranges = true ∧
  l = omap (λ id, chunks s !! id) (mo_chunks o).
Proof.
  intros Hwf. unfold objects_in_hash_ranges, list_objects. rewrite list_elem_of_omap. split.
  - intros (o' & ([k o2] & -> & Hin%elem_of_map_to_list)%list_elem_of_fmap & Hif). simpl in Hif.
    destruct (hash_in_ranges _ ranges) eqn:Hh; [|done]. injection Hif as <- <-.
    destruct (mw_object _ Hwf _ _ Hin) as [Hk _]. split_and!; [by rewrite Hk|done|done].
  - intros (Ho & Hh & ->). exists o. rewrite Hh. split; [|done].
    apply list_elem_of_fmap. exists (mo_name o, o). split; [done|]. by apply elem_of_map_to_list.
Qed.

Lemma elem_of_sent_chunks ranges s p c :
  ms_wf s → p ∈ objects_in_hash_ranges ranges s → c ∈ p.2 →
  chunks s !! mc_id c = Some c ∧ mc_object_name c = mo_name p.1 ∧ as_confirmed c = c ∧
  mc_id c ∈ mo_chunks p.1.
Proof.
  intros Hwf Hp Hc. destruct p as [o l]. apply elem_of_in_ranges in Hp as (Ho & _ & ->); [|done].
  simpl in *. apply list_elem_of_omap in Hc as (id & Hid & Hc).
  destruct (mw_listed _ Hwf _ _ _ Ho Hid) as (c' & Hc' & Hn & Hs).
  rewrite Hc in Hc'. injection Hc' as <-. destruct (mw_chunk _ Hwf _ _ Hc) as [-> _].
  split_and!; [done|done| |done]. destruct c; simpl in *; by subst.
Qed.

(** What the receiver's store and index hold after taking in the stream. *)
Lemma ingest_stream ranges src (objs : gmap string MetaObject)
    (cs : gmap Z MetaChunk) (idx : ChunkIndex)
    (es := partition_entries (objects_in_hash_ranges ranges src))
    (objs' := foldl (λ m obj, <[mo_name obj := obj]> m) objs (omap received_object es))
    (cs' := foldl (λ m c, <[mc_id c := c]> m) cs (omap received_chunk es))
    (idx' := bulk_insert (omap received_index_entry es) idx) :
  ms_wf src →
  (∀ k o, objects src !! k = Some o → hash_in_ranges (hash_key k) ranges = true →
    objs' !! k = Some (as_received o) ∧
    ∀ id, id ∈ mo_chunks o → cs' !! id = chunks src !! id ∧ idx' !! id = Some k) ∧
  (∀ k, objects src !! k = None ∨ hash_in_ranges (hash_key k) ranges = false →
    objs' !! k = objs !! k).
Proof.
  intros Hwf. split.
  - intros k o Ho Hh. destruct (mw_object _ Hwf _ _ Ho) as [Hk _]. subst k.
    assert ((o, omap (λ id, chunks src !! id) (mo_chunks o)) ∈ objects_in_hash_ranges ranges src)
      as Hin by by apply elem_of_in_ranges.
    split.
    + apply (foldl_insert_in mo_name _ _ (as_received o)).
      * intros y ([o2 l2] & Hp & ->)%elem_of_received_objects Hy. simpl in *.
        apply elem_of_in_ranges in Hp as (Ho2 & _); [|done]. rewrite Hy, Ho in Ho2.
        by injection Ho2 as <-.
      * apply elem_of_received_objects. by eexists.
    + intros id Hid. destruct (mw_listed _ Hwf _ _ _ Ho Hid) as (c & Hc & Hcn & Hcs).
      destruct (mw_chunk _ Hwf _ _ Hc) as [Hcid _]. subst id.
      assert (c ∈ omap (λ id, chunks src !! id) (mo_chunks o)) as Hcin
        by (apply list_elem_of_omap; eauto).
      destruct (elem_of_sent_chunks _ _ _ _ Hwf Hin Hcin) as (_ & _ & Hconf & _).
      split.
      * rewrite Hc. apply (foldl_insert_in mc_id).
        -- intros y (p & c2 & Hp & Hc2 & ->)%elem_of_received_chunks Hy.
           destruct (elem_of_sent_chunks _ _ _ _ Hwf Hp Hc2) as (Hl & _ & Hc2f & _).
           rewrite Hc2f in *. rewrite Hy, Hc in Hl. by injection Hl as <-.
        -- apply elem_of_received_chunks. by eexists _, c.
      * apply bulk_insert_in.
        -- intros n (p & c2 & Hp & Hc2 & Hi & ->)%elem_of_received_index.
           destruct (elem_of_sent_chunks _ _ _ _ Hwf Hp Hc2) as (Hl & _ & _ & _).
           rewrite <- Hi, Hc in Hl. injection Hl as <-. done.
        -- apply elem_of_received_index. eexists _, c. by split_and!.
  - intros k Hk. apply foldl_insert_out. intros (o & -> & Hin)%list_elem_of_fmap.
    apply elem_of_received_objects in Hin as ([o2 l] & Hp & ->). simpl in Hk.
    apply elem_of_in_ranges in Hp as (Ho2 & Hh & _); [|done]. destruct Hk; congruence.
Qed.

(** ** Pulling a partition *)

Lemma serve_index_update es c :
  serve (BroadcastChunkIndex es) c = (Ok RespUnit, set_sv_index (bulk_insert es (sv_index c)) c).
Proof. done. Qed.

(** A broadcast of index entries ends with [Ok], and no peer's store changes. *)
Lemma broadcast_update_ok es addrs cw :
  ∃ l cw', broadcast (W := Network) resp_unit (BroadcastChunkIndex es) addrs cw = (Ok l, cw').
Proof.
  revert cw. induction addrs as [|a addrs IH]; intros [c w]; [by eexists _, _|].
  simpl. unfold call_peer, expect. run_st.
  destruct (get_peer_client a (c, w)) as [r1 [c1 w1]] eqn:Hg.
  assert (r1 ≠ Panic) as Hr1.
  { revert Hg. unfold get_peer_client. destruct (cached_client a c); [by intros [= <- _ _]|].
    destruct (peer_connect _ w) as [[] ?]; by intros [= <- _ _]. }
  destruct r1 as [client|e|]; [|destruct (IH (c1, w1)) as (l & cw' & ->); by eexists _, _|done].
  unfold rpc. cbn. destruct (w1 !! client) as [p|].
  - unfold broadcast_chunk_index, on_index. run_st. cbn.
    match goal with |- context [broadcast _ _ _ (c1, ?w2)] =>
      destruct (IH (c1, w2)) as (l & cw' & ->) end.
    by eexists _, _.
  - destruct (IH (c1, w1)) as (l & cw' & ->). by eexists _, _.
Qed.

Lemma index_update_ok es (n : MetaNode Network) :
  ∃ n', broadcast_chunk_index_update es n = (Ok (), n') ∧ mn_server n' = mn_server n ∧
    ∀ endpoint peer, mn_world n !! endpoint = Some peer →
      ∃ peer', mn_world n' !! endpoint = Some peer' ∧ sv_store peer' = sv_store peer.
Proof.
  unfold broadcast_chunk_index_update, mbind, ST_bind.
  destruct (broadcast_all resp_unit (BroadcastChunkIndex es) n) as [r n'] eqn:Hb.
  destruct (broadcast_all_inv _ _ _ _ _ Hb) as (Hs & _ & HQ).
  exists n'. split.
  - revert Hb. unfold broadcast_all, on_net, zoom. run_st.
    edestruct (broadcast_update_ok es) as (l & cw' & Hl). rewrite Hl. by intros [= <- <-].
  - split; [done|]. intros endpoint peer Hw.
    by apply (HQ (λ c, sv_store c = sv_store peer) endpoint peer).
Qed.

(** Taking in a stream: the save, the index and the broadcast. *)
Lemma take_in_stream es (n : MetaNode Network) s' :
  store_calm (sv_store (mn_server n)) →
  s' = set_chunks (foldl (λ m c, <[mc_id c := c]> m) (chunks (sv_store (mn_server n)))
          (omap received_chunk es))
        (set_objects (foldl (λ m obj, <[mo_name obj := obj]> m) (objects (sv_store (mn_server n)))
          (omap received_object es)) (sv_store (mn_server n))) →
  ∃ n' d, (_ ← on_server (with_store internal_status
             (ingest_partition (omap received_object es) (omap received_chunk es)));
           _ ← with_index (bulk_insert (omap received_index_entry es));
           broadcast_chunk_index_update (omap received_index_entry es)) n = (Ok (), n') ∧
    mn_server n' = mkClusterServer (set_disk d s')
      (bulk_insert (omap received_index_entry es) (sv_index (mn_server n))) ∧
    ∀ endpoint peer, mn_world n !! endpoint = Some peer →
      ∃ peer', mn_world n' !! endpoint = Some peer' ∧ sv_store peer' = sv_store peer.
Proof.
  intros Hcalm ->. unfold on_server, with_store, ingest_partition, zoom, rethrow, with_index.
  unfold on_server, zoom, on_index. cbv [mbind ST_bind modify].
  match goal with |- context [save ?s] =>
    assert (store_calm s) as Hc by exact Hcalm; destruct (save_calm s Hc) as (d & -> & _) end.
  cbn.
  match goal with |- context [broadcast_chunk_index_update ?es ?n] =>
    destruct (index_update_ok es n) as (n' & -> & Hs & Hw) end.
  by exists n', d.
Qed.

Lemma pull_partition_spec (n : MetaNode Network) addr ranges endpoint peer
    (src := sv_store peer) :
  ms_wf src → store_calm (sv_store (mn_server n)) →
  leads_to addr endpoint (mn_cluster n) → mn_world n !! endpoint = Some peer →
  ∃ n', pull_partition addr ranges n = (Ok (), n') ∧
    (∀ k o, objects src !! k = Some o → hash_in_ranges (hash_key k) ranges = true →
      objects (sv_store (mn_server n')) !! k = Some (as_received o) ∧
      ∀ id, id ∈ mo_chunks o →
        chunks (sv_store (mn_server n')) !! id = chunks src !! id ∧
        sv_index (mn_server n') !! id = Some k) ∧
    (∀ k, objects src !! k = None ∨ hash_in_ranges (hash_key k) ranges = false →
      objects (sv_store (mn_server n')) !! k = objects (sv_store (mn_server n)) !! k) ∧
    storage_nodes (sv_store (mn_server n')) = storage_nodes (sv_store (mn_server n)) ∧
    ∃ peer', mn_world n' !! endpoint = Some peer' ∧ sv_store peer' = src.
Proof.
  intros Hwf Hcalm Hl Hw.
  destruct (on_net_call resp_partition addr endpoint (TransferPartition ranges) peer
    (Ok (RespPartition (partition_entries (objects_in_hash_ranges ranges src)))) peer n)
    as (c' & Hc & _); [done|done|done|].
  unfold pull_partition. rewrite (bind_ok _ _ _ _ _ Hc).
  set (es := partition_entries _) in *. set (n1 := set_net _ n).
  pose proof (ingest_stream ranges src (objects (sv_store (mn_server n)))
    (chunks (sv_store (mn_server n))) (sv_index (mn_server n)) Hwf) as [Hin Hout]. fold es in Hin, Hout.
  case_decide as Hemp.
  - destruct Hemp as [He1 He2]. rewrite He1 in Hin, Hout. exists n1. split_and!; [done| |exact Hout|done|].
    + intros k o Ho Hh. exfalso. destruct (mw_object _ Hwf _ _ Ho) as [Hk _]. subst k.
      assert (as_received o ∈ omap received_object es) as Hi; [|rewrite He1 in Hi; by apply not_elem_of_nil in Hi].
      apply elem_of_received_objects. eexists (o, _). split; [|done]. by apply elem_of_in_ranges.
    + exists peer. split; [|done]. apply lookup_insert_eq.
  - destruct (take_in_stream es n1 _ Hcalm eq_refl) as (n' & d & Hr & Hs & Hp).
    exists n'. split; [exact Hr|]. rewrite Hs. split_and!; [exact Hin|exact Hout|done|].
    apply Hp, lookup_insert_eq.
Qed.

(** C30: a joining node that pulls a peer's partition gets every object of the peer in
    its ranges with its list of chunks, each of these chunks as the peer has it, and
    their entries in the chunk index; its other objects stay. The size of the pulled
    objects is lost, and the peer keeps its copies. *)
Theorem pull_partition_moves_the_range (n : MetaNode Network) addr ranges endpoint peer
    (src := sv_store peer) :
  ms_wf src → store_calm (sv_store (mn_server n)) →
  leads_to addr endpoint (mn_cluster n) → mn_world n !! endpoint = Some peer →
  ∃ n', pull_partition addr ranges n = (Ok (), n') ∧
    (∀ k o, objects src !! k = Some o → hash_in_ranges (hash_key k) ranges = true →
      objects (sv_store (mn_server n')) !! k = Some (as_received o) ∧
      ∀ id, id ∈ mo_chunks o →
        chunks (sv_store (mn_server n')) !! id = chunks src !! id ∧
        sv_index (mn_server n') !! id = Some k) ∧
    (∀ k, objects src !! k = None ∨ hash_in_ranges (hash_key k) ranges = false →
      objects (sv_store (mn_server n')) !! k = objects (sv_store (mn_server n)) !! k) ∧
    ∃ peer', mn_world n' !! endpoint = Some peer' ∧ sv_store peer' = src.
Proof.
  intros Hwf Hcalm Hl Hw.
  destruct (pull_partition_spec n addr ranges endpoint peer Hwf Hcalm Hl Hw)
    as (n' & Hr & Hin & Hout & _ & Hp). by exists n'.
Qed.

(** A read served here needs every storage node of the object's chunks. *)
Lemma get_object_unregistered (n : MetaNode Network) name o id c x (s := sv_store (mn_server n)) :
  serves_itself n name → objects s !! name = Some o →
  (∀ i, i ∈ mo_chunks o → is_Some (chunks s !! i)) →
  id ∈ mo_chunks o → chunks s !! id = Some c → x ∈ mc_storage_nodes c →
  storage_nodes s !! x = None → (svc_get_object name n).1 = Err Internal.
Proof.
  intros Hs Ho Hall Hid Hc Hx Hn. unfold svc_get_object. rewrite route_object_here by done.
  unfold get_object_lookup, get_object_resolve, locked, on_server, zoom, get_object, count,
    current_store, lift_outcome. run_st. fold s. rewrite Ho. simpl. fold s.
  destruct (response_chunks_cases s (mo_chunks o) Hall) as [[Hr _]|[_ ->]]; [|done].
  rewrite list.Forall_forall in Hr. specialize (Hr id Hid c Hc).
  rewrite list.Forall_forall in Hr. destruct (Hr x Hx). congruence.
Qed.

(** A pulled object keeps the storage-node ids its former owner drew. The new owner
    does not know them, for it drew its own, and answers [Internal] to every read of the
    object. *)
Theorem pulled_object_is_unreadable (n n' : MetaNode Network) addr ranges endpoint peer k o id c x :
  ms_wf (sv_store peer) → store_calm (sv_store (mn_server n)) →
  leads_to addr endpoint (mn_cluster n) → mn_world n !! endpoint = Some peer →
  objects (sv_store peer) !! k = Some o → hash_in_ranges (hash_key k) ranges = true →
  id ∈ mo_chunks o → chunks (sv_store peer) !! id = Some c → x ∈ mc_storage_nodes c →
  storage_nodes (sv_store (mn_server n)) !! x = None →
  pull_partition addr ranges n = (Ok (), n') → serves_itself n' k →
  (svc_get_object k n').1 = Err Internal.
Proof.
  intros Hwf Hcalm Hl Hw Ho Hh Hid Hc Hx Hn Hr Hs.
  destruct (pull_partition_spec n addr ranges endpoint peer Hwf Hcalm Hl Hw)
    as (n1 & Hr1 & Hin & _ & Hnodes & _).
  rewrite Hr1 in Hr. injection Hr as ->.
  destruct (Hin k o Ho Hh) as [Ho' Hch].
  apply (get_object_unregistered n' k (as_received o) id c x); [done|done| |done| |done|].
  - intros i Hi. destruct (Hch i Hi) as [-> _]. by eapply listed_chunks.
  - by destruct (Hch id Hid) as [-> _].
  - by rewrite Hnodes.
Qed.

(** ** Joining again *)

(** A call to a peer changes nothing of the node but its connections. *)
Lemma on_net_place {A} (m : ST (ClusterManager * Network) Code A) (n : MetaNode Network) r n' :
  (∀ c w, same_routing c (m (c, w)).2.1) → on_net m n = (r, n') →
  mn_server n' = mn_server n ∧ ∀ k, serves_itself n k → serves_itself n' k.
Proof.
  intros Hm. unfold on_net, zoom. pose proof (Hm (mn_cluster n) (mn_world n)) as (Hr & Hi & Ha).
  destruct (m _) as [r1 [c1 w1]]. intros [= _ <-]. split; [done|]. intros k.
  unfold serves_itself, get_owner_addr. cbn in *. by rewrite Hr, Hi, Ha.
Qed.

Lemma expect_routing {A} (project : PeerResponse → option A) addr req c (w : Network) :
  same_routing c (expect project (call_peer addr req) (c, w)).2.1.
Proof.
  pose proof (call_peer_routing addr req c w) as Hr. unfold expect. run_st.
  destruct (call_peer addr req (c, w)) as [[resp|e|] [c1 w1]]; [|exact Hr..].
  by destruct (project resp).
Qed.

Lemma index_update_place es (n : MetaNode Network) r n' :
  broadcast_chunk_index_update es n = (r, n') →
  mn_server n' = mn_server n ∧ ∀ k, serves_itself n k → serves_itself n' k.
Proof.
  unfold broadcast_chunk_index_update, broadcast_all. run_st.
  destruct (on_net _ n) as [r1 n1] eqn:Hn.
  apply on_net_place in Hn as [Hs Hk]; [|intros c w; apply broadcast_routing].
  by destruct r1; intros [= _ <-].
Qed.

(** A node that has pulled can still save, and serves what it did. *)
Lemma pull_partition_place addr ranges (n : MetaNode Network) r n' :
  store_calm (sv_store (mn_server n)) → pull_partition addr ranges n = (r, n') →
  store_calm (sv_store (mn_server n')) ∧ ∀ k, serves_itself n k → serves_itself n' k.
Proof.
  intros Hc. unfold pull_partition. cbv [mbind ST_bind].
  destruct (on_net _ n) as [r1 n1] eqn:Hn.
  apply on_net_place in Hn as [Hs Hk]; [|intros c w; apply expect_routing]. rewrite <- Hs in Hc.
  destruct r1 as [es|e|]; [|by intros [= _ <-]..]. case_decide; [by intros [= _ <-]|].
  unfold on_server, with_store, ingest_partition, zoom, rethrow, with_index, on_server, zoom, on_index.
  cbv [mbind ST_bind modify].
  match goal with |- context [save ?s] => destruct (save_calm s) as (d & -> & Hd); [exact Hc|] end.
  cbn. match goal with |- context [broadcast_chunk_index_update ?es ?m] =>
    destruct (broadcast_chunk_index_update es m) as [r2 n2] eqn:Hb end.
  apply index_update_place in Hb as [Hs2 Hk2]. intros [= _ <-]. rewrite Hs2. split.
  - split; [exact Hd|apply Hc].
  - intros k Hsk. by apply Hk2, Hk.
Qed.

(** A deletion that is saved, here. *)
Lemma delete_saved (n : MetaNode Network) name o (s := sv_store (mn_server n)) :
  serves_itself n name → store_calm s → objects s !! name = Some o →
  ∃ n', svc_delete_object name n = (Ok (), n') ∧ serves_itself n' name ∧ mn_world n' = mn_world n ∧
    objects (sv_store (mn_server n')) !! name = None ∧ store_calm (sv_store (mn_server n')) ∧
    on_file (objects (sv_store (mn_server n')), chunks (sv_store (mn_server n')))
      (dk_main (ms_disk (sv_store (mn_server n')))).
Proof.
  intros Hs Hc Ho. unfold svc_delete_object. rewrite route_object_here by done.
  unfold current_store, locked, with_index, on_index, on_server, zoom, count. run_st. fold s.
  rewrite (delete_object_run _ _ _ Ho). unfold remove_object_of. rewrite Ho. set (sx := set_chunks _ _).
  destruct (save_calm sx) as (d & Hsave & Hd); [apply Hc|]. rewrite Hsave.
  destruct (save_spec sx) as (r & d' & Hsave' & Hfile). rewrite Hsave in Hsave'.
  injection Hsave' as <- Hdd. subst d'. destruct Hfile as [Hj [json Hm]].
  eexists. split; [done|]. split; [exact Hs|]. split; [done|]. cbn.
  split; [apply lookup_delete_eq|]. split; [split; [exact Hd|apply Hc]|].
  rewrite Hm in Hj |- *. by exists (persistent sx).
Qed.

(** A node that starts again from the file that [n] left, among the same peers. *)
Lemma started_again (n : MetaNode Network) rng cluster (s := sv_store (mn_server n)) :
  (∀ ps, json_to_string ps ≠ Some "") → store_calm s →
  on_file (objects s, chunks s) (dk_main (ms_disk s)) →
  ∃ n0 d, construct rng (ms_disk s) cluster (mn_world n) = (Ok n0, d) ∧
    let n' := (populate_chunk_index (set_forwarding_layer n0)).2 in
    mn_world n' = mn_world n ∧ mn_cluster n' = cluster ∧
    objects (sv_store (mn_server n')) = objects s ∧ store_calm (sv_store (mn_server n')).
Proof.
  intros Hne [Hsc Hj] Hf.
  destruct (store_new_on_file rng _ (ms_disk s) Hne Hsc Hf) as (s' & d & Hr & He & _ & _ & Hd & Hsc').
  injection He as Ho _. unfold construct. rewrite Hr. eexists _, d. split; [done|].
  cbv zeta. split_and!; [done|done|exact Ho|]. split; [|exact Hj].
  change (dk_script (ms_disk s') = []). by rewrite Hd.
Qed.

Lemma get_gone (n : MetaNode Network) name :
  serves_itself n name → objects (sv_store (mn_server n)) !! name = None →
  (svc_get_object name n).1 = Err NotFoundCode.
Proof.
  intros Hs Ho. unfold svc_get_object. rewrite route_object_here by done.
  unfold get_object_lookup, locked, on_server, zoom, get_object. run_st. by rewrite Ho.
Qed.

(** C17: A deleted object comes back. A joining node pulls an object from its former owner and
    becomes its owner; the object is deleted there, and is gone for those who ask for it;
    then the node stops and starts again from its file, without the object, and joins as it
    did before: it has the object again, as it was transferred first, because the transfers
    leave the former owner's copy where it is. *)
Theorem deleted_object_comes_back (n : MetaNode Network) addr ranges endpoint peer k o rng cluster :
  (∀ ps, json_to_string ps ≠ Some "") → store_calm (sv_store (mn_server n)) → serves_itself n k →
  leads_to addr endpoint (mn_cluster n) → leads_to addr endpoint cluster →
  mn_world n !! endpoint = Some peer → ms_wf (sv_store peer) →
  objects (sv_store peer) !! k = Some o → hash_in_ranges (hash_key k) ranges = true →
  ∃ n1 n2 n0 d n4,
    pull_partition addr ranges n = (Ok (), n1) ∧
    objects (sv_store (mn_server n1)) !! k = Some (as_received o) ∧
    svc_delete_object k n1 = (Ok (), n2) ∧ (svc_get_object k n2).1 = Err NotFoundCode ∧
    construct rng (ms_disk (sv_store (mn_server n2))) cluster (mn_world n2) = (Ok n0, d) ∧
    let n3 := (populate_chunk_index (set_forwarding_layer n0)).2 in
    objects (sv_store (mn_server n3)) !! k = None ∧
    pull_partition addr ranges n3 = (Ok (), n4) ∧
    objects (sv_store (mn_server n4)) !! k = Some (as_received o) ∧
    ∃ peer', mn_world n4 !! endpoint = Some peer' ∧ sv_store peer' = sv_store peer.
Proof.
  intros Hne Hcalm Hs Hl Hl2 Hw Hpwf Ho Hh.
  destruct (pull_partition_spec n addr ranges endpoint peer Hpwf Hcalm Hl Hw)
    as (n1 & Hp1 & Hin1 & _ & _ & peer1 & Hw1 & Hpeer1).
  destruct (pull_partition_place _ _ _ _ _ Hcalm Hp1) as [Hcalm1 Hs1]. specialize (Hs1 k Hs).
  destruct (Hin1 k o Ho Hh) as [Ho1 _].
  destruct (delete_saved n1 k _ Hs1 Hcalm1 Ho1) as (n2 & Hdel & Hs2 & Hw2 & Hgone & Hcalm2 & Hfile).
  destruct (started_again n2 rng cluster Hne Hcalm2 Hfile) as (n0 & d & Hst & Hw3 & Hc3 & Ho3 & Hcalm3).
  set (n3 := (populate_chunk_index _).2) in *.
  destruct (pull_partition_spec n3 addr ranges endpoint peer1) as (n4 & Hp4 & Hin4 & _ & _ & Hpeer4);
    [by rewrite Hpeer1|done|by rewrite Hc3|by rewrite Hw3, Hw2|].
  rewrite Hpeer1 in Hin4, Hpeer4. destruct (Hin4 k o Ho Hh) as [Ho4 _].
  exists n1, n2, n0, d, n4. split_and!; [done|done|done|by apply get_gone|done|].
  cbv zeta. fold n3. split; [by rewrite Ho3|]. by split_and!.
Qed.

End transfer.

(** ** Witnesses *)

#[local] Existing Instance toy_deps.
#[local] Existing Instance toy_xxh3.

Definition all_ranges : list (Z * Z) := [(0, u64_max)].

Lemma pull_partition_moves_the_range_witness :
  ∃ n', pull_partition b_addr all_ranges node_a = (Ok (), n') ∧
    objects (sv_store (mn_server n')) !! "photo" = Some (mkMetaObject "photo" 5 [22] 0) ∧
    chunks (sv_store (mn_server n')) !! 22 = Some photo_chunk ∧
    sv_index (mn_server n') !! 22 = Some "photo".
Proof.
  destruct (pull_partition_moves_the_range node_a b_addr all_ranges b_endpoint server_b
    store_b_wf store_a_calm node_a_leads eq_refl) as (n' & Hr & Hin & _).
  destruct (Hin "photo" photo eq_refl eq_refl) as [Ho Hc].
  destruct (Hc 22) as [Hch Hi]; [by left|].
  exists n'. split_and!; [exact Hr|exact Ho|exact Hch|exact Hi].
Defined.

Lemma pulled_object_is_unreadable_witness :
  let n' := (pull_partition b_addr all_ranges node_a_alone).2 in
  (svc_get_object "photo" n').1 = Err Internal.
Proof.
  intros n'.
  assert (pull_partition b_addr all_ranges node_a_alone = (Ok (), n')) as Hr.
  { rewrite (surjective_pairing (pull_partition b_addr all_ranges node_a_alone)).
    apply (f_equal (λ r, (r, n'))). vm_compute. reflexivity. }
  apply (pulled_object_is_unreadable node_a_alone n' b_addr all_ranges b_endpoint server_b
    "photo" photo 22 photo_chunk 11).
  - apply store_b_wf.
  - apply store_a_calm.
  - reflexivity.
  - reflexivity.
  - reflexivity.
  - reflexivity.
  - by left.
  - reflexivity.
  - by left.
  - reflexivity.
  - exact Hr.
  - right. vm_compute. reflexivity.
Defined.

(** Node "b" is empty and joins; "a" has the photo, which is "b"'s now. *)
Definition b_manager : ClusterManager :=
  mkClusterManager sample_ring "b" "0.0.0.0:3001" ∅ {["a" := "a:3001"]}.
Definition node_b_joining : MetaNode Network :=
  mkMetaNode (mkClusterServer store_a ∅) b_manager true meta_metrics_new {[a_endpoint := server_b]}.

Lemma deleted_object_comes_back_witness :
  ∃ n1 n2 n0 d n4, pull_partition "a:3001" all_ranges node_b_joining = (Ok (), n1) ∧
    svc_delete_object "photo" n1 = (Ok (), n2) ∧ (svc_get_object "photo" n2).1 = Err NotFoundCode ∧
    construct (mkRng [] []) (ms_disk (sv_store (mn_server n2))) b_manager (mn_world n2) = (Ok n0, d) ∧
    pull_partition "a:3001" all_ranges (populate_chunk_index (set_forwarding_layer n0)).2 = (Ok (), n4) ∧
    objects (sv_store (mn_server n4)) !! "photo" = Some (mkMetaObject "photo" 5 [22] 0).
Proof.
  destruct (deleted_object_comes_back node_b_joining "a:3001" all_ranges a_endpoint server_b "photo" photo
    (mkRng [] []) b_manager)
    as (n1 & n2 & n0 & d & n4 & Hp1 & _ & Hdel & Hget & Hst & _ & Hp4 & Ho4 & _).
  - intros ps. done.
  - apply store_a_calm.
  - by right.
  - reflexivity.
  - reflexivity.
  - reflexivity.
  - apply store_b_wf.
  - reflexivity.
  - reflexivity.
  - exists n1, n2, n0, d, n4. split; [exact Hp1|]. split; [exact Hdel|]. split; [exact Hget|].
    split; [exact Hst|]. split; [exact Hp4|exact Ho4].
Defined.
