(* ===== verification/ClusterRunTheorems.v ===== *)
(** * ClusterRunTheorems: what the metadata cluster keeps, whatever it is asked

    Invariants of every run of the cluster. *)

From S2P Require Import Prelude.
From S2P Require Import Grpc.
From S2P Require Import HashRing.
From S2P Require Import MetadataStore.
From S2P Require Import MetadataStoreFacts.
From S2P Require Import ChunkIndex.
From S2P Require Import ClusterService.
From S2P Require Import Cluster.
From S2P Require Import Forwarding.
From S2P Require Import MetadataService.
From S2P Require Import Network.
From S2P Require Import ClusterFacts.
From S2P Require Import RoutingFacts.
From S2P Require Import PublicService.
From S2P Require Import PublicFacts.
From S2P Require Import ClusterRun.
From S2P Require Import Samples.
From S2P Require Import SampleCluster.
Open Scope string_scope.
Open Scope list_scope.
Open Scope Z_scope.

Section theorems.
Context `{MetaDeps} `{Xxh3}.

(** In any run of the cluster, whatever requests arrive at whatever nodes, whichever nodes
    can be reached, whichever storage nodes fail their health check and however the
    membership changes: every node's store stays well formed and its chunk index has every
    chunk its objects list, under the object's name. Migration is left out. *)
Theorem every_run_keeps_every_node C C' e n :
  all_ok C → rtc cluster_step C C' → C' !! e = Some n →
  ms_wf (sv_store (mn_server n)) ∧
  ∀ k o id, objects (sv_store (mn_server n)) !! k = Some o → id ∈ mo_chunks o →
    sv_index (mn_server n) !! id = Some k ∧
    ∃ c, chunks (sv_store (mn_server n)) !! id = Some c ∧ mc_object_name c = k.
Proof.
  intros Hok Hrun Hn.
  assert (all_ok C') as Hok'.
  { clear Hn. induction Hrun; [done|]. by eapply IHHrun, step_all_ok. }
  destruct (Hok' e n Hn) as [Hwf Hi _]. split; [done|]. intros k o id Ho Hid.
  split; [by eapply Hi|]. destruct (mw_listed _ Hwf _ _ _ Ho Hid) as (c & ? & ? & _). by exists c.
Qed.

End theorems.

(** ** Witnesses *)

#[local] Existing Instance toy_deps.
#[local] Existing Instance toy_xxh3.

(** A chunk is put through "a", then the ring changes: "a" has left. *)
Definition after_put_chunk : Cluster :=
  default ∅ (snd <$> at_node a_endpoint {[b_endpoint]} (handle (PutChunk "photo" 9)) two_nodes).

Lemma every_run_keeps_every_node_witness :
  ∃ n, after_put_chunk !! b_endpoint = Some n ∧
    size (chunks (sv_store (mn_server n))) = 2%nat ∧ ms_wf (sv_store (mn_server n)).
Proof.
  assert (∃ n, after_put_chunk !! b_endpoint = Some n ∧ size (chunks (sv_store (mn_server n))) = 2%nat)
    as (n & Hn & Hs).
  { destruct (after_put_chunk !! b_endpoint) as [n|] eqn:Hn.
    - exists n. split; [done|]. transitivity (default O ((λ n, size (chunks (sv_store (mn_server n))))
        <$> after_put_chunk !! b_endpoint)); [by rewrite Hn|]. vm_compute. reflexivity.
    - exfalso. assert (is_Some (after_put_chunk !! b_endpoint)) as [? Hx];
        [|by rewrite Hn in Hx]. vm_compute. eexists. reflexivity. }
  exists n. split_and!; [exact Hn|exact Hs|].
  apply (every_run_keeps_every_node two_nodes after_put_chunk b_endpoint n).
  - apply two_nodes_ok.
  - apply rtc_once, step_handle. eapply (step_request _ a_endpoint {[b_endpoint]} (PutChunk "photo" 9)).
    vm_compute. reflexivity.
  - exact Hn.
Defined.
