(* ===== verification/Sharding.v ===== *)
(** * Sharding: with a stable membership every object is on one node

    When every metadata node has the same ring and knows the others' addresses, objects are
    stored on their owner only, whatever is asked of whatever node; and for requests on
    objects the cluster is one map from names to objects. *)

From S2P Require Import Prelude.
From S2P Require Import Grpc.
From S2P Require Import HashRing.
From S2P Require Import MetadataStore.
From S2P Require Import MetadataStoreFacts.
From S2P Require Import ChunkIndex.
From S2P Require Import ClusterService.
From S2P Require Import Cluster.
From S2P Require Import Forwarding.
From S2P Require Import MetadataService.
From S2P Require Import Network.
From S2P Require Import ClusterFacts.
From S2P Require Import RoutingFacts.
From S2P Require Import PublicService.
From S2P Require Import PublicFacts.
From S2P Require Import ClusterRun.
From S2P Require Import Samples.
From S2P Require Import SampleCluster.
Open Scope string_scope.
Open Scope list_scope.
Open Scope Z_scope.

(** ** Only [put_object] adds an object *)

Section names.
Context `{MetaDeps}.

(** The objects after [m] were there before, or are called [new]. *)
Definition adds {A} (new : string → Prop) (m : MS A) : Prop :=
  ∀ s k, is_Some (objects (m s).2 !! k) → is_Some (objects s !! k) ∨ new k.

Abbreviation adds_none m := (adds (λ _, False) m).

Lemma objects_save s : objects (save s).2 = objects s.
Proof. destruct (save_spec s) as (r & d & -> & _). done. Qed.

Lemma save_bind {A} (f : outcome ErrorKind A * MetadataStore → Prop) (a : A) s :
  (∀ r, f (r, (save s).2)) → f ((_ ← save; mret a) s).
Proof. intros Hf. run_st. destruct (save s) as [[[]|e|] s1]; apply Hf. Qed.

Lemma put_object_adds name checksum : adds (eq name) (put_object checksum name).
Proof.
  intros s k. unfold put_object. run_st. case_decide; [by left|]. rewrite objects_save. simpl.
  rewrite lookup_insert. case_decide; [by right|by left].
Qed.

Lemma delete_object_adds name : adds_none (delete_object name).
Proof.
  intros s k. unfold delete_object. run_st. destruct (objects s !! name); [|by left].
  rewrite objects_save. simpl. rewrite lookup_delete. case_decide; [by intros []|by left].
Qed.

Lemma insert_known {A} (m : gmap string A) name k x y :
  m !! name = Some y → is_Some (<[name := x]> m !! k) → is_Some (m !! k).
Proof. intros Hy. rewrite lookup_insert. case_decide; [by subst; rewrite Hy|done]. Qed.

Lemma objects_unique_id {A} (f : MetadataStore → gmap Z A) s :
  objects (generate_unique_id f s).2 = objects s.
Proof.
  destruct (generate_unique_id f s) as [r s'] eqn:Hg. apply generate_unique_id_spec in Hg.
  by destruct Hg as (rng & -> & _).
Qed.

Lemma put_chunk_adds name checksum : adds_none (put_chunk name checksum).
Proof.
  intros s k. unfold put_chunk. cbv [mbind ST_bind].
  pose proof (objects_unique_id chunks s) as Hg.
  destruct (generate_unique_id chunks s) as [[id|e|] s1]; simpl in Hg; [|cbn; rewrite Hg; by left..].
  destruct (choose_storage_node_spec s1) as (n & rng & -> & _).
  destruct n as [n|]; [|cbn; rewrite Hg; by left].
  run_st. simpl. rewrite Hg. destruct (objects s !! name) as [o|] eqn:Ho; [|cbn; rewrite Hg; by left].
  match goal with |- context [save ?x] => pose proof (objects_save x) as Hs; destruct (save x) as [[]] end.
  all: simpl in *; rewrite Hs; intros Hk; left; by eapply insert_known.
Qed.

Lemma allocate_chunk_adds name : adds_none (allocate_chunk name).
Proof.
  intros s k. unfold allocate_chunk. cbv [mbind ST_bind].
  pose proof (objects_unique_id chunks s) as Hg.
  destruct (generate_unique_id chunks s) as [[id|e|] s1]; simpl in Hg; [|cbn; rewrite Hg; by left..].
  destruct (choose_storage_node_spec s1) as (n & rng & -> & _).
  destruct n as [n|]; run_st; simpl; rewrite Hg; by left.
Qed.

Lemma confirm_chunk_adds id name checksum n : adds_none (confirm_chunk id name checksum n).
Proof.
  intros s k. destruct (confirm_chunk id name checksum n s) as [r s'] eqn:Hr.
  apply confirm_chunk_cases in Hr as [(e & _ & ->)|(o & Ho & _ & Hs)]; [by left|].
  pose proof (f_equal (λ p, objects p.2) Hs) as Ho'. cbv beta in Ho'.
  rewrite objects_save in Ho'. simpl in *.
  rewrite <- Ho'. intros Hk. left. by eapply insert_known.
Qed.

Lemma delete_chunk_adds id : adds_none (delete_chunk id).
Proof.
  intros s k. unfold delete_chunk. run_st. destruct (chunks s !! id) as [c|]; [|by left]. simpl.
  destruct (objects s !! mc_object_name c) as [o|] eqn:Ho; [|by left].
  rewrite objects_save. simpl. intros Hk. left. by eapply insert_known.
Qed.

Lemma update_object_checksum_adds name checksum size :
  adds_none (update_object_checksum name checksum size).
Proof.
  intros s k. unfold update_object_checksum. run_st.
  destruct (objects s !! name) as [o|] eqn:Ho; [|by left].
  rewrite objects_save. simpl. intros Hk. left. by eapply insert_known.
Qed.

Lemma add_chunk_replica_adds id n : adds_none (add_chunk_replica id n).
Proof.
  intros s k. unfold add_chunk_replica. run_st. case_decide; [|by left].
  destruct (chunks s !! id) as [c|]; [|by left]. case_decide; [by left|].
  case_match; [by left|]. rewrite objects_save. by left.
Qed.

Lemma construct_storage_node_adds address : adds_none (construct_storage_node address).
Proof.
  intros s k. unfold construct_storage_node, meta_storage_node_new. cbv [mbind ST_bind].
  pose proof (objects_unique_id storage_nodes s) as Hg.
  destruct (generate_unique_id storage_nodes s) as [[id|e|] s1]; simpl in Hg; [|cbn; rewrite Hg; by left..].
  run_st. destruct (uri_ok address); simpl; rewrite Hg; by left.
Qed.

Lemma delete_storage_node_adds id : adds_none (delete_storage_node id).
Proof.
  intros s k. unfold delete_storage_node. run_st. destruct (storage_nodes s !! id); by left.
Qed.

End names.

Section sharding.
Context `{MetaDeps} `{Xxh3}.

(** What follows the store's operation in a handler leaves the store alone. *)
Definition store_kept {A B} (f : A → CS B) : Prop := ∀ a c, sv_store (f a c).2 = sv_store c.

Lemma bind_store {A B} (m : CS A) (f : A → CS B) c :
  store_kept f → sv_store ((m ≫= f) c).2 = sv_store (m c).2.
Proof.
  intros Hf. cbv [mbind ST_bind]. destruct (m c) as [[a|e|] c']; [|done..]. apply Hf.
Qed.

(** The store operation of each request between peers. *)
Definition store_part (p : PeerRequest) : MS unit :=
  let none {A} (m : MS A) : MS unit := _ ← m; mret () in
  match p with
  | ForwardPutObject name checksum => put_object checksum name
  | ForwardDeleteObject name => delete_object name
  | ForwardPutChunk name checksum => none (put_chunk name checksum)
  | ForwardAllocateChunk name => none (allocate_chunk name)
  | ForwardConfirmChunk id name checksum node => confirm_chunk id name checksum node
  | ForwardDeleteChunk id => delete_chunk id
  | ForwardAddChunkReplica id node => add_chunk_replica id node
  | BroadcastPutStorageNode address => none (construct_storage_node address)
  | BroadcastDeleteStorageNode id => delete_storage_node id
  | _ => mret ()
  end.

Lemma served_store p c : sv_store (served_by p c) = (store_part p (sv_store c)).2.
Proof.
  assert (∀ A so (m : MS A), sv_store (with_store so m c).2 = (m (sv_store c)).2) as Hw.
  { intros A so m. unfold with_store, zoom, rethrow. by destruct (m (sv_store c)). }
  assert (∀ A (m : MS A) s, ((_ ← m; mret ()) s : outcome ErrorKind unit * MetadataStore).2 = (m s).2) as Hn.
  { intros A m s. run_st. by destruct (m s) as [[]]. }
  unfold served_by. destruct p; cbn [serve store_part]; rewrite ?Hn;
    try (rewrite bind_store by done).
  - unfold forward_put_object. by rewrite Hw.
  - unfold forward_get_object. rewrite bind_store, Hw.
    + unfold get_object. run_st. by destruct (objects _ !! _).
    + intros a c'. run_st. unfold lift_outcome. by destruct (chunks_or_internal _ _).
  - unfold forward_delete_object. run_st.
    match goal with |- context [with_store ?so ?m c] => pose proof (Hw _ so m) as Hm;
      destruct (with_store so m c) as [[[]|e|] c'] end; exact Hm.
  - rewrite bind_store by (by intros []). unfold forward_put_chunk.
    rewrite bind_store by (by intros []). by rewrite Hw.
  - unfold forward_allocate_chunk. rewrite bind_store by (by intros [[]]). by rewrite Hw.
  - unfold forward_confirm_chunk. rewrite bind_store by done. by rewrite Hw.
  - unfold forward_get_chunk. rewrite bind_store by (by intros []). rewrite Hw.
    unfold get_chunk. run_st. by destruct (chunks _ !! _).
  - unfold forward_delete_chunk. rewrite bind_store by done. by rewrite Hw.
  - unfold forward_add_chunk_replica. by rewrite Hw.
  - unfold broadcast_put_storage_node. by rewrite Hw.
  - unfold broadcast_delete_storage_node. by rewrite Hw.
  - done.
  - done.
  - done.
  - done.
Qed.

Lemma adds_bind_ret {A} new (m : MS A) : adds new m → adds new (_ ← m; mret ()).
Proof. intros Hm s k Hk. apply Hm. revert Hk. run_st. by destruct (m s) as [[]]. Qed.

Lemma adds_more {A} new (m : MS A) : adds (λ _, False) m → adds new m.
Proof. intros Hm s k Hk. destruct (Hm s k Hk) as [?|[]]; by left. Qed.

(** A request between peers adds an object only if it is [ForwardPutObject]. *)
Lemma served_adds p : adds (λ k, ∃ checksum, p = ForwardPutObject k checksum) (store_part p).
Proof.
  destruct p; cbn [store_part]; [|apply adds_more..].
  { intros s k Hk. apply put_object_adds in Hk as [?|<-]; eauto. }
  all: try (intros s k Hk; by left).
  - apply delete_object_adds.
  - apply adds_bind_ret, put_chunk_adds.
  - apply adds_bind_ret, allocate_chunk_adds.
  - apply confirm_chunk_adds.
  - apply delete_chunk_adds.
  - apply add_chunk_replica_adds.
  - apply adds_bind_ret, construct_storage_node_adds.
  - apply delete_storage_node_adds.
Qed.

Lemma served_names p c k :
  is_Some (objects (sv_store (served_by p c)) !! k) →
  is_Some (objects (sv_store c) !! k) ∨ ∃ checksum, p = ForwardPutObject k checksum.
Proof. rewrite served_store. apply served_adds. Qed.

Lemma served_names_iter p n c k :
  is_Some (objects (sv_store (Nat.iter n (served_by p) c)) !! k) →
  is_Some (objects (sv_store c) !! k) ∨ ∃ checksum, p = ForwardPutObject k checksum.
Proof.
  induction n as [|n IH]; [by left|]. intros [Hk|?]%served_names; [by apply IH|by right].
Qed.

Lemma own_effect_names req c k :
  is_Some (objects (sv_store (own_effect req c)) !! k) →
  is_Some (objects (sv_store c) !! k) ∨ ∃ checksum, req = PutObject k checksum.
Proof.
  destruct (peer_request req) as [p|] eqn:Hp.
  - assert (own_effect req c = served_by p c) as -> by (destruct req; by simplify_eq/=).
    intros [?|(ck & ->)]%served_names; [by left|]. right. exists ck. destruct req; by simplify_eq/=.
  - destruct req; try (by left); [done..|]. cbn.
    intros Hk. by left; destruct (update_object_checksum_adds _ _ _ _ _ Hk) as [?|[]].
Qed.

(** ** The invariant *)

(** Every node forwards, has the ring [R] and right connections; it knows the address of
    every owner, at which no node with another id is; ids name one node each; and an object
    is stored on its owner only. *)
Record sharded (R : HashRing) (C : Cluster) : Prop := mkSharded {
  sh_node e n : C !! e = Some n →
    mn_forwarding n = true ∧ cm_ring (mn_cluster n) = R ∧ clients_right (mn_cluster n);
  sh_known e n name owner : C !! e = Some n → get_owner R name = Some owner →
    owner ≠ cm_node_id (mn_cluster n) → is_Some (cm_peer_addrs (mn_cluster n) !! owner);
  sh_addr e n id addr e2 n2 : C !! e = Some n → cm_peer_addrs (mn_cluster n) !! id = Some addr →
    id ≠ cm_node_id (mn_cluster n) → C !! e2 = Some n2 →
    e2 = endpoint_of addr ↔ cm_node_id (mn_cluster n2) = id;
  sh_ids e1 e2 n1 n2 : C !! e1 = Some n1 → C !! e2 = Some n2 →
    cm_node_id (mn_cluster n1) = cm_node_id (mn_cluster n2) → e1 = e2;
  sh_owns e n k : C !! e = Some n → is_Some (objects (sv_store (mn_server n)) !! k) →
    get_owner R k = Some (cm_node_id (mn_cluster n));
}.

(** Where a request on an object goes. *)
Lemma sharded_destination R C e n req name w :
  R ≠ [] → sharded R C → C !! e = Some n → routed_by req (plug w n) = Some name →
  ∃ owner, get_owner R name = Some owner ∧
  match destination req (plug w n) with
  | Some addr => owner ≠ cm_node_id (mn_cluster n) ∧ cm_peer_addrs (mn_cluster n) !! owner = Some addr
  | None => owner = cm_node_id (mn_cluster n)
  end.
Proof.
  intros HR Hsh Hn Hr. destruct (sh_node _ _ Hsh _ _ Hn) as (Hf & Hring & _).
  assert (∃ owner, get_owner R name = Some owner) as [owner Ho].
  { unfold get_owner, owner_at. destruct R as [|[h i] R]; [done|].
    destruct (range_next _ _) as [[]|]; eauto. }
  exists owner. split; [done|]. unfold destination. cbn [mn_forwarding plug]. rewrite Hf, Hr. simpl.
  unfold get_owner_addr. rewrite Hring, Ho. case_decide as Hown; [done|].
  destruct (sh_known _ _ Hsh _ _ _ _ Hn Ho Hown) as [addr Ha]. by rewrite Ha.
Qed.

Lemma same_member_sharded R C C' :
  sharded R C →
  (∀ x n', C' !! x = Some n' → ∃ n, C !! x = Some n ∧ same_member n n') →
  (∀ x n' k, C' !! x = Some n' → is_Some (objects (sv_store (mn_server n')) !! k) →
    get_owner R k = Some (cm_node_id (mn_cluster n'))) → sharded R C'.
Proof.
  intros Hsh Hm Hown.
  assert (∀ x n', C' !! x = Some n' → ∃ n, C !! x = Some n ∧
    mn_forwarding n' = mn_forwarding n ∧ cm_ring (mn_cluster n') = cm_ring (mn_cluster n) ∧
    cm_node_id (mn_cluster n') = cm_node_id (mn_cluster n) ∧
    cm_peer_addrs (mn_cluster n') = cm_peer_addrs (mn_cluster n) ∧
    (clients_right (mn_cluster n) → clients_right (mn_cluster n'))) as Hsame.
  { intros x n' Hx. destruct (Hm x n' Hx) as (n & Hn & Hf & (? & ? & ?) & Hc). by exists n. }
  split; [..|exact Hown].
  - intros e n' (n & Hn & -> & -> & _ & _ & Hc)%Hsame.
    destruct (sh_node _ _ Hsh _ _ Hn) as (? & ? & ?). auto.
  - intros e n' name owner (n & Hn & _ & _ & -> & -> & _)%Hsame. by apply (sh_known _ _ Hsh e).
  - intros e n' id addr e2 n2' (n & Hn & _ & _ & -> & -> & _)%Hsame Ha Hid.
    intros (n2 & Hn2 & _ & _ & -> & _)%Hsame. by apply (sh_addr _ _ Hsh e n id addr).
  - intros e1 e2 n1' n2' (n1 & Hn1 & _ & _ & -> & _)%Hsame (n2 & Hn2 & _ & _ & -> & _)%Hsame.
    by apply (sh_ids _ _ Hsh).
Qed.

Lemma step_sharded R C C' : R ≠ [] → request_step C C' → sharded R C → sharded R C'.
Proof.
  intros HR [e up req r C2 Hr] Hsh.
  apply (same_member_sharded R C); [done| |].
  { intros x n' Hx. destruct (request_change _ _ _ _ _ _ _ _ Hr Hx) as (n & Hn & Hm & _). by exists n. }
  intros x n' k Hx Hk. destruct (request_change _ _ _ _ _ _ _ _ Hr Hx) as (n & Hn & (_ & (_ & Hid & _) & _) & Hc).
  rewrite Hid. assert (is_Some (objects (sv_store (mn_server n)) !! k) ∨
    ∃ checksum, req = PutObject k checksum) as [?|[ck ->]].
  { destruct Hc as [Hc|[Hc|(p & i & Hp & Hc)]]; rewrite Hc in Hk.
    - by left.
    - by apply own_effect_names.
    - apply served_names_iter in Hk as [?|[ck ->]]; [by left|right].
      exists ck. destruct req; by simplify_eq/=. }
  { by eapply (sh_owns _ _ Hsh). }
  destruct (decide (is_Some (objects (sv_store (mn_server n)) !! k))) as [|Hnew];
    [by eapply (sh_owns _ _ Hsh)|].
  destruct (routed_change _ _ _ _ _ _ Hr eq_refl) as (m & Hm & Hd).
  destruct (sharded_destination R C e m (PutObject k ck) k (others e up C) HR Hsh Hm eq_refl)
    as (owner & Ho & Hdest). rewrite Ho. f_equal.
  destruct (destination _ _) as [addr|].
  - destruct Hdest as [Hne Ha], Hd as (p & endpoint & _ & Hl & Hd).
    destruct (Hd x n' Hx) as (n0 & Hn0 & Hs). rewrite Hn in Hn0. injection Hn0 as <-.
    case_decide as Hxe; [|by rewrite Hs in Hk]. destruct Hxe as (-> & _ & _).
    symmetry. apply (sh_addr _ _ Hsh e m owner addr endpoint n); [done..|].
    apply (leads_to_right addr endpoint (mn_cluster m)); [|done].
    by apply (sh_node _ _ Hsh _ _ Hm).
  - destruct (Hd x n' Hx) as (n0 & Hn0 & Hs). rewrite Hn in Hn0. injection Hn0 as <-.
    case_decide as Hxe; [|by rewrite Hs in Hk]. subst x. rewrite Hn in Hm. by injection Hm as <-.
Qed.

(** C16: Whatever is asked of whatever node, with whichever nodes out of reach: while the
    membership does not change, an object is stored on one node at most, its owner. *)
Theorem objects_stay_on_their_owner R C C' e1 e2 n1 n2 k :
  R ≠ [] → sharded R C → rtc request_step C C' →
  C' !! e1 = Some n1 → is_Some (objects (sv_store (mn_server n1)) !! k) →
  get_owner R k = Some (cm_node_id (mn_cluster n1)) ∧
  (C' !! e2 = Some n2 → is_Some (objects (sv_store (mn_server n2)) !! k) → e1 = e2).
Proof.
  intros HR Hsh Hrun H1 Hk1.
  assert (sharded R C') as Hsh' by (clear H1; induction Hrun; [done|]; by eapply IHHrun, step_sharded).
  pose proof (sh_owns _ _ Hsh' _ _ _ H1 Hk1) as Ho1. split; [done|]. intros H2 Hk2.
  pose proof (sh_owns _ _ Hsh' _ _ _ H2 Hk2) as Ho2. apply (sh_ids _ _ Hsh' _ _ _ _ H1 H2). congruence.
Qed.

(** ** One map *)

(** The cluster stores the objects of [m]. *)
Definition represents (C : Cluster) (m : gmap string MetaObject) : Prop :=
  ∀ k o, m !! k = Some o ↔ ∃ e n, C !! e = Some n ∧ objects (sv_store (mn_server n)) !! k = Some o.

(** The node at [eo] owns [name]. *)
Definition owns (R : HashRing) (C : Cluster) (name eo : string) (no : MetaNode unit) : Prop :=
  C !! eo = Some no ∧ get_owner R name = Some (cm_node_id (mn_cluster no)).

Lemma represents_owner R C m name eo no :
  sharded R C → represents C m → owns R C name eo no →
  m !! name = objects (sv_store (mn_server no)) !! name.
Proof.
  intros Hsh Hm [Hno Ho]. apply option_eq. intros o. rewrite (Hm name o). split.
  - intros (e & n & Hn & Hk).
    pose proof (sh_owns _ _ Hsh e n name Hn (mk_is_Some _ _ Hk)) as Hown.
    assert (e = eo) as -> by (eapply (sh_ids _ _ Hsh); [done..|congruence]). congruence.
  - intros Hk. by exists eo, no.
Qed.

(** [C'] is [C] with another server at [eo]. *)
Definition replaced (C C' : Cluster) (eo : string) (c : ClusterServer) : Prop :=
  (∀ x n, C !! x = Some n → ∃ n', C' !! x = Some n') ∧
  ∀ x n', C' !! x = Some n' → ∃ n, C !! x = Some n ∧
    mn_server n' = if decide (x = eo) then c else mn_server n.

Lemma replaced_represents R C C' m name eo no c v :
  sharded R C → represents C m → owns R C name eo no → replaced C C' eo c →
  (∀ k, objects (sv_store c) !! k =
    if decide (k = name) then v else objects (sv_store (mn_server no)) !! k) →
  represents C' (partial_alter (λ _, v) name m).
Proof.
  intros Hsh Hm [Hno Ho] [Hfw Hbw] Hc k o. split.
  - intros Hk. destruct (decide (k = name)) as [->|Hne].
    + rewrite lookup_partial_alter_eq in Hk. destruct (Hfw eo no Hno) as [n' Hn'].
      exists eo, n'. split; [done|]. destruct (Hbw eo n' Hn') as (n & Hn & Hs).
      rewrite Hs, decide_True, Hc, decide_True by done. exact Hk.
    + rewrite lookup_partial_alter_ne in Hk by done. apply Hm in Hk as (x & n & Hn & Hk).
      destruct (Hfw x n Hn) as [n' Hn']. exists x, n'. split; [done|].
      destruct (Hbw x n' Hn') as (n2 & Hn2 & Hs). rewrite Hs. case_decide as Hx; [|congruence].
      subst x. rewrite Hc, decide_False by done. congruence.
  - intros (x & n' & Hn' & Hk). destruct (Hbw x n' Hn') as (n & Hn & Hs). rewrite Hs in Hk.
    destruct (decide (k = name)) as [->|Hne].
    + rewrite lookup_partial_alter_eq. case_decide as Hx.
      * by rewrite Hc, decide_True in Hk.
      * destruct Hx. pose proof (sh_owns _ _ Hsh x n name Hn (mk_is_Some _ _ Hk)) as Hown.
        eapply (sh_ids _ _ Hsh); [done..|congruence].
    + rewrite lookup_partial_alter_ne by done. apply Hm. case_decide as Hx.
      * subst x. rewrite Hc, decide_False in Hk by done. by exists eo, no.
      * by exists x, n.
Qed.

Lemma replaced_same R C C' m name eo no c :
  sharded R C → represents C m → owns R C name eo no → replaced C C' eo c →
  objects (sv_store c) = objects (sv_store (mn_server no)) → represents C' m.
Proof.
  intros Hsh Hm Ho Hr Hc.
  rewrite <- (partial_alter_id (λ _, m !! name) m name) by done.
  apply (replaced_represents R C C' m name eo no c); [done..|]. intros k. rewrite Hc.
  case_decide; [subst k; by rewrite (represents_owner R C m name eo no)|done].
Qed.

(** ** A routed request, from any node *)

(** The node at [e] can reach the node at [eo]. *)
Definition reaches (e : string) (up : gset string) (eo : string) : Prop := e = eo ∨ eo ∈ up.

Lemma at_node_run {A} e up (m : MN A) C n r n' :
  C !! e = Some n → m (plug (others e up C) n) = (r, n') →
  at_node e up m C = Some (r, <[e := unplug n']> (write_back (mn_world n') C)).
Proof. intros Hn Hm. unfold at_node. rewrite Hn. simpl. by rewrite Hm. Qed.

Lemma replaced_here (C : Cluster) e up n (n' : MetaNode Network) :
  C !! e = Some n → mn_world n' = others e up C →
  replaced C (<[e := unplug n']> (write_back (mn_world n') C)) e (mn_server n').
Proof.
  intros Hn Hw. split.
  - intros x nx Hx. destruct (decide (x = e)) as [->|Hne]; [rewrite lookup_insert_eq; eauto|].
    rewrite lookup_insert_ne, lookup_write_back, Hx by done. simpl. eauto.
  - intros x nx. rewrite Hw. intros [[<- <-]|[Hne Hx]]%lookup_insert_Some.
    + exists n. by rewrite decide_True.
    + rewrite lookup_write_back, lookup_others in Hx. destruct (C !! x) as [n0|] eqn:Hn0; [|done].
      exists n0. split; [done|]. rewrite decide_False by done. injection Hx as <-. by case_decide.
Qed.

Lemma replaced_there (C : Cluster) e up n eo no (n' : MetaNode Network) c :
  C !! e = Some n → C !! eo = Some no → e ≠ eo → mn_server n' = mn_server n →
  mn_world n' = <[eo := c]> (others e up C) →
  replaced C (<[e := unplug n']> (write_back (mn_world n') C)) eo c.
Proof.
  intros Hn Hno Hne Hs Hw. split.
  - intros x nx Hx. destruct (decide (x = e)) as [->|Hxe]; [rewrite lookup_insert_eq; eauto|].
    rewrite lookup_insert_ne, lookup_write_back, Hx by done. simpl. eauto.
  - intros x nx. rewrite Hw. intros [[<- <-]|[Hxe Hx]]%lookup_insert_Some.
    + exists n. split; [done|]. by rewrite decide_False.
    + rewrite lookup_write_back in Hx. destruct (C !! x) as [n0|] eqn:Hn0; [|done].
      exists n0. split; [done|]. injection Hx as <-. destruct (decide (x = eo)) as [->|Hxo].
      * by rewrite lookup_insert_eq.
      * rewrite lookup_insert_ne, lookup_others by done. rewrite Hn0. by case_decide.
Qed.

Section routed.
Context {A : Type} (name : string) (p : PeerRequest) (project : PeerResponse → option A)
  (fwd : string → @MN Network A) (here : @MN Network A) (op : CS A) (inj : A → PeerResponse)
  (P : ClusterServer → outcome Code A → Prop).
Hypotheses (Hfwd : ∀ addr, fwd addr = on_net (expect project (call_peer addr p)))
  (Hserve : ∀ c, serve p c = (x ← op; mret (inj x)) c)
  (Hinj : ∀ a, project (inj a) = Some a)
  (Hhere : ∀ n r n', here n = (r, n') →
    mn_server n' = (op (mn_server n)).2 ∧ mn_world n' = mn_world n ∧ P (mn_server n) r)
  (Hop : ∀ c, P c (op c).1).

(** Through any node that reaches the owner the request is the owner's [op]; through one
    that does not, it is answered [Unavailable] and changes nothing. *)
Lemma routed_at R C e up n eo no :
  R ≠ [] → sharded R C → C !! e = Some n → owns R C name eo no →
  (reaches e up eo → ∃ r C', at_node e up (route_object name fwd here) C = Some (r, C') ∧
    P (mn_server no) r ∧ replaced C C' eo (op (mn_server no)).2) ∧
  (¬ reaches e up eo → ∃ C', at_node e up (route_object name fwd here) C = Some (Err Unavailable, C') ∧
    replaced C C' e (mn_server n)).
Proof.
  intros HR Hsh Hn [Hno Ho]. set (w := others e up C).
  destruct (sharded_destination R C e n (PutObject name 0) name w HR Hsh Hn eq_refl)
    as (owner & Ho' & Hd). rewrite Ho in Ho'. injection Ho' as <-.
  destruct (sh_node _ _ Hsh _ _ Hn) as (Hf & _ & Hcl).
  unfold destination in Hd. cbn [mn_forwarding plug routed_by] in Hd. rewrite Hf in Hd. simpl in Hd.
  destruct (get_owner_addr name (mn_cluster n)) as [addr|] eqn:Hgo.
  - destruct Hd as [Hne Ha]. assert (e ≠ eo) as Heo by (intros ->; congruence).
    assert (eo = endpoint_of addr) as Heo' by by apply (sh_addr _ _ Hsh e n _ addr eo no Hn Ha Hne).
    assert (leads_to addr eo (mn_cluster n)) as Hl.
    { unfold leads_to. destruct (cached_client addr (mn_cluster n)) as [client|] eqn:Hc; [|done].
      rewrite Heo'. apply (leads_to_right addr client (mn_cluster n) Hcl). unfold leads_to. by rewrite Hc. }
    assert (w !! eo = if decide (eo ∈ up) then Some (mn_server no) else None) as Hweo.
    { unfold w. rewrite lookup_others, Hno. by do 2 case_decide; naive_solver. }
    assert (route_object name fwd here (plug w n) = fwd addr (plug w n)) as Hroute.
    { unfold route_object, route_by_object, fl_route_by_object. run_st. cbn. by rewrite Hf, Hgo. }
    split.
    + intros [?|Hup]; [done|]. rewrite decide_True in Hweo by done.
      assert (forwards (plug w n) name eo (mn_server no)) as Hfw by (split; [done|by exists addr|done]).
      destruct (route_object_is_peers (plug w n) name eo (mn_server no) project p fwd here op inj)
        as (n' & Hrun & Hs & _ & _ & _ & Hw); [done..|].
      eexists _, _. split; [by apply (at_node_run _ _ _ _ n)|]. split; [apply Hop|].
      by apply (replaced_there C e up n eo no n').
    + intros Hup. rewrite decide_False in Hweo by (intros ?; apply Hup; by right).
      assert (∃ c', call_peer addr p (mn_cluster n, w) = (Err Unavailable, (c', w))) as (c' & Hc).
      { unfold call_peer, get_peer_client, rpc. run_st. unfold leads_to in Hl.
        destruct (cached_client addr (mn_cluster n)) as [client|].
        - subst client. cbn. rewrite Hweo. by eexists.
        - cbn. rewrite Hl, bool_decide_eq_false_2; [by eexists|]. rewrite Hweo. by intros []. }
      set (n' := set_net (c', w) (plug w n)).
      assert (route_object name fwd here (plug w n) = (Err Unavailable, n')) as Hrun.
      { rewrite Hroute, Hfwd. unfold on_net, zoom, expect. run_st. cbn. by rewrite Hc. }
      eexists. split; [by apply (at_node_run _ _ _ _ n)|].
      by apply (replaced_here C e up n n').
  - assert (e = eo) as -> by (eapply (sh_ids _ _ Hsh); [done..|congruence]).
    rewrite Hn in Hno. injection Hno as <-. split; [intros _|intros Hup; destruct Hup; by left].
    destruct (here (plug w n)) as [r n'] eqn:Hr. destruct (Hhere _ _ _ Hr) as (Hs & Hw & Hp).
    eexists r, _. split.
    { apply (at_node_run _ _ _ _ n); [done|]. rewrite route_object_here; [exact Hr|]. by right. }
    split; [exact Hp|]. cbn in Hs. rewrite <- Hs. by apply (replaced_here C eo up n n').
Qed.
End routed.

(** ** Requests on objects *)

Lemma put_object_outcome name checksum c (s := sv_store c) :
  server_ok c →
  is_ok (put_object checksum name s).1 = bool_decide (objects s !! name = None) ∧
  objects (put_object checksum name s).2 =
    if decide (objects s !! name = None) then <[name := new_object name checksum]> (objects s)
    else objects s.
Proof.
  intros Hc. unfold put_object. run_st. destruct (objects s !! name) as [o|] eqn:Ho.
  - rewrite decide_True by done. rewrite bool_decide_eq_false_2 by done. by rewrite decide_False.
  - rewrite decide_False by (by intros []). rewrite bool_decide_eq_true_2, decide_True by done.
    set (s1 := set_objects _ _). destruct (save_calm s1) as (d & -> & _); [apply (so_calm _ Hc)|]. done.
Qed.

Lemma delete_object_outcome name c (s := sv_store c) :
  server_ok c →
  is_ok (delete_object name s).1 = bool_decide (is_Some (objects s !! name)) ∧
  objects (delete_object name s).2 = delete name (objects s).
Proof.
  intros Hc. destruct (objects s !! name) as [o|] eqn:Ho.
  - rewrite (delete_object_run _ _ _ Ho). unfold remove_object_of. rewrite Ho.
    rewrite bool_decide_eq_true_2 by done.
    set (s1 := set_chunks _ _). destruct (save_calm s1) as (d & -> & _); [apply (so_calm _ Hc)|]. done.
  - unfold delete_object. run_st. rewrite Ho. rewrite bool_decide_eq_false_2 by (by intros []).
    split; [done|]. by rewrite delete_id.
Qed.

Lemma object_info_ids s k o :
  ms_wf s → objects s !! k = Some o → ci_id <$> oi_chunks (object_info s o) = mo_chunks o.
Proof.
  intros Hwf Ho. unfold object_info. cbn [oi_chunks].
  pose proof (listed_chunks s k o Hwf Ho) as Hall. induction (mo_chunks o) as [|id ids IH]; [done|].
  destruct (Hall id) as [c Hc]; [by left|]. simpl. rewrite Hc. simpl.
  destruct (mw_chunk _ Hwf _ _ Hc) as [-> _]. f_equal. apply IH. intros i Hi. apply Hall. by right.
Qed.

(** What the three requests on an object answer, on the server of its owner. *)
Definition put_answer (name : string) (c : ClusterServer) (r : outcome Code unit) : Prop :=
  server_ok c → is_ok r = bool_decide (objects (sv_store c) !! name = None).
Definition delete_answer (name : string) (c : ClusterServer) (r : outcome Code unit) : Prop :=
  server_ok c → is_ok r = bool_decide (is_Some (objects (sv_store c) !! name)).
Definition get_answer (name : string) (c : ClusterServer) (r : outcome Code GetObjectResponse) : Prop :=
  server_ok c →
  match objects (sv_store c) !! name with
  | None => r = Err NotFoundCode
  | Some o => r = Ok (mkGetObjectResponse (mo_checksum o) (oi_chunks (object_info (sv_store c) o))) ∨
      r = Err Internal ∧ ¬ all_registered (sv_store c) o
  end.

Lemma put_at R C e up n eo no name checksum :
  R ≠ [] → sharded R C → C !! e = Some n → owns R C name eo no → reaches e up eo →
  ∃ r C', at_node e up (svc_put_object name checksum) C = Some (r, C') ∧
    put_answer name (mn_server no) r ∧
    replaced C C' eo (forward_put_object name checksum (mn_server no)).2.
Proof.
  intros HR Hsh Hn Ho.
  eapply (routed_at name (ForwardPutObject name checksum) resp_unit _ _
    (forward_put_object name checksum) (λ _, RespUnit) (put_answer name)); [done|done|by intros []|..];
    [| |done..].
  - intros n0 r n'. unfold put_answer, locked, on_server, zoom, count, forward_put_object, with_store,
      zoom, rethrow. run_st. pose proof (put_object_outcome name checksum (mn_server n0)) as Hp.
    destruct (put_object checksum name (sv_store (mn_server n0))) as [[[]|er|] s] eqn:Hop; cbn;
      intros [= <- <-]; cbn in Hp; rewrite Hop in Hp; (split_and!; [done|done|]); intros Hok; by apply Hp.
  - intros c Hok. unfold forward_put_object, with_store, zoom, rethrow.
    destruct (put_object_outcome name checksum c Hok) as [Hp _]. revert Hp.
    by destruct (put_object checksum name (sv_store c)) as [[[]|er|] s].
Qed.

Lemma delete_at R C e up n eo no name :
  R ≠ [] → sharded R C → C !! e = Some n → owns R C name eo no → reaches e up eo →
  ∃ r C', at_node e up (svc_delete_object name) C = Some (r, C') ∧
    delete_answer name (mn_server no) r ∧
    replaced C C' eo (forward_delete_object name (mn_server no)).2.
Proof.
  intros HR Hsh Hn Ho.
  eapply (routed_at name (ForwardDeleteObject name) resp_unit _ _
    (forward_delete_object name) (λ _, RespUnit) (delete_answer name)); [done|done|by intros []|..];
    [| |done..].
  - intros n0 r n'. unfold delete_answer, current_store, locked, with_index, on_index, on_server, zoom,
      count, forward_delete_object, with_store, on_index, zoom, rethrow. run_st.
    pose proof (delete_object_outcome name (mn_server n0)) as Hp.
    destruct (delete_object name (sv_store (mn_server n0))) as [[[]|er|] s] eqn:Hop; cbn;
      intros [= <- <-]; cbn in Hp; rewrite Hop in Hp; (split_and!; [done|done|]); intros Hok; by apply Hp.
  - intros c Hok. unfold forward_delete_object, with_store, on_index, zoom, rethrow. run_st.
    destruct (delete_object_outcome name c Hok) as [Hp _]. revert Hp.
    by destruct (delete_object name (sv_store c)) as [[[]|er|] s].
Qed.

Lemma get_at R C e up n eo no name :
  R ≠ [] → sharded R C → C !! e = Some n → owns R C name eo no → reaches e up eo →
  ∃ r C', at_node e up (svc_get_object name) C = Some (r, C') ∧
    get_answer name (mn_server no) r ∧
    replaced C C' eo (forward_get_object name (mn_server no)).2.
Proof.
  intros HR Hsh Hn Ho.
  eapply (routed_at name (ForwardGetObject name) resp_object _ _
    (forward_get_object name) RespObject (get_answer name)); [done|done|done|..];
    [| |done..].
  - intros n0 r n'. unfold get_object_lookup, get_object_resolve, locked, current_store, on_server,
      zoom, count, get_answer, forward_get_object, with_store, get_object, zoom, rethrow, lift_outcome.
    run_st. destruct (objects (sv_store (mn_server n0)) !! name) as [o|] eqn:Hob; cbn.
    2: { intros [= <- <-]. by split_and!. }
    intros Hr.
    assert (n' = set_mn_metrics (inc_rpc "get_object" "ok" (mn_metrics n0))
      (set_server (set_sv_store (sv_store (mn_server n0)) (mn_server n0)) n0) ∧
      (server_ok (mn_server n0) →
        r = Ok (mkGetObjectResponse (mo_checksum o) (oi_chunks (object_info (sv_store (mn_server n0)) o))) ∨
        r = Err Internal ∧ ¬ all_registered (sv_store (mn_server n0)) o)) as [-> Hr'].
    { revert Hr. destruct (response_chunks _ _) as [l|er|] eqn:Hl; intros [= <- <-]; (split; [done|]).
      all: intros Hok; pose proof (response_chunks_cases _ _ (listed_chunks _ _ _ (so_wf _ Hok) Hob)) as Hc.
      all: rewrite Hl in Hc; destruct Hc as [[_ Hc]|[Hreg Hc]]; simplify_eq; first [by left|by right]. }
    cbn. split_and!; [|done|done]. by destruct (chunks_or_internal _ _).
  - intros c Hok. unfold forward_get_object, with_store, get_object, zoom, rethrow, lift_outcome. run_st.
    destruct (objects (sv_store c) !! name) as [o|] eqn:Hob; cbn; [|done].
    rewrite (chunks_or_internal_listed _ _ (listed_chunks _ _ _ (so_wf _ Hok) Hob)). simpl.
    by left.
Qed.

(** ** The cluster refines one map *)

(** What requests on objects do to one map from names to objects: [put_object] creates, and
    refuses a name in use; [delete_object] deletes, and refuses an unknown name. *)
Definition map_put (name : string) (checksum : Z) (m : gmap string MetaObject) :
    bool * gmap string MetaObject :=
  match m !! name with
  | Some _ => (false, m)
  | None => (true, <[name := new_object name checksum]> m)
  end.
Definition map_delete (name : string) (m : gmap string MetaObject) : bool * gmap string MetaObject :=
  match m !! name with Some _ => (true, delete name m) | None => (false, m) end.

(** The objects after a request between peers are those after its store operation. *)
Lemma forwarded_objects {A} p (op : CS A) c (inj : A → PeerResponse) :
  serve p = (x ← op; mret (inj x)) →
  objects (sv_store (op c).2) = objects (store_part p (sv_store c)).2.
Proof.
  intros Hs. rewrite <- served_store. unfold served_by. rewrite Hs. run_st.
  by destruct (op c) as [[]].
Qed.

(** A node answers [r] and the cluster goes on as [C'], representing [m']. *)
Definition goes_on {A} (R : HashRing) (m' : gmap string MetaObject)
    (run : option (outcome Code A * Cluster)) (answer : outcome Code A → Prop) : Prop :=
  ∃ r C', run = Some (r, C') ∧ answer r ∧ sharded R C' ∧ all_ok C' ∧ represents C' m'.

Lemma at_node_handled {A} (f : A → MetaResponse) req e up (svc : @MN Network A) C r C' :
  handle req = answer_with f svc → at_node e up svc C = Some (r, C') → request_step C C'.
Proof.
  intros Hreq Hr. revert Hr. unfold at_node. destruct (C !! e) as [n|] eqn:Hn; [|done]. simpl.
  destruct (svc (plug (others e up C) n)) as [r1 n'] eqn:Hs. intros [= <- <-].
  assert (∃ r2, handle req (plug (others e up C) n) = (r2, n')) as [r2 Hr2].
  { rewrite Hreq. unfold answer_with. run_st. rewrite Hs. destruct r1; by eexists. }
  apply (step_request C e up req r2). unfold at_node. rewrite Hn. simpl. by rewrite Hr2.
Qed.

(** C12: With one node per object the cluster is a refinement of one map from names to objects:
    through any node that can reach the owner of a name, [put_object] and [delete_object]
    answer [Ok] exactly when the map's operation succeeds and leave a cluster that
    represents the new map, and [get_object] answers [NotFound] exactly for the names that
    are not in the map, and for the others the checksum and the chunks of the object in the
    map, each chunk with the storage nodes that the owner's store has for it; or [Internal],
    but that only when one of these storage nodes is not registered on the owner. *)
Theorem cluster_is_one_map R C m e up n name checksum eo no :
  R ≠ [] → sharded R C → all_ok C → represents C m →
  C !! e = Some n → owns R C name eo no → reaches e up eo →
  goes_on R (map_put name checksum m).2 (at_node e up (svc_put_object name checksum) C)
    (λ r, is_ok r = (map_put name checksum m).1) ∧
  goes_on R (map_delete name m).2 (at_node e up (svc_delete_object name) C)
    (λ r, is_ok r = (map_delete name m).1) ∧
  goes_on R m (at_node e up (svc_get_object name) C)
    (λ r, match m !! name with
          | None => r = Err NotFoundCode
          | Some o =>
              (∃ resp, r = Ok resp ∧ go_checksum resp = mo_checksum o ∧
                ci_id <$> go_chunks resp = mo_chunks o ∧
                go_chunks resp = oi_chunks (object_info (sv_store (mn_server no)) o)) ∨
              r = Err Internal ∧ ¬ all_registered (sv_store (mn_server no)) o
          end).
Proof.
  intros HR Hsh Hok Hm Hn Ho Hre. pose proof (Hok _ _ (proj1 Ho)) as Hono.
  pose proof (represents_owner _ _ _ _ _ _ Hsh Hm Ho) as Hmo. unfold map_put, map_delete. split_and!.
  - destruct (put_at _ _ _ _ _ _ _ name checksum HR Hsh Hn Ho Hre) as (r & C' & Hr & Ha & Hrep).
    exists r, C'. pose proof (at_node_handled _ (PutObject name checksum) _ _ _ _ _ _ eq_refl Hr) as Hst.
    split_and!; [done| |by eapply step_sharded|eapply step_all_ok; [by apply step_handle|done]|].
    + rewrite (Ha Hono), <- Hmo. by destruct (m !! name).
    + destruct (put_object_outcome name checksum _ Hono) as [_ Hob].
      pose proof (forwarded_objects (ForwardPutObject name checksum) _ (mn_server no) (λ _, RespUnit)
        eq_refl) as Hs.
      cbn [store_part] in Hs. rewrite Hob, <- Hmo in Hs. destruct (m !! name) as [o|] eqn:Hmn.
      * rewrite decide_False in Hs by done. by eapply replaced_same.
      * rewrite decide_True in Hs by done.
        apply (replaced_represents R C C' m name eo no _ _ Hsh Hm Ho Hrep). intros k.
        rewrite Hs, lookup_insert. by repeat case_decide; subst.
  - destruct (delete_at _ _ _ _ _ _ _ name HR Hsh Hn Ho Hre) as (r & C' & Hr & Ha & Hrep).
    exists r, C'. pose proof (at_node_handled _ (DeleteObject name) _ _ _ _ _ _ eq_refl Hr) as Hst.
    split_and!; [done| |by eapply step_sharded|eapply step_all_ok; [by apply step_handle|done]|].
    + rewrite (Ha Hono), <- Hmo. by destruct (m !! name).
    + destruct (delete_object_outcome name _ Hono) as [_ Hob].
      pose proof (forwarded_objects (ForwardDeleteObject name) _ (mn_server no) (λ _, RespUnit) eq_refl) as Hs.
      cbn [store_part] in Hs. rewrite Hob in Hs. destruct (m !! name) as [o|] eqn:Hmn.
      * apply (replaced_represents R C C' m name eo no _ _ Hsh Hm Ho Hrep). intros k.
        rewrite Hs, lookup_delete. by repeat case_decide; subst.
      * rewrite delete_id in Hs by done. by eapply replaced_same.
  - destruct (get_at _ _ _ _ _ _ _ name HR Hsh Hn Ho Hre) as (r & C' & Hr & Ha & Hrep).
    exists r, C'. pose proof (at_node_handled _ (GetObject name) _ _ _ _ _ _ eq_refl Hr) as Hst.
    split_and!; [done| |by eapply step_sharded|eapply step_all_ok; [by apply step_handle|done]|].
    + specialize (Ha Hono). rewrite <- Hmo in Ha. destruct (m !! name) as [o|]; [|exact Ha].
      destruct Ha as [->|Ha]; [left|by right]. eexists. split_and!; [done|done| |done].
      by apply (object_info_ids _ name); [apply Hono|].
    + eapply (replaced_same _ _ _ _ _ _ _ _ Hsh Hm Ho Hrep).
      etrans; [apply (forwarded_objects (ForwardGetObject name) _ _ RespObject eq_refl)|done].
Qed.

End sharding.

(** ** Witnesses *)

#[local] Existing Instance toy_deps.
#[local] Existing Instance toy_xxh3.

Lemma all_owned_by_b name : get_owner sample_ring name = Some "b".
Proof. unfold get_owner, sample_ring, owner_at, range_next. by destruct (_ <=? 5). Qed.

Lemma two_nodes_sharded : sharded sample_ring two_nodes.
Proof.
  split.
  - intros e n [[-> ->]|[-> ->]]%two_nodes_cases; (split_and!; [done|done|]).
    all: intros nid client addr; cbn; by rewrite lookup_empty.
  - intros e n name owner [[-> ->]|[-> ->]]%two_nodes_cases Ho; cbn.
    all: rewrite all_owned_by_b in Ho; injection Ho as <-.
    + intros _. by eexists.
    + by intros [].
  - intros e n id addr e2 n2 [[-> ->]|[-> ->]]%two_nodes_cases Ha Hid; cbn in Ha.
    + apply lookup_singleton_Some in Ha as [<- <-].
      intros [[-> ->]|[-> ->]]%two_nodes_cases; cbn; by split.
    + by rewrite lookup_empty in Ha.
  - intros e1 e2 n1 n2 [[-> ->]|[-> ->]]%two_nodes_cases [[-> ->]|[-> ->]]%two_nodes_cases; by cbn.
  - intros e n k [[-> ->]|[-> ->]]%two_nodes_cases; cbn; [rewrite lookup_empty; by intros []|].
    intros _. apply all_owned_by_b.
Qed.

Lemma two_nodes_represent : represents two_nodes {["photo" := photo]}.
Proof.
  intros k o. split.
  - intros Hk. exists b_endpoint, (unplug node_b). by split.
  - intros (e & n & [[-> ->]|[-> ->]]%two_nodes_cases & Hk); cbn in Hk; [|done].
    by rewrite lookup_empty in Hk.
Qed.

(** An object put through "a" is found there, and only "b" stores it. *)
Definition after_put : Cluster :=
  default ∅ (snd <$> at_node a_endpoint {[b_endpoint]} (handle (PutObject "film" 9)) two_nodes).
Definition b_after_put : MetaNode unit := default (unplug node_b) (after_put !! b_endpoint).

Lemma b_stores_film :
  after_put !! b_endpoint = Some b_after_put ∧
  is_Some (objects (sv_store (mn_server b_after_put)) !! "film").
Proof. split; vm_compute; [|eexists]; reflexivity. Qed.

Lemma objects_stay_on_their_owner_witness :
  get_owner sample_ring "film" = Some "b" ∧
  ∀ e n, after_put !! e = Some n → is_Some (objects (sv_store (mn_server n)) !! "film") →
    e = b_endpoint.
Proof.
  assert (rtc request_step two_nodes after_put) as Hrun.
  { apply rtc_once. eapply (step_request _ a_endpoint {[b_endpoint]} (PutObject "film" 9)).
    vm_compute. reflexivity. }
  destruct b_stores_film as [Hb Hf]. split.
  - exact (proj1 (objects_stay_on_their_owner sample_ring two_nodes after_put b_endpoint b_endpoint
      b_after_put b_after_put "film" ltac:(done) two_nodes_sharded Hrun Hb Hf)).
  - intros e n Hn Hk. symmetry.
    by apply (objects_stay_on_their_owner sample_ring two_nodes after_put b_endpoint e
      b_after_put n "film" ltac:(done) two_nodes_sharded Hrun Hb Hf).
Defined.

Lemma cluster_is_one_map_witness :
  (∃ C', at_node a_endpoint {[b_endpoint]} (svc_put_object "film" 9) two_nodes = Some (Ok (), C') ∧
    represents C' (<["film" := new_object "film" 9]> {["photo" := photo]})) ∧
  (∃ C', at_node a_endpoint {[b_endpoint]} (svc_delete_object "photo") two_nodes = Some (Ok (), C') ∧
    represents C' (delete "photo" {["photo" := photo]})) ∧
  ∃ resp C', at_node a_endpoint {[b_endpoint]} (svc_get_object "photo") two_nodes = Some (Ok resp, C') ∧
    go_checksum resp = 5 ∧ ci_id <$> go_chunks resp = [22].
Proof.
  split; [|split].
  - destruct (cluster_is_one_map sample_ring two_nodes {["photo" := photo]} a_endpoint {[b_endpoint]}
      (unplug node_a) "film" 9 b_endpoint (unplug node_b)) as ((r & C' & Hr & Ho & _ & _ & Hm) & _).
    + done.
    + apply two_nodes_sharded.
    + apply two_nodes_ok.
    + apply two_nodes_represent.
    + reflexivity.
    + split; reflexivity.
    + right. set_solver.
    + exists C'. split; [|exact Hm]. destruct r as [[]|e|]; [exact Hr|done..].
  - destruct (cluster_is_one_map sample_ring two_nodes {["photo" := photo]} a_endpoint {[b_endpoint]}
      (unplug node_a) "photo" 9 b_endpoint (unplug node_b)) as (_ & (r & C' & Hr & Ho & _ & _ & Hm) & _).
    + done.
    + apply two_nodes_sharded.
    + apply two_nodes_ok.
    + apply two_nodes_represent.
    + reflexivity.
    + split; reflexivity.
    + right. set_solver.
    + exists C'. split; [|exact Hm]. destruct r as [[]|e|]; [exact Hr|done..].
  - destruct (cluster_is_one_map sample_ring two_nodes {["photo" := photo]} a_endpoint {[b_endpoint]}
      (unplug node_a) "photo" 9 b_endpoint (unplug node_b)) as (_ & _ & (r & C' & Hr & Ho & _)).
    + done.
    + apply two_nodes_sharded.
    + apply two_nodes_ok.
    + apply two_nodes_represent.
    + reflexivity.
    + split; reflexivity.
    + right. set_solver.
    + change ({["photo" := photo]} !! "photo") with (Some photo) in Ho. cbv beta iota in Ho.
      destruct Ho as [(resp & -> & Hck & Hids & _)|[_ []]].
      * exists resp, C'. split; [exact Hr|]. split; [exact Hck|exact Hids].
      * apply list.Forall_cons. split; [|by apply list.Forall_nil].
        intros c [= <-]. apply list.Forall_cons. split; [by eexists|by apply list.Forall_nil].
Defined.
