(* ===== verification/Knowledge.v ===== *)
(** * Knowledge: which object a chunk belongs to, as every node has it

    A node knows of a chunk from its store, from its chunk index and from its file. What an
    operation adds to that: a chunk under an id drawn now, or a chunk that a client
    confirms, and nothing else. *)

From S2P Require Import Prelude.
From S2P Require Import Grpc.
From S2P Require Import HashRing.
From S2P Require Import MetadataStore.
From S2P Require Import MetadataStoreFacts.
From S2P Require Import MetadataStoreTheorems.
From S2P Require Import ChunkIndex.
From S2P Require Import ClusterService.
From S2P Require Import Network.
From S2P Require Import ClusterFacts.
From S2P Require Import PublicService.
From S2P Require Import PublicFacts.
From S2P Require Import ClusterRun.
From S2P Require Import Sharding.
Open Scope string_scope.
Open Scope list_scope.
Open Scope Z_scope.

Section knowledge.
Context `{MetaDeps} `{Xxh3}.

(** The ids still to be drawn. *)
Abbreviation draws s := (rng_draws (ms_rng s)).

(** Chunk [id] is stored, or saved in the file, as one of object [k]. *)
Definition stored_as (s : MetadataStore) (id : Z) (k : string) : Prop :=
  ∃ c, chunks s !! id = Some c ∧ mc_object_name c = k.
Definition saved_as (s : MetadataStore) (id : Z) (k : string) : Prop :=
  ∃ contents st c, dk_main (ms_disk s) = Some contents ∧ json_from_str contents = Some st ∧
    ps_chunks st !! id = Some c ∧ mc_object_name c = k.
Definition knows (c : ClusterServer) (id : Z) (k : string) : Prop :=
  stored_as (sv_store c) id k ∨ saved_as (sv_store c) id k ∨ sv_index c !! id = Some k.

(** ** Operations of the store *)

(** From [s] to [s']: chunks are added under drawn ids, or as [conf] allows. *)
Record store_step (conf : Z → string → Prop) (s s' : MetadataStore) : Prop := mkStoreStep {
  ss_draws : ∃ l, draws s = l ++ draws s';
  ss_chunks : ∃ fresh : gmap Z string,
    (∀ id k, fresh !! id = Some k → ∃ l1 l2, draws s = l1 ++ id :: l2 ++ draws s') ∧
    ∀ id k, stored_as s' id k → stored_as s id k ∨ conf id k ∨ fresh !! id = Some k;
  ss_file : dk_main (ms_disk s') = dk_main (ms_disk s) ∨
    dk_main (ms_disk s') = json_to_string (persistent s');
}.

Lemma draw_unused_split {A} (m : gmap Z A) l id rest :
  draw_unused m l = Some (id, rest) → ∃ l1, l = l1 ++ id :: rest.
Proof.
  induction l as [|x l IH]; simpl; [done|]. case_decide.
  - intros [l1 ->]%IH. by exists (x :: l1).
  - intros [= -> ->]. by exists [].
Qed.

Lemma unique_id_split {A} (f : MetadataStore → gmap Z A) s r s' :
  generate_unique_id f s = (r, s') →
  ∃ rng, s' = set_rng rng s ∧
    match r with
    | Ok id => f s !! id = None ∧ ∃ l, draws s = l ++ id :: rng_draws rng
    | Err _ => False
    | Panic => rng = ms_rng s
    end.
Proof.
  unfold generate_unique_id. destruct (draw_unused _ _) as [[id rest]|] eqn:Hd; intros [= <- <-].
  - eexists. split; [done|]. split; [by apply draw_unused_spec in Hd as [? _]|].
    by apply draw_unused_split in Hd.
  - exists (ms_rng s). by destruct s.
Qed.

Lemma choose_split s :
  ∃ r rng, choose_storage_node s = (Ok r, set_rng rng s) ∧ rng_draws rng = draws s.
Proof.
  destruct (choose_storage_node_spec s) as (r & rng & Hr & _). exists r, rng. split; [done|].
  revert Hr. unfold choose_storage_node. destruct (map_to_list _).*2; intros Hr;
    apply (f_equal (λ p, ms_rng p.2)) in Hr; simpl in Hr; by subst rng.
Qed.

(** Nothing new, the file as it was. *)
Lemma step_less conf s s' l :
  draws s = l ++ draws s' → (∀ id k, stored_as s' id k → stored_as s id k) →
  ms_disk s' = ms_disk s → store_step conf s s'.
Proof. intros Hl Hs Hd. split; [by eexists|exists ∅; by split; [|auto]|left; by rewrite Hd]. Qed.
Lemma step_refl conf s : store_step conf s s.
Proof. by apply (step_less conf s s []). Qed.

(** A step whose end is saved is still one: what [save] changes is the file. *)
Lemma step_save conf s s1 r s' :
  store_step conf s s1 → ms_disk s1 = ms_disk s → save s1 = (r, s') → store_step conf s s'.
Proof.
  intros [Hl Hc _] Hd. destruct (save_spec s1) as (r1 & d & -> & Hr). intros [= <- <-].
  split; [done|exact Hc|]. cbn. destruct r1 as [[]|e|]; [right; by apply Hr|left|done].
  rewrite <-Hd. by apply Hr.
Qed.

Lemma stored_insert s id c k i :
  stored_as (set_chunks (<[id := c]> (chunks s)) s) i k →
  (i = id ∧ k = mc_object_name c) ∨ (i ≠ id ∧ stored_as s i k).
Proof.
  intros (c' & Hi & <-). simpl in Hi. apply lookup_insert_Some in Hi as [[<- <-]|[Hne Hi]]; [by left|].
  right. split; [done|]. by exists c'.
Qed.

(** A chunk under a new id. *)
Lemma step_insert conf s s' id c rng l :
  draws s = l ++ id :: rng_draws rng → draws s' = rng_draws rng → ms_disk s' = ms_disk s →
  chunks s' = <[id := c]> (chunks s) → store_step conf s s'.
Proof.
  intros Hl Hr Hd Hc. split; [|exists {[id := mc_object_name c]}; split|left; by rewrite Hd].
  - exists (l ++ [id]). rewrite Hl, Hr. by rewrite <-app_assoc.
  - intros i k [<- _]%lookup_singleton_Some. exists l, []. by rewrite Hl, Hr.
  - intros i k (c' & Hi & <-). rewrite Hc in Hi.
    apply lookup_insert_Some in Hi as [[<- <-]|[_ Hi]]; [|left; by exists c'].
    right. right. apply lookup_singleton_eq.
Qed.

Lemma put_chunk_step conf name ck s : store_step conf s (put_chunk name ck s).2.
Proof.
  unfold put_chunk. cbv [mbind ST_bind].
  destruct (generate_unique_id chunks s) as [r1 s1] eqn:Hg.
  apply unique_id_split in Hg as (rng & -> & Hid).
  destruct r1 as [id|e|]; [|done|subst rng; by apply (step_less _ _ _ [])].
  destruct Hid as (_ & l & Hl).
  destruct (choose_split (set_rng rng s)) as (n & rng' & -> & Hr). simpl in Hr.
  destruct n as [n|].
  2: { apply (step_less _ _ _ (l ++ [id])); [|done|done]. simpl. by rewrite Hr, Hl, <-app_assoc. }
  run_st. simpl. destruct (objects s !! name) as [o|]; simpl.
  - destruct (save _) as [r s'] eqn:Hs. revert Hs.
    intros Hs. apply (step_save conf s) in Hs; [by destruct r as [[]| |]| |done].
    by eapply (step_insert _ _ _ id _ rng l).
  - by eapply (step_insert _ _ _ id _ rng l).
Qed.

Lemma allocate_chunk_step conf name s : store_step conf s (allocate_chunk name s).2.
Proof.
  unfold allocate_chunk. cbv [mbind ST_bind].
  destruct (generate_unique_id chunks s) as [r1 s1] eqn:Hg.
  apply unique_id_split in Hg as (rng & -> & Hid).
  destruct r1 as [id|e|]; [|done|subst rng; by apply (step_less _ _ _ [])].
  destruct Hid as (_ & l & Hl).
  destruct (choose_split (set_rng rng s)) as (n & rng' & -> & Hr). simpl in Hr.
  destruct n as [n|].
  - by eapply (step_insert _ _ _ id _ rng l).
  - apply (step_less _ _ _ (l ++ [id])); [|done|done]. simpl. by rewrite Hr, Hl, <-app_assoc.
Qed.

Lemma construct_storage_node_step conf address s :
  store_step conf s (construct_storage_node address s).2.
Proof.
  unfold construct_storage_node, meta_storage_node_new. cbv [mbind ST_bind].
  destruct (generate_unique_id storage_nodes s) as [r1 s1] eqn:Hg.
  apply unique_id_split in Hg as (rng & -> & Hid).
  destruct r1 as [id|e|]; [|done|subst rng; by apply (step_less _ _ _ [])].
  destruct Hid as (_ & l & Hl).
  run_st. destruct (uri_ok address); apply (step_less _ _ _ (l ++ [id])); try done;
    simpl; by rewrite Hl, <-app_assoc.
Qed.

Lemma confirm_chunk_step id name ck n s :
  store_step (λ i k, i = id ∧ k = name) s (confirm_chunk id name ck n s).2.
Proof.
  destruct (confirm_chunk id name ck n s) as [r s'] eqn:Hr.
  apply confirm_chunk_cases in Hr as [(e & _ & ->)|(o & _ & _ & Hs)]; [apply step_refl|].
  eapply step_save, Hs; [|done].
  split; [by exists []|exists ∅; split; [done|]|by left]. intros i k (c & Hi & <-). simpl in Hi.
  apply lookup_insert_Some in Hi as [[<- <-]|[_ Hi]]; [right; by left|left; by exists c].
Qed.

(** An operation that draws nothing and stores no new chunk, then saves. *)
Lemma step_less_save conf s s1 :
  draws s1 = draws s → (∀ id k, stored_as s1 id k → stored_as s id k) →
  ms_disk s1 = ms_disk s → store_step conf s (save s1).2.
Proof.
  intros Hd Hc Hk. destruct (save s1) as [r s'] eqn:Hs. eapply step_save, Hs; [|done].
  apply (step_less _ _ _ []); [by rewrite Hd|done|done].
Qed.

Lemma stored_delete_all s ids id k :
  stored_as (set_chunks (foldl (λ m id, delete id m) (chunks s) ids) s) id k → stored_as s id k.
Proof.
  intros (c & Hc & <-). simpl in Hc. rewrite lookup_delete_all in Hc. case_decide; [done|]. by exists c.
Qed.

Lemma add_replica_step conf id n s : store_step conf s (add_chunk_replica id n s).2.
Proof.
  unfold add_chunk_replica. run_st. case_decide; [|apply step_refl].
  destruct (chunks s !! id) as [c|] eqn:Hc; [|apply step_refl].
  case_decide; [apply step_refl|]. case_match; [apply step_refl|].
  apply step_less_save; [done| |done]. intros i k [[-> ->]|[_ ?]]%stored_insert; [by exists c|done].
Qed.

Lemma remove_objects_step names s : store_step (λ _ _, False) s (remove_objects names s).2.
Proof.
  unfold remove_objects. run_st.
  assert (draws (foldl remove_object_of s names) = draws s ∧
    ms_disk (foldl remove_object_of s names) = ms_disk s ∧
    ∀ id k, stored_as (foldl remove_object_of s names) id k → stored_as s id k) as (? & ? & ?);
    [|by apply step_less_save].
  revert s. induction names as [|x names IH]; intros s; simpl; [done|].
  destruct (IH (remove_object_of s x)) as (-> & -> & Hs). unfold remove_object_of in *.
  destruct (objects s !! x) as [o|]; [|done]. split_and!; [done..|].
  intros id k Hk%Hs. exact (stored_delete_all (set_objects (delete x (objects s)) s) _ _ _ Hk).
Qed.

(** The confirmation an operation makes. *)
Definition op_confirms (o : ms_op) (id : Z) (k : string) : Prop :=
  match o with MConfirmChunk i name _ _ => id = i ∧ k = name | _ => False end.

Lemma run_ms_op_step o s : store_step (op_confirms o) s (run_ms_op o s).2.
Proof.
  assert (∀ A (m : MS A), (discard m s).2 = (m s).2) as Hdis.
  { intros A m. unfold discard. run_st. by destruct (m s) as [[]]. }
  destruct o; cbn [run_ms_op]; rewrite ?Hdis.
  - unfold put_object. run_st. case_decide; [apply step_refl|by apply step_less_save].
  - unfold delete_object. run_st. destruct (objects s !! name); [|apply step_refl].
    apply step_less_save; [done| |done]. intros id k Hk. exact (stored_delete_all (set_objects (delete name (objects s)) s) _ _ _ Hk).
  - apply put_chunk_step.
  - apply allocate_chunk_step.
  - apply confirm_chunk_step.
  - unfold delete_chunk. run_st. destruct (chunks s !! id) as [c|]; [|apply step_refl]. simpl.
    assert (∀ x i k, stored_as (set_objects x (set_chunks (delete id (chunks s)) s)) i k → stored_as s i k)
      as Hs by (intros x i k (c' & Hi & <-); simpl in Hi; apply lookup_delete_Some in Hi as [_ Hi]; by exists c').
    destruct (objects s !! mc_object_name c).
    + apply step_less_save; [done|apply Hs|done].
    + apply (step_less _ _ _ []); [done|apply (Hs (objects s))|done].
  - unfold update_object_checksum. run_st. destruct (objects s !! name); [|apply step_refl].
    by apply step_less_save.
  - apply construct_storage_node_step.
  - unfold delete_storage_node. run_st. destruct (storage_nodes s !! id); [|apply step_refl].
    by apply (step_less _ _ _ []).
  - apply add_replica_step.
  - apply remove_objects_step.
Qed.

(** ** Requests *)

Definition op_of (p : PeerRequest) : option ms_op :=
  match p with
  | ForwardPutObject name checksum => Some (MPutObject checksum name)
  | ForwardDeleteObject name => Some (MDeleteObject name)
  | ForwardPutChunk name checksum => Some (MPutChunk name checksum)
  | ForwardAllocateChunk name => Some (MAllocateChunk name)
  | ForwardConfirmChunk id name checksum node => Some (MConfirmChunk id name checksum node)
  | ForwardDeleteChunk id => Some (MDeleteChunk id)
  | ForwardAddChunkReplica id node => Some (MAddReplica id node)
  | BroadcastPutStorageNode address => Some (MAddNode address)
  | BroadcastDeleteStorageNode id => Some (MDeleteNode id)
  | _ => None
  end.

Lemma served_op p c :
  sv_store (served_by p c) =
  match op_of p with Some o => (run_ms_op o (sv_store c)).2 | None => sv_store c end.
Proof. rewrite served_store. by destruct p. Qed.

Lemma put_chunk_stores name ck s id a s' :
  put_chunk name ck s = (Ok (id, a), s') → stored_as s' id name.
Proof.
  unfold put_chunk. cbv [mbind ST_bind].
  destruct (generate_unique_id chunks s) as [[i|e|] s1]; [|done..].
  destruct (choose_split s1) as (n & rng' & -> & Hr). destruct n as [n|]; [|done].
  run_st. simpl. destruct (objects s1 !! name) as [o|]; [|done].
  match goal with |- context [save ?s] => destruct (save_spec s) as (r & d & -> & _) end.
  destruct r as [[]|e|]; intros [= <- _ <-]. eexists. split; [apply lookup_insert_eq|done].
Qed.

Lemma confirm_chunk_stores id name ck n s s' :
  confirm_chunk id name ck n s = (Ok (), s') → stored_as s' id name.
Proof.
  intros [(e & He & _)|(o & _ & _ & Hs)]%confirm_chunk_cases; [done|].
  match type of Hs with save ?s = _ => destruct (save_spec s) as (r & d & Hr & _) end.
  rewrite Hr in Hs. injection Hs as _ <-. eexists. split; [apply lookup_insert_eq|done].
Qed.

Lemma remove_all_lookup ids (idx : ChunkIndex) id k :
  remove_all ids idx !! id = Some k → idx !! id = Some k.
Proof. unfold remove_all. rewrite foldl_remove_lookup. by case_decide. Qed.

(** An index entry that a request adds is that of a chunk now stored. *)
Lemma served_index p c id k :
  own_request p → sv_index (served_by p c) !! id = Some k →
  sv_index c !! id = Some k ∨ stored_as (sv_store (served_by p c)) id k.
Proof.
  intros Hp. unfold served_by. destruct p; try done; cbn [serve];
    unfold forward_put_object, forward_get_object, forward_delete_object, forward_put_chunk,
      forward_allocate_chunk, forward_confirm_chunk, forward_get_chunk, forward_delete_chunk,
      forward_add_chunk_replica, broadcast_put_storage_node, broadcast_delete_storage_node,
      list_local_objects, list_local_under_replicated_chunks, transfer_partition, with_store,
      on_index, zoom, rethrow, lift_outcome; run_st.
  - destruct (put_object _ _ _) as [[]]; by left.
  - destruct (get_object _ _) as [[]]; simpl; [|by left..].
    destruct (chunks_or_internal _ _); by left.
  - destruct (delete_object _ _) as [[]]; [|by left..]. intros Hk%remove_all_lookup. by left.
  - destruct (put_chunk _ _ _) as [[[i a]|e|] s] eqn:Hr; [|by left..]. cbn. unfold index_insert.
    intros [[<- <-]|[_ Hk]]%lookup_insert_Some; [right|by left]. by eapply put_chunk_stores.
  - destruct (allocate_chunk _ _) as [[[[]]|e|]]; by left.
  - destruct (confirm_chunk _ _ _ _ _) as [[[]|e|] s] eqn:Hr; [|by left..]. cbn. unfold index_insert.
    intros [[<- <-]|[_ Hk]]%lookup_insert_Some; [right|by left]. by eapply confirm_chunk_stores.
  - destruct (get_chunk _ _) as [[[]|e|]]; by left.
  - destruct (delete_chunk _ _) as [[[]|e|]]; [|by left..]. cbn.
    intros [_ Hk]%lookup_delete_Some. by left.
  - destruct (add_chunk_replica _ _ _) as [[]]; by left.
  - destruct (construct_storage_node _ _) as [[]]; by left.
  - destruct (delete_storage_node _ _) as [[]]; by left.
  - by left.
  - by left.
  - by left.
Qed.

End knowledge.
