(* ===== verification/Startup.v ===== *)
(** * Startup: how the services come up

    The settings that the [main] functions read from the environment, the loops in which
    a service looks for a metadata node to talk to (api-gateway/src/main.rs [app],
    replication-service/src/main.rs and storage-node/src/main.rs [main]), the start of a
    metadata node (storage-metadata/src/main.rs [main]) and of a storage node, from its
    configuration to the moment it serves. A connection attempt of tonic is a function
    [connect] on the world; that it is made is what counts, not how. *)

From stdpp Require Import pretty.
From S2P Require Import Prelude.
From S2P Require Import ChunkStore.
From S2P Require Import PosFile.
From S2P Require Import Crc32.
From S2P Require Import Grpc.
From S2P Require Import StorageNode.
From S2P Require Import Str.
From S2P Require Import NodeConfig.
From S2P Require Import HashRing.
From S2P Require Import MetadataStore.
From S2P Require Import ChunkIndex.
From S2P Require Import ClusterService.
From S2P Require Import Cluster.
From S2P Require Import Forwarding.
From S2P Require Import MetadataService.
Open Scope string_scope.
Open Scope list_scope.
Open Scope Z_scope.

(** ** Settings *)

(** [split(',').map(trim).filter(non-empty).collect()]. *)
Definition comma_list (s : string) : list string :=
  List.filter (λ u, negb (is_empty u)) (trim <$> split_on "," s).

(** [METADATA_URLS], or the one of [METADATA_URL], or the service's default. *)
Definition metadata_urls (default_url : string) (e : env) : list string :=
  match e !! "METADATA_URLS" with
  | Some s => comma_list s
  | None => [default default_url (e !! "METADATA_URL")]
  end.

Definition gateway_urls : env → list string := metadata_urls "http://127.0.0.1:3001".
Definition replication_urls : env → list string := metadata_urls "http://localhost:3001".

Record ReplicationSettings := mkReplicationSettings {
  rs_interval_secs : Z;
  rs_max_chunks_per_cycle : Z;
  rs_urls : list string;
}.

Definition DEFAULT_REPLICATION_INTERVAL_SECS : Z := 60.
Definition DEFAULT_MAX_CHUNKS_PER_CYCLE : Z := 100.

Definition replication_settings (e : env) : ReplicationSettings :=
  mkReplicationSettings
    (default DEFAULT_REPLICATION_INTERVAL_SECS
       (env_parse e "REPLICATION_INTERVAL_SECS" (parse_unsigned u64_max)))
    (default DEFAULT_MAX_CHUNKS_PER_CYCLE
       (env_parse e "REPLICATION_MAX_CHUNKS_PER_CYCLE" (parse_unsigned u64_max)))
    (replication_urls e).

Record MetadataSettings := mkMetadataSettings {
  st_node_id : string;
  st_grpc_port : Z;
  st_gossip_port : Z;
  st_seed_nodes : list string;
  st_data_dir : string;
  st_metrics_port : Z;
}.

(** [hostname]: the name of the machine, which names the node by default. *)
Definition metadata_settings (hostname : string) (e : env) : MetadataSettings :=
  mkMetadataSettings
    (default hostname (e !! "NODE_ID"))
    (default 3001 (env_parse e "GRPC_PORT" (parse_unsigned u16_max)))
    (default 3002 (env_parse e "GOSSIP_PORT" (parse_unsigned u16_max)))
    (comma_list (default "" (e !! "SEED_NODES")))
    (default "." (e !! "DATA_DIR"))
    (default 9091 (env_parse e "METRICS_PORT" (parse_unsigned u16_max))).

(** Where the node keeps its state. *)
Definition store_path (data_dir node_id : string) : string :=
  data_dir +:+ "/metadata-" +:+ node_id +:+ ".dat".

(** ** Looking for a metadata node *)

Section connecting.
Context {W : Type}.

(** One round: the addresses in order, until one connects. *)
Fixpoint try_urls (connect : string → W → bool * W) (urls : list string) (w : W) :
    option string * W :=
  match urls with
  | [] => (None, w)
  | url :: urls =>
      let '(connected, w) := connect url w in
      if connected : bool then (Some url, w) else try_urls connect urls w
  end.

(** The gateway's loop: [retries] counts down, below zero the process exits. The third
    component counts the sleeps. *)
Fixpoint gateway_connect (connect : string → W → bool * W) (urls : list string)
    (retries : nat) (w : W) (sleeps : nat) : option string * W * nat :=
  match try_urls connect urls w with
  | (Some url, w) => (Some url, w, sleeps)
  | (None, w) =>
      match retries with
      | O => (None, w, sleeps)
      | S retries => gateway_connect connect urls retries w (S sleeps)
      end
  end.
Definition app_connect (connect : string → W → bool * W) (e : env) (w : W) :
    option string * W * nat :=
  gateway_connect connect (gateway_urls e) 5 w 0.

(** The replication service's loop: [attempts] counts up to five rounds. *)
Fixpoint replication_connect (fuel : nat) (connect : string → W → bool * W)
    (urls : list string) (attempts : Z) (w : W) (sleeps : nat) : option string * W * nat :=
  match fuel with
  | O => (None, w, sleeps)
  | S fuel =>
      match try_urls connect urls w with
      | (Some url, w) => (Some url, w, sleeps)
      | (None, w) =>
          let attempts := attempts + 1 in
          if 5 <=? attempts then (None, w, sleeps)
          else replication_connect fuel connect urls attempts w (S sleeps)
      end
  end.

(** An attempt that fails or takes longer than [limit] has not connected. *)
Definition timed_connect (limit : Z) (connect : string → W → answer unit unit * W)
    (url : string) (w : W) : bool * W :=
  let '(a, w) := connect url w in
  (match timeout limit a with Some (inr _) => true | _ => false end, w).

(** The storage node's loop: the check on [attempts] comes before it is incremented. *)
Fixpoint node_connect (fuel : nat) (connect : string → W → answer unit unit * W)
    (urls : list string) (attempts : Z) (w : W) (sleeps : nat) : option string * W * nat :=
  match fuel with
  | O => (None, w, sleeps)
  | S fuel =>
      match try_urls (timed_connect 10000 connect) urls w with
      | (Some url, w) => (Some url, w, sleeps)
      | (None, w) =>
          if 5 <=? attempts then (None, w, sleeps)
          else node_connect fuel connect urls (attempts + 1) w (S sleeps)
      end
  end.

End connecting.

(** ** A storage node *)

(** Three attempts of five seconds, two seconds apart. *)
Definition register_config : RetryConfig := mkRetryConfig 3 5000 2000.

(** How [main] ends: an exit with code 1, an error of [construct], a panic of its, or a
    node that serves. *)
Inductive node_start :=
  | BadConfiguration (e : ConfigError)
  | NoMetadataService
  | NoLocalAddress
  | NotRegistered (e : CallWithRetryError Code)
  | NoStore (e : ErrorKind)
  | Panicked
  | Serving (address : string) (n : StorageNodeImpl).

Section node.
Context `{Crc32} {W : Type}.

Definition register_address (ip : string) (config : StorageNodeConfig) : string :=
  "http://" +:+ ip +:+ ":" +:+ pretty (port config).

(** [connect] and [put_storage_node] are what the generated client does; [local_ip] what
    the machine answers; [exists_answer] and [f] are of the chunk file. The node registers
    before it opens its store. *)
Definition node_main (connect : string → W → answer unit unit * W)
    (put_storage_node : string → string → W → answer Code Z * W)
    (parsed : option StorageNodeConfig) (e : env) (local_ip : option string)
    (exists_answer : option bool) (f : File) (w : W) : node_start * File * W :=
  match load parsed e with
  | Err err => (BadConfiguration err, f, w)
  | Panic => (Panicked, f, w)
  | Ok config =>
      match node_connect 6 connect (metadata_addresses config) 0 w 0 with
      | (None, w, _) => (NoMetadataService, f, w)
      | (Some url, w, _) =>
          match local_ip with
          | None => (NoLocalAddress, f, w)
          | Some ip =>
              let register_addr := register_address ip config in
              match call_with_retry (put_storage_node url register_addr) register_config w with
              | (Err err, w, _) => (NotRegistered err, f, w)
              | (Panic, w, _) => (Panicked, f, w)
              | (Ok _, w, _) =>
                  match StorageNode.construct exists_answer (allocated_slots config)
                          (chunk_store_options config) f with
                  | (Ok n, f) => (Serving register_addr n, f, w)
                  | (Err err, f) => (NoStore err, f, w)
                  | (Panic, f) => (Panicked, f, w)
                  end
              end
          end
      end
  end.

End node.

(** ** A metadata node *)

Section metadata.
Context `{MetaDeps} `{Xxh3} {W : Type} `{Peers W}.

(** Everything up to the servers: the store, the cluster, the index, the forwarding layer.
    [gossip_started]: what [ClusterManager::new] got from the gossip library. A failure of
    the store or of gossip is an [expect] that panics. *)
Definition metadata_main (hostname : string) (e : env) (gossip_started : bool) (rng : Rng)
    (d : Disk) (w : W) : outcome Empty_set (MetaNode W) * Disk :=
  let settings := metadata_settings hostname e in
  let cluster := cluster_new (st_node_id settings) (st_grpc_port settings) in
  match MetadataService.construct rng d cluster w with
  | (Ok n, d) =>
      if gossip_started then
        match populate_chunk_index n with
        | (Ok _, n) => (Ok (set_forwarding_layer n), d)
        | (_, _) => (Panic, d)
        end
      else (Panic, d)
  | (_, d) => (Panic, d)
  end.

End metadata.

(** ** The replication service *)

(** [time::interval] panics when the period is zero. *)
Definition replication_interval (s : ReplicationSettings) : outcome Empty_set Z :=
  if rs_interval_secs s =? 0 then Panic else Ok (rs_interval_secs s).
