(* ===== verification/Clients.v ===== *)
(** * Clients: what the gateway and the replication service need of the services

    The traits of protos/src/clients.rs as interfaces over the state of the world, and
    their implementation by the services themselves. *)

From S2P Require Import Prelude.
From S2P Require Import Bytes.
From S2P Require Import Crc32.
From S2P Require Import ChunkStore.
From S2P Require Import Grpc.
From S2P Require Import StorageNode.
From S2P Require Import HashRing.
From S2P Require Import MetadataStore.
From S2P Require Import ClusterService.
From S2P Require Import Forwarding.
From S2P Require Import MetadataService.
From S2P Require Import Network.
Open Scope string_scope.
Open Scope list_scope.
Open Scope Z_scope.

(** The methods of the trait; the last four are called by neither service. *)
Class MetadataClient (W : Type) := {
  mc_list_storage_nodes : ST W Code (list MetaStorageNode);
  mc_put_object (name : string) (checksum : Z) : ST W Code unit;
  mc_get_object (object_name : string) : ST W Code GetObjectResponse;
  mc_delete_object (object_name : string) : ST W Code unit;
  mc_allocate_chunk (object_name : string) : ST W Code AllocateChunkResponse;
  mc_confirm_chunk (chunk_id : Z) (object_name : string) (checksum storage_node_id : Z) :
    ST W Code unit;
  mc_list_objects : ST W Code (list ObjectInfo);
  mc_delete_chunk (chunk_id : Z) : ST W Code unit;
  mc_get_storage_node (id : Z) : ST W Code string;
  mc_list_under_replicated_chunks (max_replicas : Z) : ST W Code (list UnderReplicatedChunk);
  mc_add_chunk_replica (chunk_id storage_node_id : Z) : ST W Code unit;
  mc_update_object_checksum (object_name : string) (checksum total_size : Z) : ST W Code unit;
  mc_put_chunk (object_name : string) (checksum : Z) : ST W Code (Z * string);
  mc_put_storage_node (address : string) : ST W Code Z;
  mc_get_chunk (chunk_id : Z) : ST W Code GetChunkResponse;
  mc_delete_storage_node (id : Z) : ST W Code unit;
}.

(** A storage-node client is known by the address it is connected to. *)
Class StorageNodeClient (W : Type) := {
  sn_connect (address : string) : ST W unit unit;
  sn_get_chunk_size (address : string) : ST W Code Z;
  sn_write_chunk (address : string) (chunk_id : Z) (chunk_bytes : list byte) : ST W Code unit;
  sn_read_chunk (address : string) (chunk_id : Z) : ST W Code (list byte);
  sn_delete_chunk (address : string) (chunk_id : Z) : ST W Code unit;
  sn_get_free_chunks (address : string) : ST W Code Z;
  sn_check_health (address : string) : ST W Code bool;
}.

(** ** The services behind the interfaces *)

(** The metadata node the clients talk to, with its cluster, and the storage nodes
    that are up, by address. *)
Record World := mkWorld {
  w_meta : MetaNode Network;
  w_nodes : gmap string StorageNodeImpl;
}.

Definition set_meta (n : MetaNode Network) (w : World) : World := mkWorld n (w_nodes w).

Definition on_meta {A} (m : ST (MetaNode Network) Code A) : ST World Code A :=
  zoom w_meta set_meta m.

(** A call of the storage node at [address]; one that is down cannot be reached. *)
Definition on_node {A} (address : string) (m : ST StorageNodeImpl Code A) : ST World Code A :=
  λ w,
    match w_nodes w !! address with
    | Some n => let '(r, n) := m n in (r, mkWorld (w_meta w) (<[address := n]> (w_nodes w)))
    | None => (Err Unavailable, w)
    end.

#[export] Instance world_metadata `{MetaDeps} `{Xxh3} : MetadataClient World := {|
  mc_list_storage_nodes := on_meta svc_list_storage_nodes;
  mc_put_object name checksum := on_meta (svc_put_object name checksum);
  mc_get_object name := on_meta (svc_get_object name);
  mc_delete_object name := on_meta (svc_delete_object name);
  mc_allocate_chunk name := on_meta (svc_allocate_chunk name);
  mc_confirm_chunk id name checksum node := on_meta (svc_confirm_chunk id name checksum node);
  mc_list_objects := on_meta svc_list_objects;
  mc_delete_chunk id := on_meta (svc_delete_chunk id);
  mc_get_storage_node id := on_meta (svc_get_storage_node id);
  mc_list_under_replicated_chunks max := on_meta (svc_list_under_replicated_chunks max);
  mc_add_chunk_replica id node := on_meta (svc_add_chunk_replica id node);
  mc_update_object_checksum name checksum size :=
    on_meta (svc_update_object_checksum name checksum size);
  mc_put_chunk name checksum := on_meta (svc_put_chunk name checksum);
  mc_put_storage_node address := on_meta (svc_put_storage_node address);
  mc_get_chunk id := on_meta (svc_get_chunk id);
  mc_delete_storage_node id := on_meta (svc_delete_storage_node id);
|}.

#[export] Instance world_nodes `{Crc32} : StorageNodeClient World := {|
  sn_connect address w :=
    (if decide (is_Some (w_nodes w !! address)) then Ok () else Err (), w);
  sn_get_chunk_size address := on_node address node_get_chunk_size;
  sn_write_chunk address id bytes := on_node address (_ ← write_chunk id bytes; mret ());
  sn_read_chunk address id := on_node address (r ← read_chunk id; mret (rc_chunk_bytes r));
  sn_delete_chunk address id := on_node address (_ ← node_delete_chunk id; mret ());
  sn_get_free_chunks address := on_node address get_free_chunks;
  sn_check_health address := on_node address check_health;
|}.
