(* ===== verification/NodeLife.v ===== *)
(** * NodeLife: storage nodes that stop, are checked and start again

    The calls that a metadata node's health check and a starting storage node make, when
    the other end is the model of the other service: the health check of
    storage-metadata/src/main.rs and the start of storage-node/src/main.rs on a [World]. *)

From S2P Require Import Prelude.
From S2P Require Import Bytes.
From S2P Require Import PosFile.
From S2P Require Import Crc32.
From S2P Require Import ChunkStore.
From S2P Require Import Grpc.
From S2P Require Import StorageNode.
From S2P Require Import NodeConfig.
From S2P Require Import HashRing.
From S2P Require Import MetadataStore.
From S2P Require Import ClusterService.
From S2P Require Import Forwarding.
From S2P Require Import MetadataService.
From S2P Require Import Network.
From S2P Require Import Startup.
From S2P Require Import Clients.
Open Scope string_scope.
Open Scope list_scope.
Open Scope Z_scope.

Abbreviation Nodes := (gmap string StorageNodeImpl).

(** ** The health check *)

(** [latency a]: the milliseconds that the node at [a] takes to answer. *)
Section health.
Context (latency : string → Z).

Definition node_connects (a : string) (ns : Nodes) : answer unit unit * Nodes :=
  (mkAnswer (Some (if decide (is_Some (ns !! a)) then inr () else inl ())) (latency a), ns).

Definition node_answers (a : string) (ns : Nodes) : answer Code bool * Nodes :=
  match ns !! a with
  | Some n =>
      let '(r, n) := check_health n in
      (mkAnswer (match r with Ok h => Some (inr h) | Err e => Some (inl e) | Panic => None end)
         (latency a), <[a := n]> ns)
  | None => (mkAnswer (Some (inl Unavailable)) (latency a), ns)
  end.

(** One turn of the metadata node's loop: the nodes it knows are copied, asked, and those
    that failed removed. *)
Definition health_check_turn `{MetaDeps} `{Xxh3} : ST World Code unit := λ w,
  let storage_nodes := map_to_list (storage_nodes (sv_store (mn_server (w_meta w)))) in
  let '(results, ns) := check_nodes node_connects node_answers storage_nodes (w_nodes w) in
  on_meta (health_check_round results) (mkWorld (w_meta w) ns).

End health.

(** ** Starting a storage node *)

Definition meta_connects (url : string) (w : World) : answer unit unit * World :=
  (mkAnswer (Some (inr ())) 0, w).

Definition meta_registers `{MetaDeps} `{Xxh3} (url address : string) (w : World) :
    answer Code Z * World :=
  let '(r, w) := on_meta (svc_put_storage_node address) w in
  (mkAnswer (match r with Ok id => Some (inr id) | Err e => Some (inl e) | Panic => None end) 0, w).

(** The process at [a] ends; its file stays. *)
Definition node_stops (a : string) (w : World) : World :=
  mkWorld (w_meta w) (delete a (w_nodes w)).

(** The process is started on the file [f] that is there; when it comes to serve, it does
    so at its address. *)
Definition node_starts `{MetaDeps} `{Xxh3} `{Crc32} (parsed : option StorageNodeConfig)
    (e : env) (ip : string) (f : File) (w : World) : node_start * World :=
  match node_main meta_connects meta_registers parsed e (Some ip) (Some true) f w with
  | (Serving a n, _, w) => (Serving a n, mkWorld (w_meta w) (<[a := n]> (w_nodes w)))
  | (other, _, w) => (other, w)
  end.
