(* ===== verification/Gateway.v ===== *)
(** * Gateway: the HTTP handlers

    api-gateway/src/handlers.rs, over the clients' interfaces: names, retries, cached
    connections, upload, download, listing and deletion. The tasks a handler joins run
    one after the other here. *)

From Stdlib Require Import Ascii.
From S2P Require Import Prelude.
From S2P Require Import Bytes.
From S2P Require Import Str.
From S2P Require Import Crc32.
From S2P Require Import Grpc.
From S2P Require Import MetadataStore.
From S2P Require Import ClusterService.
From S2P Require Import Clients.
Open Scope string_scope.
Open Scope list_scope.
Open Scope Z_scope.

(** The crate [base64]: decoding gives back what was encoded. *)
Class Base64 := {
  b64_encode : list byte → string;
  b64_decode : string → option (list byte);
  b64_roundtrip l : b64_decode (b64_encode l) = Some l;
}.

(** [char::is_alphanumeric] beyond ASCII: the Unicode tables of the language. *)
Class UnicodeTables := { alphanumeric_above_ascii : Z → bool }.

(** ** Object names *)

Definition MAX_OBJECT_NAME_LENGTH : Z := 1024.
Definition MAX_OBJECT_SIZE : Z := 10 * 1024 * 1024 * 1024.

(** [str::chars]: the code points of a UTF-8 string, its bytes given. *)
Fixpoint chars_of (fuel : nat) (l : list Z) : list Z :=
  match fuel with
  | O => []
  | S fuel =>
      match l with
      | [] => []
      | a :: l1 =>
          if a <? 128 then a :: chars_of fuel l1
          else
            let cont b := Z.land b 63 in
            match l1 with
            | b :: l2 =>
                if a <? 224 then (Z.land a 31 * 64 + cont b) :: chars_of fuel l2
                else
                  match l2 with
                  | c :: l3 =>
                      if a <? 240
                      then (Z.land a 15 * 4096 + cont b * 64 + cont c) :: chars_of fuel l3
                      else
                        match l3 with
                        | d :: l4 =>
                            (Z.land a 7 * 262144 + cont b * 4096 + cont c * 64 + cont d)
                              :: chars_of fuel l4
                        | [] => []
                        end
                  | [] => []
                  end
            | [] => []
            end
      end
  end.

Definition chars (s : string) : list Z := chars_of (String.length s) (bytes_of s).

Definition between (lo hi c : Z) : bool := (lo <=? c) && (c <=? hi).

Definition is_alphanumeric `{UnicodeTables} (c : Z) : bool :=
  if c <? 128 then between 48 57 c || between 65 90 c || between 97 122 c
  else alphanumeric_above_ascii c.

(** [-], [_], [.], [/]. *)
Definition name_char `{UnicodeTables} (c : Z) : bool :=
  is_alphanumeric c || (c =? 45) || (c =? 95) || (c =? 46) || (c =? 47).

(** [contains("//")] on the bytes. *)
Fixpoint double_slash (l : list Z) : bool :=
  match l with
  | a :: ((b :: _) as l') => ((a =? 47) && (b =? 47)) || double_slash l'
  | _ => false
  end.

Inductive name_error :=
  EmptyName | LongName | BadCharacter | OuterSlash | ConsecutiveSlashes.

Definition validate_object_name `{UnicodeTables} (name : string) : option name_error :=
  if String.eqb name "" then Some EmptyName
  else if MAX_OBJECT_NAME_LENGTH <? Z.of_nat (String.length name) then Some LongName
  else if negb (forallb name_char (chars name)) then Some BadCharacter
  else if bool_decide (head (bytes_of name) = Some 47) || bool_decide (list.last (bytes_of name) = Some 47)
  then Some OuterSlash
  else if double_slash (bytes_of name) then Some ConsecutiveSlashes
  else None.

(** ** State *)

(** The counters of api-gateway/src/metrics.rs; of the histograms, the number of
    observations. *)
Record GwMetrics := mkGwMetrics {
  gm_requests : gmap (string * string * string) Z;
  gm_durations : gmap string Z;
  gm_uploaded : Z;
  gm_downloaded : Z;
  gm_deleted : Z;
  gm_bytes_up : Z;
  gm_bytes_down : Z;
}.

(** [AppState]: the metrics, the cached connections by address, and the world. *)
Record AppState (W : Type) := mkAppState {
  gw_metrics : GwMetrics;
  gw_connections : gmap string string;
  gw_world : W;
}.
Arguments mkAppState {W} _ _ _.
Arguments gw_metrics {W} _.
Arguments gw_connections {W} _.
Arguments gw_world {W} _.

Definition inc_http (method endpoint status : string) (m : GwMetrics) : GwMetrics :=
  let k := (method, endpoint, status) in
  mkGwMetrics (<[k := wrap64 (default 0 (gm_requests m !! k) + 1)]> (gm_requests m))
    (gm_durations m) (gm_uploaded m) (gm_downloaded m) (gm_deleted m) (gm_bytes_up m)
    (gm_bytes_down m).
Definition observe_operation (operation : string) (m : GwMetrics) : GwMetrics :=
  mkGwMetrics (gm_requests m)
    (<[operation := default 0 (gm_durations m !! operation) + 1]> (gm_durations m))
    (gm_uploaded m) (gm_downloaded m) (gm_deleted m) (gm_bytes_up m) (gm_bytes_down m).
Definition add_uploaded (n : Z) (m : GwMetrics) : GwMetrics :=
  mkGwMetrics (gm_requests m) (gm_durations m) (wrap64 (gm_uploaded m + 1)) (gm_downloaded m)
    (gm_deleted m) (wrap64 (gm_bytes_up m + n)) (gm_bytes_down m).
Definition add_downloaded (n : Z) (m : GwMetrics) : GwMetrics :=
  mkGwMetrics (gm_requests m) (gm_durations m) (gm_uploaded m) (wrap64 (gm_downloaded m + 1))
    (gm_deleted m) (gm_bytes_up m) (wrap64 (gm_bytes_down m + n)).
Definition inc_deleted (m : GwMetrics) : GwMetrics :=
  mkGwMetrics (gm_requests m) (gm_durations m) (gm_uploaded m) (gm_downloaded m)
    (wrap64 (gm_deleted m + 1)) (gm_bytes_up m) (gm_bytes_down m).

(** Errors are HTTP status codes; their texts are left out. *)
Definition BAD_REQUEST : Z := 400.
Definition NOT_FOUND : Z := 404.
Definition CONFLICT : Z := 409.
Definition PAYLOAD_TOO_LARGE : Z := 413.
Definition INTERNAL_SERVER_ERROR : Z := 500.

(** [slice::chunks]. *)
Fixpoint chunks_loop (fuel : nat) (size : Z) (l : list byte) : list (list byte) :=
  match fuel with
  | O => []
  | S fuel =>
      match l with [] => [] | _ => ztake size l :: chunks_loop fuel size (zdrop size l) end
  end.
Definition slice_chunks (size : Z) (l : list byte) : list (list byte) :=
  chunks_loop (length l) size l.

Section gateway.
Context {W : Type} `{MetadataClient W} `{StorageNodeClient W} `{Crc32} `{Base64} `{UnicodeTables}.

Definition GW : Type → Type := ST (AppState W) Z.

Definition set_gw_world (w : W) (s : AppState W) : AppState W :=
  mkAppState (gw_metrics s) (gw_connections s) w.

Definition measure (f : GwMetrics → GwMetrics) : GW unit :=
  modify (λ s, mkAppState (f (gw_metrics s)) (gw_connections s) (gw_world s)).

(** A remote call, its error a value. *)
Definition call {E A} (m : ST W E A) : GW (E + A) := zoom gw_world set_gw_world (attempt m).

(** A remote call whose error is answered [500]. *)
Definition call_or_500 {E A} (m : ST W E A) : GW A :=
  r ← call m;
  match r with inr a => mret a | inl _ => throw INTERNAL_SERVER_ERROR end.

(** Counts the refusal of a request, then fails. *)
Definition refuse {A} (method endpoint status : string) (code : Z) : GW A :=
  _ ← measure (inc_http method endpoint status); throw code.

(** ** Retries and connections *)

(** The attempts after [attempt]; between two of them the task sleeps. *)
Fixpoint retry_attempts {E A} (attempts : nat) (f : ST W E A) : ST W E A :=
  match attempts with
  | O => f
  | S attempts => r ← attempt f; match r with inr a => mret a | inl _ => retry_attempts attempts f end
  end.
Definition retry_with_backoff {E A} (max_retries : nat) (f : ST W E A) : ST W E A :=
  retry_attempts max_retries f.

Definition get_or_connect (address : string) : GW string :=
  cache ← gets gw_connections;
  match cache !! address with
  | Some client => mret client
  | None =>
      _ ← call_or_500 (sn_connect address);
      _ ← modify (λ s, mkAppState (gw_metrics s) (<[address := address]> (gw_connections s))
            (gw_world s));
      mret address
  end.

Definition compute_checksum (data : list byte) : Z := crc32 data.

(** The error of a call that only gets logged. *)
Definition ignore_error {E A} (m : ST W E A) : GW unit := _ ← call m; mret ().

(** ** PUT, the whole object in one JSON body *)

(** Allocate, write, confirm; a failure deletes the object from the metadata, except
    when the storage node cannot be connected to. *)
Definition put_one_chunk (object_name : string) (chunk : list byte) : GW unit :=
  let chunk_checksum := compute_checksum chunk in
  let fail := _ ← ignore_error (mc_delete_object object_name); throw INTERNAL_SERVER_ERROR in
  allocated ← call (mc_allocate_chunk object_name);
  match allocated with
  | inl _ => fail
  | inr resp =>
      client ← get_or_connect (ac_storage_node_address resp);
      written ← call (sn_write_chunk client (ac_chunk_id resp) chunk);
      match written with
      | inl _ => fail
      | inr _ =>
          confirmed ← call (mc_confirm_chunk (ac_chunk_id resp) object_name chunk_checksum
                              (ac_storage_node_id resp));
          match confirmed with inl _ => fail | inr _ => mret () end
      end
  end.

Fixpoint put_chunks (object_name : string) (l : list (list byte)) : GW unit :=
  match l with
  | [] => mret ()
  | chunk :: l => _ ← put_one_chunk object_name chunk; put_chunks object_name l
  end.

(** [decoded_bytes.chunks(chunk_size)]: a size of zero panics. *)
Definition split_body (chunk_size : Z) (bytes : list byte) : GW (list (list byte)) :=
  if chunk_size =? 0 then panic else mret (slice_chunks chunk_size bytes).

(** Returns the number of bytes stored. *)
Definition handle_put_object (object_name payload : string) : GW Z :=
  match validate_object_name object_name with
  | Some _ => refuse "PUT" "object" "400" BAD_REQUEST
  | None =>
      match b64_decode payload with
      | None => refuse "PUT" "object" "400" BAD_REQUEST
      | Some decoded_bytes =>
          if MAX_OBJECT_SIZE <? zlen decoded_bytes
          then refuse "PUT" "object" "413" PAYLOAD_TOO_LARGE
          else
            nodes ← call mc_list_storage_nodes;
            match nodes with
            | inl _ => refuse "PUT" "object" "500" INTERNAL_SERVER_ERROR
            | inr [] => refuse "PUT" "object" "500" INTERNAL_SERVER_ERROR
            | inr (first :: _) =>
                let test_address := sn_address first in
                _ ← call_or_500 (sn_connect test_address);
                size ← call (sn_get_chunk_size test_address);
                match size with
                | inl _ => refuse "PUT" "object" "500" INTERNAL_SERVER_ERROR
                | inr chunk_size =>
                    chunked ← split_body chunk_size decoded_bytes;
                    created ← call (mc_put_object object_name (compute_checksum decoded_bytes));
                    match created with
                    | inl _ => refuse "PUT" "object" "409" CONFLICT
                    | inr _ =>
                        _ ← put_chunks object_name chunked;
                        _ ← measure (add_uploaded (zlen decoded_bytes));
                        _ ← measure (inc_http "PUT" "object" "200");
                        _ ← measure (observe_operation "put_object");
                        mret (zlen decoded_bytes)
                    end
                end
            end
      end
  end.

(** ** GET *)

(** One storage node after the other, each with two retries. *)
Fixpoint read_from_any (chunk_id : Z) (nodes : list MetaStorageNode) : GW (list byte) :=
  match nodes with
  | [] => throw INTERNAL_SERVER_ERROR
  | node :: nodes =>
      client ← @attempt _ Z _ _ (get_or_connect (sn_address node));
      match client with
      | inl _ => read_from_any chunk_id nodes
      | inr client =>
          r ← call (retry_with_backoff 2 (sn_read_chunk client chunk_id));
          match r with
          | inr bytes => mret bytes
          | inl _ => read_from_any chunk_id nodes
          end
      end
  end.

(** [join_all]: every read runs, whatever the others give. *)
Fixpoint read_all (chunks : list ChunkInfo) : GW (list (Z + list byte)) :=
  match chunks with
  | [] => mret []
  | chunk :: chunks =>
      r ← attempt (read_from_any (ci_id chunk) (ci_storage_nodes chunk));
      rs ← read_all chunks;
      mret (r :: rs)
  end.

(** The bytes of the chunks in order, or the first error. *)
Fixpoint join_chunks (results : list (Z + list byte)) : Z + list byte :=
  match results with
  | [] => inr []
  | inl e :: _ => inl e
  | inr bytes :: results =>
      match join_chunks results with inl e => inl e | inr rest => inr (bytes ++ rest) end
  end.

Definition handle_get_object (object_name : string) : GW string :=
  match validate_object_name object_name with
  | Some _ => refuse "GET" "object" "400" BAD_REQUEST
  | None =>
      r ← call (mc_get_object object_name);
      match r with
      | inl _ => refuse "GET" "object" "404" NOT_FOUND
      | inr resp =>
          results ← read_all (go_chunks resp);
          match join_chunks results with
          | inl e => refuse "GET" "object" "500" e
          | inr chunk_data =>
              _ ← measure (add_downloaded (zlen chunk_data));
              _ ← measure (inc_http "GET" "object" "200");
              _ ← measure (observe_operation "get_object");
              mret (b64_encode chunk_data)
          end
      end
  end.

(** The body of a streamed answer: the chunks read so far, and whether it was cut short
    by an error. The reads run while the body is sent. *)
Fixpoint stream_chunks (chunks : list ChunkInfo) : GW (list (list byte) * bool) :=
  match chunks with
  | [] => mret ([], false)
  | chunk :: chunks =>
      r ← @attempt _ Z _ _ (read_from_any (ci_id chunk) (ci_storage_nodes chunk));
      match r with
      | inl _ => mret ([], true)
      | inr bytes => '(rest, cut) ← stream_chunks chunks; mret (bytes :: rest, cut)
      end
  end.

Definition count_download (m : GwMetrics) : GwMetrics :=
  mkGwMetrics (gm_requests m) (gm_durations m) (gm_uploaded m) (wrap64 (gm_downloaded m + 1))
    (gm_deleted m) (gm_bytes_up m) (gm_bytes_down m).

Definition handle_get_object_stream (object_name : string) : GW (list (list byte) * bool) :=
  match validate_object_name object_name with
  | Some _ => refuse "GET" "object_stream" "400" BAD_REQUEST
  | None =>
      r ← call (mc_get_object object_name);
      match r with
      | inl _ => refuse "GET" "object_stream" "404" NOT_FOUND
      | inr resp =>
          _ ← measure count_download;
          _ ← measure (inc_http "GET" "object_stream" "200");
          _ ← measure (observe_operation "get_object_stream");
          stream_chunks (go_chunks resp)
      end
  end.

(** ** LIST *)

Record ListObjectsResponseChunk := mkListChunk {
  lc_id : Z;
  lc_bytes : string;
  lc_node_address : string;
}.

(** The first storage node that can be connected to. *)
Fixpoint first_reachable (nodes : list MetaStorageNode) : GW (option string) :=
  match nodes with
  | [] => mret None
  | node :: nodes =>
      c ← call (sn_connect (sn_address node));
      match c with
      | inr _ => mret (Some (sn_address node))
      | inl _ => first_reachable nodes
      end
  end.

Fixpoint list_chunks (chunks : list ChunkInfo) : GW (list ListObjectsResponseChunk) :=
  match chunks with
  | [] => mret []
  | chunk :: chunks =>
      if decide (ci_storage_nodes chunk = []) then throw INTERNAL_SERVER_ERROR
      else
        client ← first_reachable (ci_storage_nodes chunk);
        match client with
        | None => throw INTERNAL_SERVER_ERROR
        | Some address =>
            bytes ← call_or_500 (sn_read_chunk address (ci_id chunk));
            rest ← list_chunks chunks;
            mret (mkListChunk (ci_id chunk) (b64_encode bytes) address :: rest)
        end
  end.

Fixpoint list_payloads (objs : list ObjectInfo) :
    GW (list (string * list ListObjectsResponseChunk)) :=
  match objs with
  | [] => mret []
  | obj :: objs =>
      chunks ← list_chunks (oi_chunks obj);
      rest ← list_payloads objs;
      mret ((oi_name obj, chunks) :: rest)
  end.

Definition handle_list_objects : GW (list (string * list ListObjectsResponseChunk)) :=
  r ← call mc_list_objects;
  match r with
  | inl _ => refuse "GET" "list" "500" INTERNAL_SERVER_ERROR
  | inr objs =>
      object_list ← list_payloads objs;
      _ ← measure (inc_http "GET" "list" "200");
      _ ← measure (observe_operation "list_objects");
      mret object_list
  end.

(** ** DELETE *)

Definition delete_targets (chunks : list ChunkInfo) : list (Z * string) :=
  chunk ← chunks; (λ node, (ci_id chunk, sn_address node)) <$> ci_storage_nodes chunk.

(** The deletion of one copy: whether it worked. *)
Definition delete_copy (target : Z * string) : GW bool :=
  client ← @attempt _ Z _ _ (get_or_connect target.2);
  match client with
  | inl _ => mret false
  | inr client =>
      r ← call (retry_with_backoff 2 (sn_delete_chunk client target.1));
      mret (match r with inr _ => true | inl _ => false end)
  end.

Fixpoint delete_copies (targets : list (Z * string)) : GW (list bool) :=
  match targets with
  | [] => mret []
  | t :: targets => r ← delete_copy t; rs ← delete_copies targets; mret (r :: rs)
  end.

Fixpoint delete_from_metadata (chunks : list ChunkInfo) : GW unit :=
  match chunks with
  | [] => mret ()
  | chunk :: chunks => _ ← ignore_error (mc_delete_chunk (ci_id chunk)); delete_from_metadata chunks
  end.

Definition handle_delete_object (object_name : string) : GW unit :=
  match validate_object_name object_name with
  | Some _ => refuse "DELETE" "object" "400" BAD_REQUEST
  | None =>
      r ← call (mc_get_object object_name);
      match r with
      | inl _ => refuse "DELETE" "object" "404" NOT_FOUND
      | inr resp =>
          _ ← delete_copies (delete_targets (go_chunks resp));
          _ ← delete_from_metadata (go_chunks resp);
          d ← call (mc_delete_object object_name);
          match d with
          | inl _ => refuse "DELETE" "object" "500" INTERNAL_SERVER_ERROR
          | inr _ =>
              _ ← measure inc_deleted;
              _ ← measure (inc_http "DELETE" "object" "200");
              measure (observe_operation "delete_object")
          end
      end
  end.

(** An error of a remote call is a value. *)
Lemma call_no_err {E A} (m : ST W E A) g e g' : call m g ≠ (Err e, g').
Proof. unfold call, zoom. run_st. by destruct (m (gw_world g)) as [[]]. Qed.

End gateway.
