(* ===== verification/Multipart.v ===== *)
(** * Multipart: streaming upload and the choice of handler

    The rest of api-gateway/src/handlers.rs: uploads as a multipart form, cut into chunks
    as they arrive, and the dispatch of PUT and GET requests. *)

From S2P Require Import Prelude.
From S2P Require Import Bytes.
From S2P Require Import Str.
From S2P Require Import Crc32.
From S2P Require Import Grpc.
From S2P Require Import MetadataStore.
From S2P Require Import ClusterService.
From S2P Require Import Clients.
From S2P Require Import Gateway.
Open Scope string_scope.
Open Scope list_scope.
Open Scope Z_scope.

(** What the stream of a field yields: data, or an error that ends it. *)
Inductive stream_event := Data (bytes : list byte) | StreamError.

(** What the multipart parser yields: a field and its name, or an error. *)
Inductive form_event := Field (name : option string) (content : list stream_event) | FormError.

(** The streaming state: the hasher, the buffer and the total size. *)
Record Upload `{Crc32} := mkUpload {
  up_hasher : hasher;
  up_buffer : list byte;
  up_total_size : Z;
}.

Section multipart.
Context {W : Type} `{MetadataClient W} `{StorageNodeClient W} `{Crc32} `{Base64} `{UnicodeTables}.

(** Allocate, write, confirm; every error is [500]. *)
Definition flush_chunk_to_storage (buf : list byte) (object_name : string) : @GW W unit :=
  let chunk_checksum := compute_checksum buf in
  alloc ← call_or_500 (mc_allocate_chunk object_name);
  client ← get_or_connect (ac_storage_node_address alloc);
  _ ← call_or_500 (sn_write_chunk client (ac_chunk_id alloc) buf);
  call_or_500 (mc_confirm_chunk (ac_chunk_id alloc) object_name chunk_checksum
    (ac_storage_node_id alloc)).

(** [while buffer.len() >= chunk_size]: flushes full chunks, returns the rest. One more
    turn than the buffer has bytes is enough when [chunk_size] is not zero; for zero the
    loop of the code ends at the first failing flush only, and the model stops with
    [Panic]. *)
Fixpoint flush_full (fuel : nat) (chunk_size : Z) (object_name : string) (buffer : list byte) :
    @GW W (list byte) :=
  match fuel with
  | O => panic
  | S fuel =>
      if chunk_size <=? zlen buffer then
        _ ← flush_chunk_to_storage (ztake chunk_size buffer) object_name;
        flush_full fuel chunk_size object_name (zdrop chunk_size buffer)
      else mret buffer
  end.

Fixpoint stream_field (chunk_size : Z) (object_name : string) (content : list stream_event)
    (u : Upload) : @GW W Upload :=
  match content with
  | [] => mret u
  | StreamError :: _ => throw BAD_REQUEST
  | Data chunk_data :: content =>
      let h := hasher_update (up_hasher u) chunk_data in
      let total_size := up_total_size u + zlen chunk_data in
      if MAX_OBJECT_SIZE <? total_size then throw PAYLOAD_TOO_LARGE
      else
        let buffer := up_buffer u ++ chunk_data in
        rest ← flush_full (S (length buffer)) chunk_size object_name buffer;
        stream_field chunk_size object_name content (mkUpload _ h rest total_size)
  end.

(** The first field called "file". *)
Fixpoint find_file (form : list form_event) : option (list stream_event) :=
  match form with
  | [] => None
  | FormError :: _ => None
  | Field (Some name) content :: form =>
      if String.eqb name "file" then Some content else find_file form
  | Field None _ :: form => find_file form
  end.

(** Runs [m]; its failure deletes the object from the metadata. *)
Definition or_rollback {A} (object_name : string) (m : @GW W A) : @GW W A :=
  r ← @attempt _ Z _ _ m;
  match r with
  | inr a => mret a
  | inl e => _ ← ignore_error (mc_delete_object object_name); throw e
  end.

Definition handle_put_object_multipart (object_name : string) (form : list form_event) :
    @GW W Z :=
  match validate_object_name object_name with
  | Some _ => refuse "PUT" "object_multipart" "400" BAD_REQUEST
  | None =>
      nodes ← call_or_500 mc_list_storage_nodes;
      match nodes with
      | [] => throw INTERNAL_SERVER_ERROR
      | first :: _ =>
          _ ← call_or_500 (sn_connect (sn_address first));
          chunk_size ← call_or_500 (sn_get_chunk_size (sn_address first));
          created ← call (mc_put_object object_name 0);
          match created with
          | inl _ => refuse "PUT" "object_multipart" "409" CONFLICT
          | inr _ =>
              u ← or_rollback object_name (
                match find_file form with
                | None => throw BAD_REQUEST
                | Some content =>
                    u ← stream_field chunk_size object_name content
                      (mkUpload _ hasher_new [] 0);
                    _ ← (if decide (up_buffer u = []) then mret ()
                         else flush_chunk_to_storage (up_buffer u) object_name);
                    _ ← call_or_500 (mc_update_object_checksum object_name
                          (hasher_finalize (up_hasher u)) (up_total_size u));
                    mret u
                end);
              _ ← measure (add_uploaded (up_total_size u));
              _ ← measure (inc_http "PUT" "object_multipart" "200");
              _ ← measure (observe_operation "put_object_multipart");
              mret (up_total_size u)
          end
      end
  end.

(** ** Dispatch *)

(** A PUT request: its content type ([None]: absent or not text), the form its body
    parses to, and the [bytes] field of the JSON its body parses to. *)
Record PutRequest := mkPutRequest {
  pr_content_type : option string;
  pr_form : option (list form_event);
  pr_json : option string;
}.

Definition handle_put_dispatch (object_name : string) (req : PutRequest) : @GW W Z :=
  if starts_with "multipart/form-data" (default "" (pr_content_type req)) then
    match pr_form req with
    | None => throw BAD_REQUEST
    | Some form => handle_put_object_multipart object_name form
    end
  else
    match pr_json req with
    | None => throw BAD_REQUEST
    | Some payload => handle_put_object object_name payload
    end.

Fixpoint contains (p s : string) : bool :=
  String.prefix p s || match s with "" => false | String _ s => contains p s end.

(** The answer of a GET: JSON with the bytes in base64, or a binary stream. *)
Inductive GetAnswer := JsonBytes (bytes : string) | Stream (chunks : list (list byte)) (cut : bool).

Definition handle_get_dispatch (object_name : string) (accept : option string) :
    @GW W GetAnswer :=
  if contains "application/json" (default "" accept)
  then bytes ← handle_get_object object_name; mret (JsonBytes bytes)
  else '(chunks, cut) ← handle_get_object_stream object_name; mret (Stream chunks cut).

End multipart.
