(* ===== verification/Uploads.v ===== *)
(** * Uploads: a PUT one remote call at a time

    The part of api-gateway/src/handlers.rs: [handle_put_object] from the creation of the
    object on, as a machine that makes one remote call per step, so that several uploads
    can take turns. Run without interruption it is the handler's loop. *)

From S2P Require Import Prelude.
From S2P Require Import Bytes.
From S2P Require Import Crc32.
From S2P Require Import Grpc.
From S2P Require Import MetadataStore.
From S2P Require Import ClusterService.
From S2P Require Import Clients.
From S2P Require Import Gateway.
Open Scope string_scope.
Open Scope list_scope.
Open Scope Z_scope.

(** Where an upload stands: the next call, and the chunks after the current one. *)
Inductive phase :=
  | Creating (checksum : Z) (chunked : list (list byte))
  | Sending (chunked : list (list byte))
  | Connecting (allocated : AllocateChunkResponse) (chunk : list byte) (rest : list (list byte))
  | Writing (client : string) (allocated : AllocateChunkResponse) (chunk : list byte)
      (rest : list (list byte))
  | Confirming (allocated : AllocateChunkResponse) (chunk : list byte) (rest : list (list byte))
  | RollingBack
  | Finished
  | Refused (status : Z).

Section uploads.
Context {W : Type} `{MetadataClient W} `{StorageNodeClient W} `{Crc32}.

Definition upload_step (object_name : string) (p : phase) : GW (W := W) phase :=
  match p with
  | Creating checksum chunked =>
      created ← call (mc_put_object object_name checksum);
      mret (match created with inl _ => Refused CONFLICT | inr _ => Sending chunked end)
  | Sending [] => mret Finished
  | Sending (chunk :: rest) =>
      allocated ← call (mc_allocate_chunk object_name);
      mret (match allocated with inl _ => RollingBack | inr resp => Connecting resp chunk rest end)
  | Connecting resp chunk rest =>
      client ← attempt (get_or_connect (ac_storage_node_address resp));
      mret (match client with inl e => Refused e | inr client => Writing client resp chunk rest end)
  | Writing client resp chunk rest =>
      written ← call (sn_write_chunk client (ac_chunk_id resp) chunk);
      mret (match written with inl _ => RollingBack | inr _ => Confirming resp chunk rest end)
  | Confirming resp chunk rest =>
      confirmed ← call (mc_confirm_chunk (ac_chunk_id resp) object_name (compute_checksum chunk)
                          (ac_storage_node_id resp));
      mret (match confirmed with inl _ => RollingBack | inr _ => Sending rest end)
  | RollingBack =>
      _ ← ignore_error (mc_delete_object object_name);
      mret (Refused INTERNAL_SERVER_ERROR)
  | Finished => mret Finished
  | Refused status => mret (Refused status)
  end.

Fixpoint run_steps (k : nat) (object_name : string) (p : phase) : GW (W := W) phase :=
  match k with
  | O => mret p
  | S k => p ← upload_step object_name p; run_steps k object_name p
  end.

(** ** The steps in a row are the handler's loop *)

Definition as_phase (run : outcome Z unit * AppState W) : outcome Z phase * AppState W :=
  (match run.1 with Ok _ => Ok Finished | Err e => Ok (Refused e) | Panic => Panic end, run.2).

Lemma run_steps_finished k name g : run_steps k name Finished g = (Ok Finished, g).
Proof. induction k as [|k IH]; [done|]. exact IH. Qed.
Lemma run_steps_refused k name e g : run_steps k name (Refused e) g = (Ok (Refused e), g).
Proof. induction k as [|k IH]; [done|]. exact IH. Qed.

Lemma run_steps_rollback k name g :
  run_steps (S k) name RollingBack g =
  as_phase ((_ ← ignore_error (mc_delete_object name); throw INTERNAL_SERVER_ERROR) g).
Proof.
  cbn [run_steps upload_step]. unfold ignore_error. run_st. unfold call, zoom. run_st.
  destruct (mc_delete_object name (gw_world g)) as [[[]|e|] w]; cbn;
    first [apply run_steps_refused|done].
Qed.

(** Runs one call of both sides; [Hfail] is for its error, a panic is the same. *)
Ltac run_call m Hfail :=
  let Hc := fresh in
  cbn [upload_step]; cbv [mbind ST_bind];
  destruct (call m _) as [[[?e|?a]|?e|] ?g] eqn:Hc; cbv [mret ST_ret];
  [apply Hfail| |by apply call_no_err in Hc|done]; clear Hc.

Lemma run_steps_step k name p :
  run_steps (S k) name p = (p ← upload_step name p; run_steps k name p).
Proof. done. Qed.

Lemma run_steps_chunk k name chunk rest g :
  run_steps (S (S (S (S (S k))))) name (Sending (chunk :: rest)) g =
  match put_one_chunk name chunk g with
  | (Ok _, g') => run_steps (S k) name (Sending rest) g'
  | (Err e, g') => (Ok (Refused e), g')
  | (Panic, g') => (Panic, g')
  end.
Proof.
  assert (∀ k' g', run_steps (S k') name RollingBack g' =
    match (_ ← ignore_error (mc_delete_object name); throw INTERNAL_SERVER_ERROR : GW unit) g' with
    | (Ok _, g2) => run_steps (S k) name (Sending rest) g2
    | (Err e, g2) => (Ok (Refused e), g2)
    | (Panic, g2) => (Panic, g2)
    end) as Hfail.
  { intros k' g'. rewrite run_steps_rollback. unfold as_phase, ignore_error. run_st. unfold call, zoom.
    run_st. by destruct (mc_delete_object name (gw_world g')) as [[[]|e|] w]. }
  unfold put_one_chunk. rewrite run_steps_step.
  run_call (mc_allocate_chunk name) Hfail.
  rewrite run_steps_step. cbn [upload_step]. unfold attempt. cbv [mbind ST_bind].
  destruct (get_or_connect (ac_storage_node_address a) g0) as [[client|e|] g2]; cbv [mret ST_ret];
    [|apply run_steps_refused|done].
  rewrite run_steps_step. run_call (sn_write_chunk client (ac_chunk_id a) chunk) Hfail.
  rewrite run_steps_step.
  by run_call (mc_confirm_chunk (ac_chunk_id a) name (compute_checksum chunk)
    (ac_storage_node_id a)) Hfail.
Qed.

(** Four steps for each chunk, one to roll back, one to finish are enough. *)
Lemma run_steps_chunks k name chunked g :
  (4 * length chunked + 2 ≤ k)%nat →
  run_steps k name (Sending chunked) g = as_phase (put_chunks name chunked g).
Proof.
  revert k g. induction chunked as [|chunk rest IH]; intros k g Hk.
  { destruct k as [|k]; [lia|]. apply run_steps_finished. }
  do 5 (destruct k as [|k]; [simpl in Hk; lia|]).
  rewrite run_steps_chunk. cbn [put_chunks]. cbv [mbind ST_bind].
  destruct (put_one_chunk name chunk g) as [[[]|e|] g1]; [|done..].
  apply IH. simpl in Hk. lia.
Qed.

(** The machine run on its own is what [handle_put_object] does from the creation of the
    object on, with the same answer and the same state in the end, whatever the calls
    answer; four steps for each chunk and three more are enough. *)
Theorem steps_are_the_upload name checksum chunked extra g :
  run_steps (4 * length chunked + 3 + extra) name (Creating checksum chunked) g =
  as_phase ((created ← call (mc_put_object name checksum);
             match created with inl _ => throw CONFLICT | inr _ => put_chunks name chunked end) g).
Proof.
  replace (4 * length chunked + 3 + extra)%nat
    with (S (4 * length chunked + 2 + extra)) by lia.
  rewrite run_steps_step. cbn [upload_step]. cbv [mbind ST_bind].
  destruct (call (mc_put_object name checksum) g) as [[[e|[]]|e|] g1] eqn:Hc; cbv [mret ST_ret];
    [apply run_steps_refused|apply run_steps_chunks; lia|by apply call_no_err in Hc|done].
Qed.

End uploads.
