(* ===== verification/Joined.v ===== *)
(** * Joined: futures that run together

    The parts of api-gateway/src/handlers.rs that run under [join_all]: the reads of an
    object's chunks and the deletions of its copies. A future is a task that makes one
    remote call at a time; tasks that are joined take turns in any order. *)

From S2P Require Import Prelude.
From S2P Require Import Bytes.
From S2P Require Import Grpc.
From S2P Require Import MetadataStore.
From S2P Require Import ClusterService.
From S2P Require Import Clients.
From S2P Require Import Gateway.
Open Scope string_scope.
Open Scope list_scope.
Open Scope Z_scope.

Section joined.
Context {W : Type} `{MetadataClient W} `{StorageNodeClient W}.

(** A future: its result, or its next step. *)
Inductive task (A : Type) : Type :=
  | Done (a : A)
  | More (m : AppState W → outcome Z (task A) * AppState W).
Arguments Done {A} _.
Arguments More {A} _.

(** Runs a task on its own. *)
Fixpoint run_task {A} (t : task A) : GW (W := W) A :=
  match t with
  | Done a => mret a
  | More m => λ g,
      match m g with
      | (Ok t, g) => run_task t g
      | (Err e, g) => (Err e, g)
      | (Panic, g) => (Panic, g)
      end
  end.

(** One of the joined tasks makes its next step. *)
Inductive join_turn {A} : AppState W * list (task A) → AppState W * list (task A) → Prop :=
  | join_at g ts i m t g' :
      ts !! i = Some (More m) → m g = (Ok t, g') → join_turn (g, ts) (g', <[i := t]> ts).

(** [retry_with_backoff], an attempt at a time: other tasks run while it sleeps. *)
Fixpoint attempts_task {A B} (attempts : nat) (f : ST W Code B) (k : Code + B → task A) : task A :=
  More (r ← call f;
        mret (match r, attempts with
              | inl _, S attempts => attempts_task attempts f k
              | _, _ => k r
              end)).

(** The future of one chunk in [handle_get_object]. *)
Fixpoint read_task (chunk_id : Z) (nodes : list MetaStorageNode) : task (Z + list byte) :=
  match nodes with
  | [] => Done (inl INTERNAL_SERVER_ERROR)
  | node :: nodes =>
      More (client ← @attempt _ Z _ _ (get_or_connect (sn_address node));
            mret (match client with
                  | inl _ => read_task chunk_id nodes
                  | inr client =>
                      attempts_task 2 (sn_read_chunk client chunk_id) (λ r,
                        match r with
                        | inr bytes => Done (inr bytes)
                        | inl _ => read_task chunk_id nodes
                        end)
                  end))
  end.

(** The future of one copy in [handle_delete_object]. *)
Definition delete_task (target : Z * string) : task bool :=
  More (client ← @attempt _ Z _ _ (get_or_connect target.2);
        mret (match client with
              | inl _ => Done false
              | inr client =>
                  attempts_task 2 (sn_delete_chunk client target.1) (λ r,
                    Done (match r with inr _ => true | inl _ => false end))
              end)).

(** ** On its own, a task is the handler's code *)

Lemma run_attempts_task {A B} k (f : ST W Code B) (next : Code + B → task A) g :
  run_task (attempts_task k f next) g = (r ← call (retry_with_backoff k f); run_task (next r)) g.
Proof.
  revert g. unfold retry_with_backoff.
  induction k as [|k IH]; intros g; cbn [attempts_task run_task retry_attempts]; unfold call, zoom;
    run_st.
  { by destruct (f (gw_world g)) as [[]]. }
  destruct (f (gw_world g)) as [[b|e|] w]; [done| |done]. rewrite IH.
  unfold call, zoom. run_st. cbn. by destruct (retry_attempts k f w) as [[]].
Qed.

Lemma run_read_task id nodes g :
  run_task (read_task id nodes) g = attempt (read_from_any id nodes) g.
Proof.
  revert g. induction nodes as [|node nodes IH]; intros g; [done|].
  cbn [read_task run_task read_from_any]. unfold attempt. run_st.
  destruct (get_or_connect (sn_address node) g) as [[client|e|] g1]; [| |done].
  - rewrite run_attempts_task. run_st.
    destruct (call _ g1) as [[[e|bytes]|e|] g2] eqn:Hc; [|done|by apply call_no_err in Hc|done].
    rewrite IH. unfold attempt.
    by destruct (read_from_any id nodes g2) as [[]].
  - rewrite IH. unfold attempt. by destruct (read_from_any id nodes g1) as [[]].
Qed.

Lemma run_delete_task target g : run_task (delete_task target) g = delete_copy target g.
Proof.
  unfold delete_task, delete_copy. cbn [run_task]. unfold attempt. run_st.
  destruct (get_or_connect target.2 g) as [[client|e|] g1]; [|done..].
  rewrite run_attempts_task. run_st. by destruct (call _ g1) as [[[]| |]].
Qed.

End joined.
Arguments task W A : clear implicits.
Arguments Done {W A} _.
Arguments More {W A} _.
