(* ===== verification/Replication.v ===== *)
(** * Replication: one cycle of the replication service

    replication-service/src/main.rs, over the clients' interfaces: every chunk with too
    few replicas, up to the rate limit, is copied to one random other node. *)

From S2P Require Import Prelude.
From S2P Require Import Bytes.
From S2P Require Import Crc32.
From S2P Require Import Grpc.
From S2P Require Import MetadataStore.
From S2P Require Import ClusterService.
From S2P Require Import Clients.
Open Scope string_scope.
Open Scope list_scope.
Open Scope Z_scope.

(** The counters of replication-service/src/metrics.rs; of the histogram of durations,
    the number of observations. *)
Record ReplMetrics := mkReplMetrics {
  rm_runs_total : Z;
  rm_replicated_total : Z;
  rm_failures : gmap string Z;
  rm_durations : Z;
  rm_under_replicated : Z;
  rm_skipped : Z;
}.

(** The service's metrics, its random picks to come, and the world. *)
Record Repl (W : Type) := mkRepl {
  rp_metrics : ReplMetrics;
  rp_picks : list nat;
  rp_world : W;
}.
Arguments mkRepl {W} _ _ _.
Arguments rp_metrics {W} _.
Arguments rp_picks {W} _.
Arguments rp_world {W} _.

Definition inc_run (m : ReplMetrics) : ReplMetrics :=
  mkReplMetrics (wrap64 (rm_runs_total m + 1)) (rm_replicated_total m) (rm_failures m)
    (rm_durations m) (rm_under_replicated m) (rm_skipped m).
Definition inc_replicated (m : ReplMetrics) : ReplMetrics :=
  mkReplMetrics (rm_runs_total m) (wrap64 (rm_replicated_total m + 1)) (rm_failures m)
    (rm_durations m) (rm_under_replicated m) (rm_skipped m).
Definition inc_failure (error_type : string) (m : ReplMetrics) : ReplMetrics :=
  mkReplMetrics (rm_runs_total m) (rm_replicated_total m)
    (<[error_type := wrap64 (default 0 (rm_failures m !! error_type) + 1)]> (rm_failures m))
    (rm_durations m) (rm_under_replicated m) (rm_skipped m).
Definition observe_duration (m : ReplMetrics) : ReplMetrics :=
  mkReplMetrics (rm_runs_total m) (rm_replicated_total m) (rm_failures m)
    (rm_durations m + 1) (rm_under_replicated m) (rm_skipped m).
Definition set_under_replicated (v : Z) (m : ReplMetrics) : ReplMetrics :=
  mkReplMetrics (rm_runs_total m) (rm_replicated_total m) (rm_failures m)
    (rm_durations m) v (rm_skipped m).
Definition inc_skipped (n : Z) (m : ReplMetrics) : ReplMetrics :=
  mkReplMetrics (rm_runs_total m) (rm_replicated_total m) (rm_failures m)
    (rm_durations m) (rm_under_replicated m) (wrap64 (rm_skipped m + n)).

(** What becomes of one chunk. *)
Inductive chunk_result := Replicated | Skipped | Failed (error_type : string).

Section replication.
Context {W : Type} `{MetadataClient W} `{StorageNodeClient W} `{Crc32}.

(** No error leaves a cycle. *)
Definition RM : Type → Type := ST (Repl W) Empty_set.

Definition set_rp_world (w : W) (s : Repl W) : Repl W := mkRepl (rp_metrics s) (rp_picks s) w.

(** A remote call, its error a value. *)
Definition remote {E A} (m : ST W E A) : RM (E + A) :=
  zoom rp_world set_rp_world (attempt m).

Definition count_repl (f : ReplMetrics → ReplMetrics) : RM unit :=
  modify (λ s, mkRepl (f (rp_metrics s)) (rp_picks s) (rp_world s)).

Definition eligible_nodes (nodes : list MetaStorageNode) (chunk : UnderReplicatedChunk) :
    list MetaStorageNode :=
  List.filter (λ n, negb (bool_decide (sn_id n ∈ ur_current_storage_node_ids chunk))) nodes.

(** [choose]: any of the list. *)
Definition choose_node (l : list MetaStorageNode) : RM (option MetaStorageNode) := λ s,
  match l with
  | [] => (Ok None, s)
  | _ =>
      let pick := default O (head (rp_picks s)) in
      (Ok (l !! (pick `mod` length l)%nat),
       mkRepl (rp_metrics s) (tail (rp_picks s)) (rp_world s))
  end.

(** Connects, then calls; [inl None]: not connected. *)
Definition connect_then {A} (address : string) (m : ST W Code A) : RM (option Code + A) :=
  c ← remote (sn_connect address);
  match c with
  | inl _ => mret (inl None)
  | inr _ =>
      r ← remote m;
      mret (match r with inl e => inl (Some e) | inr a => inr a end)
  end.

Definition has_space (address : string) : RM bool :=
  r ← connect_then address (sn_get_free_chunks address);
  mret (match r with inr num_free => 0 <? num_free | inl _ => false end).

(** Steps 6 to 8: the copy, given the target. *)
Definition copy_chunk (chunk : UnderReplicatedChunk) (target_node : MetaStorageNode) :
    RM chunk_result :=
  match ur_current_storage_node_ids chunk with
  | [] => mret Skipped
  | source_node_id :: _ =>
      source ← remote (mc_get_storage_node source_node_id);
      match source with
      | inl _ => mret (Failed "connect_source")
      | inr source_address =>
          chunk_data ← connect_then source_address
            (sn_read_chunk source_address (ur_chunk_id chunk));
          match chunk_data with
          | inl None => mret (Failed "connect_source")
          | inl (Some _) => mret (Failed "read_chunk")
          | inr chunk_data =>
              if decide (crc32 chunk_data = ur_checksum chunk) then
                let target_address := sn_address target_node in
                written ← connect_then target_address
                  (sn_write_chunk target_address (ur_chunk_id chunk) chunk_data);
                match written with
                | inl (Some _) => mret (Failed "write_chunk")
                | inl None => mret (Failed "connect_target")
                | inr _ =>
                    added ← remote (mc_add_chunk_replica (ur_chunk_id chunk) (sn_id target_node));
                    match added with
                    | inl _ =>
                        _ ← connect_then target_address
                          (sn_delete_chunk target_address (ur_chunk_id chunk));
                        mret (Failed "update_metadata")
                    | inr _ => mret Replicated
                    end
                end
              else mret (Failed "checksum_mismatch")
          end
      end
  end.

(** One turn of the loop. *)
Definition replicate_chunk (nodes : list MetaStorageNode) (chunk : UnderReplicatedChunk) :
    RM chunk_result :=
  target ← choose_node (eligible_nodes nodes chunk);
  match target with
  | None => mret Skipped
  | Some target_node =>
      space ← has_space (sn_address target_node);
      if space : bool then
        r ← copy_chunk chunk target_node;
        _ ← (match r with
             | Replicated => count_repl inc_replicated
             | Failed error_type => count_repl (inc_failure error_type)
             | Skipped => mret ()
             end);
        mret r
      else mret Skipped
  end.

Fixpoint replicate_chunks (nodes : list MetaStorageNode) (l : list UnderReplicatedChunk) :
    RM (list chunk_result) :=
  match l with
  | [] => mret []
  | chunk :: l =>
      r ← replicate_chunk nodes chunk;
      rs ← replicate_chunks nodes l;
      mret (r :: rs)
  end.

(** Returns what became of each chunk it took up. *)
Definition run_replication_cycle (max_chunks_per_cycle : nat) : RM (list chunk_result) :=
  _ ← count_repl inc_run;
  chunks ← remote (mc_list_under_replicated_chunks MAX_REPLICAS);
  match chunks with
  | inl _ => _ ← count_repl (inc_failure "list_chunks"); mret []
  | inr chunks =>
      _ ← count_repl (set_under_replicated (zlen chunks));
      if decide (chunks = []) then _ ← count_repl observe_duration; mret []
      else
        nodes ← remote mc_list_storage_nodes;
        match nodes with
        | inl _ => _ ← count_repl (inc_failure "list_nodes"); mret []
        | inr nodes =>
            if decide (nodes = []) then mret []
            else
              let skipped := (length chunks - max_chunks_per_cycle)%nat in
              _ ← (if decide (skipped = O) then mret ()
                   else count_repl (inc_skipped (Z.of_nat skipped)));
              rs ← replicate_chunks nodes (take max_chunks_per_cycle chunks);
              _ ← count_repl observe_duration;
              mret rs
        end
  end.

(** ** The main loop *)

Definition MAX_CONSECUTIVE_FAILURES : Z := 3.

(** One tick: reconnect after three failed probes in a row, probe, run a cycle.
    [reconnect]: whether one of the metadata services accepts a connection. The result
    is the new count of failures and whether a cycle ran. *)
Definition tick (max_chunks_per_cycle : nat) (reconnect : bool) (consecutive_failures : Z) :
    RM (Z * bool) :=
  let gave_up := (MAX_CONSECUTIVE_FAILURES <=? consecutive_failures) in
  if gave_up && negb reconnect then
    _ ← count_repl (inc_failure "connect_metadata"); mret (consecutive_failures, false)
  else
    let consecutive_failures := if gave_up then 0 else consecutive_failures in
    probe ← remote mc_list_storage_nodes;
    match probe with
    | inl _ =>
        _ ← count_repl (inc_failure "connect_metadata");
        mret (wrap32 (consecutive_failures + 1), false)
    | inr _ => _ ← run_replication_cycle max_chunks_per_cycle; mret (0, true)
    end.

End replication.
