(* ===== verification/SystemFacts.v ===== *)
(** * SystemFacts: the gateway's calls on the whole system

    What each remote call of the gateway does to the metadata node and to the contents of
    the storage nodes, and where an object's bytes are. *)

From S2P Require Import Prelude.
From S2P Require Import Bytes.
From S2P Require Import Crc32.
From S2P Require Import ChunkStore.
From S2P Require Import ChunkStoreFacts.
From S2P Require Import ChunkStoreSpec.
From S2P Require Import Grpc.
From S2P Require Import StorageNode.
From S2P Require Import NodeFacts.
From S2P Require Import HashRing.
From S2P Require Import MetadataStore.
From S2P Require Import MetadataStoreFacts.
From S2P Require Import ClusterService.
From S2P Require Import Cluster.
From S2P Require Import Forwarding.
From S2P Require Import MetadataService.
From S2P Require Import Network.
From S2P Require Import ClusterFacts.
From S2P Require Import RoutingFacts.
From S2P Require Import Clients.
From S2P Require Import Gateway.
Open Scope string_scope.
Open Scope list_scope.
Open Scope Z_scope.

(** The metadata behind the node the clients talk to. *)
Abbreviation meta w := (sv_store (mn_server (w_meta w))).

Section system.
Context `{MetaDeps} `{Xxh3} `{Crc32}.

(** Every storage node that is up is in normal service. *)
Definition nodes_good (w : World) : Prop := ∀ a n, w_nodes w !! a = Some n → good (store n).

(** The chunks the node at [a] stores. *)
Definition node_data (w : World) (a : string) : gmap Z (list byte) :=
  match w_nodes w !! a with Some n => abs (store n) | None => ∅ end.

(** The slots of the node at [a]. *)
Definition node_slots (w : World) (a : string) : Z :=
  match w_nodes w !! a with Some n => cs_total (store n) | None => 0 end.

(** The same nodes are up, and each has the slots that it had. *)
Record same_nodes (w w' : World) : Prop := mkSameNodes {
  sm_up a : is_Some (w_nodes w' !! a) ↔ is_Some (w_nodes w !! a);
  sm_slots a : node_slots w' a = node_slots w a;
}.

#[export] Instance same_nodes_refl : Reflexive same_nodes.
Proof. intros w. by split. Qed.
#[export] Instance same_nodes_trans : Transitive same_nodes.
Proof.
  intros a b c [u1 s1] [u2 s2]. split; intros x; [by rewrite u2|by rewrite s2].
Qed.
Lemma same_nodes_eq w w' : w_nodes w' = w_nodes w → same_nodes w w'.
Proof. intros Hw. split; intros a; unfold node_slots; by rewrite Hw. Qed.

(** [w'] has the metadata of [w], the same nodes up and the same chunks on them. *)
Record same_data (w w' : World) : Prop := mkSameData {
  sd_meta : w_meta w' = w_meta w;
  sd_up a : is_Some (w_nodes w' !! a) ↔ is_Some (w_nodes w !! a);
  sd_data a : node_data w' a = node_data w a;
  sd_good : nodes_good w → nodes_good w';
  sd_slots a : node_slots w' a = node_slots w a;
}.

#[export] Instance same_data_refl : Reflexive same_data.
Proof. intros w. by split. Qed.
#[export] Instance same_data_trans : Transitive same_data.
Proof.
  intros a b c [m1 u1 d1 g1 s1] [m2 u2 d2 g2 s2].
  split; [by rewrite m2| |intros; by rewrite d2|auto|intros; by rewrite s2].
  intros x. by rewrite u2.
Qed.

Lemma node_data_insert w m a n x :
  node_data (mkWorld m (<[a := n]> (w_nodes w))) x =
  if decide (a = x) then abs (store n) else node_data w x.
Proof.
  unfold node_data. simpl. case_decide as Hx; [subst; by rewrite lookup_insert_eq|].
  by rewrite lookup_insert_ne.
Qed.

Lemma nodes_good_insert w m a n :
  nodes_good w → good (store n) → nodes_good (mkWorld m (<[a := n]> (w_nodes w))).
Proof.
  intros Hg Hn x n'. simpl. intros [[_ <-]|[_ Hx]]%lookup_insert_Some; [done|by eapply Hg].
Qed.

Lemma up_insert w m a n n' x :
  w_nodes w !! a = Some n →
  is_Some (w_nodes (mkWorld m (<[a := n']> (w_nodes w))) !! x) ↔ is_Some (w_nodes w !! x).
Proof.
  intros Ha. simpl. destruct (decide (a = x)) as [->|Hne].
  - rewrite lookup_insert_eq, Ha. split; eauto.
  - by rewrite lookup_insert_ne.
Qed.

Lemma same_nodes_insert w m a n n' :
  w_nodes w !! a = Some n → cs_total (store n') = cs_total (store n) →
  same_nodes w (mkWorld m (<[a := n']> (w_nodes w))).
Proof.
  intros Ha Ht. split; intros x; [by eapply up_insert|]. unfold node_slots. simpl.
  destruct (decide (a = x)) as [<-|Hx]; [by rewrite lookup_insert_eq, Ha|by rewrite lookup_insert_ne].
Qed.

(** ** One call of a storage node *)

Lemma world_read a id w :
  nodes_good w →
  ∃ r w', sn_read_chunk a id w = (r, w') ∧ same_data w w' ∧
    match r with
    | Ok bytes => node_data w a !! id = Some bytes
    | Err _ => node_data w a !! id = None
    | Panic => False
    end.
Proof.
  intros Hg. cbn. unfold on_node, node_data.
  destruct (w_nodes w !! a) as [n|] eqn:Ha; [|by eexists _, w].
  destruct (node_read_spec id n (Hg a n Ha)) as (r & n' & Hr & Hgn & Habs & Ht & Hp).
  assert (same_data w (mkWorld (w_meta w) (<[a := n']> (w_nodes w)))) as Hsame.
  { destruct (same_nodes_insert _ (w_meta w) _ _ n' Ha Ht) as [Hup Hslots].
    split; [done|exact Hup| |intros; by apply nodes_good_insert|exact Hslots].
    intros x. rewrite node_data_insert. case_decide as Hx; [|done].
    subst x. unfold node_data. by rewrite Ha. }
  destruct r as [resp|e|]; [|..|done].
  - run_st; rewrite Hr. by eexists _, _.
  - run_st; rewrite Hr. by eexists _, _.
Qed.

(** After a successful write the chunk is there, and it was not before. *)
Lemma world_write a id bytes w :
  nodes_good w → is_u64 id → zlen bytes ≤ SLOT_DATA_SIZE →
  ∃ r w', sn_write_chunk a id bytes w = (r, w') ∧ w_meta w' = w_meta w ∧ nodes_good w' ∧
    (∀ x, is_Some (w_nodes w' !! x) ↔ is_Some (w_nodes w !! x)) ∧
    match r with
    | Ok _ => is_Some (w_nodes w !! a) ∧ node_data w a !! id = None ∧
        ∀ x, node_data w' x = if decide (a = x) then <[id := bytes]> (node_data w x) else node_data w x
    | Err _ => ∀ x, node_data w' x = node_data w x
    | Panic => False
    end.
Proof.
  intros Hg Hid Hb. cbn. unfold on_node.
  destruct (w_nodes w !! a) as [n|] eqn:Ha; [|by eexists _, w].
  destruct (node_write_spec id bytes n (Hg a n Ha) Hid Hb) as (r & n' & Hr & Hgn & Hp).
  assert (node_data w a = abs (store n)) as Hd by (unfold node_data; by rewrite Ha).
  destruct r as [resp|e|]; [|..|done].
  - run_st; rewrite Hr. exists (Ok ()). eexists. destruct Hp as [Hn Hab].
    split_and!; [done|done|by apply nodes_good_insert|intros ?; exact (up_insert _ _ _ n _ _ Ha)|eauto|by rewrite Hd|].
    intros x. rewrite node_data_insert. case_decide as Hx; [|done]. subst x. by rewrite Hd, Hab.
  - run_st; rewrite Hr. exists (Err e). eexists.
    split_and!; [done|done|by apply nodes_good_insert|intros ?; exact (up_insert _ _ _ n _ _ Ha)|].
    intros x. rewrite node_data_insert. case_decide as Hx; [|done]. subst x. by rewrite Hd.
Qed.

Lemma world_delete a id w :
  nodes_good w →
  ∃ r w', sn_delete_chunk a id w = (r, w') ∧ w_meta w' = w_meta w ∧ nodes_good w' ∧
    same_nodes w w' ∧ r ≠ Panic ∧
    ∀ x, node_data w' x = if decide (a = x) then delete id (node_data w x) else node_data w x.
Proof.
  intros Hg. cbn. unfold on_node. destruct (w_nodes w !! a) as [n|] eqn:Ha.
  - destruct (node_delete_spec id n (Hg a n Ha)) as (n' & Hr & Hgn & Hab & Ht).
    run_st; rewrite Hr. eexists _, _.
    split_and!; [done|done|by apply nodes_good_insert|by eapply same_nodes_insert|done|].
    intros x. rewrite node_data_insert. case_decide as Hx; [|done]. subst x.
    unfold node_data. by rewrite Ha, Hab.
  - eexists _, w. split_and!; [done|done|done|done|done|].
    intros x. case_decide as Hx; [|done]. subst x. unfold node_data. by rewrite Ha, delete_empty.
Qed.

Lemma world_connect a w :
  sn_connect a w = ((if decide (is_Some (w_nodes w !! a)) then Ok () else Err ()), w).
Proof. done. Qed.

(** A chunk on a node stays under a write of another chunk, or on another node. *)
Lemma node_data_up w a id bytes : node_data w a !! id = Some bytes → is_Some (w_nodes w !! a).
Proof. unfold node_data. destruct (w_nodes w !! a); [eauto|by rewrite lookup_empty]. Qed.

(** ** Calls served by the metadata node itself *)

(** The node serves the objects that it served. *)
Definition same_place (n n' : MetaNode Network) : Prop :=
  mn_cluster n' = mn_cluster n ∧ mn_forwarding n' = mn_forwarding n.

#[export] Instance same_place_refl : Reflexive same_place.
Proof. by intros n. Qed.
#[export] Instance same_place_trans : Transitive same_place.
Proof. intros a b c [? ?] [? ?]. split; congruence. Qed.

Lemma same_place_serves n n' name : same_place n n' → serves_itself n name → serves_itself n' name.
Proof. intros [Hc Hf]. unfold serves_itself. by rewrite Hc, Hf. Qed.

Lemma svc_get_object_same_place name (n : MetaNode Network) :
  serves_itself n name → same_place n (svc_get_object name n).2.
Proof.
  intros Hs. unfold svc_get_object. rewrite route_object_here by done.
  unfold get_object_lookup, get_object_resolve, locked, on_server, zoom, get_object, count,
    current_store, lift_outcome. run_st.
  destruct (objects _ !! name) as [o|]; simpl; [|done]. by destruct (response_chunks _ _).
Qed.

(** The draws to come are 64-bit numbers. *)
Definition draws_u64 (s : MetadataStore) : Prop := Forall is_u64 (rng_draws (ms_rng s)).

Lemma draw_unused_sub {A} (m : gmap Z A) draws id rest :
  draw_unused m draws = Some (id, rest) → Forall is_u64 draws → is_u64 id ∧ Forall is_u64 rest.
Proof.
  intros Hd. induction draws as [|d draws IH] in Hd |- *; simpl in Hd; [done|].
  intros [? ?]%list.Forall_cons. case_decide; [by apply IH|by injection Hd as <- <-].
Qed.

Lemma allocate_chunk_ok name s id nid addr s' :
  ms_wf s → draws_u64 s → allocate_chunk name s = (Ok (id, nid, addr), s') →
  is_u64 id ∧ chunks s !! id = None ∧ ms_wf s' ∧ draws_u64 s' ∧
  (∃ node, storage_nodes s !! nid = Some node ∧ sn_address node = addr) ∧
  objects s' = objects s ∧ storage_nodes s' = storage_nodes s ∧ ms_disk s' = ms_disk s ∧
  chunks s' = <[id := new_pending id name]> (chunks s).
Proof.
  intros Hwf Hu Ha. pose proof (allocate_chunk_keeps name s _ _ Hwf Ha) as Hwf'.
  revert Ha. unfold allocate_chunk, generate_unique_id. run_st.
  destruct (draw_unused _ _) as [[i rest]|] eqn:Hd; [|done].
  pose proof (draw_unused_spec _ _ _ _ Hd) as [Hfree _].
  destruct (draw_unused_sub _ _ _ _ Hd Hu) as [Hi Hrest].
  destruct (choose_storage_node_spec (set_rng (mkRng rest (rng_picks (ms_rng s))) s))
    as (n & rng & Hc & Hn).
  assert (Forall is_u64 (rng_draws rng)) as Hrng.
  { revert Hc. unfold choose_storage_node. destruct (map_to_list _).*2; intros Hc;
      apply (f_equal (λ p, ms_rng p.2)) in Hc; simpl in Hc; by subst rng. }
  rewrite Hc. destruct n as [n|]; [|done]. intros [= <- <- <- <-].
  destruct Hn as [k Hk]. simpl in Hk. pose proof (mw_node _ Hwf _ _ Hk) as <-.
  split_and!; try done. by exists n.
Qed.

Lemma local_allocate name n resp n' (s := sv_store (mn_server n)) (s' := sv_store (mn_server n')) :
  serves_itself n name → ms_wf s → draws_u64 s →
  svc_allocate_chunk name n = (Ok resp, n') →
  let id := ac_chunk_id resp in
  is_u64 id ∧ chunks s !! id = None ∧ ms_wf s' ∧ draws_u64 s' ∧ serves_itself n' name ∧
  (∃ node, storage_nodes s !! ac_storage_node_id resp = Some node ∧
    sn_address node = ac_storage_node_address resp) ∧
  objects s' = objects s ∧ storage_nodes s' = storage_nodes s ∧
  chunks s' = <[id := new_pending id name]> (chunks s).
Proof.
  intros Hs Hwf Hu Ha.
  assert ((locked (W := Network) (allocate_chunk name) ≫= λ r,
    match r with
    | inr (chunk_id, storage_node_id, storage_node_address) =>
        _ ← count (inc_rpc "allocate_chunk" "ok");
        mret (mkAllocateChunkResponse chunk_id storage_node_address storage_node_id)
    | inl _ => _ ← count (inc_rpc "allocate_chunk" "error"); throw Unavailable
    end) n = (Ok resp, n')) as Hr.
  { revert Ha. unfold svc_allocate_chunk. destruct (String.eqb name ""); [done|].
    by rewrite route_object_here. }
  clear Ha. revert Hr. unfold locked, on_server, zoom, count. run_st. fold s.
  destruct (allocate_chunk name s) as [r s1] eqn:Ha.
  destruct r as [[[i k] a]|e|]; [|done..]. intros [= <- <-]. simpl.
  destruct (allocate_chunk_ok _ _ _ _ _ _ Hwf Hu Ha) as (? & ? & ? & ? & ? & ? & ? & _ & ?).
  by split_and!.
Qed.

Lemma local_put_object name checksum n n' (s := sv_store (mn_server n))
    (s' := sv_store (mn_server n')) :
  serves_itself n name → ms_wf s → svc_put_object name checksum n = (Ok (), n') →
  ms_wf s' ∧ serves_itself n' name ∧ ms_rng s' = ms_rng s ∧
  objects s !! name = None ∧ objects s' = <[name := new_object name checksum]> (objects s) ∧
  storage_nodes s' = storage_nodes s ∧ chunks s' = chunks s.
Proof.
  intros Hs Hwf. unfold svc_put_object. rewrite route_object_here by done.
  unfold locked, on_server, zoom, count. run_st. fold s.
  destruct (put_object checksum name s) as [r s1] eqn:Hp.
  pose proof (put_object_keeps _ _ s _ _ Hwf Hp) as Hwf'. revert Hp. unfold put_object. run_st.
  case_decide as Hi; [by intros [= <- <-]|].
  destruct (save_spec (set_objects (<[name:=new_object name checksum]> (objects s)) s))
    as (r1 & d & Hsave & _). rewrite Hsave.
  intros [= <- <-]. destruct r1 as [[]|e|]; [|done..]. intros [= <-].
  split_and!; try done. by apply eq_None_not_Some.
Qed.

(** A deletion takes the object out of the map also when it cannot be saved. *)
Lemma local_delete name n o (s := sv_store (mn_server n)) :
  serves_itself n name → ms_wf s → draws_u64 s → objects s !! name = Some o →
  ∃ r n', svc_delete_object name n = (r, n') ∧ r ≠ Panic ∧
    objects (sv_store (mn_server n')) !! name = None ∧ serves_itself n' name ∧
    ms_wf (sv_store (mn_server n')) ∧ draws_u64 (sv_store (mn_server n')).
Proof.
  intros Hs Hwf Hdr Ho. destruct (deleted_state n name o Hs Hwf Ho) as (Hgone & _ & Hs').
  revert Hgone Hs'. unfold svc_delete_object. rewrite route_object_here by done.
  unfold locked, on_server, with_index, on_server, on_index, zoom, count, current_store. run_st. fold s.
  destruct (delete_object name s) as [r s1] eqn:Hp.
  pose proof (delete_object_keeps name s _ _ Hwf Hp) as Hwf'. revert Hp.
  rewrite (delete_object_run _ _ _ Ho). unfold remove_object_of. rewrite Ho.
  match goal with |- save ?x = _ → _ => destruct (save_spec x) as (r1 & d & -> & Hr1) end.
  intros [= <- <-]. destruct r1 as [[]|e|]; [| |done]; intros Hgone Hs'; eexists _, _; by split_and!.
Qed.

Lemma local_confirm name id checksum nid n n' (s := sv_store (mn_server n))
    (s' := sv_store (mn_server n')) :
  serves_itself n name → ms_wf s → svc_confirm_chunk id name checksum nid n = (Ok (), n') →
  ms_wf s' ∧ serves_itself n' name ∧ ms_rng s' = ms_rng s ∧
  (∃ o, objects s !! name = Some o ∧ objects s' = <[name := add_chunk id o]> (objects s)) ∧
  storage_nodes s' = storage_nodes s ∧
  chunks s' = <[id := mkMetaChunk id name checksum [nid] Confirmed]> (chunks s).
Proof.
  intros Hs Hwf. unfold svc_confirm_chunk. rewrite route_object_here by done.
  unfold locked, on_server, with_index, on_server, on_index, zoom, count. run_st. fold s.
  destruct (confirm_chunk id name checksum nid s) as [r s1] eqn:Hp.
  pose proof (confirm_chunk_keeps _ _ _ _ s _ _ Hwf Hp) as Hwf'.
  apply confirm_chunk_cases in Hp as [(e & -> & ->)|(o & Ho & _ & Hsave)]; [done|].
  destruct r as [[]|e|]; [|done..]. intros [= <-]. simpl.
  revert Hsave. match goal with |- save ?x = _ → _ => destruct (save_spec x) as (r1 & d & -> & _) end.
  intros [= _ <-]. split_and!; try done. by exists o.
Qed.

Lemma local_update name checksum size n n' o (s := sv_store (mn_server n))
    (s' := sv_store (mn_server n')) :
  serves_itself n name → ms_wf s → objects s !! name = Some o →
  svc_update_object_checksum name checksum size n = (Ok (), n') →
  ms_wf s' ∧ serves_itself n' name ∧ ms_rng s' = ms_rng s ∧
  objects s' = <[name := mkMetaObject (mo_name o) checksum (mo_chunks o) size]> (objects s) ∧
  storage_nodes s' = storage_nodes s ∧ chunks s' = chunks s.
Proof.
  intros Hs Hwf Ho. unfold svc_update_object_checksum, route_by_object, locked, on_server, zoom, count.
  run_st. fold s. destruct (update_object_checksum name checksum size s) as [r s1] eqn:Hp.
  pose proof (update_object_checksum_keeps _ _ _ s _ _ Hwf Hp) as Hwf'. revert Hp.
  unfold update_object_checksum. run_st. rewrite Ho.
  match goal with |- save ?x = _ → _ => destruct (save_spec x) as (r1 & d & -> & _) end.
  intros [= <- <-]. destruct r1 as [[]|e|]; [|done..]. intros [= <-]. by split_and!.
Qed.

End system.

(** ** The gateway *)

Section gateway.
Context `{MetaDeps} `{Xxh3} `{Crc32} `{Base64} `{UnicodeTables}.

(** The gateway in front of a system in normal service, whose metadata node owns
    [name]: a cached client is connected to the address it is cached under. *)
Record gw_ok (name : string) (g : AppState World) : Prop := mkGwOk {
  gk_wf : ms_wf (meta (gw_world g));
  gk_draws : draws_u64 (meta (gw_world g));
  gk_nodes : nodes_good (gw_world g);
  gk_serves : serves_itself (w_meta (gw_world g)) name;
  gk_conns a c : gw_connections g !! a = Some c → c = a;
}.

(** The system has chunk [id], with these bytes, on the one node its metadata names. *)
Definition chunk_at (w : World) (id : Z) (bytes : list byte) : Prop :=
  ∃ c x node, chunks (meta w) !! id = Some c ∧ mc_storage_nodes c = [x] ∧
    storage_nodes (meta w) !! x = Some node ∧ node_data w (sn_address node) !! id = Some bytes.

(** Object [name] lists chunks whose bytes are [data]. *)
Definition placed (w : World) (name : string) (data : list (list byte)) : Prop :=
  ∃ o, objects (meta w) !! name = Some o ∧ Forall2 (chunk_at w) (mo_chunks o) data.

Lemma call_run {E A} (m : ST World E A) (g : AppState World) r w :
  m (gw_world g) = (r, w) →
  call m g = (match r with Ok a => Ok (inr a) | Err e => Ok (inl e) | Panic => Panic end,
              set_gw_world w g).
Proof. intros Hm. unfold call, zoom. run_st. rewrite Hm. by destruct r. Qed.

Lemma get_or_connect_spec name a g :
  gw_ok name g →
  ∃ r g', get_or_connect a g = (r, g') ∧ gw_world g' = gw_world g ∧ gw_ok name g' ∧
    match r with
    | Ok c => c = a
    | Err e => e = INTERNAL_SERVER_ERROR ∧ g' = g ∧ w_nodes (gw_world g) !! a = None
    | Panic => False
    end.
Proof.
  intros Hg. unfold get_or_connect, call_or_500. run_st.
  destruct (gw_connections g !! a) as [c|] eqn:Hc.
  { exists (Ok c), g. split_and!; [done|done|done|]. by eapply gk_conns. }
  rewrite (call_run _ g _ _ (world_connect a (gw_world g))).
  destruct (decide (is_Some (w_nodes (gw_world g) !! a))) as [Hu|Hu].
  - eexists (Ok a), _. split_and!; [done|done| |done].
    destruct Hg as [? ? ? ? Hconns]. split; try done. simpl.
    intros x cl [[<- <-]|[_ Hx]]%lookup_insert_Some; [done|by apply Hconns].
  - eexists (Err _), _. split; [done|]. split; [done|].
    replace (set_gw_world (gw_world g) g) with g by by destruct g.
    split_and!; [done|done|done|]. by apply eq_None_not_Some.
Qed.

(** Writing a new chunk leaves the others where they are. *)
Lemma chunk_at_kept w w' i bytes id a new :
  chunk_at w i bytes → i ≠ id →
  chunks (meta w') !! i = chunks (meta w) !! i →
  storage_nodes (meta w') = storage_nodes (meta w) →
  (∀ x, node_data w' x = if decide (a = x) then <[id := new]> (node_data w x) else node_data w x) →
  chunk_at w' i bytes.
Proof.
  intros (c & x & node & Hc & Hx & Hn & Hd) Hne Hch Hnodes Hdata.
  exists c, x, node. rewrite Hch, Hnodes, Hdata. split_and!; [done|done|done|].
  case_decide; [|done]. by rewrite lookup_insert_ne.
Qed.

(** A chunk that was uploaded is at the end of the object's list, in its place. *)
Lemma put_one_chunk_ok name chunk g g' data :
  gw_ok name g → zlen chunk ≤ SLOT_DATA_SIZE → placed (gw_world g) name data →
  put_one_chunk name chunk g = (Ok (), g') →
  gw_ok name g' ∧ placed (gw_world g') name (data ++ [chunk]).
Proof.
  intros Hg Hlen (o & Ho & Hdata). unfold put_one_chunk. cbv [mbind ST_bind].
  destruct (svc_allocate_chunk name (w_meta (gw_world g))) as [ra na] eqn:Ha.
  assert (mc_allocate_chunk name (gw_world g) = (ra, set_meta na (gw_world g))) as Hm.
  { cbn. unfold on_meta, zoom. by rewrite Ha. }
  rewrite (call_run _ _ _ _ Hm). clear Hm.
  destruct ra as [resp|e|]; [|run_st; by destruct (ignore_error _ _) as [[]]|done].
  destruct (local_allocate _ _ _ _ (gk_serves _ _ Hg) (gk_wf _ _ Hg) (gk_draws _ _ Hg) Ha)
    as (Hid & Hfree & Hwf1 & Hdr1 & Hs1 & (node & Hnode & Haddr) & Ho1 & Hn1 & Hc1).
  set (id := ac_chunk_id resp) in *. set (addr := ac_storage_node_address resp) in *.
  set (g1 := set_gw_world _ g).
  assert (gw_ok name g1) as Hg1.
  { split; [done|done|apply Hg|done|apply Hg]. }
  destruct (get_or_connect_spec name addr g1 Hg1) as (rc & g2 & Hgc & Hw2 & Hg2 & Hrc).
  rewrite Hgc. destruct rc as [client|e|]; [subst client|done|done].
  destruct (world_write addr id chunk (gw_world g2) (gk_nodes _ _ Hg2) Hid Hlen)
    as (rw & w3 & Hwr & Hmeta3 & Hgood3 & Hup3 & Hrw).
  rewrite (call_run _ _ _ _ Hwr).
  destruct rw as [[]|e|]; [|run_st; by destruct (ignore_error _ _) as [[]]|done].
  destruct Hrw as (_ & _ & Hd3). set (g3 := set_gw_world w3 g2).
  destruct (svc_confirm_chunk id name (compute_checksum chunk) (ac_storage_node_id resp) (w_meta w3))
    as [rf nf] eqn:Hf.
  assert (mc_confirm_chunk id name (compute_checksum chunk) (ac_storage_node_id resp) (gw_world g3)
    = (rf, set_meta nf w3)) as Hm.
  { cbn. unfold on_meta, zoom. by rewrite Hf. }
  rewrite (call_run _ _ _ _ Hm). clear Hm.
  destruct rf as [[]|e|]; [|run_st; by destruct (ignore_error _ _) as [[]]|done].
  intros [= <-].
  assert (w_meta w3 = na) as Hna by by rewrite Hmeta3, Hw2.
  rewrite Hna in Hf.
  destruct (local_confirm _ _ _ _ _ _ Hs1 Hwf1 Hf)
    as (Hwf4 & Hs4 & Hr4 & (o4 & Ho4 & Hobj4) & Hn4 & Hc4).
  split.
  - split; [done| |done|done|apply Hg2]. unfold draws_u64. cbn. by rewrite Hr4.
  - exists (add_chunk id o). cbn. rewrite Ho1, Ho in Ho4. injection Ho4 as <-.
    rewrite Hobj4, lookup_insert_eq. split; [done|].
    apply Forall2_app; [|constructor; [|constructor]].
    + eapply list.Forall2_impl; [exact Hdata|]. intros i bytes Hi.
      destruct (Hi) as (c & _ & _ & Hc & _).
      assert (i ≠ id) as Hne by (intros ->; congruence).
      eapply (chunk_at_kept (gw_world g)); [done|exact Hne| | |].
      * cbn. by rewrite Hc4, lookup_insert_ne, Hc1, lookup_insert_ne.
      * cbn. by rewrite Hn4, Hn1.
      * intros x. etrans; [apply (Hd3 x)|]. by rewrite Hw2.
    + exists (mkMetaChunk id name (compute_checksum chunk) [ac_storage_node_id resp] Confirmed),
        (ac_storage_node_id resp), node. cbn.
      rewrite Hc4, lookup_insert_eq, Hn4, Hn1. split_and!; [done|done|done|].
      etrans; [apply (f_equal (λ m : gmap Z (list byte), m !! id)), (Hd3 (sn_address node))|].
      by rewrite Haddr, decide_True, lookup_insert_eq.
Qed.

Lemma put_chunks_ok name l g g' data :
  gw_ok name g → Forall (λ c, zlen c ≤ SLOT_DATA_SIZE) l → placed (gw_world g) name data →
  put_chunks name l g = (Ok (), g') →
  gw_ok name g' ∧ placed (gw_world g') name (data ++ l).
Proof.
  revert g data. induction l as [|chunk l IH]; intros g data Hg Hl Hp; simpl.
  { intros [= <-]. by rewrite app_nil_r. }
  apply list.Forall_cons in Hl as [Hc Hl]. intros Hr. inv_bind Hr. destruct a.
  destruct (put_one_chunk_ok _ _ _ _ _ Hg Hc Hp Hrun) as [Hg1 Hp1].
  destruct (IH _ _ Hg1 Hl Hp1 Hr) as [Hg2 Hp2]. by rewrite <- app_assoc in Hp2.
Qed.

(** ** Reading back *)

(** What a response says of a chunk can be used: one of its nodes has these bytes, and
    none has others under the chunk's id. *)
Definition readable (w : World) (info : ChunkInfo) (bytes : list byte) : Prop :=
  Exists (λ node, node_data w (sn_address node) !! ci_id info = Some bytes)
    (ci_storage_nodes info) ∧
  Forall (λ node, ∀ b, node_data w (sn_address node) !! ci_id info = Some b → b = bytes)
    (ci_storage_nodes info).

Lemma readable_same w w' info bytes : same_data w w' → readable w info bytes → readable w' info bytes.
Proof.
  intros Hs [He Hf]. split.
  - eapply list.Exists_impl; [exact He|]. intros node. cbn. by rewrite (sd_data _ _ Hs).
  - eapply list.Forall_impl; [exact Hf|]. intros node Hn b. rewrite (sd_data _ _ Hs). apply Hn.
Qed.

(** Object [name] is stored with registered storage nodes, and a copy of each of its
    chunks can be read; [data] are their bytes. *)
Definition available (w : World) (name : string) (data : list (list byte)) : Prop :=
  ∃ o, objects (meta w) !! name = Some o ∧ all_registered (meta w) o ∧
    Forall2 (readable w) (oi_chunks (object_info (meta w) o)) data.

Lemma placed_response w name data : ms_wf (meta w) → placed w name data → available w name data.
Proof.
  intros Hwf (o & Ho & Hdata). exists o. split; [done|]. unfold all_registered, object_info.
  cbn [oi_chunks]. clear Ho. induction Hdata as [|id bytes ids data Hat Hrest [IH1 IH2]].
  { split; constructor. }
  destruct Hat as (c & x & node & Hc & Hx & Hn & Hd). split.
  - constructor; [|done]. intros c'. rewrite Hc. intros [= <-]. rewrite Hx.
    constructor; [by eexists|constructor].
  - simpl. rewrite Hc. constructor; [|done]. destruct (mw_chunk _ Hwf _ _ Hc) as [Hid _].
    unfold readable, chunk_info, known_nodes. cbn [ci_storage_nodes ci_id].
    rewrite Hx, Hid. simpl. rewrite Hn. simpl. split.
    + by apply Exists_cons_hd.
    + constructor; [|constructor]. intros b. simpl. congruence.
Qed.

Lemma gw_ok_same name g w' :
  gw_ok name g → same_data (gw_world g) w' → gw_ok name (set_gw_world w' g).
Proof.
  intros [Hwf Hdr Hgood Hs Hc] [Hm _ _ Hg]. split; cbn; [..|done].
  - by rewrite Hm.
  - by rewrite Hm.
  - by apply Hg.
  - by rewrite Hm.
Qed.

(** [g'] is [g] after requests that only read: the metadata store, the chunks, and where
    objects are served are the same. *)
Record read_only (g g' : AppState World) : Prop := mkReadOnly {
  ro_server : mn_server (w_meta (gw_world g')) = mn_server (w_meta (gw_world g));
  ro_place : same_place (w_meta (gw_world g)) (w_meta (gw_world g'));
  ro_data a : node_data (gw_world g') a = node_data (gw_world g) a;
  ro_good : nodes_good (gw_world g) → nodes_good (gw_world g');
  ro_nodes : same_nodes (gw_world g) (gw_world g');
  ro_conns : (∀ a c, gw_connections g !! a = Some c → c = a) →
    ∀ a c, gw_connections g' !! a = Some c → c = a;
}.

#[export] Instance read_only_refl : Reflexive read_only.
Proof. by intros g. Qed.
#[export] Instance read_only_trans : Transitive read_only.
Proof.
  intros a b c [s1 p1 d1 g1 n1 c1] [s2 p2 d2 g2 n2 c2].
  split; [congruence|by trans (w_meta (gw_world b))|intros; by rewrite d2|auto| |auto].
  by trans (gw_world b).
Qed.

Lemma gw_ok_read_only name g g' : gw_ok name g → read_only g g' → gw_ok name g'.
Proof.
  intros [Hwf Hd Hgood Hs Hc] [Hm Hp _ Hg _ Hcs]. split; rewrite ?Hm; auto.
  by eapply same_place_serves.
Qed.

Lemma read_only_same g g' :
  gw_world g' = gw_world g → gw_connections g' = gw_connections g → read_only g g'.
Proof. intros Hw Hc. split; rewrite ?Hw, ?Hc; done. Qed.

Lemma same_data_read_only name g g' :
  gw_ok name g' → same_data (gw_world g) (gw_world g') → read_only g g'.
Proof.
  intros Hg [Hm Hup Hd Hgood Hsl]. split; rewrite ?Hm; try done. intros _. apply Hg.
Qed.

Lemma retry_ok {E A} k (f : ST World E A) w a w' :
  f w = (Ok a, w') → retry_with_backoff k f w = (Ok a, w').
Proof.
  intros Hf. unfold retry_with_backoff. destruct k; simpl; [done|].
  unfold attempt. cbv [mbind ST_bind]. by rewrite Hf.
Qed.

(** Reading a copy from one node, with retries, gives the bytes the node has. *)
Lemma retry_read k a id w :
  nodes_good w →
  ∃ r w', retry_with_backoff k (sn_read_chunk a id) w = (r, w') ∧ same_data w w' ∧
    match r with
    | Ok bytes => node_data w a !! id = Some bytes
    | Err _ => node_data w a !! id = None
    | Panic => False
    end.
Proof.
  unfold retry_with_backoff. revert w. induction k as [|k IH]; intros w Hg.
  { by apply world_read. }
  destruct (world_read a id w Hg) as (r & w1 & Hr & Hs & Hb).
  cbn [retry_attempts]. unfold attempt. cbv [mbind ST_bind]. rewrite Hr.
  destruct r as [bytes|e|]; [by eexists (Ok bytes), w1| |done].
  destruct (IH w1 (sd_good _ _ Hs Hg)) as (r2 & w2 & Hr2 & Hs2 & Hb2).
  exists r2, w2. split; [exact Hr2|]. split; [by trans w1|]. by rewrite <- (sd_data _ _ Hs).
Qed.

Lemma read_from_any_ok name info bytes g :
  gw_ok name g → readable (gw_world g) info bytes →
  ∃ g', read_from_any (ci_id info) (ci_storage_nodes info) g = (Ok bytes, g') ∧
    gw_ok name g' ∧ same_data (gw_world g) (gw_world g').
Proof.
  intros Hg [He Hf]. revert g Hg He Hf. induction (ci_storage_nodes info) as [|node nodes IH];
    intros g Hg He Hf; [by apply Exists_nil in He|].
  apply list.Forall_cons in Hf as [Hn Hf]. cbn [read_from_any].
  unfold attempt. cbv [mbind ST_bind].
  destruct (get_or_connect_spec name (sn_address node) g Hg) as (r & g1 & -> & Hw1 & Hg1 & Hr).
  destruct r as [c|e|]; [subst c| |done].
  2: { destruct Hr as (_ & -> & Hdown). apply IH; [done| |done].
       apply Exists_cons in He as [Hd|He]; [|done]. destruct (node_data_up _ _ _ _ Hd). congruence. }
  destruct (retry_read 2 (sn_address node) (ci_id info) (gw_world g1) (gk_nodes _ _ Hg1))
    as (r & w2 & Hr2 & Hsame & Hb).
  rewrite (call_run _ _ _ _ Hr2).
  assert (gw_ok name (set_gw_world w2 g1)) as Hg2 by by apply gw_ok_same.
  rewrite Hw1 in Hsame, Hb. destruct r as [b|e|]; [| |done].
  - apply Hn in Hb as ->. by eexists.
  - destruct (IH (set_gw_world w2 g1)) as (g3 & Hr3 & Hg3 & Hs3); [done| | |].
    + apply Exists_cons in He as [Hd|He]; [congruence|].
      eapply list.Exists_impl; [exact He|]. intros x. cbn. by rewrite (sd_data _ _ Hsame).
    + eapply list.Forall_impl; [exact Hf|]. intros x Hx b. cbn. rewrite (sd_data _ _ Hsame). apply Hx.
    + exists g3. split; [exact Hr3|]. split; [done|by trans w2].
Qed.

Lemma read_all_ok name infos data g :
  gw_ok name g → Forall2 (readable (gw_world g)) infos data →
  ∃ g', read_all infos g = (Ok (inr <$> data), g') ∧
    gw_ok name g' ∧ same_data (gw_world g) (gw_world g').
Proof.
  intros Hg Hf. revert g Hg Hf. revert data.
  induction infos as [|info infos IH]; intros data g Hg Hf.
  { apply Forall2_nil_inv_l in Hf as ->. by exists g. }
  apply Forall2_cons_inv_l in Hf as (bytes & data' & Hb & Hf & ->).
  destruct (read_from_any_ok name info bytes g Hg Hb) as (g1 & Hr & Hg1 & Hs1).
  destruct (IH data' g1 Hg1) as (g2 & Hr2 & Hg2 & Hs2).
  { eapply list.Forall2_impl; [exact Hf|]. intros i b. by apply readable_same. }
  exists g2. split; [|split; [done|by trans (gw_world g1)]].
  simpl. unfold attempt at 1. cbv [mbind ST_bind]. by rewrite Hr, Hr2.
Qed.

Lemma join_chunks_ok data : join_chunks (inr <$> data) = inr (concat data).
Proof.
  induction data as [|d data IH]; [done|]. rewrite fmap_cons. cbn [join_chunks]. by rewrite IH.
Qed.

(** The metadata's answer for an object whose storage nodes are registered, and for one
    that does not exist; asking changes no state but the metrics. *)
Lemma get_call name g (s := meta (gw_world g)) :
  gw_ok name g →
  ∃ r g1, call (mc_get_object name) g = (Ok r, g1) ∧ read_only g g1 ∧
    match objects s !! name with
    | None => ∃ e, r = inl e
    | Some o => all_registered s o →
        r = inr (mkGetObjectResponse (mo_checksum o) (oi_chunks (object_info s o)))
    end.
Proof.
  intros Hg. destruct (get_object_local _ _ (gk_serves _ _ Hg) (gk_wf _ _ Hg)) as [Hget Hsrv].
  pose proof (svc_get_object_same_place name _ (gk_serves _ _ Hg)) as Hp.
  fold s in Hget. destruct (svc_get_object name (w_meta (gw_world g))) as [r n'] eqn:Hr.
  simpl in Hget, Hsrv, Hp.
  assert (mc_get_object name (gw_world g) = (r, set_meta n' (gw_world g))) as Hm.
  { cbn. unfold on_meta, zoom. by rewrite Hr. }
  rewrite (call_run _ _ _ _ Hm).
  assert (read_only g (set_gw_world (set_meta n' (gw_world g)) g)) as Hro by by split.
  destruct (objects s !! name) as [o|].
  - destruct Hget as [Hok Hno]. assert (r ≠ Panic) as Hnp.
    { intros ->. assert (¬ all_registered s o) as Hreg by (by intros Hreg; apply Hok in Hreg).
      by apply Hno in Hreg. }
    destruct r as [resp|e|]; [| |done]; eexists _, _; (split; [done|]); (split; [done|]);
      intros Hreg; specialize (Hok Hreg); [by injection Hok as ->|done].
  - rewrite Hget. eexists _, _. split; [done|]. by split; [|eexists].
Qed.

(** The metadata answer of a download of an available object. *)
Lemma get_response name data g :
  gw_ok name g → available (gw_world g) name data →
  ∃ resp g1, call (mc_get_object name) g = (Ok (inr resp), g1) ∧ read_only g g1 ∧
    Forall2 (readable (gw_world g1)) (go_chunks resp) data.
Proof.
  intros Hg (o & Ho & Hreg & Hf).
  destruct (get_call name g Hg) as (r & g1 & Hr & Hro & Hget). rewrite Ho in Hget.
  rewrite (Hget Hreg) in Hr. eexists _, g1. split_and!; [exact Hr|done|].
  eapply list.Forall2_impl; [exact Hf|]. intros info bytes [He Hall]. split.
  - eapply list.Exists_impl; [exact He|]. intros node. cbn. by rewrite (ro_data _ _ Hro).
  - eapply list.Forall_impl; [exact Hall|]. intros node Hn b. rewrite (ro_data _ _ Hro). apply Hn.
Qed.

(** A download of an available object gives its bytes, with every chunk read from any of
    its nodes, and changes nothing that is stored. *)
Lemma get_run name data g :
  validate_object_name name = None → gw_ok name g → available (gw_world g) name data →
  ∃ g', handle_get_object name g = (Ok (b64_encode (concat data)), g') ∧ read_only g g'.
Proof.
  intros Hv Hg Hp. destruct (get_response _ _ _ Hg Hp) as (resp & g1 & Hr & Hro & Hf).
  unfold handle_get_object. rewrite Hv. cbv [mbind ST_bind]. rewrite Hr.
  destruct (read_all_ok name _ _ g1 (gw_ok_read_only _ _ _ Hg Hro) Hf) as (g2 & Hra & Hg2 & Hs2).
  rewrite Hra, join_chunks_ok. run_st. eexists. split; [done|].
  trans g1; [done|]. trans g2; [by eapply same_data_read_only|by apply read_only_same].
Qed.

Lemma get_available name data g :
  validate_object_name name = None → gw_ok name g → available (gw_world g) name data →
  ∃ g', handle_get_object name g = (Ok (b64_encode (concat data)), g').
Proof. intros Hv Hg Hp. destruct (get_run _ _ _ Hv Hg Hp) as (g' & Hr & _). by exists g'. Qed.

Lemma get_placed name data g :
  validate_object_name name = None → gw_ok name g → placed (gw_world g) name data →
  ∃ g', handle_get_object name g = (Ok (b64_encode (concat data)), g').
Proof.
  intros Hv Hg Hp. apply get_available; [done..|]. by apply placed_response; [apply Hg|].
Qed.

(** Both downloads of an object that is not there. *)
Lemma get_absent name g :
  validate_object_name name = None → gw_ok name g → objects (meta (gw_world g)) !! name = None →
  (∃ g', handle_get_object name g = (Err NOT_FOUND, g') ∧ read_only g g') ∧
  (∃ g', handle_get_object_stream name g = (Err NOT_FOUND, g') ∧ read_only g g') ∧
  ∃ g', handle_delete_object name g = (Err NOT_FOUND, g') ∧ read_only g g'.
Proof.
  intros Hv Hg Hn. destruct (get_call name g Hg) as (r & g1 & Hr & Hro & Hget).
  rewrite Hn in Hget. destruct Hget as [e ->].
  unfold handle_get_object, handle_get_object_stream, handle_delete_object. rewrite Hv.
  split_and!; rewrite (bind_ok _ _ _ _ _ Hr); eexists; (split; [done|]);
    (trans g1; [done|by apply read_only_same]).
Qed.

Lemma stream_chunks_ok name infos data g :
  gw_ok name g → Forall2 (readable (gw_world g)) infos data →
  ∃ g', stream_chunks infos g = (Ok (data, false), g') ∧ read_only g g'.
Proof.
  intros Hg Hf. revert g Hg Hf. revert data.
  induction infos as [|info infos IH]; intros data g Hg Hf.
  { apply Forall2_nil_inv_l in Hf as ->. by exists g. }
  apply Forall2_cons_inv_l in Hf as (bytes & data' & Hb & Hf & ->).
  destruct (read_from_any_ok name info bytes g Hg Hb) as (g1 & Hr & Hg1 & Hs1).
  destruct (IH data' g1 Hg1) as (g2 & Hr2 & Hro2).
  { eapply list.Forall2_impl; [exact Hf|]. intros i b. by apply readable_same. }
  exists g2. split; [|by trans g1; [eapply same_data_read_only|]].
  simpl. unfold attempt at 1. cbv [mbind ST_bind]. by rewrite Hr, Hr2.
Qed.

Lemma stream_run name data g :
  validate_object_name name = None → gw_ok name g → available (gw_world g) name data →
  ∃ g', handle_get_object_stream name g = (Ok (data, false), g') ∧ read_only g g'.
Proof.
  intros Hv Hg Hp. destruct (get_response _ _ _ Hg Hp) as (resp & g1 & Hr & Hro & Hf).
  pose proof (gw_ok_read_only _ _ _ Hg Hro) as Hg1.
  unfold handle_get_object_stream. rewrite Hv. cbv [mbind ST_bind]. rewrite Hr. run_st.
  unfold measure. run_st.
  match goal with |- context [stream_chunks _ ?gg] =>
    assert (gw_ok name gg) as Hg2 by (by destruct Hg1; split);
    assert (read_only g1 gg) as Hro2 by (by apply read_only_same);
    destruct (stream_chunks_ok name _ _ gg Hg2 Hf) as (g2 & Hra & Hro3) end.
  rewrite Hra. eexists. split; [done|]. by repeat (etrans; [eassumption|]).
Qed.

Lemma stream_available name data g :
  validate_object_name name = None → gw_ok name g → available (gw_world g) name data →
  ∃ g', handle_get_object_stream name g = (Ok (data, false), g').
Proof. intros Hv Hg Hp. destruct (stream_run _ _ _ Hv Hg Hp) as (g' & Hr & _). by exists g'. Qed.

Lemma stream_placed name data g :
  validate_object_name name = None → gw_ok name g → placed (gw_world g) name data →
  ∃ g', handle_get_object_stream name g = (Ok (data, false), g').
Proof.
  intros Hv Hg Hp. apply stream_available; [done..|]. by apply placed_response; [apply Hg|].
Qed.

(** ** Cutting the body *)

Lemma chunks_loop_spec fuel size l :
  0 < size → (length l ≤ fuel)%nat →
  concat (chunks_loop fuel size l) = l ∧ Forall (λ c, 0 < zlen c ≤ size) (chunks_loop fuel size l).
Proof.
  intros Hs. revert l. induction fuel as [|fuel IH]; intros l Hl.
  { destruct l; simpl in *; [done|lia]. }
  destruct l as [|x l]; [done|]. cbn [chunks_loop].
  pose proof (ztake_zdrop size (x :: l)) as Htd.
  pose proof (zlen_ztake size (x :: l) (Z.lt_le_incl _ _ Hs)) as Hlen.
  assert (0 < zlen (ztake size (x :: l)) ≤ size) as Hpos.
  { rewrite Hlen, zlen_cons. pose proof (zlen_nonneg l). lia. }
  destruct (IH (zdrop size (x :: l))) as [Hc Hf].
  { apply (f_equal length) in Htd. rewrite length_app in Htd. unfold zlen in Hpos. lia. }
  cbn [concat]. rewrite Hc. split; [done|]. by constructor.
Qed.

Lemma slice_chunks_spec size l :
  0 < size →
  concat (slice_chunks size l) = l ∧ Forall (λ c, 0 < zlen c ≤ size) (slice_chunks size l).
Proof. intros Hs. by apply chunks_loop_spec. Qed.

End gateway.
