(* ===== verification/SampleSystem.v ===== *)
(** * SampleSystem: a gateway, one metadata node and one storage node

    The storage node has two free slots; base64 is stood in for by the bytes as text. *)

From S2P Require Import Prelude.
From S2P Require Import Bytes.
From S2P Require Import Crc32.
From S2P Require Import ChunkStore.
From S2P Require Import ChunkStoreFacts.
From S2P Require Import ChunkStoreSpec.
From S2P Require Import Grpc.
From S2P Require Import StorageNode.
From S2P Require Import HashRing.
From S2P Require Import MetadataStore.
From S2P Require Import MetadataStoreFacts.
From S2P Require Import ClusterService.
From S2P Require Import Cluster.
From S2P Require Import Forwarding.
From S2P Require Import MetadataService.
From S2P Require Import Network.
From S2P Require Import RoutingFacts.
From S2P Require Import Clients.
From S2P Require Import Gateway.
From S2P Require Import SystemFacts.
From S2P Require Import Samples.
Open Scope string_scope.
Open Scope list_scope.
Open Scope Z_scope.

#[local] Existing Instance toy_deps.
#[local] Existing Instance toy_xxh3.
#[local] Existing Instance crc32_ieee.

#[local, refine] Instance toy_base64 : Base64 := {|
  b64_encode l := String.string_of_list_byte l;
  b64_decode s := Some (String.list_byte_of_string s);
|}.
Proof. intros l. by rewrite String.list_byte_of_string_of_list_byte. Defined.

#[local] Instance ascii_only : UnicodeTables := {| alphanumeric_above_ascii _ := false |}.

Definition disk_node : StorageNodeImpl := mkNode (new_store 2 default_options) metrics_new.

Lemma disk_node_good : good (store disk_node).
Proof. by apply new_store_good. Qed.

(** A metadata store with two storage nodes, of which only the first is up. *)
Definition lone_store (nodes : gmap Z MetaStorageNode) (picks : list nat) : MetadataStore :=
  mkMetadataStore ∅ ∅ nodes (mkDisk None None []) (mkRng [21; 22; 23] picks).
Definition lone_meta (nodes : gmap Z MetaStorageNode) (picks : list nat) : MetaNode Network :=
  mkMetaNode (mkClusterServer (lone_store nodes picks) ∅)
    (mkClusterManager [(5, "m")] "m" "0.0.0.0:3001" ∅ ∅) true meta_metrics_new ∅.

Definition gw_metrics_new : GwMetrics := mkGwMetrics ∅ ∅ 0 0 0 0 0.

Definition lone_gateway (nodes : gmap Z MetaStorageNode) (picks : list nat) : AppState World :=
  mkAppState gw_metrics_new ∅ (mkWorld (lone_meta nodes picks) {["http://d" := disk_node]}).

Definition up_node : MetaStorageNode := mkMetaStorageNode 1 "http://d".
Definition down_node : MetaStorageNode := mkMetaStorageNode 2 "http://e".

(** The gateway when one storage node is registered, and when a second one, which is
    down, is registered too and picked second. *)
Definition gateway1 : AppState World := lone_gateway {[1 := up_node]} [].
Definition gateway2 : AppState World := lone_gateway {[1 := up_node; 2 := down_node]} [1; 0]%nat.

Lemma lone_gateway_ok nodes picks name :
  (∀ id n, nodes !! id = Some n → sn_id n = id) → gw_ok name (lone_gateway nodes picks).
Proof.
  intros Hn. split; cbn.
  - split; cbn; intros *; rewrite ?lookup_empty; [done..|apply Hn].
  - by repeat constructor.
  - intros a n. cbn. intros [_ <-]%lookup_singleton_Some. apply disk_node_good.
  - right. unfold get_owner_addr, get_owner, owner_at. cbn. by destruct (_ <=? _).
  - intros a c. by rewrite lookup_empty.
Qed.

Lemma gateway1_ok name : gw_ok name gateway1.
Proof. apply lone_gateway_ok. by intros id n [<- <-]%lookup_singleton_Some. Qed.
Lemma gateway2_ok name : gw_ok name gateway2.
Proof.
  apply lone_gateway_ok.
  intros id n [[<- <-]|[_ [<- <-]%lookup_singleton_Some]]%lookup_insert_Some; done.
Qed.

(** The gateway with both storage nodes up. *)
Definition gateway3 : AppState World :=
  mkAppState gw_metrics_new ∅
    (mkWorld (lone_meta {[1 := up_node; 2 := down_node]} [])
      {["http://d" := disk_node; "http://e" := disk_node]}).

Lemma gateway3_ok name : gw_ok name gateway3.
Proof.
  destruct (lone_gateway_ok {[1 := up_node; 2 := down_node]} [] name) as [Hwf Hdr _ Hs Hc].
  { intros id n [[<- <-]|[_ [<- <-]%lookup_singleton_Some]]%lookup_insert_Some; done. }
  split; [exact Hwf|exact Hdr| |exact Hs|exact Hc].
  intros a n. cbn. intros [[_ <-]|[_ [_ <-]%lookup_singleton_Some]]%lookup_insert_Some;
    apply disk_node_good.
Qed.
