(* ===== verification/GrpcClients.v ===== *)
(** * GrpcClients: the clients that the services are started with

    The wrappers of api-gateway/src/clients.rs and replication-service/src/clients.rs around
    generated clients, and the limits on messages that they and the storage node's server
    (storage-node/src/main.rs) set. The transport itself (tonic, prost) is a parameter. *)

From S2P Require Import Prelude.
From S2P Require Import Bytes.
From S2P Require Import Crc32.
From S2P Require Import ChunkStore.
From S2P Require Import ChunkStoreFacts.
From S2P Require Import ChunkStoreSpec.
From S2P Require Import Grpc.
From S2P Require Import StorageNode.
From S2P Require Import NodeFacts.
From S2P Require Import HashRing.
From S2P Require Import MetadataStore.
From S2P Require Import Clients.
From S2P Require Import Gateway.
From S2P Require Import SystemFacts.
From S2P Require Import Samples.
From S2P Require Import SampleSystem.
Open Scope string_scope.
Open Scope list_scope.
Open Scope Z_scope.

(** The lengths of messages that one end of a connection takes and sends. *)
Record Limits := mkLimits {
  max_decoding_message_size : Z;
  max_encoding_message_size : Z;
}.

(** The limits that the storage node's server sets. *)
Definition server_limits : Limits := mkLimits MAX_GRPC_MESSAGE_SIZE MAX_GRPC_MESSAGE_SIZE.

(** What is known of the transport. The lengths are those of the encoded messages of
    storage_node.proto: in the protocol-buffer encoding a number takes at most 11 bytes with
    its tag, a byte string at most 11 and its length, so that two numbers and the bytes take
    at most 33 more than the bytes. A call all of whose messages are within the limits
    arrives at the service and is answered by it; of others nothing is said. *)
Class Transport := {
  write_request_len : Z → list byte → Z;
  read_response_len : Z → list byte → Z;
  numbers_len : list Z → Z;
  write_request_len_le id bytes : write_request_len id bytes ≤ zlen bytes + 33;
  read_response_len_le id bytes : read_response_len id bytes ≤ zlen bytes + 33;
  numbers_len_le l : numbers_len l ≤ 11 * zlen l;
  transmit {W A} : Limits → Limits → Z → (A → Z) → ST W Code A → ST W Code A;
  transmit_within {W A} (client server : Limits) len (answer_len : A → Z) (m : ST W Code A) w :
    len ≤ max_encoding_message_size client → len ≤ max_decoding_message_size server →
    match (m w).1 with
    | Ok a => answer_len a ≤ max_encoding_message_size server ∧
              answer_len a ≤ max_decoding_message_size client
    | _ => True
    end →
    transmit client server len answer_len m w = m w;
}.

(** ** The clients of the gateway *)

(** The limits that the factory sets on a connection: 16 MiB both ways. *)
Definition client_limits : Limits := mkLimits (16 * 1024 * 1024) (16 * 1024 * 1024).

(** The wrapper of the metadata client hands every request to the generated client. *)
Definition RealMetadataClient {W} (inner : MetadataClient W) : MetadataClient W := {|
  mc_list_storage_nodes := mc_list_storage_nodes;
  mc_put_object := mc_put_object;
  mc_get_object := mc_get_object;
  mc_delete_object := mc_delete_object;
  mc_allocate_chunk := mc_allocate_chunk;
  mc_confirm_chunk := mc_confirm_chunk;
  mc_list_objects := mc_list_objects;
  mc_delete_chunk := mc_delete_chunk;
  mc_get_storage_node := mc_get_storage_node;
  mc_list_under_replicated_chunks := mc_list_under_replicated_chunks;
  mc_add_chunk_replica := mc_add_chunk_replica;
  mc_update_object_checksum := mc_update_object_checksum;
  mc_put_chunk := mc_put_chunk;
  mc_put_storage_node := mc_put_storage_node;
  mc_get_chunk := mc_get_chunk;
  mc_delete_storage_node := mc_delete_storage_node;
|}.

Section storage_client.
Context `{Transport} {W : Type}.

(** A call of the generated client, over a connection with the limits of both ends. *)
Definition generated {A} (len : Z) (answer_len : A → Z) (m : ST W Code A) : ST W Code A :=
  transmit client_limits server_limits len answer_len m.

(** The wrapper of the storage-node client, over the service that answers. *)
Definition RealStorageNodeClient (service : StorageNodeClient W) : StorageNodeClient W := {|
  sn_connect := sn_connect;
  sn_get_chunk_size address :=
    generated (numbers_len []) (λ size, numbers_len [size]) (sn_get_chunk_size address);
  sn_write_chunk address id bytes :=
    generated (write_request_len id bytes) (λ _, numbers_len [id]) (sn_write_chunk address id bytes);
  sn_read_chunk address id :=
    generated (numbers_len [id]) (read_response_len id) (sn_read_chunk address id);
  sn_delete_chunk address id :=
    generated (numbers_len [id]) (λ _, numbers_len [id]) (sn_delete_chunk address id);
  sn_get_free_chunks address :=
    generated (numbers_len []) (λ free, numbers_len [free]) (sn_get_free_chunks address);
  sn_check_health address :=
    generated (numbers_len []) (λ healthy, numbers_len [if healthy : bool then 1 else 0])
      (sn_check_health address);
|}.

End storage_client.

(** ** The clients of the replication service

    replication-service/src/clients.rs has wrappers of its own, over the same generated
    clients and with the same limits. *)

Definition replication_limits : Limits := mkLimits (16 * 1024 * 1024) (16 * 1024 * 1024).

Definition ReplicationMetadataClient {W} (inner : MetadataClient W) : MetadataClient W := {|
  mc_list_storage_nodes := mc_list_storage_nodes;
  mc_put_object := mc_put_object;
  mc_get_object := mc_get_object;
  mc_delete_object := mc_delete_object;
  mc_allocate_chunk := mc_allocate_chunk;
  mc_confirm_chunk := mc_confirm_chunk;
  mc_list_objects := mc_list_objects;
  mc_delete_chunk := mc_delete_chunk;
  mc_put_chunk := mc_put_chunk;
  mc_put_storage_node := mc_put_storage_node;
  mc_get_chunk := mc_get_chunk;
  mc_get_storage_node := mc_get_storage_node;
  mc_delete_storage_node := mc_delete_storage_node;
  mc_list_under_replicated_chunks := mc_list_under_replicated_chunks;
  mc_add_chunk_replica := mc_add_chunk_replica;
  mc_update_object_checksum := mc_update_object_checksum;
|}.

Section storage_client.
Context `{Transport} {W : Type}.

Definition replication_generated {A} (len : Z) (answer_len : A → Z) (m : ST W Code A) : ST W Code A :=
  transmit replication_limits server_limits len answer_len m.

Definition ReplicationStorageNodeClient (service : StorageNodeClient W) : StorageNodeClient W := {|
  sn_connect := sn_connect;
  sn_get_chunk_size address :=
    replication_generated (numbers_len []) (λ size, numbers_len [size]) (sn_get_chunk_size address);
  sn_write_chunk address id bytes :=
    replication_generated (write_request_len id bytes) (λ _, numbers_len [id]) (sn_write_chunk address id bytes);
  sn_read_chunk address id :=
    replication_generated (numbers_len [id]) (read_response_len id) (sn_read_chunk address id);
  sn_delete_chunk address id :=
    replication_generated (numbers_len [id]) (λ _, numbers_len [id]) (sn_delete_chunk address id);
  sn_get_free_chunks address :=
    replication_generated (numbers_len []) (λ free, numbers_len [free]) (sn_get_free_chunks address);
  sn_check_health address :=
    replication_generated (numbers_len []) (λ healthy, numbers_len [if healthy : bool then 1 else 0])
      (sn_check_health address);
|}.

End storage_client.

(** ** Both *)

Section within.
Context `{Transport} {W : Type}.

Lemma generated_within {A} len (answer_len : A → Z) (m : ST W Code A) w :
  len ≤ MAX_GRPC_MESSAGE_SIZE →
  (∀ a w', m w = (Ok a, w') → answer_len a ≤ MAX_GRPC_MESSAGE_SIZE) →
  generated len answer_len m w = m w.
Proof.
  intros Hl Ha. apply transmit_within; [done|done|].
  destruct (m w) as [[a|e|] w'] eqn:Hm; [|done..]. by split; apply (Ha a w').
Qed.

Lemma numbers_fit l : zlen l ≤ 2 → numbers_len l ≤ MAX_GRPC_MESSAGE_SIZE.
Proof. intros Hl. pose proof (numbers_len_le l). unfold MAX_GRPC_MESSAGE_SIZE. lia. Qed.

End within.

(** The metadata client of either service is the generated client it wraps. *)
Lemma metadata_wrappers_add_nothing {W} (inner : MetadataClient W) :
  RealMetadataClient inner = inner ∧ ReplicationMetadataClient inner = inner.
Proof. by destruct inner. Qed.

Section theorems.
Context `{MetaDeps} `{Xxh3} `{Crc32} `{Transport}.

(** C19: The limits on messages never get in the way: to a storage node in normal service, a
    client that was connected by the factory of the gateway or of the replication service
    behaves as the node itself does, whatever is asked of it, as long as no chunk longer
    than a slot's data is written. *)
Theorem message_limits_are_enough real address w :
  nodes_good w →
  real = RealStorageNodeClient world_nodes ∨
  real = ReplicationStorageNodeClient world_nodes →
  (∀ id bytes, zlen bytes ≤ SLOT_DATA_SIZE →
     @sn_write_chunk World real address id bytes w = @sn_write_chunk World world_nodes address id bytes w) ∧
  (∀ id, @sn_read_chunk World real address id w = @sn_read_chunk World world_nodes address id w) ∧
  (∀ id, @sn_delete_chunk World real address id w = @sn_delete_chunk World world_nodes address id w) ∧
  @sn_get_chunk_size World real address w = @sn_get_chunk_size World world_nodes address w ∧
  @sn_get_free_chunks World real address w = @sn_get_free_chunks World world_nodes address w ∧
  @sn_check_health World real address w = @sn_check_health World world_nodes address w.
Proof.
  intros Hg Hreal. assert (real = RealStorageNodeClient world_nodes) as -> by by destruct Hreal.
  assert (∀ l, zlen l ≤ 2 → numbers_len l ≤ MAX_GRPC_MESSAGE_SIZE) as Hn by apply numbers_fit.
  assert (∀ l : list byte, zlen l ≤ SLOT_DATA_SIZE → zlen l + 33 ≤ MAX_GRPC_MESSAGE_SIZE) as Hb.
  { intros l Hl. transitivity (SLOT_DATA_SIZE + 33); [lia|]. by vm_compute. }
  split_and!.
  - intros id bytes Hl. apply generated_within; [|intros; by apply Hn].
    etrans; [apply write_request_len_le|by apply Hb].
  - intros id. apply generated_within; [by apply Hn|]. intros bytes w' Hr.
    etrans; [apply read_response_len_le|]. apply Hb.
    destruct (world_read address id w Hg) as (r & w1 & Hr' & _ & Hd). rewrite Hr in Hr'.
    injection Hr' as <- _. revert Hd. unfold node_data.
    destruct (w_nodes w !! address) as [n|] eqn:Ha; [|by rewrite lookup_empty].
    intros Hd. by eapply stored_bounds; [apply g_wf, (Hg address)|].
  - intros id. apply generated_within; intros; by apply Hn.
  - apply generated_within; intros; by apply Hn.
  - apply generated_within; intros; by apply Hn.
  - apply generated_within; intros; by apply Hn.
Qed.

End theorems.

(** ** Witness *)

#[local] Existing Instance toy_deps.
#[local] Existing Instance toy_xxh3.
#[local] Existing Instance crc32_ieee.

(** A transport that refuses what is over a limit, with every number in 11 bytes. *)
#[local, refine] Instance toy_transport : Transport := {|
  write_request_len id bytes := zlen bytes + 22;
  read_response_len id bytes := zlen bytes + 33;
  numbers_len l := 11 * zlen l;
  transmit W A client server len answer_len m w :=
    if (max_encoding_message_size client <? len) || (max_decoding_message_size server <? len)
    then (Err Internal, w)
    else match m w with
         | (Ok a, w') =>
             if (max_encoding_message_size server <? answer_len a) ||
                (max_decoding_message_size client <? answer_len a)
             then (Err Internal, w') else (Ok a, w')
         | other => other
         end;
|}.
Proof.
  - intros id bytes. lia.
  - intros id bytes. lia.
  - intros l. lia.
  - intros W A client server len answer_len m w H1 H2 Ha. cbv beta.
    rewrite (proj2 (Z.ltb_ge _ _) H1), (proj2 (Z.ltb_ge _ _) H2). simpl.
    destruct (m w) as [[a|e|] w']; [|done..]. destruct Ha as [Ha1 Ha2].
    by rewrite (proj2 (Z.ltb_ge _ _) Ha1), (proj2 (Z.ltb_ge _ _) Ha2).
Defined.

Lemma message_limits_are_enough_witness :
  let real := ReplicationStorageNodeClient world_nodes in
  @sn_write_chunk World real "http://d" 7 [x01; x02] (gw_world gateway1) =
    @sn_write_chunk World world_nodes "http://d" 7 [x01; x02] (gw_world gateway1) ∧
  is_ok (@sn_write_chunk World real "http://d" 7 [x01; x02] (gw_world gateway1)).1 = true.
Proof.
  destruct (message_limits_are_enough (ReplicationStorageNodeClient world_nodes) "http://d"
    (gw_world gateway1)) as [Hw _].
  - intros a n. apply (gk_nodes "" _ (gateway1_ok "")).
  - by right.
  - specialize (Hw 7 [x01; x02]). split; [by apply Hw|]. rewrite Hw by done.
    vm_compute. reflexivity.
Defined.
