(* ===== verification/Routes.v ===== *)
(** * Routes: which handler of the gateway answers a request

    The router of api-gateway/src/main.rs. How axum chooses among the routes is a parameter,
    of which the documented rules are known. *)

From S2P Require Import Prelude.
From S2P Require Import Bytes.
From S2P Require Import Str.
From S2P Require Import Crc32.
From S2P Require Import Grpc.
From S2P Require Import HashRing.
From S2P Require Import MetadataStore.
From S2P Require Import ClusterService.
From S2P Require Import MetadataService.
From S2P Require Import Clients.
From S2P Require Import Gateway.
From S2P Require Import Multipart.
From S2P Require Import Samples.
From S2P Require Import SampleSystem.
Open Scope string_scope.
Open Scope list_scope.
Open Scope Z_scope.

Inductive Method := GET | PUT | DELETE.
#[export] Instance Method_eq_dec : EqDecision Method.
Proof. solve_decision. Defined.

(** A path of its own, or one segment that is captured. *)
Inductive Pattern := Static (path : string) | Segment.
#[export] Instance Pattern_eq_dec : EqDecision Pattern.
Proof. solve_decision. Defined.

Inductive Endpoint := Health | MetricsPage | PutDispatch | GetDispatch | List | Delete.

Record Route := mkRoute {
  rt_pattern : Pattern;
  rt_method : Method;
  rt_endpoint : Endpoint;
}.

Definition routes : list Route := [
  mkRoute (Static "/health") GET Health;
  mkRoute (Static "/metrics") GET MetricsPage;
  mkRoute Segment PUT PutDispatch;
  mkRoute Segment GET GetDispatch;
  mkRoute (Static "/") GET List;
  mkRoute Segment DELETE Delete].

(** The routes of a pattern, and of those the one for a method. *)
Definition has_pattern (p : Pattern) (rs : list Route) : bool :=
  existsb (λ r, bool_decide (rt_pattern r = p)) rs.
Definition pick (p : Pattern) (m : Method) (rs : list Route) : option Endpoint :=
  rt_endpoint <$> List.find (λ r, bool_decide (rt_pattern r = p ∧ rt_method r = m)) rs.

(** Nowhere a slash, and not empty. *)
Definition one_segment (s : string) : Prop := s ≠ "" ∧ 47 ∉ bytes_of s.

(** Where a request goes: to an endpoint, with the captured segment; [405] when the path
    has routes, but none for the method; [404] when it has none. *)
Inductive Routed := To (e : Endpoint) (segment : string) | MethodNotAllowed | NoRoute.

(** The rules of axum: a path of its own comes before a captured segment, whatever its
    methods; a captured segment is one segment. [percent_decode] is what the extractor
    makes of a segment, if that is text. *)
Class Axum := {
  percent_decode : string → option string;
  route : list Route → Method → string → Routed;
  route_static rs m path :
    has_pattern (Static path) rs = true →
    route rs m path =
      match pick (Static path) m rs with Some e => To e "" | None => MethodNotAllowed end;
  route_segment rs m segment :
    has_pattern (Static (String.append "/" segment)) rs = false → has_pattern Segment rs = true →
    one_segment segment →
    route rs m (String.append "/" segment) =
      match pick Segment m rs with Some e => To e segment | None => MethodNotAllowed end;
  route_none rs m segment rest :
    has_pattern (Static (String.append "/" (String.append segment (String.append "/" rest)))) rs = false →
    one_segment segment →
    route rs m (String.append "/" (String.append segment (String.append "/" rest))) = NoRoute;
}.

(** What the handlers look at: that a content type is given, what PUT reads, and the
    [Accept] header of a GET. *)
Record HttpRequest := mkHttpRequest {
  hr_put : PutRequest;
  hr_has_content_type : bool;
  hr_accept : option string;
}.

Inductive HttpAnswer :=
  | Text (body : string)
  | MetricsText (m : GwMetrics)
  | Uploaded (len : Z)
  | Downloaded (a : GetAnswer)
  | Listing (l : list (string * list ListObjectsResponseChunk))
  | Deleted.

Definition METHOD_NOT_ALLOWED : Z := 405.

(** [insert_request_header_if_not_present(CONTENT_TYPE, "application/octet-stream")]; a
    header that is there but no text stays. *)
Definition default_content_type (present : bool) (r : PutRequest) : PutRequest :=
  if present then r
  else mkPutRequest (Some "application/octet-stream") (pr_form r) (pr_json r).

Lemma bytes_of_app s t : bytes_of (String.append s t) = bytes_of s ++ bytes_of t.
Proof. unfold bytes_of. induction s as [|c s IH]; [done|]. cbn. by rewrite <- IH. Qed.

Section app.
Context {W : Type} `{MetadataClient W} `{StorageNodeClient W} `{Crc32} `{Base64} `{UnicodeTables}.
Context `{Axum}.

(** The registry as it is, encoded by the library. *)
Definition handle_metrics : @GW W GwMetrics := gets gw_metrics.

(** The handler of an endpoint; a segment that cannot be decoded is a bad request. *)
Definition answer (e : Endpoint) (segment : string) (r : HttpRequest) : @GW W HttpAnswer :=
  let with_name f := match percent_decode segment with
                     | Some name => f name
                     | None => throw BAD_REQUEST
                     end in
  match e with
  | Health => mret (Text "OK")
  | MetricsPage => m ← handle_metrics; mret (MetricsText m)
  | PutDispatch => with_name (λ name,
      len ← handle_put_dispatch name
              (default_content_type (hr_has_content_type r) (hr_put r));
      mret (Uploaded len))
  | GetDispatch => with_name (λ name, a ← handle_get_dispatch name (hr_accept r); mret (Downloaded a))
  | List => l ← handle_list_objects; mret (Listing l)
  | Delete => with_name (λ name, _ ← handle_delete_object name; mret Deleted)
  end.

Definition build_app (m : Method) (path : string) (r : HttpRequest) : @GW W HttpAnswer :=
  match route routes m path with
  | To e segment => answer e segment r
  | MethodNotAllowed => throw METHOD_NOT_ALLOWED
  | NoRoute => throw NOT_FOUND
  end.

(** C20: Every path of one segment leads to the object of that name, with the handler for the
    method, except "/health" and "/metrics": there an upload and a deletion are refused,
    and a download answers with something else, although both are object names that
    [validate_object_name] accepts. A path of several segments leads nowhere, although
    names may contain slashes. *)
Theorem routes_of_object_names segment name r g :
  one_segment segment → percent_decode segment = Some name →
  let path := String.append "/" segment in
  (segment ≠ "health" → segment ≠ "metrics" →
   build_app PUT path r g =
     (len ← handle_put_dispatch name (default_content_type (hr_has_content_type r)
        (hr_put r)); mret (Uploaded len)) g ∧
   build_app GET path r g =
     (a ← handle_get_dispatch name (hr_accept r); mret (Downloaded a)) g ∧
   build_app DELETE path r g = (_ ← handle_delete_object name; mret Deleted) g) ∧
  (∀ rest m, build_app m (String.append path (String.append "/" rest)) r g = (Err NOT_FOUND, g)) ∧
  (segment = "health" ∨ segment = "metrics" →
   validate_object_name segment = None ∧
   build_app PUT path r g = (Err METHOD_NOT_ALLOWED, g) ∧
   build_app DELETE path r g = (Err METHOD_NOT_ALLOWED, g) ∧
   build_app GET path r g =
     (Ok (if decide (segment = "health") then Text "OK" else MetricsText (gw_metrics g)), g)).
Proof.
  intros Hs Hn path. unfold build_app. split_and!.
  - intros Hh Hm. assert (segment ≠ "") by apply Hs.
    assert (has_pattern (Static (String.append "/" segment)) routes = false) as Hp.
    { unfold has_pattern, routes. cbn [existsb rt_pattern].
      rewrite !bool_decide_eq_false_2; [done|..]; intros Heq; try (by injection Heq); done. }
    unfold path. rewrite !route_segment by done. cbn [pick]. simpl. by rewrite Hn.
  - intros rest m. unfold path.
    assert (String.append (String.append "/" segment) (String.append "/" rest) =
      String.append "/" (String.append segment (String.append "/" rest))) as -> by done.
    rewrite route_none; [done| |done].
    assert (∀ s, forallb (λ b, negb (b =? 47)) (bytes_of s) = true →
      String.append segment (String.append "/" rest) ≠ s) as Hne.
    { intros s Hb <-. rewrite bytes_of_app, forallb_app in Hb. by apply andb_true_iff in Hb as [_ Hb]. }
    unfold has_pattern, routes. cbn [existsb rt_pattern].
    rewrite !bool_decide_eq_false_2; [done|..]; intros Heq; try done; injection Heq as Heq;
      symmetry in Heq; revert Heq; by apply Hne.
  - intros Hseg. destruct Hseg as [-> | ->]; unfold path; rewrite !route_static by done; simpl.
    + done.
    + done.
Qed.

(** The limit on the length of a name counts bytes: 513 letters of two bytes each are too
    long, although the message speaks of 1024 characters. *)
Definition e_acute : string := String (Ascii.ascii_of_nat 195) (String (Ascii.ascii_of_nat 169) "").

Lemma name_limit_counts_bytes (name := String.concat "" (replicate 513 e_acute)) :
  length (chars name) = 513%nat ∧ validate_object_name name = Some LongName.
Proof. split; vm_compute; reflexivity. Qed.

End app.

(** ** Witness *)

#[local] Existing Instance toy_deps.
#[local] Existing Instance toy_xxh3.
#[local] Existing Instance crc32_ieee.
#[local] Existing Instance toy_base64.
#[local] Existing Instance ascii_only.

(** A router of that kind that decodes nothing. *)
Definition toy_route (rs : list Route) (m : Method) (path : string) : Routed :=
  if has_pattern (Static path) rs then
    match pick (Static path) m rs with Some e => To e "" | None => MethodNotAllowed end
  else
    match path with
    | String c segment =>
        if bool_decide (c = "/"%char) && negb (String.eqb segment "") &&
          forallb (λ b, negb (b =? 47)) (bytes_of segment) && has_pattern Segment rs
        then match pick Segment m rs with Some e => To e segment | None => MethodNotAllowed end
        else NoRoute
    | "" => NoRoute
    end.

#[local, refine] Instance toy_axum : Axum := {|
  percent_decode s := Some s;
  route := toy_route;
|}.
Proof.
  - intros rs m path Hp. unfold toy_route. by rewrite Hp.
  - intros rs m segment Hp Hr [Hne Hs]. unfold toy_route. rewrite Hp.
    change (String.append "/" segment) with (String "/" segment). cbv iota.
    rewrite (proj2 (String.eqb_neq _ _) Hne), Hr.
    assert (forallb (λ b, negb (b =? 47)) (bytes_of segment) = true) as ->; [|done].
    apply forallb_forall. intros b Hb. apply negb_true_iff, Z.eqb_neq. intros ->.
    by apply Hs, list_elem_of_In.
  - intros rs m segment rest Hp _. unfold toy_route. rewrite Hp.
    change (String.append "/" ?x) with (String "/" x). cbv iota.
    rewrite bytes_of_app, forallb_app.
    assert (forallb (λ b, negb (b =? 47)) (bytes_of (String.append "/" rest)) = false) as -> by done.
    by rewrite !andb_false_r.
Defined.

Definition an_upload : HttpRequest := mkHttpRequest (mkPutRequest None None (Some "ab")) false None.

Lemma routes_of_object_names_witness :
  build_app PUT "/health" an_upload gateway1 = (Err METHOD_NOT_ALLOWED, gateway1) ∧
  (build_app PUT "/photo" an_upload gateway1).1 = Ok (Uploaded 2).
Proof.
  assert (∀ l, forallb (λ b, negb (b =? 47)) l = true → 47 ∉ l) as Hno.
  { intros l Hl Hin. rewrite forallb_forall in Hl. by specialize (Hl 47 (proj1 (list_elem_of_In _ _) Hin)). }
  split.
  - destruct (routes_of_object_names "health" "health" an_upload gateway1) as (_ & _ & Hh);
      [by split; [|apply Hno]|done|]. by apply Hh; left.
  - destruct (routes_of_object_names "photo" "photo" an_upload gateway1) as (Hp & _);
      [by split; [|apply Hno]|done|]. destruct (Hp ltac:(done) ltac:(done)) as [Hput _].
    etransitivity; [exact (f_equal fst Hput)|]. vm_compute. reflexivity.
Defined.
