(* ===== verification/Progress.v ===== *)
(** * Progress: what an upload needs to succeed

    The resources of the system that an upload uses up (room on the storage nodes, unused
    ids, calls on the metadata's disk that work), and that each step of an upload
    succeeds while they last. *)

From S2P Require Import Prelude.
From S2P Require Import Bytes.
From S2P Require Import Crc32.
From S2P Require Import ChunkStore.
From S2P Require Import ChunkStoreFacts.
From S2P Require Import ChunkStoreSpec.
From S2P Require Import Grpc.
From S2P Require Import StorageNode.
From S2P Require Import NodeFacts.
From S2P Require Import HashRing.
From S2P Require Import MetadataStore.
From S2P Require Import MetadataStoreFacts.
From S2P Require Import ChunkIndex.
From S2P Require Import ClusterService.
From S2P Require Import Cluster.
From S2P Require Import Forwarding.
From S2P Require Import MetadataService.
From S2P Require Import Network.
From S2P Require Import RoutingFacts.
From S2P Require Import Clients.
From S2P Require Import Gateway.
From S2P Require Import SystemFacts.
Open Scope string_scope.
Open Scope list_scope.
Open Scope Z_scope.

Section progress.
Context `{MetaDeps} `{Xxh3} `{Crc32}.

(** The node at [a] is up and has [k] free slots. *)
Definition room (w : World) (k : nat) (a : string) : Prop :=
  ∃ n, w_nodes w !! a = Some n ∧ Z.of_nat (size (abs (store n)) + k) ≤ cs_total (store n).

(** The system can take [k] more chunks: the metadata can be saved, the next [k] random
    ids are distinct and unused, and every registered storage node (there is one) has
    room. *)
Record ready (k : nat) (w : World) : Prop := mkReady {
  rd_calm : store_calm (meta w);
  rd_ids : ∃ ids rest, rng_draws (ms_rng (meta w)) = ids ++ rest ∧ length ids = k ∧
    NoDup ids ∧ ∀ id, id ∈ ids → chunks (meta w) !! id = None ∧
      ∀ a, node_data w a !! id = None;
  rd_some : storage_nodes (meta w) ≠ ∅;
  rd_room x node : storage_nodes (meta w) !! x = Some node → room w k (sn_address node);
}.

(** A storage node is registered, and all that are can be connected to. *)
Definition offers (w : World) : Prop :=
  storage_nodes (meta w) ≠ ∅ ∧
  ∀ x node, storage_nodes (meta w) !! x = Some node → is_Some (w_nodes w !! sn_address node).

Lemma room_up w k a : room w k a → is_Some (w_nodes w !! a).
Proof. intros (n & Hn & _). eauto. Qed.

Lemma room_data w k a :
  room w k a ↔ is_Some (w_nodes w !! a) ∧ Z.of_nat (size (node_data w a) + k) ≤ node_slots w a.
Proof.
  unfold room, node_data, node_slots. destruct (w_nodes w !! a) as [n|]; [|naive_solver].
  split; [intros (n' & [= <-] & ?); by split|]. intros [_ ?]. by exists n.
Qed.

(** Room, ids and the disk as they were, with no new chunks. *)
Lemma ready_kept k w w' :
  store_calm (meta w') → ms_rng (meta w') = ms_rng (meta w) →
  (∀ id, chunks (meta w) !! id = None → chunks (meta w') !! id = None) →
  storage_nodes (meta w') = storage_nodes (meta w) → same_nodes w w' →
  (∀ a, node_data w' a ⊆ node_data w a) → ready k w → ready k w'.
Proof.
  intros Hcalm Hrng Hch Hn [Hup Hsl] Hd [_ (ids & rest & Hids & Hl & Hnd & Hfree) Hsome Hroom].
  split; [done| |by rewrite Hn|].
  - exists ids, rest. rewrite Hrng. split_and!; [done..|]. intros id Hi.
    destruct (Hfree id Hi) as [Hc Hdata]. split; [auto|]. intros a. by eapply lookup_weaken_None.
  - intros x node Hx. rewrite Hn in Hx. apply Hroom in Hx. apply room_data in Hx as [Hu Hsz].
    apply room_data. rewrite Hup, Hsl. split; [done|].
    pose proof (map_subseteq_size _ _ (Hd (sn_address node))). lia.
Qed.

Lemma ready_weaken j k w : (k ≤ j)%nat → ready j w → ready k w.
Proof.
  intros Hk [Hcalm (ids & rest & Hids & Hl & Hnd & Hfree) Hsome Hroom]. split; [done| |done|].
  - exists (take k ids), (drop k ids ++ rest). rewrite app_assoc, take_drop.
    split_and!; [done|by rewrite length_take_le by lia| |].
    + by eapply sublist_NoDup, sublist_take.
    + intros id Hi. apply Hfree. by eapply subseteq_take.
  - intros x node Hx. destruct (Hroom x node Hx) as (n & Hn & Hsz). exists n. split; [done|]. lia.
Qed.

(** ** Storage nodes *)

Lemma node_write_room id bytes n :
  good (store n) → is_u64 id → zlen bytes ≤ SLOT_DATA_SIZE →
  abs (store n) !! id = None → Z.of_nat (size (abs (store n))) < cs_total (store n) →
  ∃ n', write_chunk id bytes n = (Ok id, n') ∧ cs_total (store n') = cs_total (store n) ∧
    abs (store n') = <[id := bytes]> (abs (store n)).
Proof.
  intros Hg Hid Hd Hn Hsz.
  destruct (run_put_spec id bytes (store n) Hg Hid Hd) as (r & st' & Hr & Hspec & _ & Hcfg & _).
  simpl in Hr. cbv [mbind ST_bind mret ST_ret] in Hr.
  simpl in Hspec. rewrite decide_False in Hspec by (rewrite Hn; by intros []).
  rewrite (proj2 (Z.leb_gt _ _) Hsz) in Hspec. injection Hspec as <- Habs.
  destruct (ChunkStore.put_chunk id bytes (store n)) as [[[]|e|] st0] eqn:Hput; [|done..].
  injection Hr as ->. apply (on_store_run write_status) in Hput.
  unfold write_chunk. rewrite (bind_ok _ _ _ _ _ Hput). eexists. split; [done|]. cbn.
  split; [apply Hcfg|done].
Qed.

Lemma world_write_room a id bytes w k :
  nodes_good w → is_u64 id → zlen bytes ≤ SLOT_DATA_SIZE →
  node_data w a !! id = None → room w (S k) a →
  ∃ w', sn_write_chunk a id bytes w = (Ok (), w') ∧
    ∀ x, room w (S k) x → room w' k x.
Proof.
  intros Hg Hid Hb Hnone (n & Ha & Hsz). cbn. unfold on_node. rewrite Ha.
  unfold node_data in Hnone. rewrite Ha in Hnone.
  destruct (node_write_room id bytes n (Hg _ _ Ha) Hid Hb Hnone) as (n' & Hr & Ht & Hab); [lia|].
  run_st. rewrite Hr. eexists. split; [done|]. intros x (nx & Hx & Hsx). unfold room. simpl.
  destruct (decide (a = x)) as [<-|Hne].
  - rewrite lookup_insert_eq. exists n'. split; [done|]. rewrite Ht, Hab.
    rewrite map_size_insert_None by done. lia.
  - rewrite lookup_insert_ne by done. exists nx. split; [done|]. lia.
Qed.

(** ** The metadata node *)

Lemma allocate_room name n id rest (s := sv_store (mn_server n)) :
  serves_itself n name → rng_draws (ms_rng s) = id :: rest → chunks s !! id = None →
  storage_nodes s ≠ ∅ →
  ∃ resp n', svc_allocate_chunk name n = (Ok resp, n') ∧ ac_chunk_id resp = id ∧
    rng_draws (ms_rng (sv_store (mn_server n'))) = rest ∧
    ms_disk (sv_store (mn_server n')) = ms_disk s.
Proof.
  intros Hs Hd Hid Hn.
  assert (∃ nid addr s', allocate_chunk name s = (Ok (id, nid, addr), s') ∧
    rng_draws (ms_rng s') = rest ∧ ms_disk s' = ms_disk s) as (nid & addr & s' & Ha & Hr & Hk).
  { unfold allocate_chunk, generate_unique_id, choose_storage_node. run_st. rewrite Hd. simpl.
    rewrite decide_False by (rewrite Hid; by intros []). simpl.
    destruct (map_to_list (storage_nodes s)) as [|kv l] eqn:Hl.
    { by apply map_to_list_empty_iff in Hl. }
    destruct (lookup_lt_is_Some_2 ((kv :: l).*2)
      (default O (head (rng_picks (ms_rng s))) `mod` length ((kv :: l).*2))) as [x Hx].
    { apply Nat.mod_upper_bound. by rewrite fmap_cons. }
    simpl in Hx |- *. rewrite Hx. simpl. by eexists _, _, _. }
  unfold svc_allocate_chunk. destruct (String.eqb name "").
  2: rewrite route_object_here by done.
  all: unfold locked, on_server, zoom, count; run_st; fold s; rewrite Ha; by eexists _, _.
Qed.

Lemma put_object_room name checksum n (s := sv_store (mn_server n)) :
  serves_itself n name → store_calm s → objects s !! name = None →
  ∃ n', svc_put_object name checksum n = (Ok (), n') ∧ store_calm (sv_store (mn_server n')).
Proof.
  intros Hs Hc Hn. unfold svc_put_object. rewrite route_object_here by done.
  unfold locked, on_server, zoom, count, put_object. run_st. fold s.
  rewrite decide_False by (rewrite Hn; by intros []). set (s1 := set_objects _ s).
  destruct (save_calm s1 Hc) as (d & -> & Hd). eexists. split; [done|]. by split; [|apply Hc].
Qed.

Lemma confirm_room name id checksum nid n o (s := sv_store (mn_server n)) :
  serves_itself n name → store_calm s → is_Some (storage_nodes s !! nid) →
  chunks s !! id = Some (new_pending id name) → objects s !! name = Some o →
  ∃ n', svc_confirm_chunk id name checksum nid n = (Ok (), n') ∧
    store_calm (sv_store (mn_server n')).
Proof.
  intros Hs Hc Hnid Hch Ho. unfold svc_confirm_chunk. rewrite route_object_here by done.
  unfold locked, with_index, on_server, on_index, zoom, count, confirm_chunk. run_st. fold s.
  rewrite decide_True by done. rewrite Hch. cbn [new_pending]. rewrite Ho.
  match goal with |- context [save ?x] =>
    assert (store_calm x) as Hx by exact Hc; destruct (save_calm x Hx) as (d & -> & Hd) end.
  eexists. split; [done|]. by split; [|apply Hc].
Qed.

End progress.

(** ** The gateway *)

Section gateway.
Context `{MetaDeps} `{Xxh3} `{Crc32} `{Base64} `{UnicodeTables}.

(** The next id can be taken; the ones after it stay unused. *)
Lemma ready_next k w :
  ready (S k) w →
  ∃ id ids rest, rng_draws (ms_rng (meta w)) = id :: (ids ++ rest) ∧ length ids = k ∧
    NoDup ids ∧ chunks (meta w) !! id = None ∧ (∀ a, node_data w a !! id = None) ∧
    ∀ i, i ∈ ids → i ≠ id ∧ chunks (meta w) !! i = None ∧ ∀ a, node_data w a !! i = None.
Proof.
  intros [_ (ids & rest & Hd & Hl & Hnd & Hfree) _ _]. destruct ids as [|id ids]; [done|].
  apply list.NoDup_cons in Hnd as [Hni Hnd]. exists id, ids, rest.
  destruct (Hfree id) as [Hc Hn]; [by left|]. simpl in Hl.
  split_and!; [done|lia|done|done|done|]. intros i Hi.
  split; [by intros ->|]. apply Hfree. by right.
Qed.

(** What [put_one_chunk] does once the chunk is written. *)
Definition confirm_written (name : string) (chunk : list byte) (resp : AllocateChunkResponse) :
    GW (W := World) unit :=
  confirmed ← call (mc_confirm_chunk (ac_chunk_id resp) name (compute_checksum chunk)
                      (ac_storage_node_id resp));
  match confirmed with
  | inl _ => _ ← ignore_error (mc_delete_object name); throw INTERNAL_SERVER_ERROR
  | inr _ => mret ()
  end.

(** The chunk [resp] allocates for [name] is on its node, and not confirmed. *)
Record written (name : string) (chunk : list byte) (resp : AllocateChunkResponse)
    (w w' : World) (id := ac_chunk_id resp) (a := ac_storage_node_address resp) : Prop := mkWritten {
  wr_objects : objects (meta w') = objects (meta w);
  wr_free : chunks (meta w) !! id = None;
  wr_fresh : node_data w a !! id = None;
  wr_chunks : chunks (meta w') = <[id := new_pending id name]> (chunks (meta w));
  wr_node : ∃ node, storage_nodes (meta w') !! ac_storage_node_id resp = Some node ∧
    sn_address node = a;
  wr_data : node_data w' a !! id = Some chunk;
}.

Lemma chunk_written_ready name chunk g k :
  gw_ok name g → zlen chunk ≤ SLOT_DATA_SIZE → ready (S k) (gw_world g) →
  ∃ resp g', put_one_chunk name chunk g = confirm_written name chunk resp g' ∧
    gw_ok name g' ∧ ready k (gw_world g') ∧ written name chunk resp (gw_world g) (gw_world g').
Proof.
  intros Hg Hlen Hrd. unfold put_one_chunk. cbv [mbind ST_bind].
  destruct (ready_next _ _ Hrd) as (id & ids & rest & Hd & Hl & Hnd & Hfree & Hfresh & Hids).
  destruct Hrd as [Hcalm _ Hsome Hroom].
  destruct (allocate_room name _ _ _ (gk_serves _ _ Hg) Hd Hfree Hsome)
    as (resp & na & Ha & Hid0 & Hdraws & Hdisk).
  assert (mc_allocate_chunk name (gw_world g) = (Ok resp, set_meta na (gw_world g))) as Hm.
  { cbn. unfold on_meta, zoom. by rewrite Ha. }
  rewrite (call_run _ _ _ _ Hm). clear Hm.
  destruct (local_allocate _ _ _ _ (gk_serves _ _ Hg) (gk_wf _ _ Hg) (gk_draws _ _ Hg) Ha)
    as (Hid & _ & Hwf1 & Hdr1 & Hs1 & (node & Hnode & Haddr) & Ho1 & Hn1 & Hc1).
  rewrite Hid0 in *. rewrite <- Haddr. set (addr := sn_address node) in *.
  set (g1 := set_gw_world _ g).
  assert (gw_ok name g1) as Hg1 by (split; [done|done|apply Hg|done|apply Hg]).
  destruct (get_or_connect_spec name addr g1 Hg1) as (rc & g2 & Hgc & Hw2 & Hg2 & Hrc).
  rewrite Hgc. destruct rc as [client|e|]; [subst client| |done].
  2: { destruct Hrc as (_ & _ & Hdown). destruct (room_up _ _ _ (Hroom _ _ Hnode)) as [? Hup].
       by rewrite (Hup : w_nodes (gw_world g1) !! addr = _) in Hdown. }
  assert (room (gw_world g2) (S k) addr) as Hroom2 by (rewrite Hw2; exact (Hroom _ _ Hnode)).
  assert (node_data (gw_world g2) addr !! id = None) as Hnone by (rewrite Hw2; exact (Hfresh addr)).
  destruct (world_write_room addr id chunk _ k (gk_nodes _ _ Hg2) Hid Hlen Hnone Hroom2)
    as (w3 & Hwr & Hkeep).
  destruct (world_write addr id chunk (gw_world g2) (gk_nodes _ _ Hg2) Hid Hlen)
    as (rw & w3' & Hwr' & Hmeta3 & Hgood3 & _ & Hrw).
  rewrite Hwr in Hwr'. injection Hwr' as <- <-. destruct Hrw as (_ & _ & Hd3).
  rewrite (call_run _ _ _ _ Hwr).
  assert (w_meta w3 = na) as Hna by by rewrite Hmeta3, Hw2.
  exists resp, (set_gw_world w3 g2).
  split; [unfold confirm_written; by rewrite Hid0|]. split; [|split].
  - split; cbn; rewrite ?Hna; [done|done|done|done|apply Hg2].
  - split; cbn; rewrite ?Hna; cbn.
    + split; [rewrite Hdisk|]; apply Hcalm.
    + exists ids, rest. split_and!; [done|done|done|]. intros i Hi.
      destruct (Hids i Hi) as (Hne & Hci & Hdi). split; [by rewrite Hc1, lookup_insert_ne|].
      intros a. change (node_data w3 a !! i = None). rewrite Hd3, Hw2.
      case_decide; [|exact (Hdi a)]. rewrite lookup_insert_ne by done. exact (Hdi a).
    + by rewrite Hn1.
    + intros x nd. rewrite Hn1. intros Hx. apply Hkeep. rewrite Hw2. exact (Hroom _ _ Hx).
  - split; cbn; rewrite ?Hna, ?Hid0; cbn; [done|done|apply Hfresh|done| |].
    + exists node. by rewrite Hn1.
    + rewrite <- Haddr. change (node_data w3 addr !! id = Some chunk). rewrite Hd3.
      by rewrite decide_True, lookup_insert_eq.
Qed.

Lemma put_one_chunk_ready name chunk g data k :
  gw_ok name g → zlen chunk ≤ SLOT_DATA_SIZE → placed (gw_world g) name data →
  ready (S k) (gw_world g) →
  ∃ g', put_one_chunk name chunk g = (Ok (), g') ∧ ready k (gw_world g').
Proof.
  intros Hg Hlen (o & Ho & _) Hrd.
  destruct (chunk_written_ready _ _ _ _ Hg Hlen Hrd) as (resp & g1 & -> & Hg1 & Hrd1 & Hw).
  destruct Hw as [Hobj _ _ Hch (node & Hnode & _) _]. destruct Hrd1 as [Hcalm (ids & rest & Hids) Hsome Hroom].
  assert (chunks (meta (gw_world g1)) !! ac_chunk_id resp = Some (new_pending (ac_chunk_id resp) name))
    as Hnew by by rewrite Hch, lookup_insert_eq.
  destruct (confirm_room name (ac_chunk_id resp) (compute_checksum chunk) (ac_storage_node_id resp)
    (w_meta (gw_world g1)) o) as (nf & Hf & Hcalm2); [apply Hg1|done|by eexists|done|by rewrite Hobj|].
  assert (mc_confirm_chunk (ac_chunk_id resp) name (compute_checksum chunk) (ac_storage_node_id resp)
    (gw_world g1) = (Ok (), set_meta nf (gw_world g1))) as Hm.
  { cbn. unfold on_meta, zoom. by rewrite Hf. }
  unfold confirm_written. rewrite (bind_ok _ _ _ _ _ (call_run _ _ _ _ Hm)).
  destruct (local_confirm _ _ _ _ _ _ (gk_serves _ _ Hg1) (gk_wf _ _ Hg1) Hf)
    as (_ & _ & Hr & _ & Hn & Hc).
  eexists. split; [done|]. split; cbn; [done| |by rewrite Hn|].
  - exists ids, rest. destruct Hids as (Hd & Hl & Hnd & Hfree). rewrite Hr.
    split_and!; [done|done|done|]. intros i Hi. destruct (Hfree i Hi) as [Hci Hdi].
    split; [|exact Hdi]. rewrite Hc, lookup_insert_ne; [done|]. intros <-. congruence.
  - intros x nd. rewrite Hn. apply Hroom.
Qed.

Lemma put_chunks_ready name l k g data :
  gw_ok name g → Forall (λ c, zlen c ≤ SLOT_DATA_SIZE) l → placed (gw_world g) name data →
  ready (length l + k) (gw_world g) →
  ∃ g', put_chunks name l g = (Ok (), g') ∧ ready k (gw_world g').
Proof.
  revert g data. induction l as [|chunk l IH]; intros g data Hg Hl Hp Hrd; simpl.
  { by exists g. }
  apply list.Forall_cons in Hl as [Hc Hl].
  destruct (put_one_chunk_ready _ _ _ _ _ Hg Hc Hp Hrd) as (g1 & Hr & Hrd1).
  destruct (put_one_chunk_ok _ _ _ _ _ Hg Hc Hp Hr) as [Hg1 Hp1].
  rewrite (bind_ok _ _ _ _ _ Hr). by eapply IH.
Qed.

(** The calls made before the first chunk is sent. *)
Lemma ready_offers k w : ready k w → offers w.
Proof.
  intros [_ _ Hsome Hroom]. split; [done|]. intros x node Hx. by eapply room_up, Hroom.
Qed.

Lemma list_nodes_offers g :
  offers (gw_world g) →
  ∃ first rest, call mc_list_storage_nodes g = (Ok (inr (first :: rest)), g) ∧
    is_Some (w_nodes (gw_world g) !! sn_address first).
Proof.
  intros [Hsome Hup].
  destruct (map_to_list (storage_nodes (meta (gw_world g)))) as [|[x first] l] eqn:Hl.
  { by apply map_to_list_empty_iff in Hl. }
  exists first, (l.*2). split.
  - assert (mc_list_storage_nodes (gw_world g) = (Ok (first :: l.*2), gw_world g)) as Hm.
    { change (on_meta svc_list_storage_nodes (gw_world g) = (Ok (first :: l.*2), gw_world g)).
      unfold on_meta, zoom, svc_list_storage_nodes, current_store. run_st.
      unfold list_storage_nodes. rewrite Hl. by destruct (gw_world g). }
    rewrite (call_run _ _ _ _ Hm). by destruct g.
  - apply (Hup x). apply elem_of_map_to_list. rewrite Hl. by left.
Qed.

Lemma connect_up g a :
  is_Some (w_nodes (gw_world g) !! a) →
  call_or_500 (sn_connect a) g = (Ok (), g) ∧
  call (sn_get_chunk_size a) g = (Ok (inr SLOT_DATA_SIZE), g).
Proof.
  intros [n Hn]. split.
  - unfold call_or_500. cbv [mbind ST_bind].
    rewrite (call_run _ _ _ _ (world_connect a (gw_world g))), Hn.
    rewrite decide_True by done. by destruct g.
  - unfold call, zoom. run_st. cbn. unfold on_node. rewrite Hn. cbn.
    rewrite insert_id by done. by destruct g as [? ? []].
Qed.

Lemma created_ready name checksum g k :
  gw_ok name g → objects (meta (gw_world g)) !! name = None → ready k (gw_world g) →
  ∃ g', call (mc_put_object name checksum) g = (Ok (inr ()), g') ∧ ready k (gw_world g').
Proof.
  intros Hg Hn [Hc Hids Hsome Hroom].
  destruct (put_object_room name checksum _ (gk_serves _ _ Hg) Hc Hn) as (n' & Hr & Hc').
  assert (mc_put_object name checksum (gw_world g) = (Ok (), set_meta n' (gw_world g))) as Hm.
  { cbn. unfold on_meta, zoom. by rewrite Hr. }
  rewrite (call_run _ _ _ _ Hm). eexists. split; [done|].
  destruct (local_put_object _ _ _ _ (gk_serves _ _ Hg) (gk_wf _ _ Hg) Hr)
    as (_ & _ & Hrng & _ & _ & Hn' & Hch).
  split; cbn; [done|by rewrite Hrng, Hch|by rewrite Hn'|].
  intros x node. rewrite Hn'. apply Hroom.
Qed.

End gateway.
