(* ===== verification/FailureTheorems.v ===== *)
(** * FailureTheorems: storage nodes that fail and come back

    A download needs one live copy of each chunk; what the health check does to the
    objects of a node that is down; what a node that starts again finds. *)

From S2P Require Import Prelude.
From S2P Require Import Bytes.
From S2P Require Import PosFile.
From S2P Require Import Crc32.
From S2P Require Import ChunkStore.
From S2P Require Import ChunkStoreFacts.
From S2P Require Import ChunkStoreSpec.
From S2P Require Import Grpc.
From S2P Require Import StorageNode.
From S2P Require Import NodeFacts.
From S2P Require Import NodeTheorems.
From S2P Require Import NodeConfig.
From S2P Require Import HashRing.
From S2P Require Import MetadataStore.
From S2P Require Import MetadataStoreFacts.
From S2P Require Import ClusterService.
From S2P Require Import Cluster.
From S2P Require Import Forwarding.
From S2P Require Import MetadataService.
From S2P Require Import Network.
From S2P Require Import ClusterFacts.
From S2P Require Import RoutingFacts.
From S2P Require Import ClusterRun.
From S2P Require Import Startup.
From S2P Require Import Clients.
From S2P Require Import NodeLife.
From S2P Require Import Gateway.
From S2P Require Import SystemFacts.
From S2P Require Import Samples.
From S2P Require Import SampleSystem.
Open Scope string_scope.
Open Scope list_scope.
Open Scope Z_scope.

(** ** The health check *)

Section health.
Context `{MetaDeps} `{Xxh3}.
Implicit Types (ns : Nodes) (w : World).

(** The node at [a] is up and answers in time. *)
Definition answers_in_time (latency : string → Z) ns (a : string) : Prop :=
  is_Some (ns !! a) ∧ latency a ≤ 5000.
#[export] Instance answers_in_time_dec latency ns a : Decision (answers_in_time latency ns a) :=
  and_dec _ _.

Lemma node_check_health_spec latency node ns :
  node_check_health (node_connects latency) (node_answers latency) node ns =
    (if decide (answers_in_time latency ns (sn_address node)) then inr true else inl (), ns).
Proof.
  unfold node_check_health, node_connects, node_answers, timeout. cbn.
  destruct (Z.leb_spec (latency (sn_address node)) 5000) as [Hl|Hl].
  - destruct (ns !! sn_address node) as [n|] eqn:Hn; cbn.
    + rewrite (decide_True (P := answers_in_time _ _ _)) by (split; [by rewrite Hn|done]).
      cbn. rewrite (proj2 (Z.leb_le _ _) Hl). by rewrite insert_id.
    + rewrite (decide_False (P := answers_in_time _ _ _)); [done|].
      intros [[? Hx] _]. by rewrite Hn in Hx.
  - rewrite (decide_False (P := answers_in_time _ _ _)); [done|]. intros [_ ?]. lia.
Qed.

Lemma check_nodes_spec latency nodes ns :
  check_nodes (node_connects latency) (node_answers latency) nodes ns =
    ((λ '(idx, node), (idx, Some (if decide (answers_in_time latency ns (sn_address node))
                                  then inr true else inl ()))) <$> nodes, ns).
Proof.
  induction nodes as [|[idx node] nodes IH]; [done|]. cbn [check_nodes].
  by rewrite node_check_health_spec, IH.
Qed.

Lemma health_round_run results (n : MetaNode Network) :
  ∃ n', health_check_round results n = (Ok (), n') ∧
    mn_cluster n' = mn_cluster n ∧ mn_forwarding n' = mn_forwarding n ∧
    sv_index (mn_server n') = sv_index (mn_server n) ∧
    sv_store (mn_server n') = set_storage_nodes
      (foldl (λ m id, delete id m) (storage_nodes (sv_store (mn_server n))) (failed_checks results))
      (sv_store (mn_server n)).
Proof.
  unfold health_check_round, count, on_server, zoom, current_store. run_st.
  case_decide as Hd.
  - eexists. split_and!; [done..|]. rewrite Hd. by destruct n as [[[]]].
  - by eexists.
Qed.

Lemma failed_checks_dead latency nodes ns id :
  id ∈ failed_checks ((λ '(idx, node), (idx, Some (if decide (answers_in_time latency ns (sn_address node))
      then inr true else inl ()))) <$> nodes) ↔
  ∃ node, (id, node) ∈ nodes ∧ ¬ answers_in_time latency ns (sn_address node).
Proof.
  unfold failed_checks. rewrite list_elem_of_omap. split.
  - intros ([i r] & Hin & Hr). apply list_elem_of_fmap in Hin as ([i' node] & [= -> ->] & Hin).
    case_decide; [done|]. injection Hr as ->. by exists node.
  - intros (node & Hin & Hd). exists (id, Some (inl ())). split; [|done].
    apply list_elem_of_fmap. exists (id, node). split; [|done]. by rewrite decide_False.
Qed.

(** What a turn of the health check leaves. *)
Record after_check (latency : string → Z) (w w' : World) : Prop := mkAfterCheck {
  ac_nodes : w_nodes w' = w_nodes w;
  ac_cluster : mn_cluster (w_meta w') = mn_cluster (w_meta w);
  ac_forwarding : mn_forwarding (w_meta w') = mn_forwarding (w_meta w);
  ac_objects : objects (meta w') = objects (meta w);
  ac_chunks : chunks (meta w') = chunks (meta w);
  ac_rng : ms_rng (meta w') = ms_rng (meta w);
  ac_known id node : storage_nodes (meta w') !! id = Some node ↔
    storage_nodes (meta w) !! id = Some node ∧ answers_in_time latency (w_nodes w) (sn_address node);
  ac_server : server_ok (mn_server (w_meta w)) → server_ok (mn_server (w_meta w'));
}.

Lemma health_check_turn_run latency w :
  ∃ w', health_check_turn latency w = (Ok (), w') ∧ after_check latency w w'.
Proof.
  unfold health_check_turn. rewrite check_nodes_spec. unfold on_meta, zoom.
  match goal with |- context [health_check_round ?r ?n] =>
    destruct (health_round_run r n) as (n' & Hr & Hc & Hf & _ & Hs) end.
  pose proof (λ Hok, proj1 (health_ok _ _ _ _ Hr Hok)) as Hserver. rewrite Hr. clear Hr.
  eexists. split; [done|]. cbn in Hc, Hf, Hs. split; cbn; rewrite ?Hs; try done.
  intros id node. cbn. rewrite lookup_delete_all. case_decide as Hin.
  - split; [done|]. intros [Hn Ha]. apply failed_checks_dead in Hin as (node' & Hin & Hd).
    apply elem_of_map_to_list in Hin. congruence.
  - split; [|by intros []]. intros Hn. split; [done|].
    destruct (decide (answers_in_time latency (w_nodes w) (sn_address node))) as [|Hd]; [done|].
    destruct Hin. apply failed_checks_dead. exists node. by split; [apply elem_of_map_to_list|].
Qed.

(** A turn of the health check forgets the storage nodes that are down or take more than
    five seconds to answer, keeps all the others, and changes nothing else: the objects
    and chunks of a forgotten node stay. *)
Theorem health_check_forgets_the_dead latency w :
  ∃ w', health_check_turn latency w = (Ok (), w') ∧ w_nodes w' = w_nodes w ∧
    objects (meta w') = objects (meta w) ∧ chunks (meta w') = chunks (meta w) ∧
    ∀ id node, storage_nodes (meta w') !! id = Some node ↔
      storage_nodes (meta w) !! id = Some node ∧
      is_Some (w_nodes w !! sn_address node) ∧ latency (sn_address node) ≤ 5000.
Proof.
  destruct (health_check_turn_run latency w) as (w' & Hr & Hw). exists w'.
  split_and!; [exact Hr|apply Hw..].
Qed.

End health.

(** ** Downloads *)

Section gateway.
Context `{MetaDeps} `{Xxh3} `{Crc32} `{Base64} `{UnicodeTables}.

(** The download of an object needs one live copy of each of its chunks: whatever other
    nodes are down or have lost theirs, a GET answers with the object's bytes and a
    streamed GET is not cut short. *)
Theorem any_live_copy_suffices name data g :
  validate_object_name name = None → gw_ok name g → available (gw_world g) name data →
  (∃ g', handle_get_object name g = (Ok (b64_encode (concat data)), g')) ∧
  ∃ g', handle_get_object_stream name g = (Ok (data, false), g').
Proof. intros Hv Hg Ha. split; [by apply get_available|by apply stream_available]. Qed.

(** The gateway answers [404] when the metadata service fails in any way. *)
Lemma get_unregistered name o g :
  validate_object_name name = None → gw_ok name g →
  objects (meta (gw_world g)) !! name = Some o → ¬ all_registered (meta (gw_world g)) o →
  ∃ g', handle_get_object name g = (Err NOT_FOUND, g').
Proof.
  intros Hv Hg Ho Hn. destruct (get_object_local _ _ (gk_serves _ _ Hg) (gk_wf _ _ Hg)) as [Hget _].
  rewrite Ho in Hget. destruct Hget as [_ Hget]. specialize (Hget Hn).
  destruct (svc_get_object name (w_meta (gw_world g))) as [r n'] eqn:Hr. simpl in Hget. subst r.
  assert (mc_get_object name (gw_world g) = (Err Internal, set_meta n' (gw_world g))) as Hm.
  { cbn. unfold on_meta, zoom. by rewrite Hr. }
  unfold handle_get_object. rewrite Hv. rewrite (bind_ok _ _ _ _ _ (call_run _ _ _ _ Hm)).
  by eexists.
Qed.

Lemma after_check_ok latency name g w' :
  gw_ok name g → after_check latency (gw_world g) w' → gw_ok name (set_gw_world w' g).
Proof.
  intros [Hwf Hdr Hgood Hs Hc] [Hn Hcl Hf Ho Hch Hrng Hk _]. split; cbn.
  - destruct Hwf as [W1 W2 W3 W4]. split.
    + by rewrite Ho.
    + intros k o id. rewrite Ho, Hch. apply W2.
    + intros id c. rewrite Hch. apply W3.
    + intros id n [? _]%Hk. by apply W4.
  - unfold draws_u64. by rewrite Hrng.
  - intros a n. rewrite Hn. apply Hgood.
  - unfold serves_itself. by rewrite Hf, Hcl.
  - apply Hc.
Qed.

(** C21: The health check makes objects unreadable that can be read: when one storage node
    with a copy of a chunk is down, the download of the object succeeds from another copy
    before the health check, and is answered [404] after it, because the metadata node no
    longer knows a node that the chunk lists. *)
Theorem health_check_hides_live_copies latency name data o id c x node g :
  validate_object_name name = None → gw_ok name g → available (gw_world g) name data →
  objects (meta (gw_world g)) !! name = Some o → id ∈ mo_chunks o →
  chunks (meta (gw_world g)) !! id = Some c → x ∈ mc_storage_nodes c →
  storage_nodes (meta (gw_world g)) !! x = Some node →
  w_nodes (gw_world g) !! sn_address node = None →
  (∃ g', handle_get_object name g = (Ok (b64_encode (concat data)), g')) ∧
  ∃ w', health_check_turn latency (gw_world g) = (Ok (), w') ∧
    ∃ g', handle_get_object name (set_gw_world w' g) = (Err NOT_FOUND, g').
Proof.
  intros Hv Hg Hav Ho Hid Hc Hx Hnode Hdown. split; [by apply get_available|].
  destruct (health_check_turn_run latency (gw_world g)) as (w' & Hr & Hw). exists w'.
  split; [exact Hr|]. apply (get_unregistered name o); [done|by eapply after_check_ok| |].
  - cbn. by rewrite (ac_objects _ _ _ Hw).
  - cbn. intros Hall. unfold all_registered in Hall. rewrite list.Forall_forall in Hall.
    specialize (Hall id Hid c). rewrite (ac_chunks _ _ _ Hw) in Hall. specialize (Hall Hc).
    rewrite list.Forall_forall in Hall. destruct (Hall x Hx) as [node' Hn'].
    apply (ac_known _ _ _ Hw) in Hn' as [Hn' [Hup _]].
    rewrite Hnode in Hn'. injection Hn' as <-. rewrite Hdown in Hup. by destruct Hup.
Qed.

(** ** Restarts *)

(** A registration that is answered adds the address under an id that was free. *)
Lemma register_run a (n n' : MetaNode Network) id (s := sv_store (mn_server n))
    (s' := sv_store (mn_server n')) :
  ms_wf s → draws_u64 s → svc_put_storage_node a n = (Ok id, n') →
  ms_wf s' ∧ draws_u64 s' ∧ objects s' = objects s ∧ chunks s' = chunks s ∧
  storage_nodes s !! id = None ∧
  storage_nodes s' = <[id := mkMetaStorageNode id a]> (storage_nodes s) ∧
  ∀ name, serves_itself n name → serves_itself n' name.
Proof.
  intros Hwf Hdr Hr. unfold svc_put_storage_node, locked, on_server, zoom in Hr. run_st. fold s in Hr.
  destruct (construct_storage_node a s) as [r s1] eqn:Hc.
  pose proof (construct_storage_node_keeps a s r s1 Hwf Hc) as Hwf1.
  destruct r as [i|e|]; [|done..]. simpl in Hr. set (n1 := set_server _ n) in Hr.
  assert (i = id ∧ mn_server n' = mn_server n1 ∧ ∀ name, serves_itself n name → serves_itself n' name)
    as (-> & Hs & Hsv).
  { destruct (mn_forwarding n) eqn:Hf.
    - destruct (fl_broadcast_put_storage_node a n1) as [r2 n2] eqn:Hb.
      destruct (broadcast_all_inv _ _ _ _ _ Hb) as (Hs & _).
      destruct r2; [|done..]. injection Hr as -> <-. split_and!; [done|done|].
      intros name Hn. assert (serves_itself n2 name) as Hn2; [|exact Hn2].
      eapply broadcast_all_serves; [exact Hb|exact Hn].
    - by injection Hr as -> <-. }
  subst s'. rewrite Hs. cbn. revert Hc. unfold construct_storage_node, meta_storage_node_new,
    generate_unique_id. run_st.
  destruct (draw_unused (storage_nodes s) (rng_draws (ms_rng s))) as [[j rest]|] eqn:Hd; [|done].
  destruct (uri_ok a); [|done]. cbn. intros [= -> <-]. cbn.
  destruct (draw_unused_sub _ _ _ _ Hd Hdr) as [_ Hrest].
  apply draw_unused_spec in Hd as [Hfree _].
  split_and!; [exact Hwf1|exact Hrest|done|done|exact Hfree|done|exact Hsv].
Qed.

(** A start whose registration is answered comes to opening its store. *)
Lemma node_main_registered parsed e ip config a exists_answer f w id m1 :
  load parsed e = Ok config → register_address ip config = a →
  svc_put_storage_node a (w_meta w) = (Ok id, m1) →
  node_main meta_connects meta_registers parsed e (Some ip) exists_answer f w =
    match StorageNode.construct exists_answer (allocated_slots config)
            (chunk_store_options config) f with
    | (Ok n, f) => (Serving a n, f, mkWorld m1 (w_nodes w))
    | (Err err, f) => (NoStore err, f, mkWorld m1 (w_nodes w))
    | (Panic, f) => (Panicked, f, mkWorld m1 (w_nodes w))
    end.
Proof.
  intros Hl Ha Hreg. unfold node_main. rewrite Hl.
  destruct (metadata_addresses config) as [|url urls] eqn:Hu.
  { revert Hl. unfold load. destruct parsed as [p|]; [|done]. set (c0 := apply_env_overrides e _).
    destruct (validate c0) eqn:Hv; [done|]. intros [= ->]. unfold validate in Hv. by rewrite Hu in Hv. }
  assert (node_connect 6 meta_connects (url :: urls) 0 w 0 = (Some url, w, O)) as -> by done.
  cbv iota. rewrite Ha. unfold call_with_retry.
  assert (seqZ 1 (max_attempts register_config) = [1; 2; 3]) as -> by done.
  cbn [retry_loop]. unfold meta_registers, on_meta, zoom. by rewrite Hreg.
Qed.

(** What a start leaves, when the file is that of a store in normal service. *)
Lemma node_starts_run parsed e ip config a st w id m1 :
  load parsed e = Ok config → register_address ip config = a →
  good st → allocated_slots config = Some (cs_total st) →
  svc_put_storage_node a (w_meta w) = (Ok id, m1) →
  ∃ n', node_starts parsed e ip (cs_file st) w =
      (Serving a n', mkWorld m1 (<[a := n']> (w_nodes w))) ∧
    abs (store n') = abs st ∧ good (store n').
Proof.
  intros Hl Ha Hg Hslots Hreg. unfold node_starts.
  rewrite (node_main_registered _ _ _ _ _ _ _ _ _ _ Hl Ha Hreg), Hslots.
  destruct (restart_spec (chunk_store_options config) st Hg)
    as (n' & f & -> & Habs & _ & _ & _ & Hg'). by exists n'.
Qed.

(** A storage node registers before it opens its store: when opening fails, the process
    ends and the metadata lists it all the same; chunks are then given to it. *)
Theorem failed_start_stays_registered parsed e ip config a f rest w id m1 :
  load parsed e = Ok config → register_address ip config = a →
  ms_wf (meta w) → draws_u64 (meta w) → w_nodes w !! a = None → f_script f = SysErr :: rest →
  svc_put_storage_node a (w_meta w) = (Ok id, m1) →
  ∃ w', node_starts parsed e ip f w = (NoStore Other, w') ∧
    storage_nodes (meta w') !! id = Some (mkMetaStorageNode id a) ∧ w_nodes w' !! a = None.
Proof.
  intros Hl Ha Hwf Hdr Hdown Hf Hreg. unfold node_starts.
  rewrite (node_main_registered _ _ _ _ _ _ _ _ _ _ Hl Ha Hreg).
  unfold StorageNode.construct, open, next_answer. run_st. rewrite Hf.
  eexists. split; [done|]. split; [|done]. cbn.
  destruct (register_run _ _ _ _ Hwf Hdr Hreg) as (_ & _ & _ & _ & _ & -> & _).
  by rewrite lookup_insert_eq.
Qed.

(** Registering one more storage node changes nothing of an object whose nodes are known. *)
Lemma object_info_registered (s s' : MetadataStore) o id n :
  all_registered s o → chunks s' = chunks s → storage_nodes s !! id = None →
  storage_nodes s' = <[id := n]> (storage_nodes s) →
  all_registered s' o ∧ object_info s' o = object_info s o.
Proof.
  intros Hall Hc Hfree Hn.
  assert (∀ i c x, i ∈ mo_chunks o → chunks s !! i = Some c → x ∈ mc_storage_nodes c →
    storage_nodes s' !! x = storage_nodes s !! x ∧ is_Some (storage_nodes s !! x)) as Hsame.
  { intros i c x Hi Hci Hx. unfold all_registered in Hall. rewrite list.Forall_forall in Hall.
    specialize (Hall i Hi c Hci). rewrite list.Forall_forall in Hall. specialize (Hall x Hx).
    split; [|done]. rewrite Hn. apply lookup_insert_ne. intros ->. rewrite Hfree in Hall.
    by destruct Hall. }
  split.
  - apply list.Forall_forall. intros i Hi c. rewrite Hc. intros Hci. apply list.Forall_forall.
    intros x Hx. destruct (Hsame i c x Hi Hci Hx) as [-> ?]. done.
  - unfold object_info. rewrite Hc. f_equal. clear Hall. induction (mo_chunks o) as [|i ids IH]; [done|].
    cbn [omap list_omap]. assert (∀ i' c x, i' ∈ ids → chunks s !! i' = Some c → x ∈ mc_storage_nodes c →
      storage_nodes s' !! x = storage_nodes s !! x ∧ is_Some (storage_nodes s !! x)) as Hids.
    { intros i' c x Hi'. apply Hsame. by right. }
    destruct (chunks s !! i) as [c|] eqn:Hci; [|by apply IH].
    rewrite !fmap_cons, (IH Hids). f_equal. unfold chunk_info. f_equal. unfold known_nodes.
    apply list_omap_ext, Forall_Forall2_diag, list.Forall_forall. intros x Hx.
    by destruct (Hsame i c x (list_elem_of_here _ _) Hci Hx) as [-> _].
Qed.

(** C23: A storage node that stops and starts again before the metadata node notices is back
    with all its chunks: every object that could be downloaded before can be downloaded
    again. It is registered a second time, under another id, and stays under the old one:
    the same machine is then two storage nodes to the metadata. *)
Theorem restarted_node_serves_again parsed e ip config a node id m1 g :
  load parsed e = Ok config → register_address ip config = a →
  w_nodes (gw_world g) !! a = Some node → allocated_slots config = Some (cs_total (store node)) →
  nodes_good (gw_world g) → ms_wf (meta (gw_world g)) → draws_u64 (meta (gw_world g)) →
  svc_put_storage_node a (w_meta (gw_world g)) = (Ok id, m1) →
  ∃ node' w', node_starts parsed e ip (cs_file (store node)) (node_stops a (gw_world g)) =
      (Serving a node', w') ∧
    abs (store node') = abs (store node) ∧
    storage_nodes (meta (gw_world g)) !! id = None ∧
    storage_nodes (meta w') = <[id := mkMetaStorageNode id a]> (storage_nodes (meta (gw_world g))) ∧
    ∀ name data, validate_object_name name = None → gw_ok name g → available (gw_world g) name data →
      ∃ g', handle_get_object name (set_gw_world w' g) = (Ok (b64_encode (concat data)), g').
Proof.
  intros Hl Ha Hup Hslots Hgood Hwf Hdr Hreg. pose proof (Hgood _ _ Hup) as Hg.
  destruct (node_starts_run parsed e ip config a (store node) (node_stops a (gw_world g)) id m1)
    as (node' & Hrun & Habs & Hg'); [done..|].
  destruct (register_run _ _ _ _ Hwf Hdr Hreg) as (Hwf1 & Hdr1 & Ho1 & Hc1 & Hfree & Hn1 & Hs1).
  eexists node', _. split_and!; [exact Hrun|exact Habs|exact Hfree|exact Hn1|].
  assert (∀ x, w_nodes (mkWorld m1 (<[a := node']> (w_nodes (node_stops a (gw_world g))))) !! x =
    <[a := node']> (w_nodes (gw_world g)) !! x) as Hns.
  { intros x. cbn. by rewrite insert_delete_eq. }
  intros name data Hv Hgw (o & Ho & Hall & Hf). apply get_available; [done| |].
  - destruct Hgw as [_ _ _ Hs Hconn]. split; cbn; [done|done| |by apply Hs1|done].
    intros x n. rewrite Hns. intros [[_ <-]|[_ Hx]]%lookup_insert_Some; [done|by eapply Hgood].
  - exists o. cbn [gw_world set_gw_world w_meta]. rewrite Ho1.
    destruct (object_info_registered _ _ o id _ Hall Hc1 Hfree Hn1) as [Hall' ->].
    split_and!; [done|done|]. eapply list.Forall2_impl; [exact Hf|].
    assert (∀ x, node_data (mkWorld m1 (<[a := node']> (w_nodes (node_stops a (gw_world g))))) x =
      node_data (gw_world g) x) as Hnd.
    { intros x. unfold node_data. rewrite Hns. destruct (decide (a = x)) as [<-|Hne].
      - by rewrite lookup_insert_eq, Hup.
      - by rewrite lookup_insert_ne. }
    intros info bytes [He Hfa]. unfold readable. split.
    + eapply list.Exists_impl; [exact He|]. intros x. cbn. by rewrite Hnd.
    + eapply list.Forall_impl; [exact Hfa|]. intros x Hx b. rewrite Hnd. apply Hx.
Qed.

(** C22: A storage node that is down during one turn of the health check loses its objects for
    good, though not one byte is lost: when it is back, with all its chunks, it has another
    id, and unless that happens to be the old one every object with a copy on it is
    answered [404]. *)
Theorem health_check_orphans_the_node parsed e ip config a node latency w1 i m1 name o id c x old g :
  load parsed e = Ok config → register_address ip config = a →
  w_nodes (gw_world g) !! a = Some node → allocated_slots config = Some (cs_total (store node)) →
  validate_object_name name = None → gw_ok name g →
  health_check_turn latency (node_stops a (gw_world g)) = (Ok (), w1) →
  svc_put_storage_node a (w_meta w1) = (Ok i, m1) →
  objects (meta (gw_world g)) !! name = Some o → id ∈ mo_chunks o →
  chunks (meta (gw_world g)) !! id = Some c → x ∈ mc_storage_nodes c →
  storage_nodes (meta (gw_world g)) !! x = Some old → sn_address old = a → i ≠ x →
  ∃ node' w', node_starts parsed e ip (cs_file (store node)) w1 = (Serving a node', w') ∧
    w_nodes w' !! a = Some node' ∧ abs (store node') = abs (store node) ∧
    ∃ g', handle_get_object name (set_gw_world w' g) = (Err NOT_FOUND, g').
Proof.
  intros Hl Ha Hup Hslots Hv Hgw Hcheck Hreg Ho Hid Hc Hx Hold Haddr Hne.
  set (g0 := set_gw_world (node_stops a (gw_world g)) g).
  assert (gw_ok name g0) as Hg0.
  { destruct Hgw as [Hwf Hdr Hgood Hs Hconn]. split; [done|done| |done|done].
    intros y n. cbn. intros [_ Hy]%lookup_delete_Some. by eapply Hgood. }
  destruct (health_check_turn_run latency (gw_world g0)) as (w1' & Hr & Hw1).
  assert (w1' = w1) as -> by (cbn in Hr; congruence).
  pose proof (after_check_ok latency name g0 w1 Hg0 Hw1) as Hg1.
  pose proof (gk_nodes _ _ Hgw _ _ Hup) as Hgood0.
  destruct (node_starts_run parsed e ip config a (store node) w1 i m1)
    as (node' & Hrun & Habs & Hg'); [done..|].
  destruct (register_run _ _ _ _ (gk_wf _ _ Hg1) (gk_draws _ _ Hg1) Hreg)
    as (Hwf2 & Hdr2 & Ho2 & Hc2 & Hfree & Hn2 & Hs2). cbn in Ho2, Hc2, Hfree, Hn2, Hs2.
  eexists node', _. split_and!; [exact Hrun|apply lookup_insert_eq|exact Habs|].
  apply (get_unregistered name o); [done| | |].
  - destruct Hg1 as [_ _ Hgood Hs Hconn]. split; cbn; [done|done| |by apply Hs2|done].
    intros y n. cbn. intros [[_ <-]|[_ Hy]]%lookup_insert_Some; [done|by eapply Hgood].
  - cbn. rewrite Ho2. by rewrite (ac_objects _ _ _ Hw1).
  - cbn. unfold all_registered. rewrite Hc2, (ac_chunks _ _ _ Hw1), list.Forall_forall.
    intros Hall. specialize (Hall id Hid c Hc). rewrite list.Forall_forall in Hall.
    specialize (Hall x Hx). rewrite Hn2, lookup_insert_ne in Hall by done. destruct Hall as [n Hn].
    apply (ac_known _ _ _ Hw1) in Hn as [Hn [Hlive _]]. cbn in Hn, Hlive.
    rewrite Hold in Hn. injection Hn as <-. rewrite Haddr, lookup_delete_eq in Hlive.
    by destruct Hlive.
Qed.

End gateway.

(** ** Witnesses *)

#[local] Existing Instance toy_deps.
#[local] Existing Instance toy_xxh3.
#[local] Existing Instance crc32_ieee.
#[local] Existing Instance toy_base64.
#[local] Existing Instance ascii_only.

(** One object of one chunk with a copy on two storage nodes. *)
Definition a_bytes : list byte := String.list_byte_of_string "hello".
Definition full_node : StorageNodeImpl :=
  mkNode (ChunkStore.put_chunk 21 a_bytes (new_store 2 default_options)).2 metrics_new.
Definition node_d : MetaStorageNode := mkMetaStorageNode 1 "http://d:3000".
Definition node_e : MetaStorageNode := mkMetaStorageNode 2 "http://e:3000".
Definition a_object : MetaObject := mkMetaObject "a" 0 [21] 0.
Definition a_chunk : MetaChunk := mkMetaChunk 21 "a" 0 [1; 2] Confirmed.
Definition copies_meta : MetaNode Network :=
  mkMetaNode (mkClusterServer
      (mkMetadataStore {["a" := a_object]} {[21 := a_chunk]} {[1 := node_d; 2 := node_e]}
        (mkDisk None None []) (mkRng [31; 32] [])) {[21 := "a"]})
    (mkClusterManager [(5, "m")] "m" "0.0.0.0:3001" ∅ ∅) true meta_metrics_new ∅.
Definition copies_gateway (ns : Nodes) : AppState World :=
  mkAppState gw_metrics_new ∅ (mkWorld copies_meta ns).
Definition only_e : AppState World := copies_gateway {["http://e:3000" := full_node]}.
Definition both_up : AppState World :=
  copies_gateway {["http://d:3000" := full_node; "http://e:3000" := full_node]}.

Lemma full_node_good : good (store full_node).
Proof. apply node_put_good; [by apply new_store_good|done|by vm_compute]. Qed.

Lemma copies_ok ns : (∀ a n, ns !! a = Some n → n = full_node) → gw_ok "a" (copies_gateway ns).
Proof.
  intros Hns. split; cbn.
  - split; cbn.
    + intros k o [<- <-]%lookup_singleton_Some. split; [done|apply NoDup_singleton].
    + intros k o id [<- <-]%lookup_singleton_Some ->%list_elem_of_singleton. by exists a_chunk.
    + intros id c [<- <-]%lookup_singleton_Some. split; [done|].
      split_and!; [apply (bool_decide_eq_true_1 _); reflexivity|done|done].
    + intros id n [[<- <-]|[_ [<- <-]%lookup_singleton_Some]]%lookup_insert_Some; done.
  - by repeat constructor.
  - intros a n Hn. cbn in Hn. apply Hns in Hn as ->. apply full_node_good.
  - right. unfold get_owner_addr, get_owner, owner_at. cbn. by destruct (_ <=? _).
  - intros a c. by rewrite lookup_empty.
Qed.

Lemma only_e_ok : gw_ok "a" only_e.
Proof. apply copies_ok. by intros a n [_ <-]%lookup_singleton_Some. Qed.
Lemma both_up_ok : gw_ok "a" both_up.
Proof.
  apply copies_ok. intros a n [[_ <-]|[_ [_ <-]%lookup_singleton_Some]]%lookup_insert_Some; done.
Qed.

Lemma a_registered : all_registered (meta (gw_world only_e)) a_object.
Proof.
  constructor; [|constructor]. intros c [= <-]. constructor; [by eexists|].
  constructor; [by eexists|constructor].
Qed.

Lemma only_e_available : available (gw_world only_e) "a" [a_bytes].
Proof.
  exists a_object. split_and!; [done|exact a_registered|]. constructor; [|constructor]. split.
  - apply Exists_cons_tl, Exists_cons_hd. vm_compute. reflexivity.
  - constructor; [by intros b; vm_compute|]. constructor; [|constructor].
    intros b. vm_compute. by intros [= <-].
Qed.

Lemma any_live_copy_suffices_witness :
  (∃ g', handle_get_object "a" only_e = (Ok (b64_encode (concat [a_bytes])), g')) ∧
  ∃ g', handle_get_object_stream "a" only_e = (Ok ([a_bytes], false), g').
Proof. apply (any_live_copy_suffices "a" [a_bytes] only_e eq_refl only_e_ok only_e_available). Defined.

Lemma health_check_hides_live_copies_witness :
  (∃ g', handle_get_object "a" only_e = (Ok (b64_encode (concat [a_bytes])), g')) ∧
  ∃ w', health_check_turn (λ _, 3) (gw_world only_e) = (Ok (), w') ∧
    ∃ g', handle_get_object "a" (set_gw_world w' only_e) = (Err NOT_FOUND, g').
Proof.
  apply (health_check_hides_live_copies (λ _, 3) "a" [a_bytes] a_object 21 a_chunk 1 node_d only_e
    eq_refl only_e_ok only_e_available).
  - reflexivity.
  - by left.
  - reflexivity.
  - by left.
  - reflexivity.
  - reflexivity.
Defined.

Definition d_config : StorageNodeConfig :=
  mkConfig ["m:3001"] 3000 9092 "chunkstore.dat" (Some 2) (Some 1) true false.
Definition d_loaded : StorageNodeConfig :=
  mkConfig ["http://m:3001"] 3000 9092 "chunkstore.dat" (Some 2) (Some 1) true false.

Definition both_registered := svc_put_storage_node "http://d:3000" (w_meta (gw_world both_up)).

Lemma restarted_node_serves_again_witness :
  ∃ node' w', node_starts (Some d_config) ∅ "d" (cs_file (store full_node))
      (node_stops "http://d:3000" (gw_world both_up)) = (Serving "http://d:3000" node', w') ∧
    storage_nodes (meta w') !! 1 = Some node_d ∧
    storage_nodes (meta w') !! 31 = Some (mkMetaStorageNode 31 "http://d:3000").
Proof.
  destruct (restarted_node_serves_again (Some d_config) ∅ "d" d_loaded "http://d:3000" full_node 31
    both_registered.2 both_up) as (node' & w' & Hr & _ & _ & Hn & _).
  - vm_compute. reflexivity.
  - vm_compute. reflexivity.
  - reflexivity.
  - reflexivity.
  - apply (gk_nodes _ _ both_up_ok).
  - apply (gk_wf _ _ both_up_ok).
  - apply (gk_draws _ _ both_up_ok).
  - unfold both_registered. apply run_answer. vm_compute. reflexivity.
  - exists node', w'. split; [exact Hr|]. rewrite Hn. by split.
Defined.

Definition c_registered := svc_put_storage_node "http://c:3000" (w_meta (gw_world both_up)).

Lemma failed_start_stays_registered_witness :
  ∃ w', node_starts (Some d_config) ∅ "c" (mkFile 0 ∅ ∅ [SysErr]) (gw_world both_up) =
      (NoStore Other, w') ∧
    storage_nodes (meta w') !! 31 = Some (mkMetaStorageNode 31 "http://c:3000") ∧
    w_nodes w' !! "http://c:3000" = None.
Proof.
  apply (failed_start_stays_registered (Some d_config) ∅ "c" d_loaded "http://c:3000"
    (mkFile 0 ∅ ∅ [SysErr]) [] (gw_world both_up) 31 c_registered.2).
  - vm_compute. reflexivity.
  - vm_compute. reflexivity.
  - apply (gk_wf _ _ both_up_ok).
  - apply (gk_draws _ _ both_up_ok).
  - reflexivity.
  - reflexivity.
  - unfold c_registered. apply run_answer. vm_compute. reflexivity.
Defined.

Definition checked_without_d : World :=
  (health_check_turn (λ _, 3) (node_stops "http://d:3000" (gw_world both_up))).2.

Lemma health_check_orphans_the_node_witness :
  ∃ node' w', node_starts (Some d_config) ∅ "d" (cs_file (store full_node)) checked_without_d =
      (Serving "http://d:3000" node', w') ∧
    w_nodes w' !! "http://d:3000" = Some node' ∧ abs (store node') = abs (store full_node) ∧
    ∃ g', handle_get_object "a" (set_gw_world w' both_up) = (Err NOT_FOUND, g').
Proof.
  apply (health_check_orphans_the_node (Some d_config) ∅ "d" d_loaded "http://d:3000" full_node
    (λ _, 3) checked_without_d 31
    (svc_put_storage_node "http://d:3000" (w_meta checked_without_d)).2
    "a" a_object 21 a_chunk 1 node_d both_up).
  - vm_compute. reflexivity.
  - vm_compute. reflexivity.
  - reflexivity.
  - reflexivity.
  - reflexivity.
  - exact both_up_ok.
  - unfold checked_without_d. apply run_answer. vm_compute. reflexivity.
  - apply run_answer. vm_compute. reflexivity.
  - reflexivity.
  - by left.
  - reflexivity.
  - by left.
  - reflexivity.
  - reflexivity.
  - done.
Defined.
