(* ===== verification/StartupTheorems.v ===== *)
(** * StartupTheorems: services that come up, and come back

    The connection loops as a fixed number of rounds over the addresses, a metadata node
    that starts from its saved state, and a storage node that restarts under a running
    system. *)

From S2P Require Import Prelude.
From S2P Require Import Bytes.
From S2P Require Import PosFile.
From S2P Require Import Crc32.
From S2P Require Import ChunkStore.
From S2P Require Import ChunkStoreFacts.
From S2P Require Import ChunkStoreSpec.
From S2P Require Import Grpc.
From S2P Require Import StorageNode.
From S2P Require Import NodeFacts.
From S2P Require Import NodeTheorems.
From S2P Require Import Str.
From S2P Require Import NodeConfig.
From S2P Require Import HashRing.
From S2P Require Import HashRingFacts.
From S2P Require Import MetadataStore.
From S2P Require Import MetadataStoreFacts.
From S2P Require Import HashRingTheorems.
From S2P Require Import MetadataStoreTheorems.
From S2P Require Import ChunkIndex.
From S2P Require Import ClusterService.
From S2P Require Import Cluster.
From S2P Require Import Forwarding.
From S2P Require Import MetadataService.
From S2P Require Import Network.
From S2P Require Import ClusterFacts.
From S2P Require Import RoutingFacts.
From S2P Require Import Startup.
From S2P Require Import Clients.
From S2P Require Import Gateway.
From S2P Require Import SystemFacts.
From S2P Require Import Samples.
From S2P Require Import SampleCluster.
From S2P Require Import SampleSystem.
Open Scope string_scope.
Open Scope list_scope.
Open Scope Z_scope.

(** ** The connection loops *)

Section connecting.
Context {W : Type}.
Implicit Types connect : string → W → bool * W.

(** [n] rounds over the addresses, one after the other. *)
Definition rounds (n : nat) (urls : list string) : list string := concat (replicate n urls).

Lemma try_urls_app connect l l' w :
  try_urls connect (l ++ l') w =
    match try_urls connect l w with
    | (Some url, w) => (Some url, w)
    | (None, w) => try_urls connect l' w
    end.
Proof.
  revert w. induction l as [|url l IH]; intros w; simpl; [done|].
  destruct (connect url w) as [[] w']; [done|apply IH].
Qed.

Lemma try_urls_in connect urls w url w' :
  try_urls connect urls w = (Some url, w') → url ∈ urls.
Proof.
  revert w. induction urls as [|u urls IH]; intros w; simpl; [done|].
  destruct (connect u w) as [[] w1]; [intros [= -> _]; by left|]. intros H. right. by eapply IH.
Qed.

Lemma gateway_connect_rounds connect urls k w sleeps :
  ∃ n, gateway_connect connect urls k w sleeps =
    (try_urls connect (rounds (S k) urls) w, (sleeps + n)%nat) ∧ (n ≤ k)%nat.
Proof.
  revert w sleeps. induction k as [|k IH]; intros w sleeps; cbn [gateway_connect].
  - exists 0%nat. unfold rounds. simpl. rewrite app_nil_r, Nat.add_0_r.
    by destruct (try_urls connect urls w) as [[url|] w'].
  - change (rounds (S (S k)) urls) with (urls ++ rounds (S k) urls). rewrite try_urls_app.
    destruct (try_urls connect urls w) as [[url|] w'].
    + exists 0%nat. rewrite Nat.add_0_r. split; [done|lia].
    + destruct (IH w' (S sleeps)) as (n & -> & Hn). exists (S n).
      rewrite Nat.add_succ_r. split; [done|lia].
Qed.

(** One turn of a loop. *)
Lemma replication_connect_step connect urls k w attempts sleeps :
  replication_connect (S k) connect urls attempts w sleeps =
  match try_urls connect urls w with
  | (Some url, w) => (Some url, w, sleeps)
  | (None, w) => if 5 <=? attempts + 1 then (None, w, sleeps)
                 else replication_connect k connect urls (attempts + 1) w (S sleeps)
  end.
Proof. done. Qed.
Lemma node_connect_step tconnect urls k (w : W) attempts sleeps :
  node_connect (S k) tconnect urls attempts w sleeps =
  match try_urls (timed_connect 10000 tconnect) urls w with
  | (Some url, w) => (Some url, w, sleeps)
  | (None, w) => if 5 <=? attempts then (None, w, sleeps)
                 else node_connect k tconnect urls (attempts + 1) w (S sleeps)
  end.
Proof. done. Qed.

Lemma replication_connect_rounds connect urls k w attempts sleeps :
  attempts + Z.of_nat k = 4 →
  ∃ n, replication_connect (S k) connect urls attempts w sleeps =
    (try_urls connect (rounds (S k) urls) w, (sleeps + n)%nat) ∧ (n ≤ k)%nat.
Proof.
  revert w attempts sleeps. induction k as [|k IH]; intros w attempts sleeps Ha.
  - exists 0%nat. unfold rounds. simpl. rewrite app_nil_r, Nat.add_0_r.
    rewrite (proj2 (Z.leb_le _ _)) by lia.
    by destruct (try_urls connect urls w) as [[url|] w'].
  - change (rounds (S (S k)) urls) with (urls ++ rounds (S k) urls). rewrite try_urls_app.
    rewrite replication_connect_step.
    destruct (try_urls connect urls w) as [[url|] w'].
    + exists 0%nat. rewrite Nat.add_0_r. split; [done|lia].
    + rewrite (proj2 (Z.leb_gt _ _)) by lia.
      destruct (IH w' (attempts + 1) (S sleeps)) as (n & -> & Hn); [lia|]. exists (S n).
      rewrite Nat.add_succ_r. split; [done|lia].
Qed.

Lemma node_connect_rounds tconnect urls k (w : W) attempts sleeps :
  attempts + Z.of_nat k = 5 →
  ∃ n, node_connect (S k) tconnect urls attempts w sleeps =
    (try_urls (timed_connect 10000 tconnect) (rounds (S k) urls) w, (sleeps + n)%nat) ∧ (n ≤ k)%nat.
Proof.
  revert w attempts sleeps. induction k as [|k IH]; intros w attempts sleeps Ha.
  - exists 0%nat. unfold rounds. simpl. rewrite app_nil_r, Nat.add_0_r.
    rewrite (proj2 (Z.leb_le _ _)) by lia.
    by destruct (try_urls _ urls w) as [[url|] w'].
  - change (rounds (S (S k)) urls) with (urls ++ rounds (S k) urls). rewrite try_urls_app.
    rewrite node_connect_step.
    destruct (try_urls _ urls w) as [[url|] w'].
    + exists 0%nat. rewrite Nat.add_0_r. split; [done|lia].
    + rewrite (proj2 (Z.leb_gt _ _)) by lia.
      destruct (IH w' (attempts + 1) (S sleeps)) as (n & -> & Hn); [lia|]. exists (S n).
      rewrite Nat.add_succ_r. split; [done|lia].
Qed.

(** C33: Looking for a metadata node always ends: the gateway and a storage node make six
    rounds over their addresses, in order, and the replication service five; each takes
    the first address that connects and gives up after the last round, having slept at
    most between rounds. *)
Theorem services_connect_within_rounds connect tconnect e config (w : W) :
  (∃ n, app_connect connect e w = (try_urls connect (rounds 6 (gateway_urls e)) w, n) ∧
    (n ≤ 5)%nat) ∧
  (∃ n, replication_connect 5 connect (replication_urls e) 0 w 0 =
    (try_urls connect (rounds 5 (replication_urls e)) w, n) ∧ (n ≤ 4)%nat) ∧
  (∃ n, node_connect 6 tconnect (metadata_addresses config) 0 w 0 =
    (try_urls (timed_connect 10000 tconnect) (rounds 6 (metadata_addresses config)) w, n) ∧
    (n ≤ 5)%nat).
Proof.
  split_and!.
  - by apply gateway_connect_rounds.
  - by apply replication_connect_rounds.
  - by apply node_connect_rounds.
Qed.

End connecting.

(** ** A metadata node *)

Section metadata.
Context `{MetaDeps} `{Xxh3}.

(** The objects and chunks of a saved state make a well-formed store. *)
Definition state_wf (st : PersistentState) : Prop :=
  ms_wf (mkMetadataStore (ps_objects st) (ps_chunks st) ∅ (mkDisk None None []) (mkRng [] [])).

(** In a ring with one member every key is that member's. *)
Lemma single_owner id grpc_port key owner :
  get_owner (cm_ring (cluster_new id grpc_port)) key = Some owner → owner = id.
Proof.
  intros Ho. unfold get_owner in Ho. apply owner_at_sound in Ho as (k & Hk & _).
  - apply add_node_elem in Hk as [[_ ->]|[_ Hk]]; [done| |apply ring_wf_nil].
    by apply not_elem_of_nil in Hk.
  - apply add_node_wf, ring_wf_nil.
  - apply xxh3_64_u64.
Qed.

Lemma covered_index s idx :
  ms_wf s → index_covers (mkClusterServer s (populate_from_chunks (chunks s) idx)).
Proof.
  intros Hwf k o id Ho Hi. cbn in *. destruct (mw_listed _ Hwf k o id Ho Hi) as (c & Hc & Hn & _).
  rewrite populate_lookup, Hc. by rewrite Hn.
Qed.

(** C32: A metadata node that starts on a saved state comes up with its objects and chunks, an
    index that has every chunk of them, no storage node, and, until it learns of others,
    as the owner of every object; what it requires of its store from then on holds. *)
Theorem metadata_main_recovers hostname e rng (w : Network) st json :
  json_to_string st = Some json → json ≠ "" → (∀ st, is_Some (json_to_string st)) →
  state_wf st →
  ∃ n d, metadata_main hostname e true rng (mkDisk (Some json) None []) w = (Ok n, d) ∧
    objects (sv_store (mn_server n)) = ps_objects st ∧
    chunks (sv_store (mn_server n)) = ps_chunks st ∧
    storage_nodes (sv_store (mn_server n)) = ∅ ∧
    mn_forwarding n = true ∧ server_ok (mn_server n) ∧ ∀ name, serves_itself n name.
Proof.
  intros Hj Hne Hjs [Ho Hl Hc _]. unfold metadata_main, MetadataService.construct.
  assert (∃ d, store_new rng (mkDisk (Some json) None []) =
    (Ok (mkMetadataStore (ps_objects st) (ps_chunks st) ∅ d rng), d) ∧ dk_script d = [])
    as (d & -> & Hd).
  { unfold store_new. cbn [dk_main]. run_st. unfold fs_call. cbn.
    rewrite !decide_False by done. cbn. rewrite (json_roundtrip _ _ Hj). by eexists. }
  eexists _, d. split; [done|]. cbn. split_and!; [done..| |].
  - assert (ms_wf (mkMetadataStore (ps_objects st) (ps_chunks st) ∅ d rng)) as Hwf.
    { split; [exact Ho|exact Hl|exact Hc|]. intros id n. cbn. by rewrite lookup_empty. }
    split; [done|by apply covered_index|by split].
  - intros name. right. unfold get_owner_addr. cbn.
    destruct (get_owner _ name) as [owner|] eqn:How; [|done].
    apply (single_owner _ 0) in How as ->. by rewrite decide_True.
Qed.

End metadata.

(** ** The replication service *)

(** The service panics at its start for exactly one setting: an interval of zero seconds
    that parses. *)
Theorem zero_interval_panics e :
  replication_interval (replication_settings e) = Panic ↔
  env_parse e "REPLICATION_INTERVAL_SECS" (parse_unsigned u64_max) = Some 0.
Proof.
  unfold replication_interval, replication_settings. cbn [rs_interval_secs].
  destruct (env_parse e "REPLICATION_INTERVAL_SECS" _) as [n|]; [|done]. simpl.
  destruct (Z.eqb_spec n 0) as [->|Hne]; [done|]. split; [done|]. by intros [= ->].
Qed.

Example zero_interval :
  replication_interval (replication_settings {["REPLICATION_INTERVAL_SECS" := "0"]}) = Panic.
Proof. reflexivity. Qed.

(** ** Witnesses *)

#[local] Existing Instance toy_deps.
#[local] Existing Instance toy_xxh3.

Definition photo_state : PersistentState :=
  persistent (sv_store (mn_server node_b)).
Definition photo_json : string := default "" (json_to_string photo_state).

Lemma metadata_main_recovers_witness :
  ∃ n d, metadata_main "c" ∅ true (mkRng [] []) (mkDisk (Some photo_json) None []) (∅ : Network) =
      (Ok n, d) ∧
    objects (sv_store (mn_server n)) = ps_objects photo_state ∧
    chunks (sv_store (mn_server n)) = ps_chunks photo_state ∧
    storage_nodes (sv_store (mn_server n)) = ∅ ∧
    mn_forwarding n = true ∧ server_ok (mn_server n) ∧ ∀ name, serves_itself n name.
Proof.
  apply (metadata_main_recovers "c" ∅ (mkRng [] []) ∅ photo_state photo_json).
  - done.
  - done.
  - intros st. by eexists.
  - destruct store_b_wf as [Ho Hl Hc _]. split; [exact Ho|exact Hl|exact Hc|].
    intros id n. cbn. by rewrite lookup_empty.
Defined.
