(* ===== verification/ClusterLife.v ===== *)
(** * ClusterLife: metadata nodes that start, join, serve and restart

    [ClusterRun] with the rest of what happens to a cluster: a node that starts, on an
    empty disk or on its own (storage-metadata/src/main.rs [main]), and one that pulls its
    ranges from the others and announces its index (migration.rs). *)

From S2P Require Import Prelude.
From S2P Require Import Str.
From S2P Require Import Grpc.
From S2P Require Import HashRing.
From S2P Require Import MetadataStore.
From S2P Require Import MetadataStoreFacts.
From S2P Require Import MetadataStoreTheorems.
From S2P Require Import ChunkIndex.
From S2P Require Import ClusterService.
From S2P Require Import Cluster.
From S2P Require Import Forwarding.
From S2P Require Import MetadataService.
From S2P Require Import Migration.
From S2P Require Import Network.
From S2P Require Import ClusterFacts.
From S2P Require Import RoutingFacts.
From S2P Require Import PublicService.
From S2P Require Import PublicFacts.
From S2P Require Import ClusterRun.
From S2P Require Import Sharding.
From S2P Require Import Knowledge.
From S2P Require Import MigrationTheorems.
From S2P Require Import Startup.
From S2P Require Import StartupTheorems.
Open Scope string_scope.
Open Scope list_scope.
Open Scope Z_scope.

Section life.
Context `{MetaDeps} `{Xxh3}.

Definition node_draws (n : MetaNode unit) : list Z := rng_draws (ms_rng (sv_store (mn_server n))).
Definition node_knows (n : MetaNode unit) : Z → string → Prop := knows (mn_server n).

(** A chunk is confirmed under an id that is not another object's: the id that
    [allocate_chunk] gave out for it, as the gateway does. *)
Definition honest (C : Cluster) (req : MetaRequest) : Prop :=
  match req with
  | ConfirmChunk id name _ _ =>
      ∀ e n, C !! e = Some n → (id ∉ node_draws n) ∧ ∀ k, node_knows n id k → k = name
  | _ => True
  end.

(** The random ids that a node will draw are nobody else's. *)
Definition new_draws (C : Cluster) (e : string) (rng : Rng) : Prop :=
  NoDup (rng_draws rng) ∧ ∀ id, id ∈ rng_draws rng →
    ∀ x n, C !! x = Some n → (∀ k, ¬ (node_knows n id k)) ∧ (x ≠ e → id ∉ node_draws n).

(** The disk of the node at [e], an empty one when it is new. *)
Definition disk_at (C : Cluster) (e : string) : Disk :=
  match C !! e with Some n => ms_disk (sv_store (mn_server n)) | None => mkDisk None None [] end.

Inductive life_step (C : Cluster) : Cluster → Prop :=
  | life_request e up req r C' :
      honest C req → at_node e up (handle req) C = Some (r, C') → life_step C C'
  | life_health e results r C' :
      at_node e ∅ (health_check_round results) C = Some (r, C') → life_step C C'
  | life_tick e live n :
      C !! e = Some n →
      life_step C (<[e := mkMetaNode (mn_server n) (membership_tick live (mn_cluster n))
        (mn_forwarding n) (mn_metrics n) ()]> C)
  | life_join e up clustered r C' :
      at_node e up (migrate_on_join clustered) C = Some (r, C') → life_step C C'
  | life_start e hostname vars rng n d :
      new_draws C e rng → metadata_main hostname vars true rng (disk_at C e) () = (Ok n, d) →
      life_step C (<[e := n]> C).

(** ** One node *)

(** What the file holds makes a well-formed store. *)
Definition file_ok (s : MetadataStore) : Prop :=
  ∀ contents st, dk_main (ms_disk s) = Some contents → json_from_str contents = Some st →
    state_wf st.

Record node_ok (c : ClusterServer) : Prop := mkNodeOk {
  no_server : server_ok c;
  no_file : file_ok (sv_store c);
}.

Abbreviation draws c := (rng_draws (ms_rng (sv_store c))).

(** From [c] to [c'] a node learns of chunks it draws, or as [conf] allows. *)
Definition learns (conf : Z → string → Prop) (c c' : ClusterServer) : Prop :=
  (∃ l, draws c = l ++ draws c') ∧ ∃ fresh : gmap Z string,
    (∀ id k, fresh !! id = Some k → id ∈ draws c ∧ id ∉ draws c') ∧
    ∀ id k, knows c' id k → knows c id k ∨ conf id k ∨ fresh !! id = Some k.

Lemma learns_refl conf c : learns conf c c.
Proof. split; [by exists []|]. exists ∅. by split; [|auto]. Qed.

Lemma learns_trans conf a b c :
  NoDup (draws a) → learns conf a b → learns conf b c → learns conf a c.
Proof.
  intros Hnd ([l1 Hl1] & f1 & Hf1 & Hk1) ([l2 Hl2] & f2 & Hf2 & Hk2).
  split; [exists (l1 ++ l2); by rewrite <-app_assoc, <-Hl2|]. exists (f1 ∪ f2). split.
  - intros id k [Hf|[_ Hf]]%lookup_union_Some_raw.
    + destruct (Hf1 _ _ Hf) as [? Hn]. split; [done|]. rewrite Hl2 in Hn. set_solver.
    + destruct (Hf2 _ _ Hf) as [Hb ?]. split; [|done]. rewrite Hl1. set_solver.
  - intros id k Hk. destruct (Hk2 _ _ Hk) as [Hb|[Hc|Hf]]; [|by auto|].
    + destruct (Hk1 _ _ Hb) as [|[|Hf]]; [by auto..|]. right. right.
      apply lookup_union_Some_raw. by left.
    + right. right. apply lookup_union_Some_raw. right. split; [|done].
      destruct (f1 !! id) as [k'|] eqn:Hf'; [|done]. destruct (Hf1 _ _ Hf') as [_ Hn].
      by destruct (Hf2 _ _ Hf) as [? _].
Qed.

Lemma nodup_suffix conf c c' : NoDup (draws c) → learns conf c c' → NoDup (draws c').
Proof. intros Hnd [[l Hl] _]. rewrite Hl in Hnd. by apply list.NoDup_app in Hnd as (_ & _ & ?). Qed.

(** A store operation that the index follows. *)
Lemma step_learns conf c c' :
  NoDup (draws c) → store_step conf (sv_store c) (sv_store c') →
  (∀ id k, sv_index c' !! id = Some k → sv_index c !! id = Some k ∨ stored_as (sv_store c') id k) →
  learns conf c c'.
Proof.
  intros Hnd [Hl (fresh & Hf & Hc) Hd] Hi. split; [done|]. exists fresh. split.
  - intros id k Hid. destruct (Hf _ _ Hid) as (l1 & l2 & Hdr). rewrite Hdr. split; [set_solver|].
    rewrite Hdr in Hnd. apply list.NoDup_app in Hnd as (_ & _ & Hnd).
    apply list.NoDup_cons in Hnd as [Hn _]. set_solver.
  - assert (∀ id k, stored_as (sv_store c') id k →
      knows c id k ∨ conf id k ∨ fresh !! id = Some k) as Hs.
    { intros id k [?|[?|?]]%Hc; [by left; left|by auto..]. }
    intros id k [Hk|[(contents & st & ch & Hm & Hj & Hch & Hn)|Hk]]; [by apply Hs| |].
    + destruct Hd as [Hd|Hd]; rewrite Hd in Hm.
      * left. right. left. by exists contents, st, ch.
      * apply Hs. apply json_roundtrip in Hm. rewrite Hm in Hj. injection Hj as <-. by exists ch.
    + destruct (Hi _ _ Hk) as [?|?]; [by left; right; right|by apply Hs].
Qed.

Lemma step_file_ok conf s s' : store_step conf s s' → ms_wf s' → file_ok s → file_ok s'.
Proof.
  intros [_ _ [Hd|Hd]] Hwf Hf contents st; rewrite Hd; [apply Hf|].
  intros Hj%json_roundtrip. rewrite Hj. intros [= <-].
  destruct Hwf as [H1 H2 H3 H4]. split; [exact H1|exact H2|exact H3|].
  intros id n. cbn. by rewrite lookup_empty.
Qed.

Definition peer_confirms (p : PeerRequest) (id : Z) (k : string) : Prop :=
  match op_of p with Some o => op_confirms o id k | None => False end.
Definition confirms (req : MetaRequest) (id : Z) (k : string) : Prop :=
  match req with ConfirmChunk i name _ _ => id = i ∧ k = name | _ => False end.

Lemma peer_request_confirms req p id k :
  peer_request req = Some p → peer_confirms p id k → confirms req id k.
Proof. by destruct req; intros [= <-]. Qed.

Lemma served_step p c :
  store_step (peer_confirms p) (sv_store c) (sv_store (served_by p c)).
Proof.
  rewrite served_op. unfold peer_confirms. destruct (op_of p); [apply run_ms_op_step|apply step_refl].
Qed.

Lemma served_learns p c :
  own_request p → NoDup (draws c) → learns (peer_confirms p) c (served_by p c).
Proof.
  intros Hp Hnd. apply step_learns; [done|apply served_step|]. intros id k. by apply served_index.
Qed.

Lemma served_node_ok p c : own_request p → node_ok c → node_ok (served_by p c).
Proof.
  intros Hp [Hs Hf]. assert (server_ok (served_by p c)) by by apply served_ok.
  split; [done|]. by eapply step_file_ok; [apply served_step|apply so_wf|].
Qed.

Lemma learns_weaken (conf conf' : Z → string → Prop) c c' :
  (∀ id k, conf id k → conf' id k) → learns conf c c' → learns conf' c c'.
Proof. intros Hc (Hl & f & Hf & Hk). split; [done|]. exists f. split; [done|]. naive_solver. Qed.

(** What a request does to a node's knowledge. *)
Lemma change_learns req c c' :
  server_change req c c' → node_ok c → NoDup (draws c) →
  node_ok c' ∧ learns (confirms req) c c'.
Proof.
  assert (∀ p c, peer_request req = Some p → node_ok c → NoDup (draws c) →
    node_ok (served_by p c) ∧ learns (confirms req) c (served_by p c)) as Hserved.
  { intros p c0 Hp Hc Hnd. assert (own_request p) by by eapply peer_request_own.
    split; [by apply served_node_ok|]. eapply learns_weaken, served_learns; [|done..].
    intros id k. by apply peer_request_confirms. }
  intros [->|[->|(p & k & Hp & ->)]] Hc Hnd; [by split; [|apply learns_refl]| |].
  - destruct (peer_request req) as [p|] eqn:Hp.
    + assert (own_effect req c = served_by p c) as -> by (destruct req; by simplify_eq/=). by apply Hserved.
    + destruct req; try done; [by split; [|apply learns_refl]..|].
      assert (server_ok (own_effect (UpdateObjectChecksum object_name checksum total_size) c)) as Hok
        by apply own_effect_ok, Hc.
      pose proof (run_ms_op_step (MUpdateChecksum object_name checksum total_size) (sv_store c)) as Hs.
      split; [split; [done|by eapply step_file_ok; [exact Hs|apply so_wf in Hok; exact Hok|apply Hc]]|].
      apply step_learns; [done|exact Hs|by left].
  - induction k as [|k [IHok IHl]]; [by split; [|apply learns_refl]|]. cbn [Nat.iter].
    destruct (Hserved p _ Hp IHok (nodup_suffix _ _ _ Hnd IHl)) as [Hok Hl].
    split; [done|]. by eapply learns_trans.
Qed.

(** ** Taking in a partition *)

(** [c] is in order and knows nothing but what [K] says. *)
Definition within (K : Z → string → Prop) (c : ClusterServer) : Prop :=
  node_ok c ∧ ∀ id k, knows c id k → K id k.

Section take_in.
Context (K : Z → string → Prop) (Kfun : ∀ id k k', K id k → K id k' → k = k').

Lemma bulk_insert_cases es (idx : ChunkIndex) id k :
  bulk_insert es idx !! id = Some k → (id, k) ∈ es ∨ idx !! id = Some k.
Proof.
  rewrite bulk_insert_lookup. destruct (list.last _) as [[i n]|] eqn:Hl; [|by right].
  apply last_Some_elem_of, list_elem_of_In, filter_In in Hl as [Hl%list_elem_of_In He].
  apply Z.eqb_eq in He. simpl in He. subst i. intros [= <-]. by left.
Qed.

Lemma bulk_insert_some es (idx : ChunkIndex) id :
  is_Some (idx !! id) → is_Some (bulk_insert es idx !! id).
Proof. rewrite bulk_insert_lookup. destruct (list.last _) as [[]|]; [by eexists|done]. Qed.

(** Entries that [K] knows of leave the entry of every listed chunk right. *)
Lemma bulk_insert_keeps es (idx : ChunkIndex) id k :
  (∀ i n, (i, n) ∈ es → K i n) → (∀ n, idx !! id = Some n → K id n) → K id k →
  idx !! id = Some k → bulk_insert es idx !! id = Some k.
Proof.
  intros He Hi Hk Hidx. destruct (bulk_insert_some es idx id) as [n Hn]; [by eexists|].
  rewrite Hn. f_equal. apply (Kfun id); [|done].
  destruct (bulk_insert_cases _ _ _ _ Hn) as [Hin|Hin]; [by eapply He|by apply Hi].
Qed.

Lemma foldl_insert_cases {B A} `{Countable B} (key : A → B) l (m : gmap B A) k x :
  foldl (λ m x, <[key x := x]> m) m l !! k = Some x →
  (x ∈ l ∧ key x = k) ∨ (m !! k = Some x ∧ k ∉ key <$> l).
Proof.
  revert m. induction l as [|y l IH]; intros m; simpl; [right; split; [done|set_solver]|].
  intros [[Hx Hk]|[Hx Hk]]%IH; [left; split; [by right|done]|].
  apply lookup_insert_Some in Hx as [[Hy ->]|[Hne Hx]]; [left; split; [by left|done]|].
  right. split; [done|]. apply not_elem_of_cons. done.
Qed.

Lemma foldl_insert_some {B A} `{Countable B} (key : A → B) l (m : gmap B A) k :
  is_Some (m !! k) → is_Some (foldl (λ m x, <[key x := x]> m) m l !! k).
Proof.
  revert m. induction l as [|y l IH]; intros m Hm; [done|]. simpl. apply IH.
  rewrite lookup_insert. by case_decide.
Qed.

(** A broadcast of index entries, received. *)
Lemma index_update_within es c :
  (∀ i n, (i, n) ∈ es → K i n) → within K c → within K (served_by (BroadcastChunkIndex es) c).
Proof.
  intros He [[[Hwf Hi Hc] Hf] Hk]. split; [split; [split|]|]; try done.
  - intros k o id Ho Hid. cbn. destruct (mw_listed _ Hwf _ _ _ Ho Hid) as (ch & Hch & Hn & _).
    apply bulk_insert_keeps; [done| | |by eapply Hi].
    + intros n Hn'. apply Hk. by right; right.
    + apply Hk. left. by exists ch.
  - intros id k [Hs|[Hs|Hs]]; [apply Hk; by left|apply Hk; by right; left|].
    cbn in Hs. apply bulk_insert_cases in Hs as [Hs|Hs]; [by eapply He|apply Hk; by right; right].
Qed.

Lemma sent_known ranges src p c :
  within K src → p ∈ objects_in_hash_ranges ranges (sv_store src) → c ∈ p.2 →
  K (mc_id c) (mc_object_name c).
Proof.
  intros [[[Hwf _ _] _] Hk] Hp Hc. destruct (elem_of_sent_chunks _ _ _ _ Hwf Hp Hc) as (Hl & _).
  apply Hk. left. by exists c.
Qed.

(** The store after a partition of [src] was taken in. *)
Lemma ingest_wf ranges src c (s := sv_store c)
    (es := partition_entries (objects_in_hash_ranges ranges (sv_store src)))
    (s' := set_chunks (foldl (λ m c, <[mc_id c := c]> m) (chunks s) (omap received_chunk es))
       (set_objects (foldl (λ m obj, <[mo_name obj := obj]> m) (objects s) (omap received_object es)) s)) :
  within K src → within K c → ms_wf s'.
Proof.
  intros Hsrc [[[Hwf Hi Hc] _] Hk]. pose proof Hsrc as [[[Hswf _ _] _] _].
  destruct (ingest_stream ranges _ (objects s) (chunks s) (sv_index c) Hswf) as [Hin _].
  assert (∀ id ch, chunks s' !! id = Some ch →
    (mc_id ch = id ∧ chunks (sv_store src) !! id = Some ch ∧ mc_status ch = Confirmed) ∨
    chunks s !! id = Some ch ∧ id ∉ mc_id <$> omap received_chunk es) as Hchunk.
  { intros id ch [[(p & c0 & Hp & Hc0 & ->)%elem_of_received_chunks <-]|?]%foldl_insert_cases; [left|by right].
    destruct (elem_of_sent_chunks _ _ _ _ Hswf Hp Hc0) as (Hl & _ & Hcf & _).
    rewrite Hcf in *. split_and!; [done|done|]. by rewrite <-Hcf. }
  assert (∀ k o, objects s' !! k = Some o →
    (∃ o0, objects (sv_store src) !! k = Some o0 ∧ hash_in_ranges (hash_key k) ranges = true ∧
      o = as_received o0) ∨ objects s !! k = Some o) as Hobj.
  { intros k o [[(p & Hp & ->)%elem_of_received_objects <-]|[? _]]%foldl_insert_cases; [left|by right].
    destruct p as [o0 l]. apply elem_of_in_ranges in Hp as (Ho & Hh & _); [|done]. by exists o0. }
  split.
  - intros k o [(o0 & Ho & _ & ->)|Ho]%Hobj; by eapply mw_object in Ho.
  - intros k o id [(o0 & Ho & Hh & ->)|Ho]%Hobj Hid.
    + destruct (Hin _ _ Ho Hh) as [_ Hch]. destruct (Hch id Hid) as [Hc' _].
      change (chunks s' !! id = chunks (sv_store src) !! id) in Hc'. unfold chunk_of. rewrite Hc'.
      by eapply mw_listed.
    + destruct (mw_listed _ Hwf _ _ _ Ho Hid) as (ch & Hch & Hn & Hst).
      destruct (foldl_insert_some mc_id (omap received_chunk es) (chunks s) id) as [ch' Hch'];
        [by eexists|]. change (chunks s' !! id = Some ch') in Hch'. exists ch'. split; [done|]. destruct (Hchunk _ _ Hch') as [(_ & Hs & Hst')|[Hs _]].
      * split; [|done]. apply (Kfun id); [apply Hsrc; left; by exists ch'|apply Hk; left; by exists ch].
      * pose proof (eq_trans (eq_sym Hch) Hs) as Heq. by injection Heq as <-.
  - intros id ch [(_ & Hs & _)|[Hs _]]%Hchunk; by eapply mw_chunk in Hs.
  - intros id n. cbn. apply (mw_node _ Hwf).
Qed.

Lemma take_in_within ranges src c d (s := sv_store c)
    (es := partition_entries (objects_in_hash_ranges ranges (sv_store src)))
    (s' := set_chunks (foldl (λ m c, <[mc_id c := c]> m) (chunks s) (omap received_chunk es))
       (set_objects (foldl (λ m obj, <[mo_name obj := obj]> m) (objects s) (omap received_object es)) s)) :
  within K src → within K c → dk_script d = [] → dk_main d = json_to_string (persistent s') →
  within K (mkClusterServer (set_disk d s') (bulk_insert (omap received_index_entry es) (sv_index c))).
Proof.
  intros Hsrc Hin Hd Hm. pose proof (ingest_wf ranges src c Hsrc Hin) as Hwf. fold s es s' in Hwf.
  pose proof Hsrc as [[[Hswf _ _] _] _]. destruct Hin as [[[Hcwf Hi [_ Hj]] _] Hk].
  assert (∀ i n, (i, n) ∈ omap received_index_entry es → K i n) as Hes.
  { intros i n (p & ch & Hp & Hch & -> & ->)%elem_of_received_index. by eapply sent_known. }
  assert (∀ id k, stored_as s' id k → K id k) as Hst.
  { intros id k (ch & Hch & <-). cbn in Hch.
    apply foldl_insert_cases in Hch as [[(p & c0 & Hp & Hc0 & ->)%elem_of_received_chunks <-]|[Hch _]].
    - by eapply (sent_known ranges src p c0).
    - apply Hk. left. by exists ch. }
  split; [split; [split|]|].
  - by apply ms_wf_disk.
  - intros k o id Ho Hid. cbn in *.
    assert (K id k) as HK.
    { destruct (mw_listed _ Hwf k o id Ho Hid) as (ch & Hch & Hn & _). apply Hst. by exists ch. }
    apply foldl_insert_cases in Ho as [[(p & Hp & ->)%elem_of_received_objects <-]|[Ho _]].
    + destruct p as [o0 l]. apply elem_of_in_ranges in Hp as (Ho & Hh & _); [|done].
      destruct (ingest_stream ranges _ (objects s) (chunks s) (sv_index c) Hswf) as [Hins _].
      destruct (Hins _ _ Ho Hh) as [_ Hch]. by apply (Hch id Hid).
    + apply bulk_insert_keeps; [done| |done|by eapply Hi]. intros n Hn. apply Hk. by right; right.
  - by split.
  - intros contents st. cbn. rewrite Hm. intros Hc%json_roundtrip. rewrite Hc. intros [= <-].
    destruct Hwf as [H1 H2 H3 _]. split; [exact H1|exact H2|exact H3|].
    intros id n. cbn. by rewrite lookup_empty.
  - intros id k [Hs|[(contents & st & ch & Hmn & Hc & Hch & Hn)|Hs]]; [by apply Hst| |].
    + cbn in Hmn. rewrite Hm in Hmn. apply json_roundtrip in Hmn. rewrite Hmn in Hc.
      injection Hc as <-. apply Hst. by exists ch.
    + cbn in Hs. apply bulk_insert_cases in Hs as [Hs|Hs]; [by apply Hes|]. apply Hk. by right; right.
Qed.

(** ** Migration on a node with its network *)

Definition world_ok (n : MetaNode Network) : Prop :=
  within K (mn_server n) ∧ ∀ e c, mn_world n !! e = Some c → within K c.
Definition same_ids (n n' : MetaNode Network) : Prop :=
  draws (mn_server n') = draws (mn_server n) ∧
  ∀ e c', mn_world n' !! e = Some c' → ∃ c, mn_world n !! e = Some c ∧ draws c' = draws c.

#[local] Instance same_ids_refl : Reflexive same_ids.
Proof. intros n. split; [done|]. intros e c Hc. by exists c. Qed.
#[local] Instance same_ids_trans : Transitive same_ids.
Proof.
  intros a b c [H1 H2] [H3 H4]. split; [congruence|]. intros e x Hx.
  destruct (H4 _ _ Hx) as (y & Hy & Hxy). destruct (H2 _ _ Hy) as (z & Hz & ?). exists z.
  split; [done|congruence].
Qed.

(** [m] keeps all that in order, draws no id, and returns what satisfies [Q]. *)
Definition tame {A} (m : @MN Network A) (Q : A → Prop) : Prop :=
  ∀ n r n', world_ok n → m n = (r, n') →
    world_ok n' ∧ same_ids n n' ∧ ∀ a, r = Ok a → Q a.

Lemma tame_ret {A} (a : A) (Q : A → Prop) : Q a → tame (mret a) Q.
Proof. intros Ha n r n' Hn. run_st. intros [= <- <-]. split_and!; [done|done|]. by intros ? [= <-]. Qed.
Lemma tame_bind {A B} (m : @MN Network A) (k : A → @MN Network B) P Q :
  tame m P → (∀ a, P a → tame (k a) Q) → tame (m ≫= k) Q.
Proof.
  intros Hm Hk n r n' Hn. cbv [mbind ST_bind]. destruct (m n) as [r1 n1] eqn:Hr.
  destruct (Hm _ _ _ Hn Hr) as (Hn1 & Hs1 & HP).
  destruct r1 as [a|e|]; [|by intros [= <- <-]; split_and!..]. intros Hk1.
  destruct (Hk a (HP a eq_refl) _ _ _ Hn1 Hk1) as (Hn2 & Hs2 & HQ).
  split_and!; [done|by trans n1|done].
Qed.
Lemma tame_attempt {A} (m : @MN Network A) Q :
  tame m Q → tame (@attempt _ Code Code _ m) (λ _, True).
Proof.
  intros Hm n r n' Hn. unfold attempt. destruct (m n) as [r1 n1] eqn:Hr.
  destruct (Hm _ _ _ Hn Hr) as (? & ? & _). destruct r1; intros [= <- <-]; by split_and!.
Qed.
Lemma tame_gets {A} (f : MetaNode Network → A) (Q : A → Prop) :
  (∀ n, world_ok n → Q (f n)) → tame (gets f) Q.
Proof.
  intros Hf n r n' Hn. run_st. intros [= <- <-]. split_and!; [done|done|]. intros a [= <-]. by apply Hf.
Qed.
Lemma tame_weaken {A} (m : @MN Network A) (P Q : A → Prop) :
  tame m P → (∀ a, P a → Q a) → tame m Q.
Proof. intros Hm Hpq n r n' Hn Hr. destruct (Hm _ _ _ Hn Hr) as (? & ? & ?). split_and!; auto. Qed.

Lemma index_update_tame es :
  (∀ i n, (i, n) ∈ es → K i n) → tame (broadcast_chunk_index_update es) (λ _, True).
Proof.
  intros He n r n' [Hw Hn]. unfold broadcast_chunk_index_update. run_st.
  destruct (broadcast_all resp_unit (BroadcastChunkIndex es) n) as [r1 n1] eqn:Hb.
  apply broadcast_all_effect in Hb as (_ & Hs & Hall). simpl in Hs.
  assert (world_ok n1 ∧ same_ids n n1) as [? ?]; [|by destruct r1; intros [= <- <-]; split_and!].
  assert (∀ k c, within K c → within K (Nat.iter k (served_by (BroadcastChunkIndex es)) c) ∧
    draws (Nat.iter k (served_by (BroadcastChunkIndex es)) c) = draws c) as Hiter.
  { intros k c Hc. induction k as [|k [IH IHd]]; [done|]. cbn [Nat.iter].
    split; [by apply index_update_within|exact IHd]. }
  split; split.
  - by rewrite Hs.
  - intros e c Hc. destruct (Hall e) as [k Hk]. rewrite Hc in Hk.
    destruct (mn_world n !! e) as [c0|] eqn:Hc0; [|done]. injection Hk as ->.
    by apply Hiter, (Hn e).
  - by rewrite Hs.
  - intros e c Hc. destruct (Hall e) as [k Hk]. rewrite Hc in Hk.
    destruct (mn_world n !! e) as [c0|] eqn:Hc0; [|done]. injection Hk as ->.
    exists c0. split; [done|]. by apply Hiter, (Hn e).
Qed.

(** A partition comes from one of the others. *)
Lemma transfer_tame addr ranges :
  tame (on_net (expect resp_partition (call_peer addr (TransferPartition ranges))))
    (λ es, ∃ src, within K src ∧ es = partition_entries (objects_in_hash_ranges ranges (sv_store src))).
Proof.
  intros n r n' [Hw Hn] Hr.
  assert (∀ c, served_by (TransferPartition ranges) c = c) as Hid by by intros [].
  pose proof Hr as (_ & Hs & endpoint & _ & Hwd)%on_net_effect.
  assert (mn_world n' = mn_world n) as Hww.
  { rewrite Hwd. apply map_eq. intros e. destruct (decide (endpoint = e)) as [->|Hne].
    - rewrite lookup_alter_eq. destruct (mn_world n !! e); [simpl; by rewrite Hid|done].
    - by rewrite lookup_alter_ne. }
  split; [by split; [rewrite Hs|rewrite Hww]|]. split.
  - split; [by rewrite Hs|]. rewrite Hww. intros e c Hc. by exists c.
  - intros es ->. revert Hr. unfold on_net, zoom, expect, call_peer. run_st.
    destruct (get_peer_client addr (mn_cluster n, mn_world n)) as [r1 [c1 w1]] eqn:Hg.
    apply get_peer_client_changes in Hg as (-> & _ & _). destruct r1 as [client|[]|]; [|done..].
    unfold rpc. cbn. destruct (mn_world n !! client) as [src|] eqn:Hsrc; [|done]. cbn.
    intros [= <- _]. exists src. split; [by apply (Hn client)|done].
Qed.

(** The save, the index: then the others hear of it. *)
Lemma ingest_tame ranges src (k : @MN Network unit)
    (es := partition_entries (objects_in_hash_ranges ranges (sv_store src))) :
  within K src → tame k (λ _, True) →
  tame (_ ← on_server (with_store internal_status
          (ingest_partition (omap received_object es) (omap received_chunk es)));
        _ ← with_index (bulk_insert (omap received_index_entry es)); k) (λ _, True).
Proof.
  intros Hsrc Hk n r n' [Hw Hn].
  pose proof Hw as [[[_ _ Hcalm] _] _].
  unfold on_server, with_store, ingest_partition, zoom, rethrow, with_index, on_server, zoom, on_index.
  cbv [mbind ST_bind modify].
  match goal with |- context [save ?s] => set (s' := s); assert (store_calm s') as Hc by exact Hcalm;
    destruct (save_calm s' Hc) as (d & Hs & Hd); pose proof (save_spec s') as (r2 & d2 & Hs2 & Hm) end.
  rewrite Hs in Hs2. injection Hs2 as <- Hd2. rewrite Hs. cbn.
  assert (dk_main d = json_to_string (persistent s')) as Hmain.
  { assert (ms_disk (set_disk d s') = ms_disk (set_disk d2 s')) as Hdd by by rewrite Hd2.
    cbn in Hdd. rewrite Hdd. apply Hm. }
  match goal with |- k ?n = _ → _ => set (n1 := n) end. intros Hr.
  assert (world_ok n1) as Hn1.
  { split; [|exact Hn]. by apply (take_in_within ranges src (mn_server n) d Hsrc Hw). }
  destruct (Hk _ _ _ Hn1 Hr) as (? & ? & ?). split_and!; [done| |done].
  trans n1; [|done]. split; [done|]. intros e c Hc'. by exists c.
Qed.

Lemma pull_partition_tame addr ranges : tame (pull_partition addr ranges) (λ _, True).
Proof.
  unfold pull_partition. eapply tame_bind; [apply transfer_tame|]. intros es (src & Hsrc & ->).
  cbv zeta. case_decide; [by apply tame_ret|].
  apply ingest_tame; [done|]. apply index_update_tame.
  intros i n (p & ch & Hp & Hch & -> & ->)%elem_of_received_index. by eapply sent_known.
Qed.

Lemma pull_from_tame addrs ranges : tame (pull_from addrs ranges) (λ _, True).
Proof.
  induction addrs as [|a addrs IH]; [by apply tame_ret|]. cbn [pull_from].
  eapply tame_bind; [eapply tame_attempt, pull_partition_tame|]. intros _ _. exact IH.
Qed.

Lemma migrate_on_join_tame clustered : tame (migrate_on_join clustered) (λ _, True).
Proof.
  unfold migrate_on_join. destruct (wait_for_peers 31 clustered 0); [|by apply tame_ret].
  eapply tame_bind; [by apply (tame_gets _ (λ _, True))|]. intros rs _.
  case_decide; [by apply tame_ret|].
  eapply tame_bind; [by apply (tame_gets _ (λ _, True))|]. intros addrs _.
  eapply tame_bind; [apply pull_from_tame|]. intros _ _.
  eapply tame_bind.
  { apply (tame_gets _ (λ es, ∀ i k, (i, k) ∈ es → K i k)). intros n [[_ Hk] _] i k Hin.
    apply Hk. right; right. by apply elem_of_map_to_list. }
  intros es Hes. case_decide; [by apply tame_ret|]. by apply index_update_tame.
Qed.

End take_in.

End life.
