(* ===== verification/ClusterLifeTheorems.v ===== *)
(** * ClusterLifeTheorems: what a cluster keeps through joins and restarts

    The invariant of every run of [ClusterLife]. *)

From S2P Require Import Prelude.
From S2P Require Import Str.
From S2P Require Import Grpc.
From S2P Require Import HashRing.
From S2P Require Import MetadataStore.
From S2P Require Import MetadataStoreFacts.
From S2P Require Import MetadataStoreTheorems.
From S2P Require Import ChunkIndex.
From S2P Require Import ClusterService.
From S2P Require Import Cluster.
From S2P Require Import Forwarding.
From S2P Require Import MetadataService.
From S2P Require Import Migration.
From S2P Require Import Network.
From S2P Require Import ClusterFacts.
From S2P Require Import RoutingFacts.
From S2P Require Import PublicService.
From S2P Require Import PublicFacts.
From S2P Require Import ClusterRun.
From S2P Require Import Knowledge.
From S2P Require Import Startup.
From S2P Require Import StartupTheorems.
From S2P Require Import ClusterLife.
From S2P Require Import Samples.
From S2P Require Import SampleCluster.
Open Scope string_scope.
Open Scope list_scope.
Open Scope Z_scope.

Section theorems.
Context `{MetaDeps} `{Xxh3}.

(** Every node is in order; they agree on whose each chunk is; the ids to come are new. *)
Record life_ok (C : Cluster) : Prop := mkLifeOk {
  lo_node e n : C !! e = Some n → node_ok (mn_server n) ∧ NoDup (node_draws n);
  lo_agree x y n m id k k' : C !! x = Some n → C !! y = Some m →
    node_knows n id k → node_knows m id k' → k = k';
  lo_fresh x y n m id k : C !! x = Some n → C !! y = Some m → id ∈ node_draws n → ¬ (node_knows m id k);
  lo_apart x y n m id : C !! x = Some n → C !! y = Some m → x ≠ y →
    id ∈ node_draws n → id ∉ node_draws m;
}.

(** Each node of [C'] is one of [C] that learned what [conf] allows and what it drew. *)
Lemma learns_life_ok conf C C' :
  life_ok C →
  (∀ id k, conf id k → (∀ k', conf id k' → k' = k) ∧
     ∀ e n, C !! e = Some n → (id ∉ node_draws n) ∧ ∀ k', node_knows n id k' → k' = k) →
  (∀ x n', C' !! x = Some n' → ∃ n, C !! x = Some n ∧ node_ok (mn_server n') ∧
     learns conf (mn_server n) (mn_server n')) →
  life_ok C'.
Proof.
  intros [Hn Ha Hf Hap] Hconf Hl.
  (* an id that is drawn was drawn by one node *)
  assert (∀ x n', C' !! x = Some n' → ∃ n, C !! x = Some n ∧
    (∀ id, id ∈ node_draws n' → id ∈ node_draws n) ∧
    ∃ fresh : gmap Z string, (∀ id k, fresh !! id = Some k → (id ∈ node_draws n) ∧ id ∉ node_draws n') ∧
      ∀ id k, node_knows n' id k → node_knows n id k ∨ conf id k ∨ fresh !! id = Some k) as Hstep.
  { intros x n' Hx. destruct (Hl _ _ Hx) as (n & Hxn & _ & [l Hd] & Hfr). exists n.
    split; [done|]. split; [|exact Hfr]. intros id Hid. unfold node_draws in *. rewrite Hd. set_solver. }
  split.
  - intros e n' He. destruct (Hl _ _ He) as (n & Hen & Hok & Hlearn). split; [done|].
    eapply nodup_suffix, Hlearn. by apply (Hn e).
  - intros x y n' m' id k k' Hx Hy Hk Hk'.
    destruct (Hstep _ _ Hx) as (n & Hxn & _ & fx & Hfx & Hkx).
    assert (∃ m (fy : gmap Z string), C !! y = Some m ∧ (x = y → fy = fx) ∧
      (∀ id k, fy !! id = Some k → (id ∈ node_draws m) ∧ id ∉ node_draws m') ∧
      ∀ id k, node_knows m' id k → node_knows m id k ∨ conf id k ∨ fy !! id = Some k)
      as (m & fy & Hym & Hsame & Hfy & Hky).
    { destruct (decide (x = y)) as [<-|Hne].
      - rewrite Hx in Hy. injection Hy as <-. by exists n, fx.
      - destruct (Hstep _ _ Hy) as (m & Hym & _ & fy & Hfy & Hky). by exists m, fy. }
    destruct (Hkx _ _ Hk) as [Hk1|[Hc1|Hf1]], (Hky _ _ Hk') as [Hk2|[Hc2|Hf2]].
    + by eapply (Ha x y).
    + by destruct (Hconf _ _ Hc2) as [_ Hh]; eapply (Hh x).
    + destruct (Hfy _ _ Hf2) as [Hin _]. by destruct (Hf y x _ _ _ k Hym Hxn Hin).
    + destruct (Hconf _ _ Hc1) as [_ Hh]. symmetry. by eapply (Hh y).
    + destruct (Hconf _ _ Hc2) as [Hu _]. by apply Hu.
    + destruct (Hconf _ _ Hc1) as [_ Hh]. destruct (Hfy _ _ Hf2). by destruct (Hh _ _ Hym).
    + destruct (Hfx _ _ Hf1) as [Hin _]. by destruct (Hf x y _ _ _ k' Hxn Hym Hin).
    + destruct (Hconf _ _ Hc2) as [_ Hh]. destruct (Hfx _ _ Hf1). by destruct (Hh _ _ Hxn).
    + destruct (Hfx _ _ Hf1) as [Hin1 _], (Hfy _ _ Hf2) as [Hin2 _].
      destruct (decide (x = y)) as [<-|Hne]; [|by destruct (Hap _ _ _ _ _ Hxn Hym Hne Hin1)].
      rewrite (Hsame eq_refl) in Hf2. congruence.
  - intros x y n' m' id k Hx Hy Hid Hk.
    destruct (Hstep _ _ Hx) as (n & Hxn & Hdx & _).
    destruct (Hstep _ _ Hy) as (m & Hym & _ & fy & Hfy & Hky).
    destruct (Hky _ _ Hk) as [Hk2|[Hc2|Hf2]].
    + by eapply (Hf x y); [..|by apply Hdx|].
    + destruct (Hconf _ _ Hc2) as [_ Hh]. by destruct (Hh _ _ Hxn) as [Hno _]; apply Hno, Hdx.
    + destruct (Hfy _ _ Hf2) as [Hin Hout]. destruct (decide (x = y)) as [<-|Hne].
      * rewrite Hx in Hy. by injection Hy as <-.
      * by eapply (Hap x y); [..|by apply Hdx|].
  - intros x y n' m' id Hx Hy Hne Hid Hid'.
    destruct (Hstep _ _ Hx) as (n & Hxn & Hdx & _). destruct (Hstep _ _ Hy) as (m & Hym & Hdy & _).
    by eapply (Hap x y); [..|by apply Hdx|by apply Hdy].
Qed.

(** Each node of [C'] is one of [C] that draws the same ids, and knows what some node knew. *)
Lemma told_life_ok C C' :
  life_ok C →
  (∀ x n', C' !! x = Some n' → ∃ n, C !! x = Some n ∧ node_ok (mn_server n') ∧
     node_draws n' = node_draws n ∧
     ∀ id k, node_knows n' id k → ∃ y m, C !! y = Some m ∧ node_knows m id k) →
  life_ok C'.
Proof.
  intros [Hn Ha Hf Hap] Hl. split.
  - intros e n' He. destruct (Hl _ _ He) as (n & Hen & Hok & -> & _). split; [done|]. by apply (Hn e).
  - intros x y n' m' id k k' Hx Hy Hk Hk'.
    destruct (Hl _ _ Hx) as (_ & _ & _ & _ & Hkx). destruct (Hkx _ _ Hk) as (x' & n & Hxn & Hk1).
    destruct (Hl _ _ Hy) as (_ & _ & _ & _ & Hky). destruct (Hky _ _ Hk') as (y' & m & Hym & Hk2).
    by eapply (Ha x' y').
  - intros x y n' m' id k Hx Hy Hid Hk. destruct (Hl _ _ Hx) as (n & Hxn & _ & Hd & _).
    destruct (Hl _ _ Hy) as (_ & _ & _ & _ & Hky). destruct (Hky _ _ Hk) as (y' & m & Hym & Hk2).
    rewrite Hd in Hid. by eapply (Hf x y').
  - intros x y n' m' id Hx Hy Hne Hid Hid'. destruct (Hl _ _ Hx) as (n & Hxn & _ & Hd & _).
    destruct (Hl _ _ Hy) as (m & Hym & _ & Hd' & _). rewrite Hd in Hid. rewrite Hd' in Hid'.
    by eapply (Hap x y).
Qed.

Lemma join_life_ok e up clustered r C C' :
  at_node e up (migrate_on_join clustered) C = Some (r, C') → life_ok C → life_ok C'.
Proof.
  intros (n & n' & Hn & Hm & He & Ho)%at_node_spec HC.
  set (K id k := ∃ y m, C !! y = Some m ∧ node_knows m id k).
  assert (∀ id k k', K id k → K id k' → k = k') as Kfun.
  { intros id k k' (y & m & Hy & Hk) (y' & m' & Hy' & Hk'). by eapply (lo_agree _ HC y y'). }
  assert (∀ x m, C !! x = Some m → within K (mn_server m)) as Hin.
  { intros x m Hx. split; [by apply (lo_node _ HC x)|]. intros id k Hk. by exists x, m. }
  destruct (migrate_on_join_tame K Kfun clustered (plug (others e up C) n) r n') as ([Hw1 Hw2] & [Hd1 Hd2] & _);
    [|exact Hm|].
  { split; [by apply (Hin e)|]. intros x c. cbn. rewrite lookup_others. case_decide; [|done].
    destruct (C !! x) as [m|] eqn:Hx; [|done]. intros [= <-]. by apply (Hin x). }
  apply (told_life_ok C); [done|]. intros x m' Hx. destruct (decide (x = e)) as [->|Hxe].
  - rewrite He in Hx. injection Hx as <-. exists n. split_and!; [done|apply Hw1|exact Hd1|apply Hw1].
  - rewrite Ho, lookup_write_back in Hx by done. destruct (C !! x) as [m|] eqn:Hcx; [|done].
    exists m. split; [done|]. simpl in Hx. injection Hx as <-.
    destruct (mn_world n' !! x) as [c|] eqn:Hwx.
    + destruct (Hw2 _ _ Hwx) as [Hok Hk]. split_and!; [exact Hok| |exact Hk].
      destruct (Hd2 _ _ Hwx) as (c0 & Hc0 & Hd). cbn in Hc0. rewrite lookup_others, Hcx in Hc0.
      case_decide; [|done]. by injection Hc0 as <-.
    + split_and!; [by apply (lo_node _ HC x)|done|]. intros id k Hk. by exists x, m.
Qed.

Lemma request_life_ok e up req r C C' :
  honest C req → at_node e up (handle req) C = Some (r, C') → life_ok C → life_ok C'.
Proof.
  intros Hh Hr HC. apply (learns_life_ok (confirms req) C); [done| |].
  - intros id k Hc. destruct req; try done. destruct Hc as [-> ->]. split; [by intros k' [_ ->]|].
    intros x n Hx. exact (Hh x n Hx).
  - intros x n' Hx. destruct (request_change _ _ _ _ _ _ _ _ Hr Hx) as (n & Hn & _ & Hc).
    exists n. split; [done|]. destruct (lo_node _ HC _ _ Hn). by eapply change_learns.
Qed.

Lemma health_life_ok e results r C C' :
  at_node e ∅ (health_check_round results) C = Some (r, C') → life_ok C → life_ok C'.
Proof.
  intros (n & m & Hn & Hm & He & Ho)%at_node_spec HC.
  assert (node_ok (mn_server m) ∧ node_draws (unplug m) = node_draws n ∧ mn_world m = others e ∅ C ∧
    ∀ id k, knows (mn_server m) id k → node_knows n id k) as (Hok & Hd & Hw & Hk).
  { destruct (lo_node _ HC _ _ Hn) as [[Hs Hf] _].
    pose proof (health_ok results _ _ _ Hm Hs) as [Hs' Hw]. split; [split; [done|]|].
    all: revert Hm; unfold health_check_round, count, on_server, zoom, current_store; run_st;
      case_decide; intros [= _ <-]; try done; by split_and!. }
  apply (told_life_ok C); [done|]. intros x n' Hx. destruct (decide (x = e)) as [->|Hxe].
  - rewrite He in Hx. injection Hx as <-. exists n. split_and!; [done..|]. intros id k Hk'. exists e, n. auto.
  - rewrite Ho, lookup_write_back, Hw, lookup_others, decide_False in Hx by set_solver.
    destruct (C !! x) as [n0|] eqn:Hn0; [|done]. injection Hx as <-. exists n0.
    split_and!; [done|by apply (lo_node _ HC x)|done|]. intros id k Hk'. by exists x, n0.
Qed.

(** What a node starts with: nothing, or what its file holds. *)
Lemma store_new_life rng d :
  dk_script d = [] →
  ∃ s, store_new rng d = (Ok s, d) ∧ ms_disk s = d ∧ ms_rng s = rng ∧ storage_nodes s = ∅ ∧
    ((objects s = ∅ ∧ chunks s = ∅) ∨
     ∃ contents st, dk_main d = Some contents ∧ json_from_str contents = Some st ∧
       objects s = ps_objects st ∧ chunks s = ps_chunks st).
Proof.
  intros Hd. destruct d as [[contents|] tmp script]; cbn in Hd; subst script; unfold store_new; cbn.
  2: { eexists. split; [done|]. split_and!; [done..|]. by left. }
  run_st. unfold fs_call. cbn.
  destruct (decide (contents = "")) as [->|Hne]; cbn.
  - eexists. split; [done|]. split_and!; [done..|]. by left.
  - destruct (json_from_str contents) as [st|] eqn:Hj; (eexists; split; [done|]; split_and!; [done..|]).
    + right. by exists contents, st.
    + by left.
Qed.

Lemma start_node hostname vars rng d n d' :
  (∀ st, is_Some (json_to_string st)) → dk_script d = [] →
  (∀ contents st, dk_main d = Some contents → json_from_str contents = Some st → state_wf st) →
  metadata_main (W := unit) hostname vars true rng d () = (Ok n, d') →
  node_ok (mn_server n) ∧ node_draws n = rng_draws rng ∧
  ∀ id k, node_knows n id k → ∃ contents st c, dk_main d = Some contents ∧
    json_from_str contents = Some st ∧ ps_chunks st !! id = Some c ∧ mc_object_name c = k.
Proof.
  intros Hj Hd Hf. unfold metadata_main, MetadataService.construct.
  destruct (store_new_life rng d Hd) as (s & -> & Hsd & Hr & Hns & Hs). cbn.
  intros [= <- _]. cbn.
  assert (ms_wf s) as Hwf.
  { destruct Hs as [[Ho Hc]|(contents & st & Hm & Hp & Ho & Hc)].
    - split; rewrite ?Ho, ?Hc, ?Hns; intros *; by rewrite lookup_empty.
    - destruct (Hf _ _ Hm Hp) as [H1 H2 H3 _]. split; rewrite ?Ho, ?Hc, ?Hns; try done. }
  split_and!.
  - split; [split; cbn; [done|by apply covered_index|]|].
    + split; [by rewrite Hsd|done].
    + intros contents st. cbn. rewrite Hsd. apply Hf.
  - unfold node_draws. cbn. by rewrite Hr.
  - assert (∀ id k, stored_as s id k → ∃ contents st c, dk_main d = Some contents ∧
      json_from_str contents = Some st ∧ ps_chunks st !! id = Some c ∧ mc_object_name c = k) as Hst.
    { intros id k (c & Hch & Hk). destruct Hs as [[_ Hc]|(contents & st & Hm & Hp & _ & Hc)].
      - rewrite Hc, lookup_empty in Hch. done.
      - rewrite Hc in Hch. by exists contents, st, c. }
    intros id k [Hk|[Hk|Hk]]; [by apply Hst| |].
    + destruct Hk as (contents & st & c & Hm & ?). cbn in Hm. rewrite Hsd in Hm. by exists contents, st, c.
    + cbn in Hk. rewrite populate_lookup in Hk. destruct (chunks s !! id) as [c|] eqn:Hc; [|unfold index_new in Hk; by rewrite lookup_empty in Hk].
      injection Hk as <-. apply Hst. by exists c.
Qed.

Lemma start_life_ok e hostname vars rng n d C :
  (∀ st, is_Some (json_to_string st)) → new_draws C e rng →
  metadata_main hostname vars true rng (disk_at C e) () = (Ok n, d) →
  life_ok C → life_ok (<[e := n]> C).
Proof.
  intros Hj [Hnd Hnew] Hm HC.
  assert (node_ok (mn_server n) ∧ node_draws n = rng_draws rng ∧
    ∀ id k, node_knows n id k → ∃ m, C !! e = Some m ∧ node_knows m id k) as (Hok & Hd & Hk).
  { unfold disk_at in Hm. destruct (C !! e) as [m|] eqn:He.
    - destruct (lo_node _ HC _ _ He) as [[Hs Hf] _].
      destruct (start_node _ _ _ _ _ _ Hj (proj1 (so_calm _ Hs)) Hf Hm) as (? & ? & Hk).
      split_and!; [done..|]. intros id k Hn. exists m. split; [done|].
      destruct (Hk _ _ Hn) as (contents & st & c & ? & ? & ? & ?). right; left. by exists contents, st, c.
    - destruct (start_node hostname vars rng (mkDisk None None []) n d Hj) as (? & ? & Hk); [done..|exact Hm|].
      split_and!; [done..|]. intros id k Hn. by destruct (Hk _ _ Hn) as (? & ? & ? & ? & _). }
  assert (∀ x m id k, <[e := n]> C !! x = Some m → node_knows m id k →
    ∃ y m', C !! y = Some m' ∧ node_knows m' id k) as Hknown.
  { intros x m id k [[<- <-]|[_ Hx]]%lookup_insert_Some Hn; [|by exists x, m].
    destruct (Hk _ _ Hn) as (m & ? & ?). by exists e, m. }
  split.
  - intros x m [[<- <-]|[_ Hx]]%lookup_insert_Some; [by rewrite Hd|by apply (lo_node _ HC x)].
  - intros x y m m' id k k' Hx Hy (x' & n1 & Hx' & Hk1)%(Hknown _ _ _ _ Hx) (y' & n2 & Hy' & Hk2)%(Hknown _ _ _ _ Hy).
    by eapply (lo_agree _ HC x' y').
  - intros x y m m' id k Hx Hy Hid (y' & n2 & Hy' & Hk2)%(Hknown _ _ _ _ Hy).
    apply lookup_insert_Some in Hx as [[<- <-]|[_ Hx]]; [|by eapply (lo_fresh _ HC x y')].
    rewrite Hd in Hid. by destruct (Hnew id Hid _ _ Hy') as [Hno _]; eapply Hno.
  - intros x y m m' id Hx Hy Hne Hid Hid'.
    apply lookup_insert_Some in Hx as [[<- <-]|[Hxe Hx]];
      apply lookup_insert_Some in Hy as [[<- <-]|[Hye Hy]]; [done|..].
    + rewrite Hd in Hid. destruct (Hnew id Hid _ _ Hy) as [_ Hno]. by apply Hno.
    + rewrite Hd in Hid'. destruct (Hnew id Hid' _ _ Hx) as [_ Hno]. by apply Hno.
    + by eapply (lo_apart _ HC x y).
Qed.

Lemma life_step_ok C C' :
  (∀ st, is_Some (json_to_string st)) → life_step C C' → life_ok C → life_ok C'.
Proof.
  intros Hj [e up req r C1 Hh Hr|e results r C1 Hr|e live n Hn|e up cl r C1 Hr|e h v rng n d Hd Hm] HC.
  - by eapply request_life_ok.
  - by eapply health_life_ok.
  - apply (told_life_ok C); [done|].
    intros x m [[<- <-]|[_ Hx]]%lookup_insert_Some.
    + exists n. split_and!; [done|apply (lo_node _ HC _ _ Hn)|done|]. intros id k Hk. by exists e, n.
    + exists m. split_and!; [done|apply (lo_node _ HC _ _ Hx)|done|]. intros id k Hk. by exists x, m.
  - by eapply join_life_ok.
  - by eapply start_life_ok.
Qed.

(** C13: in any life of the cluster, in which nodes start on their disks, join by pulling the
    ranges they own from the others and announcing their index, serve whatever requests
    with any of the others out of reach, lose storage nodes to health checks and learn of
    new members: every node's store stays well formed, its chunk index has every chunk
    its objects list under the object's name, the file it would restart from is
    well formed too, and all nodes agree on the object each chunk belongs to. It takes
    that the random ids of different nodes differ and that a chunk is confirmed for the
    object it was allocated for. *)
Theorem cluster_life_keeps_every_node C C' e n :
  (∀ st, is_Some (json_to_string st)) →
  life_ok C → rtc life_step C C' → C' !! e = Some n →
  ms_wf (sv_store (mn_server n)) ∧
  (∀ k o id, objects (sv_store (mn_server n)) !! k = Some o → id ∈ mo_chunks o →
    sv_index (mn_server n) !! id = Some k) ∧
  file_ok (sv_store (mn_server n)) ∧
  ∀ e' n' id k k', C' !! e' = Some n' → knows (mn_server n) id k → knows (mn_server n') id k' → k = k'.
Proof.
  intros Hj HC Hrun Hn.
  assert (life_ok C') as HC'.
  { clear Hn. induction Hrun; [done|]. by eapply IHHrun, life_step_ok. }
  destruct (lo_node _ HC' _ _ Hn) as [[[Hwf Hi _] Hf] _]. split_and!; [done|done|done|].
  intros e' n' id k k' Hn' Hk Hk'. by eapply (lo_agree _ HC' e e').
Qed.

End theorems.

(** ** Witness *)

#[local] Existing Instance toy_deps.
#[local] Existing Instance toy_xxh3.

(** "b" has left the ring of "a"; a chunk is put on "b"; "a" joins and pulls what it owns
    now; "b" restarts. *)
Definition parted : Cluster := {[a_endpoint := unplug node_a_alone; b_endpoint := unplug node_b]}.
Definition parted_put : Cluster :=
  default ∅ (snd <$> at_node b_endpoint ∅ (handle (PutChunk "photo" 9)) parted).
Definition parted_join : Cluster :=
  default ∅ (snd <$> at_node a_endpoint {[b_endpoint]} (migrate_on_join (λ _, true)) parted_put).
Definition restarted_b : option (MetaNode unit) :=
  match metadata_main (W := unit) "b" ∅ true (mkRng [61] []) (disk_at parted_join b_endpoint) () with
  | (Ok n, _) => Some n
  | _ => None
  end.

Lemma parted_cases e n :
  parted !! e = Some n →
  (e = a_endpoint ∧ n = unplug node_a_alone) ∨ (e = b_endpoint ∧ n = unplug node_b).
Proof.
  unfold parted. intros [[<- <-]|[_ [<- <-]%lookup_singleton_Some]]%lookup_insert_Some; auto.
Qed.

Lemma knows_a id k : ¬ (node_knows (unplug node_a_alone) id k).
Proof.
  intros [(c & Hc & _)|[(contents & st & c & Hm & _)|Hi]]; [|done|].
  - cbn in Hc. by rewrite lookup_empty in Hc.
  - cbn in Hi. by rewrite lookup_empty in Hi.
Qed.
Lemma knows_b id k : node_knows (unplug node_b) id k → id = 22 ∧ k = "photo".
Proof.
  intros [(c & Hc & <-)|[(contents & st & c & Hm & _)|Hi]]; [|done|].
  - cbn in Hc. by apply lookup_singleton_Some in Hc as [<- <-].
  - cbn in Hi. by apply lookup_singleton_Some in Hi as [<- <-].
Qed.

Lemma parted_ok : life_ok parted.
Proof.
  split.
  - intros e n [[_ ->]|[_ ->]]%parted_cases; (split; [split|]).
    1: { destruct server_a_ok. by split. }
    3: apply server_b_ok.
    all: try (by intros contents st).
    all: repeat (apply list.NoDup_cons; split; [set_solver|]); apply NoDup_nil_2.
  - intros x y n m id k k' [[_ ->]|[_ ->]]%parted_cases [[_ ->]|[_ ->]]%parted_cases;
      try (by intros []%knows_a); try (by intros _ []%knows_a).
    by intros [_ ->]%knows_b [_ ->]%knows_b.
  - intros x y n m id k [[_ ->]|[_ ->]]%parted_cases [[_ ->]|[_ ->]]%parted_cases;
      try (by intros _ []%knows_a).
    all: intros Hid [-> _]%knows_b; revert Hid; cbn; set_solver.
  - intros x y n m id [[-> ->]|[-> ->]]%parted_cases [[-> ->]|[-> ->]]%parted_cases; try done.
    all: intros _; cbn; set_solver.
Qed.

(** The ids that are known by then are those of the two chunks. *)
Definition known_ids (n : MetaNode unit) : list Z :=
  (map_to_list (chunks (sv_store (mn_server n)))).*1 ++ (map_to_list (sv_index (mn_server n))).*1 ++
  match dk_main (ms_disk (sv_store (mn_server n))) with
  | Some contents =>
      match json_from_str contents with Some st => (map_to_list (ps_chunks st)).*1 | None => [] end
  | None => []
  end.

Lemma knows_known_ids n id k : node_knows n id k → id ∈ known_ids n.
Proof.
  assert (∀ A (m : gmap Z A) x, m !! id = Some x → id ∈ (map_to_list m).*1) as Hm.
  { intros A m x Hx. apply list_elem_of_fmap. exists (id, x). split; [done|]. by apply elem_of_map_to_list. }
  unfold known_ids. rewrite !elem_of_app.
  intros [(c & Hc & _)|[(contents & st & c & Hd & Hj & Hc & _)|Hi]].
  - left. by eapply Hm.
  - right. right. rewrite Hd, Hj. by eapply Hm.
  - right. left. by eapply Hm.
Qed.

Lemma parted_new_draws : new_draws parted_join b_endpoint (mkRng [61] []).
Proof.
  split; [apply NoDup_singleton|]. cbn. intros id ->%list_elem_of_singleton x n Hx.
  assert (forallb (λ n, bool_decide (61 ∉ known_ids n ++ node_draws n)) (map_to_list parted_join).*2 = true)
    as Hall by (vm_compute; reflexivity).
  rewrite forallb_forall in Hall. specialize (Hall n).
  assert (n ∈ (map_to_list parted_join).*2) as Hin.
  { apply list_elem_of_fmap. exists (x, n). split; [done|]. by apply elem_of_map_to_list. }
  specialize (Hall (proj1 (list_elem_of_In _ _) Hin)). apply bool_decide_eq_true in Hall. rewrite elem_of_app in Hall.
  split; [|by auto]. intros k Hk%knows_known_ids. auto.
Qed.

Lemma cluster_life_keeps_every_node_witness :
  ∃ n, restarted_b = Some n ∧
    objects (sv_store (mn_server n)) !! "photo" = Some (mkMetaObject "photo" 5 [22; 31] 10) ∧
    sv_index (mn_server n) !! 31 = Some "photo" ∧
    ∀ e' n' k, <[b_endpoint := n]> parted_join !! e' = Some n' → knows (mn_server n') 31 k → k = "photo".
Proof.
  assert (∃ n d, metadata_main (W := unit) "b" ∅ true (mkRng [61] []) (disk_at parted_join b_endpoint) () =
    (Ok n, d) ∧ restarted_b = Some n) as (n & d & Hm & Hr).
  { assert (is_ok (metadata_main (W := unit) "b" ∅ true (mkRng [61] []) (disk_at parted_join b_endpoint) ()).1
      = true) as Hok by (vm_compute; reflexivity).
    unfold restarted_b. destruct (metadata_main _ _ _ _ _ _) as [[n| |] d]; [by exists n, d|done..]. }
  exists n. split; [done|].
  assert (objects (sv_store (mn_server n)) !! "photo" = Some (mkMetaObject "photo" 5 [22; 31] 10)) as Ho.
  { transitivity (n ← restarted_b; objects (sv_store (mn_server n)) !! "photo"); [by rewrite Hr|].
    vm_compute. reflexivity. }
  split; [exact Ho|].
  destruct (cluster_life_keeps_every_node parted (<[b_endpoint := n]> parted_join) b_endpoint n)
    as (_ & Hi & _ & Hk).
  - intros st. by eexists.
  - apply parted_ok.
  - apply (rtc_l _ _ parted_put); [|apply (rtc_l _ _ parted_join); [|apply rtc_once]].
    + unshelve eapply life_request;
        [exact b_endpoint|exact ∅|exact (PutChunk "photo" 9)|shelve|exact I|]. vm_compute. reflexivity.
    + unshelve eapply life_join; [exact a_endpoint|exact {[b_endpoint]}|exact (λ _, true)|shelve|].
      vm_compute. reflexivity.
    + unshelve eapply life_start; [exact "b"|exact ∅|exact (mkRng [61] [])|shelve| |exact Hm].
      apply parted_new_draws.
  - apply lookup_insert_eq.
  - assert (sv_index (mn_server n) !! 31 = Some "photo") as H31.
    { apply (Hi "photo" _ 31 Ho). cbn. right. by left. }
    split; [exact H31|]. intros e' n' k He' Hk'. symmetry.
    eapply (Hk e' n' 31); [exact He'| |exact Hk']. right. by right.
Defined.

