(* ===== verification/SystemTheorems.v ===== *)
(** * SystemTheorems: uploads and downloads through the whole system

    The theorems about api-gateway/src/handlers.rs, with the metadata node and the
    storage nodes behind it. *)

From S2P Require Import Prelude.
From S2P Require Import Bytes.
From S2P Require Import Crc32.
From S2P Require Import ChunkStore.
From S2P Require Import ChunkStoreFacts.
From S2P Require Import ChunkStoreSpec.
From S2P Require Import Grpc.
From S2P Require Import StorageNode.
From S2P Require Import NodeFacts.
From S2P Require Import HashRing.
From S2P Require Import MetadataStore.
From S2P Require Import MetadataStoreFacts.
From S2P Require Import ClusterService.
From S2P Require Import Cluster.
From S2P Require Import Forwarding.
From S2P Require Import MetadataService.
From S2P Require Import Network.
From S2P Require Import RoutingFacts.
From S2P Require Import Clients.
From S2P Require Import Gateway.
From S2P Require Import Multipart.
From S2P Require Import SystemFacts.
From S2P Require Import Progress.
From S2P Require Import Samples.
From S2P Require Import SampleSystem.
Open Scope string_scope.
Open Scope list_scope.
Open Scope Z_scope.

Section theorems.
Context `{MetaDeps} `{Xxh3} `{Crc32} `{Base64} `{UnicodeTables}.

Lemma gw_ok_measure name f g g' :
  gw_ok name g → measure f g = (Ok (), g') → gw_ok name g' ∧ gw_world g' = gw_world g.
Proof. intros []. unfold measure. run_st. intros [= <-]. by split. Qed.

(** The object a successful creation leaves: listed, without chunks. *)
Lemma created_placed name checksum g g' :
  gw_ok name g → call (mc_put_object name checksum) g = (Ok (inr ()), g') →
  gw_ok name g' ∧ placed (gw_world g') name [].
Proof.
  intros Hg. destruct (svc_put_object name checksum (w_meta (gw_world g))) as [r n'] eqn:Hr.
  assert (mc_put_object name checksum (gw_world g) = (r, set_meta n' (gw_world g))) as Hm.
  { cbn. unfold on_meta, zoom. by rewrite Hr. }
  rewrite (call_run _ _ _ _ Hm). destruct r as [[]|e|]; [|done..]. intros [= <-].
  destruct (local_put_object _ _ _ _ (gk_serves _ _ Hg) (gk_wf _ _ Hg) Hr)
    as (Hwf & Hs & Hrng & _ & Ho & _).
  destruct Hg as [_ Hdr Hgood _ Hc]. split.
  - split; cbn; [done| |done|done|done]. unfold draws_u64. by rewrite Hrng.
  - exists (new_object name checksum). cbn. rewrite Ho, lookup_insert_eq.
    split; [done|constructor].
Qed.

(** Asking a node for its chunk size changes nothing. *)
Lemma chunk_size_call a g r g' :
  call (sn_get_chunk_size a) g = (Ok (inr r), g') → r = SLOT_DATA_SIZE ∧ g' = g.
Proof.
  unfold call, zoom. run_st. cbn. unfold on_node.
  destruct (w_nodes (gw_world g) !! a) as [n|] eqn:Ha; cbn; [|done].
  rewrite insert_id by done. intros [= <- <-]. split; [done|]. by destruct g as [? ? []].
Qed.

Lemma list_nodes_call g r g' : call mc_list_storage_nodes g = (Ok r, g') → g' = g.
Proof.
  unfold call, zoom. run_st. cbn. intros [= _ <-]. by destruct g as [? ? [[] ?]].
Qed.

Lemma connect_call a g r g' : call_or_500 (sn_connect a) g = (Ok r, g') → g' = g.
Proof.
  unfold call_or_500. cbv [mbind ST_bind]. rewrite (call_run _ _ _ _ (world_connect a (gw_world g))).
  destruct (decide _); [|done]. intros [= _ <-]. by destruct g.
Qed.

Lemma slot_size_pos : 0 < SLOT_DATA_SIZE.
Proof. done. Qed.

(** An upload that answers [Ok] has placed the chunks of the body. *)
Lemma upload_placed name payload len g g' :
  gw_ok name g → handle_put_object name payload g = (Ok len, g') →
  validate_object_name name = None ∧
  ∃ bytes, b64_decode payload = Some bytes ∧ len = zlen bytes ∧ gw_ok name g' ∧
    placed (gw_world g') name (slice_chunks SLOT_DATA_SIZE bytes).
Proof.
  intros Hg. unfold handle_put_object.
  destruct (validate_object_name name) eqn:Hv; [done|].
  destruct (b64_decode payload) as [bytes|]; [|done].
  destruct (_ <? _); [done|]. intros Hr. split; [done|]. exists bytes. split; [done|].
  inv_bind Hr. apply list_nodes_call in Hrun as ->.
  destruct a as [|[|first rest]]; [done..|].
  inv_bind Hr. apply connect_call in Hrun as ->.
  inv_bind Hr. destruct a0 as [|size]; [done|]. apply chunk_size_call in Hrun as [-> ->].
  change (split_body SLOT_DATA_SIZE bytes) with
    (mret (slice_chunks SLOT_DATA_SIZE bytes) : GW (W := World) _) in Hr.
  inv_bind Hr. injection Hrun as <- <-.
  inv_bind Hr. destruct a0 as [|[]]; [done|].
  destruct (created_placed _ _ _ _ Hg Hrun) as [Hg1 Hp1].
  inv_bind Hr. destruct a0.
  destruct (slice_chunks_spec SLOT_DATA_SIZE bytes slot_size_pos) as [_ Hsz].
  destruct (put_chunks_ok name (slice_chunks SLOT_DATA_SIZE bytes) s s0 [] Hg1) as [Hg2 Hp2]; [|done|exact Hrun0|].
  { eapply list.Forall_impl; [exact Hsz|]. intros c [_ Hc]. exact Hc. }
  inv_bind Hr. destruct a0. apply (gw_ok_measure name) in Hrun1 as [Hg3 Hw3]; [|done].
  inv_bind Hr. destruct a0. apply (gw_ok_measure name) in Hrun1 as [Hg4 Hw4]; [|done].
  inv_bind Hr. destruct a0. apply (gw_ok_measure name) in Hrun1 as [Hg5 Hw5]; [|done].
  injection Hr as <- <-. split_and!; [done|done|]. by rewrite Hw5, Hw4, Hw3.
Qed.

(** C4: What a client uploads it gets back: when a PUT answers [Ok], the length it
    reports is that of the decoded body, a GET gives a body that decodes to the same
    bytes, and a streamed GET gives exactly these bytes in pieces, not cut short. *)
Theorem uploaded_object_reads_back name payload len g g' :
  gw_ok name g → handle_put_object name payload g = (Ok len, g') →
  ∃ bytes, b64_decode payload = Some bytes ∧ len = zlen bytes ∧
    (∃ payload' g2, handle_get_object name g' = (Ok payload', g2) ∧
      b64_decode payload' = Some bytes) ∧
    ∃ pieces g2, handle_get_object_stream name g' = (Ok (pieces, false), g2) ∧
      concat pieces = bytes.
Proof.
  intros Hg Hr.
  destruct (upload_placed name payload len g g' Hg Hr) as (Hv & bytes & Hb & -> & Hg' & Hp).
  destruct (slice_chunks_spec SLOT_DATA_SIZE bytes slot_size_pos) as [Hcat _].
  exists bytes. split_and!; [done|done| |].
  - destruct (get_placed name _ g' Hv Hg' Hp) as (g2 & Hget). rewrite Hcat in Hget.
    eexists _, g2. split; [exact Hget|apply b64_roundtrip].
  - destruct (stream_placed name _ g' Hv Hg' Hp) as (g2 & Hget).
    by eexists _, g2.
Qed.

(** What PUT does once it knows the size of chunks. *)
Definition put_cut (name : string) (bytes : list byte) : GW (W := World) Z :=
  created ← call (mc_put_object name (compute_checksum bytes));
  match created with
  | inl _ => refuse "PUT" "object" "409" CONFLICT
  | inr _ =>
      _ ← put_chunks name (slice_chunks SLOT_DATA_SIZE bytes);
      _ ← measure (add_uploaded (zlen bytes));
      _ ← measure (inc_http "PUT" "object" "200");
      _ ← measure (observe_operation "put_object");
      mret (zlen bytes)
  end.

Lemma put_start name payload bytes g :
  validate_object_name name = None → b64_decode payload = Some bytes →
  zlen bytes ≤ MAX_OBJECT_SIZE → offers (gw_world g) →
  handle_put_object name payload g = put_cut name bytes g.
Proof.
  intros Hv Hb Hsz Hof. unfold handle_put_object. rewrite Hv, Hb, (proj2 (Z.ltb_ge _ _) Hsz).
  destruct (list_nodes_offers _ Hof) as (first & rest & Hl & Hup).
  destruct (connect_up _ _ Hup) as [Hconn Hsize].
  rewrite (bind_ok _ _ _ _ _ Hl). cbv beta iota zeta.
  by rewrite (bind_ok _ _ _ _ _ Hconn), (bind_ok _ _ _ _ _ Hsize).
Qed.

(** An upload with enough resources: it creates the object, puts the chunks and counts; what
    it did not need is left. *)
Lemma upload_run name payload bytes g k :
  gw_ok name g → validate_object_name name = None → b64_decode payload = Some bytes →
  zlen bytes ≤ MAX_OBJECT_SIZE → objects (meta (gw_world g)) !! name = None →
  ready (length (slice_chunks SLOT_DATA_SIZE bytes) + k) (gw_world g) →
  ∃ g1 g2 g', handle_put_object name payload g = (Ok (zlen bytes), g') ∧
    call (mc_put_object name (compute_checksum bytes)) g = (Ok (inr ()), g1) ∧
    put_chunks name (slice_chunks SLOT_DATA_SIZE bytes) g1 = (Ok (), g2) ∧
    gw_world g' = gw_world g2 ∧ gw_connections g' = gw_connections g2 ∧ ready k (gw_world g2).
Proof.
  intros Hg Hv Hb Hsz Hn Hrd. rewrite (put_start _ _ _ _ Hv Hb Hsz (ready_offers _ _ Hrd)). unfold put_cut.
  destruct (created_ready name (compute_checksum bytes) _ _ Hg Hn Hrd) as (g1 & Hc & Hrd1).
  destruct (created_placed _ _ _ _ Hg Hc) as [Hg1 Hp1].
  rewrite (bind_ok _ _ _ _ _ Hc). cbv beta iota.
  destruct (slice_chunks_spec SLOT_DATA_SIZE bytes slot_size_pos) as [_ Hlen].
  destruct (put_chunks_ready name (slice_chunks SLOT_DATA_SIZE bytes) k g1 [] Hg1)
    as (g2 & Hput & Hrd2); [|done|done|].
  { eapply list.Forall_impl; [exact Hlen|]. intros c [_ Hc']. exact Hc'. }
  rewrite (bind_ok _ _ _ _ _ Hput). eexists g1, g2, _. by split_and!.
Qed.

(** An upload of a valid new name and a body within the limit succeeds as long as the
    resources last: the metadata can be saved, the random ids to come are unused, and
    every registered storage node is up and has room for the chunks. *)
Theorem upload_succeeds name payload bytes g :
  gw_ok name g → validate_object_name name = None → b64_decode payload = Some bytes →
  zlen bytes ≤ MAX_OBJECT_SIZE → objects (meta (gw_world g)) !! name = None →
  ready (length (slice_chunks SLOT_DATA_SIZE bytes)) (gw_world g) →
  ∃ g', handle_put_object name payload g = (Ok (zlen bytes), g').
Proof.
  intros Hg Hv Hb Hsz Hn Hrd. rewrite <- (Nat.add_0_r (length _)) in Hrd.
  destruct (upload_run _ _ _ _ _ Hg Hv Hb Hsz Hn Hrd) as (_ & _ & g' & Hr & _). by exists g'.
Qed.

(** ** Uploads cut short *)

Lemma chunk_at_same_nodes w w' i bytes :
  chunk_at w i bytes → chunks (meta w') !! i = chunks (meta w) !! i →
  storage_nodes (meta w') = storage_nodes (meta w) → w_nodes w' = w_nodes w → chunk_at w' i bytes.
Proof.
  intros (c & x & node & Hc & Hx & Hn & Hd) Hch Hnodes Hw. exists c, x, node.
  rewrite Hch, Hnodes. split_and!; [done|done|done|]. unfold node_data in *. by rewrite Hw.
Qed.

Lemma or_rollback_failed {A} name (m : GW (W := World) A) g e g1 g2 :
  m g = (Err e, g1) → ignore_error (mc_delete_object name) g1 = (Ok (), g2) →
  or_rollback name m g = (Err e, g2).
Proof. intros Hm Hd. unfold or_rollback, attempt. cbv [mbind ST_bind]. by rewrite Hm, Hd. Qed.

(** A flush to a node that cannot be connected to, in a form: the rest of the form is not
    looked at and the object is taken back. *)
Lemma unreachable_node_rolls_back {A} name chunk resp n' g (more : GW (W := World) A) :
  gw_ok name g → is_Some (objects (meta (gw_world g)) !! name) →
  svc_allocate_chunk name (w_meta (gw_world g)) = (Ok resp, n') →
  w_nodes (gw_world g) !! ac_storage_node_address resp = None →
  gw_connections g !! ac_storage_node_address resp = None →
  ∃ g', or_rollback name (_ ← flush_chunk_to_storage chunk name; more) g =
      (Err INTERNAL_SERVER_ERROR, g') ∧
    gw_ok name g' ∧ objects (meta (gw_world g')) !! name = None.
Proof.
  intros Hg [o Ho] Ha Hdown Hconn.
  destruct (local_allocate _ _ _ _ (gk_serves _ _ Hg) (gk_wf _ _ Hg) (gk_draws _ _ Hg) Ha)
    as (_ & _ & Hwf1 & Hdr1 & Hs1 & _ & Ho1 & _).
  assert (mc_allocate_chunk name (gw_world g) = (Ok resp, set_meta n' (gw_world g))) as Hm.
  { cbn. unfold on_meta, zoom. by rewrite Ha. }
  set (g1 := set_gw_world (set_meta n' (gw_world g)) g).
  assert ((_ ← flush_chunk_to_storage chunk name; more) g = (Err INTERNAL_SERVER_ERROR, g1)) as Hf.
  { unfold flush_chunk_to_storage, call_or_500, get_or_connect, call_or_500. run_st.
    rewrite (call_run _ _ _ _ Hm). fold g1. change (gw_connections g1) with (gw_connections g).
    rewrite Hconn, (call_run _ _ _ _ (world_connect _ (gw_world g1))). cbn.
    rewrite Hdown. by rewrite decide_False by (by intros []). }
  rewrite <- Ho1 in Ho. destruct (local_delete name n' o Hs1 Hwf1 Hdr1 Ho)
    as (r & n2 & Hd & Hnp & Hgone & Hs2 & Hwf2 & Hdr2).
  assert (mc_delete_object name (gw_world g1) = (r, set_meta n2 (gw_world g1))) as Hm2.
  { cbn. unfold on_meta, zoom. cbn. by rewrite Hd. }
  exists (set_gw_world (set_meta n2 (gw_world g1)) g1). split.
  - apply (or_rollback_failed _ _ _ _ _ _ Hf). unfold ignore_error.
    cbv [mbind ST_bind]. rewrite (call_run _ _ _ _ Hm2). by destruct r.
  - split; [|exact Hgone]. split; [done|done|apply Hg|done|apply Hg].
Qed.

(** C39: When the storage node that was allocated for a chunk cannot be connected to, a JSON
    upload fails with [500] but its object is not rolled back: a GET then answers with the
    chunks uploaded so far, as if they were the whole object. A form upload in the same
    situation fails with [500], too, but takes its object back: a GET answers [404]. *)
Theorem unreachable_node_truncates_the_object {A} name data chunk rest resp n' g
    (more : GW (W := World) A) :
  validate_object_name name = None → gw_ok name g → placed (gw_world g) name data →
  svc_allocate_chunk name (w_meta (gw_world g)) = (Ok resp, n') →
  w_nodes (gw_world g) !! ac_storage_node_address resp = None →
  gw_connections g !! ac_storage_node_address resp = None →
  (∃ g', put_chunks name (chunk :: rest) g = (Err INTERNAL_SERVER_ERROR, g') ∧
    ∃ g2, handle_get_object name g' = (Ok (b64_encode (concat data)), g2)) ∧
  ∃ g', or_rollback name (_ ← flush_chunk_to_storage chunk name; more) g =
      (Err INTERNAL_SERVER_ERROR, g') ∧
    ∃ g2, handle_get_object name g' = (Err NOT_FOUND, g2).
Proof.
  intros Hv Hg Hp Ha Hdown Hconn.
  destruct (local_allocate _ _ _ _ (gk_serves _ _ Hg) (gk_wf _ _ Hg) (gk_draws _ _ Hg) Ha)
    as (Hid & Hfree & Hwf1 & Hdr1 & Hs1 & _ & Ho1 & Hn1 & Hc1).
  assert (mc_allocate_chunk name (gw_world g) = (Ok resp, set_meta n' (gw_world g))) as Hm.
  { cbn. unfold on_meta, zoom. by rewrite Ha. }
  set (g1 := set_gw_world (set_meta n' (gw_world g)) g).
  assert (gw_ok name g1) as Hg1 by (split; [done|done|apply Hg|done|apply Hg]).
  split; [exists g1; split|].
  - simpl. unfold put_one_chunk. cbv [mbind ST_bind]. rewrite (call_run _ _ _ _ Hm). fold g1.
    unfold get_or_connect, call_or_500. run_st. change (gw_connections g1) with (gw_connections g).
    rewrite Hconn, (call_run _ _ _ _ (world_connect _ (gw_world g1))). cbn.
    rewrite Hdown. by rewrite decide_False by (by intros []).
  - apply get_placed; [done|done|]. destruct Hp as (o & Ho & Hf). exists o.
    split; [cbn; by rewrite Ho1|].
    eapply list.Forall2_impl; [exact Hf|]. intros i bytes Hi.
    destruct (Hi) as (c & _ & _ & Hc & _).
    eapply chunk_at_same_nodes; [exact Hi| |exact Hn1|done]. cbn.
    rewrite Hc1, lookup_insert_ne; [done|]. intros <-. congruence.
  - destruct Hp as (o & Ho & _).
    destruct (unreachable_node_rolls_back name chunk resp n' g more Hg) as (g' & Hr & Hg' & Hno);
      [by eexists|done..|].
    exists g'. split; [exact Hr|]. destruct (get_absent name g' Hv Hg' Hno) as ((g2 & Hget & _) & _).
    by exists g2.
Qed.

(** ** Multipart uploads *)

(** The bytes of a stream that ends without an error. *)
Fixpoint stream_bytes (content : list stream_event) : option (list byte) :=
  match content with
  | [] => Some []
  | StreamError :: _ => None
  | Data d :: content => rest ← stream_bytes content; Some (d ++ rest)
  end.

Lemma call_or_500_ok {E A} (m : ST World E A) g a g' :
  call_or_500 m g = (Ok a, g') → call m g = (Ok (inr a), g').
Proof.
  unfold call_or_500. cbv [mbind ST_bind]. destruct (call m g) as [[[e|x]|e|] s]; [done| |done..].
  by intros [= <- <-].
Qed.

(** A successful flush is a successful upload of one chunk. *)
Lemma flush_chunk_ok buf name g g' :
  flush_chunk_to_storage buf name g = (Ok (), g') → put_one_chunk name buf g = (Ok (), g').
Proof.
  unfold flush_chunk_to_storage, put_one_chunk. intros Hr.
  inv_bind Hr. apply call_or_500_ok in Hrun. rewrite (bind_ok _ _ _ _ _ Hrun).
  inv_bind Hr. rewrite (bind_ok _ _ _ _ _ Hrun0).
  inv_bind Hr. apply call_or_500_ok in Hrun1. rewrite (bind_ok _ _ _ _ _ Hrun1).
  apply call_or_500_ok in Hr. by rewrite (bind_ok _ _ _ _ _ Hr).
Qed.

Lemma flush_full_ok fuel name buffer rest g g' data :
  gw_ok name g → placed (gw_world g) name data →
  flush_full fuel SLOT_DATA_SIZE name buffer g = (Ok rest, g') →
  ∃ pieces, gw_ok name g' ∧ placed (gw_world g') name (data ++ pieces) ∧
    concat pieces ++ rest = buffer ∧ zlen rest < SLOT_DATA_SIZE.
Proof.
  revert buffer g data. induction fuel as [|fuel IH]; intros buffer g data Hg Hp; [done|].
  cbn [flush_full]. destruct (Z.leb_spec SLOT_DATA_SIZE (zlen buffer)) as [Hle|Hlt].
  - intros Hr. inv_bind Hr. destruct a. apply flush_chunk_ok in Hrun.
    assert (zlen (ztake SLOT_DATA_SIZE buffer) ≤ SLOT_DATA_SIZE) as Hlen.
    { rewrite zlen_ztake by done. apply Z.le_min_l. }
    destruct (put_one_chunk_ok name _ _ _ data Hg Hlen Hp Hrun) as [Hg1 Hp1].
    destruct (IH _ _ _ Hg1 Hp1 Hr) as (pieces & Hg2 & Hp2 & Hcat & Hlt).
    exists (ztake SLOT_DATA_SIZE buffer :: pieces). rewrite <- app_assoc in Hp2.
    split_and!; [done|done| |done]. simpl. by rewrite <- app_assoc, Hcat, ztake_zdrop.
  - intros [= <- <-]. exists []. rewrite app_nil_r. by split_and!.
Qed.

Lemma stream_field_ok name content u u' g g' data :
  gw_ok name g → placed (gw_world g) name data →
  zlen (up_buffer u) < SLOT_DATA_SIZE →
  stream_field SLOT_DATA_SIZE name content u g = (Ok u', g') →
  ∃ pieces bytes, stream_bytes content = Some bytes ∧
    gw_ok name g' ∧ placed (gw_world g') name (data ++ pieces) ∧
    concat pieces ++ up_buffer u' = up_buffer u ++ bytes ∧ zlen (up_buffer u') < SLOT_DATA_SIZE ∧
    up_hasher u' = hasher_update (up_hasher u) bytes ∧
    up_total_size u' = up_total_size u + zlen bytes.
Proof.
  revert u g data. induction content as [|e content IH]; intros u g data Hg Hp Hb.
  { intros [= <- <-]. exists [], []. simpl. rewrite !app_nil_r, hasher_update_nil, zlen_nil, Z.add_0_r.
    by split_and!. }
  destruct e as [d|]; [|done]. cbn [stream_field]. destruct (_ <? _); [done|]. intros Hr.
  inv_bind Hr. rename a into rest.
  destruct (flush_full_ok _ _ _ _ _ _ _ Hg Hp Hrun) as (p1 & Hg1 & Hp1 & Hcat1 & Hlt1).
  destruct (IH (mkUpload _ _ rest _) _ _ Hg1 Hp1 Hlt1 Hr)
    as (p2 & bytes & Hsb & Hg2 & Hp2 & Hcat2 & Hlt2 & Hh & Ht).
  exists (p1 ++ p2), (d ++ bytes). cbn [up_buffer up_hasher up_total_size stream_bytes] in *.
  rewrite Hsb. rewrite <- app_assoc in Hp2.
  split_and!; [done|done|done| |done| |].
  - rewrite concat_app, <- app_assoc, Hcat2, app_assoc, Hcat1. by rewrite app_assoc.
  - by rewrite Hh, hasher_update_app.
  - rewrite Ht, zlen_app. lia.
Qed.

Lemma or_rollback_ok {A} name (m : GW (W := World) A) g a g' :
  or_rollback name m g = (Ok a, g') → m g = (Ok a, g').
Proof.
  unfold or_rollback, attempt. cbv [mbind ST_bind].
  destruct (m g) as [[x|e|] s]; [by intros [= <- <-]| |done].
  destruct (ignore_error _ s) as [[]]; done.
Qed.

(** Setting the checksum and the size leaves the chunks alone. *)
Lemma update_checksum_placed name checksum size g g' data :
  gw_ok name g → placed (gw_world g) name data →
  call (mc_update_object_checksum name checksum size) g = (Ok (inr ()), g') →
  gw_ok name g' ∧ placed (gw_world g') name data ∧
  ∃ o, objects (meta (gw_world g')) !! name = Some o ∧ mo_checksum o = checksum ∧
    mo_total_size o = size.
Proof.
  intros Hg (o & Ho & Hf).
  destruct (svc_update_object_checksum name checksum size (w_meta (gw_world g))) as [r n'] eqn:Hr.
  assert (mc_update_object_checksum name checksum size (gw_world g) =
    (r, set_meta n' (gw_world g))) as Hm.
  { cbn. unfold on_meta, zoom. by rewrite Hr. }
  rewrite (call_run _ _ _ _ Hm). destruct r as [[]|e|]; [|done..]. intros [= <-].
  destruct (local_update _ _ _ _ _ _ (gk_serves _ _ Hg) (gk_wf _ _ Hg) Ho Hr)
    as (Hwf & Hs & Hrng & Ho' & Hn' & Hc').
  destruct Hg as [_ Hdr Hgood _ Hc]. split_and!.
  - split; cbn; [done| |done|done|done]. unfold draws_u64. by rewrite Hrng.
  - eexists. split; [cbn; rewrite Ho'; apply lookup_insert_eq|]. simpl.
    eapply list.Forall2_impl; [exact Hf|]. intros i bytes Hi.
    eapply chunk_at_same_nodes; [exact Hi| |exact Hn'|done]. cbn. by rewrite Hc'.
  - eexists. split; [cbn; rewrite Ho'; apply lookup_insert_eq|done].
Qed.

(** C9: A streamed multipart upload that answers [Ok] stored the "file" field of the form,
    all of it: the reported length, the recorded size and checksum are those of its
    bytes, and a GET gives them back. *)
Theorem multipart_upload_reads_back name form len g g' :
  gw_ok name g → handle_put_object_multipart name form g = (Ok len, g') →
  ∃ content bytes, find_file form = Some content ∧ stream_bytes content = Some bytes ∧
    len = zlen bytes ∧
    (∃ o, objects (meta (gw_world g')) !! name = Some o ∧ mo_checksum o = crc32 bytes ∧
      mo_total_size o = zlen bytes) ∧
    ∃ payload' g2, handle_get_object name g' = (Ok payload', g2) ∧
      b64_decode payload' = Some bytes.
Proof.
  intros Hg. unfold handle_put_object_multipart.
  destruct (validate_object_name name) eqn:Hv; [done|]. intros Hr.
  inv_bind Hr. apply call_or_500_ok, list_nodes_call in Hrun as ->.
  destruct a as [|first rest]; [done|].
  inv_bind Hr. apply connect_call in Hrun as ->.
  inv_bind Hr. apply call_or_500_ok, chunk_size_call in Hrun as [-> ->].
  inv_bind Hr. destruct a0 as [|[]]; [done|].
  destruct (created_placed _ _ _ _ Hg Hrun) as [Hg1 Hp1]. clear Hrun.
  inv_bind Hr. apply or_rollback_ok in Hrun. rename a0 into u.
  destruct (find_file form) as [content|] eqn:Hform; [|done].
  inv_bind Hrun. rename a0 into u0.
  destruct (stream_field_ok _ _ (mkUpload _ hasher_new [] 0) _ _ _ [] Hg1 Hp1 eq_refl Hrun0)
    as (pieces & bytes & Hsb & Hg2 & Hp2 & Hcat & Hlt & Hh & Ht).
  simpl in Hp2, Hcat, Hh, Ht. exists content, bytes. split; [done|]. split; [done|].
  inv_bind Hrun. destruct a0.
  assert (∃ all, gw_ok name s2 ∧ placed (gw_world s2) name all ∧ concat all = bytes)
    as (all & Hg3 & Hp3 & Hall).
  { destruct (decide (up_buffer u0 = [])) as [Hnil|Hbuf].
    - injection Hrun1 as <-. exists pieces. rewrite Hnil, app_nil_r in Hcat. by split_and!.
    - apply flush_chunk_ok in Hrun1.
      destruct (put_one_chunk_ok _ _ _ _ _ Hg2 (Z.lt_le_incl _ _ Hlt) Hp2 Hrun1) as [? ?].
      exists (pieces ++ [up_buffer u0]). rewrite concat_app. simpl. rewrite app_nil_r.
      by split_and!. }
  inv_bind Hrun. destruct a0. apply call_or_500_ok in Hrun2. injection Hrun as <- <-.
  destruct (update_checksum_placed _ _ _ _ _ _ Hg3 Hp3 Hrun2) as (Hg4 & Hp4 & o & Ho & Hck & Hsz).
  inv_bind Hr. destruct a0. apply (gw_ok_measure name) in Hrun as [Hg5 Hw5]; [|done].
  inv_bind Hr. destruct a0. apply (gw_ok_measure name) in Hrun as [Hg6 Hw6]; [|done].
  inv_bind Hr. destruct a0. apply (gw_ok_measure name) in Hrun as [Hg7 Hw7]; [|done].
  injection Hr as <- <-. rewrite Hw7, Hw6, Hw5.
  split; [by rewrite Ht|]. split.
  - exists o. rewrite Hck, Hsz, Hh, Ht. split_and!; [done|done|lia].
  - match type of Hg7 with gw_ok _ ?gg => destruct (get_placed name all gg Hv Hg7) as (g2 & Hget) end.
    { by rewrite Hw7, Hw6, Hw5. }
    rewrite Hall in Hget. eexists _, g2. split; [exact Hget|apply b64_roundtrip].
Qed.

End theorems.

(** ** Witnesses *)

#[local] Existing Instance toy_deps.
#[local] Existing Instance toy_xxh3.
#[local] Existing Instance crc32_ieee.
#[local] Existing Instance toy_base64.
#[local] Existing Instance ascii_only.

Lemma uploaded_object_reads_back_witness :
  ∃ payload' g2,
    handle_get_object "a/b" (handle_put_object "a/b" "hello" gateway1).2 = (Ok payload', g2) ∧
    b64_decode payload' = Some (String.list_byte_of_string "hello").
Proof.
  assert (handle_put_object "a/b" "hello" gateway1 =
    (Ok 5, (handle_put_object "a/b" "hello" gateway1).2)) as Hr.
  { apply run_answer. vm_compute. reflexivity. }
  destruct (uploaded_object_reads_back "a/b" "hello" 5 gateway1 _ (gateway1_ok _) Hr)
    as (bytes & Hb & _ & Hget & _).
  injection Hb as <-. exact Hget.
Defined.

(** The storage node of the sample system has room for two chunks. *)
Lemma gateway1_ready k : (k ≤ 2)%nat → ready k (gw_world gateway1).
Proof.
  intros Hk. split.
  - split; [done|by eexists].
  - exists (take k [21; 22]), (drop k [21; 22] ++ [23]).
    split_and!; [by rewrite app_assoc, take_drop|by rewrite length_take_le| |].
    { apply (sublist_NoDup _ [21; 22]); [|apply sublist_take]. apply (bool_decide_unpack _). by vm_compute. }
    intros id _. split; [done|]. intros a.
    unfold node_data. change (w_nodes (gw_world gateway1)) with
      ({["http://d" := disk_node]} : gmap string StorageNodeImpl).
    destruct (decide ("http://d" = a)) as [<-|Hne].
    + rewrite lookup_singleton_eq. done.
    + by rewrite lookup_singleton_ne.
  - intros Hn. apply (f_equal (λ m : gmap Z MetaStorageNode, m !! 1)) in Hn. done.
  - intros x node Hx. change (storage_nodes (meta (gw_world gateway1))) with
      ({[1 := up_node]} : gmap Z MetaStorageNode) in Hx.
    apply lookup_singleton_Some in Hx as [_ <-]. exists disk_node. split; [done|].
    change (Z.of_nat k ≤ 2). lia.
Qed.

Lemma upload_succeeds_witness : ∃ g', handle_put_object "a/b" "hello" gateway1 = (Ok 5, g').
Proof.
  apply (upload_succeeds "a/b" "hello" (String.list_byte_of_string "hello") gateway1).
  - apply gateway1_ok.
  - vm_compute. reflexivity.
  - reflexivity.
  - done.
  - reflexivity.
  - apply gateway1_ready, Nat.leb_le. vm_compute. reflexivity.
Defined.

(** The state in which the object has its first byte and the second chunk is given to the
    node that is down. *)
Definition half_created : AppState World := (call (mc_put_object "a" 5) gateway2).2.
Definition half_uploaded : AppState World := (put_one_chunk "a" [Byte.x41] half_created).2.

Lemma half_uploaded_ok :
  gw_ok "a" half_uploaded ∧ placed (gw_world half_uploaded) "a" [[Byte.x41]].
Proof.
  destruct (created_placed "a" 5 gateway2 half_created (gateway2_ok _)) as [Hg Hp].
  { unfold half_created. apply run_answer. vm_compute. reflexivity. }
  apply (put_one_chunk_ok "a" [Byte.x41] half_created half_uploaded [] Hg); [done|exact Hp|].
  unfold half_uploaded. apply run_answer. vm_compute. reflexivity.
Qed.

Definition second_allocation := svc_allocate_chunk "a" (w_meta (gw_world half_uploaded)).

Lemma unreachable_node_truncates_the_object_witness :
  (∃ g', put_chunks "a" [[Byte.x42]] half_uploaded = (Err INTERNAL_SERVER_ERROR, g') ∧
    ∃ g2, handle_get_object "a" g' = (Ok (b64_encode (concat [[Byte.x41]])), g2)) ∧
  ∃ g', or_rollback "a" (_ ← flush_chunk_to_storage [Byte.x42] "a"; mret ()) half_uploaded =
      (Err INTERNAL_SERVER_ERROR, g') ∧
    ∃ g2, handle_get_object "a" g' = (Err NOT_FOUND, g2).
Proof.
  destruct half_uploaded_ok as [Hg Hp].
  assert (second_allocation = (Ok (mkAllocateChunkResponse 22 "http://e" 2), second_allocation.2)) as Ha.
  { rewrite (surjective_pairing second_allocation).
    apply (f_equal (λ r, (r, second_allocation.2))). vm_compute. reflexivity. }
  apply (unreachable_node_truncates_the_object "a" [[Byte.x41]] [Byte.x42] []
    (mkAllocateChunkResponse 22 "http://e" 2) second_allocation.2 half_uploaded (mret ())).
  - reflexivity.
  - exact Hg.
  - exact Hp.
  - exact Ha.
  - vm_compute. reflexivity.
  - vm_compute. reflexivity.
Defined.

Definition two_pieces : list form_event :=
  [Field None []; Field (Some "file") [Data [Byte.x41]; Data [Byte.x42]]].

Lemma multipart_upload_reads_back_witness :
  ∃ payload' g2,
    handle_get_object "a" (handle_put_object_multipart "a" two_pieces gateway1).2 = (Ok payload', g2) ∧
    b64_decode payload' = Some [Byte.x41; Byte.x42].
Proof.
  assert (handle_put_object_multipart "a" two_pieces gateway1 =
    (Ok 2, (handle_put_object_multipart "a" two_pieces gateway1).2)) as Hr.
  { apply run_answer. vm_compute. reflexivity. }
  destruct (multipart_upload_reads_back "a" two_pieces 2 gateway1 _ (gateway1_ok _) Hr)
    as (content & bytes & Hf & Hb & _ & _ & Hget).
  injection Hf as <-. injection Hb as <-. exact Hget.
Defined.
