(* ===== verification/DeleteTheorems.v ===== *)
(** * DeleteTheorems: deleting an object through the whole system

    What DELETE of api-gateway/src/handlers.rs leaves on the metadata node and on the
    storage nodes. *)

From S2P Require Import Prelude.
From S2P Require Import Bytes.
From S2P Require Import Crc32.
From S2P Require Import ChunkStore.
From S2P Require Import ChunkStoreFacts.
From S2P Require Import ChunkStoreSpec.
From S2P Require Import Grpc.
From S2P Require Import StorageNode.
From S2P Require Import HashRing.
From S2P Require Import MetadataStore.
From S2P Require Import MetadataStoreFacts.
From S2P Require Import ChunkIndex.
From S2P Require Import ClusterService.
From S2P Require Import Cluster.
From S2P Require Import Forwarding.
From S2P Require Import MetadataService.
From S2P Require Import Network.
From S2P Require Import ClusterFacts.
From S2P Require Import RoutingFacts.
From S2P Require Import PublicService.
From S2P Require Import PublicFacts.
From S2P Require Import ClusterRun.
From S2P Require Import Clients.
From S2P Require Import Gateway.
From S2P Require Import SystemFacts.
From S2P Require Import Progress.
From S2P Require Import Samples.
From S2P Require Import SampleSystem.
From S2P Require Import SystemTheorems.
Open Scope string_scope.
Open Scope list_scope.
Open Scope Z_scope.

Section theorems.
Context `{MetaDeps} `{Xxh3} `{Crc32} `{Base64} `{UnicodeTables}.

(** ** The storage nodes *)

Lemma gw_ok_world name g w' :
  gw_ok name g → w_meta w' = w_meta (gw_world g) → nodes_good w' →
  gw_ok name (set_gw_world w' g).
Proof. intros [Hwf Hdr _ Hs Hc] Hm Hg. split; cbn; rewrite ?Hm; done. Qed.

Lemma retry_err {E A} k (f : ST World E A) w e :
  f w = (Err e, w) → retry_with_backoff k f w = (Err e, w).
Proof.
  intros Hf. unfold retry_with_backoff. induction k as [|k IH]; simpl; [done|].
  unfold attempt. cbv [mbind ST_bind]. by rewrite Hf.
Qed.

(** Deleting a copy never fails the request, and removes it if the node is up. *)
Lemma delete_copy_spec name id a g :
  gw_ok name g →
  ∃ b g', delete_copy (id, a) g = (Ok b, g') ∧ gw_ok name g' ∧
    w_meta (gw_world g') = w_meta (gw_world g) ∧ same_nodes (gw_world g) (gw_world g') ∧
    ∀ x, node_data (gw_world g') x =
      if decide (a = x) then delete id (node_data (gw_world g) x) else node_data (gw_world g) x.
Proof.
  intros Hg. unfold delete_copy. cbn [fst snd]. unfold attempt. cbv [mbind ST_bind].
  destruct (get_or_connect_spec name a g Hg) as (r & g1 & -> & Hw1 & Hg1 & Hr).
  destruct r as [c|e|]; [subst c| |done].
  2: { destruct Hr as (_ & -> & Hdown). exists false, g. split_and!; [done..|].
       intros x. case_decide; [subst x|done]. unfold node_data. by rewrite Hdown, delete_empty. }
  destruct (world_delete a id (gw_world g1) (gk_nodes _ _ Hg1))
    as (r & w2 & Hr2 & Hm2 & Hgood2 & Hsn2 & _ & Hd2).
  assert (∃ r', retry_with_backoff 2 (sn_delete_chunk a id) (gw_world g1) = (r', w2) ∧ r' ≠ Panic)
    as (r' & Hretry & Hnp).
  { destruct (w_nodes (gw_world g1) !! a) as [n|] eqn:Ha.
    - destruct r as [[]|e|]; [by eexists; split; [apply retry_ok|]| |].
      + revert Hr2. cbn. unfold on_node. rewrite Ha.
        destruct (NodeFacts.node_delete_spec id n (gk_nodes _ _ Hg1 _ _ Ha)) as (n' & Hn & _).
        run_st. by rewrite Hn.
      + revert Hr2. cbn. unfold on_node. rewrite Ha.
        destruct (NodeFacts.node_delete_spec id n (gk_nodes _ _ Hg1 _ _ Ha)) as (n' & Hn & _).
        run_st. by rewrite Hn.
    - assert (sn_delete_chunk a id (gw_world g1) = (Err Unavailable, gw_world g1)) as Hu.
      { cbn. unfold on_node. by rewrite Ha. }
      rewrite Hu in Hr2. injection Hr2 as <- <-. eexists. split; [by apply retry_err|done]. }
  rewrite (call_run _ _ _ _ Hretry).
  assert (gw_ok name (set_gw_world w2 g1)) as Hg2 by by apply gw_ok_world.
  destruct r' as [[]|e|]; [| |done]; eexists _, _; (split; [done|]);
    (split; [done|]); (split; [cbn; by rewrite Hm2, Hw1|]); rewrite <- Hw1;
    (split; [exact Hsn2|apply Hd2]).
Qed.

Lemma delete_copies_spec name targets g :
  gw_ok name g →
  ∃ bs g', delete_copies targets g = (Ok bs, g') ∧ gw_ok name g' ∧
    w_meta (gw_world g') = w_meta (gw_world g) ∧ same_nodes (gw_world g) (gw_world g') ∧
    ∀ x id, node_data (gw_world g') x !! id =
      if decide ((id, x) ∈ targets) then None else node_data (gw_world g) x !! id.
Proof.
  revert g. induction targets as [|[i a] targets IH]; intros g Hg; simpl.
  { exists [], g. by split_and!. }
  destruct (delete_copy_spec name i a g Hg) as (b & g1 & Hr & Hg1 & Hm1 & Hn1 & Hd1).
  destruct (IH g1 Hg1) as (bs & g2 & Hrs & Hg2 & Hm2 & Hn2 & Hd2).
  rewrite (bind_ok _ _ _ _ _ Hr), (bind_ok _ _ _ _ _ Hrs).
  exists (b :: bs), g2. split_and!; [done|done|by rewrite Hm2|by trans (gw_world g1)|].
  intros x id. rewrite Hd2, Hd1. destruct (decide ((id, x) = (i, a))) as [[= -> ->]|Hne].
  - rewrite (decide_True (P := a = a)) by done. rewrite lookup_delete_eq.
    rewrite (decide_True (P := (i, a) ∈ (i, a) :: targets)) by by left. by case_decide.
  - destruct (decide ((id, x) ∈ targets)).
    + by rewrite (decide_True (P := (id, x) ∈ (i, a) :: targets)) by by right.
    + rewrite (decide_False (P := (id, x) ∈ (i, a) :: targets)) by (rewrite elem_of_cons; naive_solver).
      case_decide; [|done]. subst a. rewrite lookup_delete_ne; [done|]. by intros ->.
Qed.

(** ** The metadata *)

(** The chunk index of [n'] has no ids that that of [n] lacks. *)
Definition index_shrinks (n n' : MetaNode Network) : Prop :=
  ∀ id, is_Some (sv_index (mn_server n') !! id) → is_Some (sv_index (mn_server n) !! id).

#[export] Instance index_shrinks_refl : Reflexive index_shrinks.
Proof. by intros n id. Qed.
#[export] Instance index_shrinks_trans : Transitive index_shrinks.
Proof. intros a b c Hab Hbc id Hi. by apply Hab, Hbc. Qed.

(** Deleting a listed chunk takes it out of its object, the chunks and the index. *)
Lemma delete_listed n name o id (s := sv_store (mn_server n)) :
  serves_itself n name → server_ok (mn_server n) →
  objects s !! name = Some o → id ∈ mo_chunks o →
  ∃ n' (s' := sv_store (mn_server n')),
    svc_delete_chunk id n = (Ok (), n') ∧ server_ok (mn_server n') ∧ same_place n n' ∧
    objects s' = <[name := set_object_chunks (filter (λ i, i ≠ id) (mo_chunks o)) o]> (objects s) ∧
    chunks s' = delete id (chunks s) ∧ storage_nodes s' = storage_nodes s ∧ ms_rng s' = ms_rng s ∧
    index_shrinks n n'.
Proof.
  intros Hs Hok Ho Hi.
  destruct (mw_listed _ (so_wf _ Hok) _ _ _ Ho Hi) as (c & Hc & Hcn & _).
  assert (∃ n', svc_delete_chunk id n = ((forward_delete_chunk id (mn_server n)).1, n') ∧
    mn_server n' = (forward_delete_chunk id (mn_server n)).2 ∧ same_place n n' ∧ index_shrinks n n' ∧
    (forward_delete_chunk id (mn_server n)).1 = Ok () ∧ ∃ d,
    sv_store (mn_server n') = set_disk d
      (set_objects (<[name := set_object_chunks (filter (λ i, i ≠ id) (mo_chunks o)) o]> (objects s))
        (set_chunks (delete id (chunks s)) s))) as (n' & Hr & Hn' & Hs' & Hix & Hok' & d & Hst).
  { unfold svc_delete_chunk. rewrite (route_chunk_known n id name) by by eapply so_index.
    rewrite route_object_here by done.
    assert (∃ d, delete_chunk id s = (Ok (), set_disk d
      (set_objects (<[name := set_object_chunks (filter (λ i, i ≠ id) (mo_chunks o)) o]> (objects s))
        (set_chunks (delete id (chunks s)) s)))) as (d & Hd).
    { unfold delete_chunk. run_st. fold s in Hc. rewrite Hc, Hcn. cbn. rewrite Ho.
      match goal with |- context [save ?x] =>
        assert (store_calm x) as Hx by apply Hok; destruct (save_calm x Hx) as (d & -> & _) end.
      by exists d. }
    unfold forward_delete_chunk, with_store, rethrow, locked, with_index, on_server, on_index, zoom.
    run_st. fold s. rewrite Hd.
    eexists. split; [done|]. split; [done|]. split; [done|]. split; [|split; [done|by eexists]].
    intros i Hx. cbn in Hx. by apply lookup_delete_is_Some in Hx as [_ Hx]. }
  exists n'. rewrite Hr, Hok'. split_and!; [done| |done|by rewrite Hst|by rewrite Hst|by rewrite Hst|by rewrite Hst|done].
  rewrite Hn'. by eapply delete_chunk_serves, surjective_pairing.
Qed.

(** What the metadata has after the chunks [ids] of [name] were deleted. *)
Record unlisted (name : string) (ids : list Z) (s s' : MetadataStore) : Prop := mkUnlisted {
  ul_object o : objects s !! name = Some o → ∃ o', objects s' !! name = Some o' ∧
    mo_chunks o' = filter (λ i, i ∉ ids) (mo_chunks o);
  ul_others : delete name (objects s') = delete name (objects s);
  ul_chunks id : chunks s' !! id = if decide (id ∈ ids) then None else chunks s !! id;
  ul_nodes : storage_nodes s' = storage_nodes s;
  ul_rng : ms_rng s' = ms_rng s;
}.

Lemma filter_not_cons (id : Z) ids (l : list Z) :
  filter (λ i, i ∉ ids) (filter (λ i, i ≠ id) l) = filter (λ i, i ∉ id :: ids) l.
Proof.
  induction l as [|x l IH]; [done|]. rewrite !filter_cons.
  destruct (decide (x ≠ id)); rewrite ?filter_cons, ?IH;
    repeat case_decide; try done; set_solver.
Qed.

Lemma delete_from_metadata_spec name infos o g :
  gw_ok name g → server_ok (mn_server (w_meta (gw_world g))) →
  objects (meta (gw_world g)) !! name = Some o →
  NoDup (ci_id <$> infos) → (∀ i, i ∈ ci_id <$> infos → i ∈ mo_chunks o) →
  ∃ g', delete_from_metadata infos g = (Ok (), g') ∧ gw_ok name g' ∧
    server_ok (mn_server (w_meta (gw_world g'))) ∧
    w_nodes (gw_world g') = w_nodes (gw_world g) ∧
    same_place (w_meta (gw_world g)) (w_meta (gw_world g')) ∧
    index_shrinks (w_meta (gw_world g)) (w_meta (gw_world g')) ∧
    unlisted name (ci_id <$> infos) (meta (gw_world g)) (meta (gw_world g')).
Proof.
  revert o g. induction infos as [|info infos IH]; intros o g Hg Hok Ho Hnd Hin.
  { exists g. split_and!; [done..|]. split; simpl; [|done|done|done|done].
    intros o' Ho'. exists o'. split; [done|]. clear. induction (mo_chunks o') as [|x l IHl]; [done|].
    rewrite filter_cons, <- IHl. by rewrite decide_True by apply not_elem_of_nil. }
  rewrite fmap_cons in Hnd, Hin. apply list.NoDup_cons in Hnd as [Hni Hnd].
  destruct (delete_listed _ name o (ci_id info) (gk_serves _ _ Hg) Hok Ho) as
    (n' & Hr & Hok' & Hp' & Hobj & Hch & Hn & Hrng & Hix); [apply Hin; by left|].
  assert (mc_delete_chunk (ci_id info) (gw_world g) = (Ok (), set_meta n' (gw_world g))) as Hm.
  { cbn. unfold on_meta, zoom. by rewrite Hr. }
  set (g1 := set_gw_world (set_meta n' (gw_world g)) g).
  assert (gw_ok name g1) as Hg1.
  { split; cbn; [apply Hok'| |apply Hg| |apply Hg]; [unfold draws_u64; rewrite Hrng; apply Hg|].
    by eapply same_place_serves, Hg. }
  destruct (IH (set_object_chunks (filter (λ i, i ≠ ci_id info) (mo_chunks o)) o) g1)
    as (g2 & Hr2 & Hg2 & Hok2 & Hw2 & Hp2 & Hix2 & [Hu1 Hu2 Hu3 Hu4 Hu5]); [done|done| |done| |].
  { cbn. by rewrite Hobj, lookup_insert_eq. }
  { intros i Hi. simpl. apply list_elem_of_filter. split; [by intros ->|]. apply Hin. by right. }
  exists g2. split_and!; [|done|done|by rewrite Hw2|by trans n'|by trans n'|].
  - cbn [delete_from_metadata]. unfold ignore_error. cbv [mbind ST_bind].
    by rewrite (call_run _ _ _ _ Hm).
  - split.
    + intros o1. rewrite Ho. intros [= <-].
      destruct (Hu1 (set_object_chunks (filter (λ i, i ≠ ci_id info) (mo_chunks o)) o))
        as (o' & Ho' & Hc'); [cbn; by rewrite Hobj, lookup_insert_eq|].
      exists o'. split; [done|]. rewrite Hc'. apply filter_not_cons.
    + rewrite Hu2. cbn. by rewrite Hobj, delete_insert_eq.
    + intros i. rewrite Hu3. cbn. rewrite Hch. destruct (decide (i = ci_id info)) as [->|Hne].
      * rewrite lookup_delete_eq, (decide_True (P := _ ∈ _ :: _)) by by left. by case_decide.
      * rewrite lookup_delete_ne by done. repeat case_decide; set_solver.
    + by rewrite Hu4, <- Hn.
    + by rewrite Hu5, <- Hrng.
Qed.

Lemma delete_object_here n name o (s := sv_store (mn_server n)) :
  serves_itself n name → server_ok (mn_server n) → objects s !! name = Some o →
  ∃ n' (s' := sv_store (mn_server n')), svc_delete_object name n = (Ok (), n') ∧
    same_place n n' ∧ server_ok (mn_server n') ∧ objects s' = delete name (objects s) ∧
    chunks s' = foldl (λ m id, delete id m) (chunks s) (mo_chunks o) ∧
    storage_nodes s' = storage_nodes s ∧ ms_rng s' = ms_rng s ∧ index_shrinks n n'.
Proof.
  intros Hs Hok Ho. destruct (svc_delete_object name n) as [r n'] eqn:Hr.
  assert (server_ok (mn_server n')) as Hok'.
  { eapply (served_here_ok (DeleteObject name)); [by eapply delete_object_effect| |done|done].
    eapply destination_here; [done|]. by intros k [= <-]. }
  revert Hr. unfold svc_delete_object. rewrite route_object_here by done.
  unfold locked, on_server, zoom, with_index, count, current_store. run_st. fold s.
  rewrite (delete_object_run name s o Ho).
  destruct (save_calm (remove_object_of s name)) as (d & -> & _).
  { unfold remove_object_of. rewrite Ho. apply Hok. }
  intros [= <- Hn]. exists n'. split; [done|]. split; [by rewrite <- Hn|]. split; [done|].
  assert (index_shrinks n n') as Hix.
  { rewrite <- Hn. intros i Hi. cbn in Hi. unfold remove_all in Hi.
    rewrite foldl_remove_lookup in Hi. case_decide; [by destruct Hi|done]. }
  clear Hok'. split_and!; [..|done]; rewrite <- Hn; cbn; unfold remove_object_of; by rewrite Ho.
Qed.

(** ** DELETE *)

(** The copies that DELETE is sent to: every listed chunk on every node of it. *)
Lemma delete_targets_spec s o id a :
  ms_wf s → (∀ i, i ∈ mo_chunks o → is_Some (chunks s !! i)) →
  (id, a) ∈ delete_targets (oi_chunks (object_info s o)) ↔
  id ∈ mo_chunks o ∧ ∃ c x node, chunks s !! id = Some c ∧ x ∈ mc_storage_nodes c ∧
    storage_nodes s !! x = Some node ∧ sn_address node = a.
Proof.
  intros Hwf Hall. unfold delete_targets, object_info, chunk_info, known_nodes. cbn [oi_chunks].
  rewrite list_elem_of_bind. split.
  - intros (info & Ht & (c & -> & Hc)%list_elem_of_fmap).
    apply list_elem_of_omap in Hc as (i & Hi & Hc). simpl in Ht.
    destruct (mw_chunk _ Hwf _ _ Hc) as [Hid _].
    apply list_elem_of_fmap in Ht as (nd & [= -> ->] & Hnd).
    apply list_elem_of_omap in Hnd as (x & Hx & Hnd). rewrite Hid. split; [done|].
    destruct (storage_nodes s !! x) as [node|] eqn:Hn; [|done]. injection Hnd as <-.
    by exists c, x, node.
  - intros (Hi & c & x & node & Hc & Hx & Hn & <-). destruct (mw_chunk _ Hwf _ _ Hc) as [Hid _].
    eexists. split; [|apply list_elem_of_fmap; exists c; split; [reflexivity|];
      apply list_elem_of_omap; by exists id]. simpl.
    apply list_elem_of_fmap. exists (mkMetaStorageNode x (sn_address node)).
    rewrite Hid. split; [done|]. apply list_elem_of_omap. exists x. by rewrite Hn.
Qed.

Lemma info_ids s o :
  ms_wf s → (∀ i, i ∈ mo_chunks o → is_Some (chunks s !! i)) →
  ci_id <$> oi_chunks (object_info s o) = mo_chunks o.
Proof.
  intros Hwf. unfold object_info. cbn [oi_chunks]. induction (mo_chunks o) as [|i l IH]; [done|].
  intros Hall. destruct (Hall i) as [c Hc]; [by left|]. simpl. rewrite Hc. simpl.
  destruct (mw_chunk _ Hwf _ _ Hc) as [-> _]. f_equal. apply IH. intros j Hj. apply Hall. by right.
Qed.

(** The end of DELETE: the object is deleted. *)
Definition delete_last (name : string) : GW (W := World) unit :=
  d ← call (mc_delete_object name);
  match d with
  | inl _ => refuse "DELETE" "object" "500" INTERNAL_SERVER_ERROR
  | inr _ =>
      _ ← measure inc_deleted;
      _ ← measure (inc_http "DELETE" "object" "200");
      measure (observe_operation "delete_object")
  end.

(** What DELETE does once it knows the chunks of the object: their copies are deleted, then
    they, then the object. *)
Definition delete_known (name : string) (infos : list ChunkInfo) : GW (W := World) unit :=
  _ ← delete_copies (delete_targets infos);
  _ ← delete_from_metadata infos;
  delete_last name.

(** The same without the deletion of the chunks, which the deletion of the object does too. *)
Definition delete_whole (name : string) (infos : list ChunkInfo) : GW (W := World) unit :=
  _ ← delete_copies (delete_targets infos);
  delete_last name.

(** What a deletion of [o] leaves: the object and its chunks are off the metadata, the copies
    [targets] are off the storage nodes, and the rest is as before. *)
Record deleted (name : string) (o : MetaObject) (targets : list (Z * string))
    (g g' : AppState World) (s := meta (gw_world g)) (s' := meta (gw_world g')) : Prop := mkDeleted {
  dl_ok : gw_ok name g';
  dl_server : server_ok (mn_server (w_meta (gw_world g')));
  dl_place : same_place (w_meta (gw_world g)) (w_meta (gw_world g'));
  dl_up : same_nodes (gw_world g) (gw_world g');
  dl_objects : objects s' = delete name (objects s);
  dl_chunks id : chunks s' !! id = if decide (id ∈ mo_chunks o) then None else chunks s !! id;
  dl_nodes : storage_nodes s' = storage_nodes s;
  dl_rng : ms_rng s' = ms_rng s;
  dl_index : index_shrinks (w_meta (gw_world g)) (w_meta (gw_world g'));
  dl_data a id : node_data (gw_world g') a !! id =
    if decide ((id, a) ∈ targets) then None else node_data (gw_world g) a !! id;
}.

Lemma delete_known_run name infos o g (s := meta (gw_world g)) :
  gw_ok name g → server_ok (mn_server (w_meta (gw_world g))) →
  objects s !! name = Some o → ci_id <$> infos = mo_chunks o →
  ∃ g', delete_known name infos g = (Ok (), g') ∧ deleted name o (delete_targets infos) g g'.
Proof.
  intros Hg Hok Ho Hids.
  destruct (delete_copies_spec name (delete_targets infos) g Hg)
    as (bs & g2 & Hr2 & Hg2 & Hm2 & Hn2 & Hd2).
  assert (mn_server (w_meta (gw_world g2)) = mn_server (w_meta (gw_world g))) as Hsrv2
    by by rewrite Hm2.
  destruct (delete_from_metadata_spec name infos o g2 Hg2) as (g3 & Hr3 & Hg3 & Hok3 & Hw3 & Hp3 & Hix3 & Hu).
  1,2: by rewrite Hsrv2.
  { rewrite Hids. by destruct (mw_object _ (gk_wf _ _ Hg) _ _ Ho). }
  { by rewrite Hids. }
  rewrite Hsrv2, Hids in Hu. fold s in Hu. destruct Hu as [Hu1 Hu2 Hu3 Hu4 Hu5].
  destruct (Hu1 o Ho) as (o3 & Ho3 & Hc3).
  destruct (delete_object_here _ _ _ (gk_serves _ _ Hg3) Hok3 Ho3)
    as (n4 & Hr4 & Hp4 & Hok4 & Hobj4 & Hch4 & Hn4 & Hrng4 & Hix4).
  assert (mc_delete_object name (gw_world g3) = (Ok (), set_meta n4 (gw_world g3))) as Hm4.
  { cbn. unfold on_meta, zoom. by rewrite Hr4. }
  unfold delete_known, delete_last. rewrite (bind_ok _ _ _ _ _ Hr2), (bind_ok _ _ _ _ _ Hr3).
  rewrite (bind_ok _ _ _ _ _ (call_run _ _ _ _ Hm4)).
  eexists. split; [done|]. split; cbn.
  - destruct Hg3 as [_ Hdr Hgood Hs Hc]. split; cbn; [apply Hok4| |done| |done].
    + unfold draws_u64. by rewrite Hrng4.
    + by eapply same_place_serves.
  - done.
  - rewrite <- Hm2. by trans (w_meta (gw_world g3)).
  - trans (gw_world g2); [done|]. by apply same_nodes_eq.
  - by rewrite Hobj4.
  - intros id. rewrite Hch4, lookup_delete_all, Hu3, Hc3.
    destruct (decide (id ∈ mo_chunks o)); [by case_decide|]. rewrite decide_False; [done|].
    by intros [_ ?]%list_elem_of_filter.
  - by rewrite Hn4.
  - by rewrite Hrng4.
  - rewrite <- Hm2. by trans (w_meta (gw_world g3)).
  - intros a id. unfold node_data at 1. cbn. rewrite Hw3. exact (Hd2 a id).
Qed.

Lemma delete_whole_run name infos o g (s := meta (gw_world g)) :
  gw_ok name g → server_ok (mn_server (w_meta (gw_world g))) →
  objects s !! name = Some o → ci_id <$> infos = mo_chunks o →
  ∃ g', delete_whole name infos g = (Ok (), g') ∧ deleted name o (delete_targets infos) g g'.
Proof.
  intros Hg Hok Ho Hids.
  destruct (delete_copies_spec name (delete_targets infos) g Hg)
    as (bs & g2 & Hr2 & Hg2 & Hm2 & Hn2 & Hd2).
  destruct (delete_object_here (w_meta (gw_world g2)) name o (gk_serves _ _ Hg2))
    as (n4 & Hr4 & Hp4 & Hok4 & Hobj4 & Hch4 & Hn4 & Hrng4 & Hix4); [by rewrite Hm2..|].
  assert (mc_delete_object name (gw_world g2) = (Ok (), set_meta n4 (gw_world g2))) as Hm4.
  { cbn. unfold on_meta, zoom. by rewrite Hr4. }
  unfold delete_whole, delete_last. rewrite (bind_ok _ _ _ _ _ Hr2).
  rewrite (bind_ok _ _ _ _ _ (call_run _ _ _ _ Hm4)). rewrite Hm2 in *.
  eexists. split; [done|]. split; cbn; [|done|done| |done| |done|done|done|exact Hd2].
  - destruct Hg2 as [_ Hdr Hgood Hs Hc]. split; cbn; [apply Hok4| |done| |done].
    + unfold draws_u64 in *. rewrite Hrng4. by rewrite Hm2 in Hdr.
    + eapply same_place_serves; [exact Hp4|]. by rewrite Hm2 in Hs.
  - trans (gw_world g2); [done|]. by apply same_nodes_eq.
  - intros id. by rewrite Hch4, lookup_delete_all.
Qed.

Lemma deleted_read_only name o targets g g1 g' :
  read_only g g1 → deleted name o targets g1 g' → deleted name o targets g g'.
Proof.
  intros [Hs Hp Hd _ Hn _] [D1 D2 D3 D4 D5 D6 D7 D8 D10 D9]. split; try done.
  - by trans (w_meta (gw_world g1)).
  - by trans (gw_world g1).
  - by rewrite D5, Hs.
  - intros id. by rewrite D6, Hs.
  - by rewrite D7, Hs.
  - by rewrite D8, Hs.
  - intros id. rewrite <- Hs. apply D10.
  - intros a id. by rewrite D9, Hd.
Qed.

(** A run of DELETE: it asks for the chunks of the object first. *)
Lemma delete_run name o g (s := meta (gw_world g)) :
  gw_ok name g → server_ok (mn_server (w_meta (gw_world g))) →
  validate_object_name name = None → objects s !! name = Some o → all_registered s o →
  ∃ g', handle_delete_object name g = (Ok (), g') ∧
    deleted name o (delete_targets (oi_chunks (object_info s o))) g g'.
Proof.
  intros Hg Hok Hv Ho Hreg. pose proof (listed_chunks _ _ _ (gk_wf _ _ Hg) Ho) as Hall.
  destruct (get_call name g Hg) as (r & g1 & Hr1 & Hro & Hget). fold s in Hget.
  rewrite Ho in Hget. rewrite (Hget Hreg) in Hr1. clear Hget.
  pose proof (info_ids _ _ (gk_wf _ _ Hg) Hall) as Hids. fold s in Hids.
  set (infos := oi_chunks (object_info s o)) in *.
  destruct (delete_known_run name infos o g1) as (g' & Hr & Hdl);
    [by eapply gw_ok_read_only|by rewrite (ro_server _ _ Hro)..|done|].
  exists g'. unfold handle_delete_object. rewrite Hv, (bind_ok _ _ _ _ _ Hr1). cbv beta iota.
  cbn [go_chunks]. split; [exact Hr|]. by eapply deleted_read_only.
Qed.

(** A deletion leaves the room, the ids and the disk as they were. *)
Lemma ready_deleted k name o targets g g' :
  deleted name o targets g g' → ready k (gw_world g) → ready k (gw_world g').
Proof.
  intros Hdl. apply ready_kept; [apply (dl_server _ _ _ _ _ Hdl)|apply Hdl| |apply Hdl..|].
  - intros id Hid. rewrite (dl_chunks _ _ _ _ _ Hdl). by case_decide.
  - intros a. apply map_subseteq_spec. intros id b. rewrite (dl_data _ _ _ _ _ Hdl).
    by case_decide.
Qed.

(** C24: Deleting an object whose chunks are on registered storage nodes succeeds. The
    metadata then has neither the object nor its chunks and everything else as before;
    every storage node that is up has lost its copies of these chunks and no other
    chunk; a download is answered [404]. *)
Theorem deleted_object_is_gone name o g :
  gw_ok name g → server_ok (mn_server (w_meta (gw_world g))) →
  validate_object_name name = None → objects (meta (gw_world g)) !! name = Some o →
  all_registered (meta (gw_world g)) o →
  ∃ g', handle_delete_object name g = (Ok (), g') ∧
    objects (meta (gw_world g')) = delete name (objects (meta (gw_world g))) ∧
    (∀ id, chunks (meta (gw_world g')) !! id =
      if decide (id ∈ mo_chunks o) then None else chunks (meta (gw_world g)) !! id) ∧
    (∀ id c x node, id ∈ mo_chunks o → chunks (meta (gw_world g)) !! id = Some c →
      x ∈ mc_storage_nodes c → storage_nodes (meta (gw_world g)) !! x = Some node →
      node_data (gw_world g') (sn_address node) !! id = None) ∧
    (∀ a id, id ∉ mo_chunks o →
      node_data (gw_world g') a !! id = node_data (gw_world g) a !! id) ∧
    ∃ g2, handle_get_object name g' = (Err NOT_FOUND, g2).
Proof.
  intros Hg Hok Hv Ho Hreg.
  destruct (delete_run name o g Hg Hok Hv Ho Hreg) as (g' & Hr & [Hg' _ _ _ Ho' Hc' _ _ _ Hd']).
  set (s := meta (gw_world g)) in *. pose proof (listed_chunks _ _ _ (gk_wf _ _ Hg) Ho) as Hall.
  pose proof (λ id a, delete_targets_spec s o id a (gk_wf _ _ Hg) Hall) as Ht.
  exists g'. split_and!; [done|done|done| | |].
  - intros id c x node Hi Hc Hx Hn. rewrite Hd', decide_True; [done|].
    apply (Ht id (sn_address node)). split; [done|]. by exists c, x, node.
  - intros a id Hi. rewrite Hd', decide_False; [done|]. by intros [? _]%(Ht id a).
  - destruct (get_call name g' Hg') as (r & g2 & Hget & _ & Hno).
    rewrite Ho', lookup_delete_eq in Hno. destruct Hno as [e ->]. unfold handle_get_object.
    rewrite Hv, (bind_ok _ _ _ _ _ Hget). by eexists.
Qed.

End theorems.

(** ** Witnesses *)

#[local] Existing Instance toy_deps.
#[local] Existing Instance toy_xxh3.
#[local] Existing Instance crc32_ieee.
#[local] Existing Instance toy_base64.
#[local] Existing Instance ascii_only.

(** The sample system after one upload. *)
Definition stored : AppState World := (handle_put_object "a/b" "hello" gateway1).2.

Definition stored_object : MetaObject :=
  default (new_object "" 0) (objects (meta (gw_world stored)) !! "a/b").

Lemma stored_ok : gw_ok "a/b" stored ∧ objects (meta (gw_world stored)) !! "a/b" = Some stored_object ∧
  all_registered (meta (gw_world stored)) stored_object.
Proof.
  assert (handle_put_object "a/b" "hello" gateway1 = (Ok 5, stored)) as Hr.
  { unfold stored. apply run_answer. vm_compute. reflexivity. }
  destruct (upload_placed "a/b" "hello" 5 gateway1 stored (gateway1_ok _) Hr)
    as (_ & bytes & _ & _ & Hg & Hp).
  destruct (placed_response _ _ _ (gk_wf _ _ Hg) Hp) as (o & Ho & Hreg & _).
  unfold stored_object. rewrite Ho. by split_and!.
Qed.

Lemma stored_server_ok : server_ok (mn_server (w_meta (gw_world stored))).
Proof.
  destruct stored_ok as [Hg _]. split; [apply Hg| |split; [vm_compute; reflexivity|by eexists]].
  assert (map_Forall (λ k o, Forall (λ id, sv_index (mn_server (w_meta (gw_world stored))) !! id = Some k)
    (mo_chunks o)) (objects (meta (gw_world stored)))) as Hall.
  { apply (bool_decide_eq_true_1 _). vm_compute. reflexivity. }
  intros k o id Ho Hi. specialize (Hall k o Ho). by eapply list.Forall_forall in Hall.
Qed.

Lemma deleted_object_is_gone_witness :
  ∃ g', handle_delete_object "a/b" stored = (Ok (), g') ∧
    ∃ g2, handle_get_object "a/b" g' = (Err NOT_FOUND, g2).
Proof.
  destruct stored_ok as (Hg & Ho & Hreg).
  destruct (deleted_object_is_gone "a/b" stored_object stored Hg stored_server_ok eq_refl Ho Hreg)
    as (g' & Hr & _ & _ & _ & _ & Hget).
  exists g'. split; [exact Hr|exact Hget].
Defined.
