(* ===== verification/OverlapTheorems.v ===== *)
(** * OverlapTheorems: requests on one object that overlap

    What the handlers of api-gateway/src/handlers.rs do when a DELETE comes while a PUT of
    the same name runs, and what a PUT that fails leaves on the storage nodes. *)

From S2P Require Import Prelude.
From S2P Require Import Bytes.
From S2P Require Import Crc32.
From S2P Require Import ChunkStore.
From S2P Require Import Grpc.
From S2P Require Import HashRing.
From S2P Require Import MetadataStore.
From S2P Require Import MetadataStoreFacts.
From S2P Require Import ChunkIndex.
From S2P Require Import ClusterService.
From S2P Require Import Cluster.
From S2P Require Import Forwarding.
From S2P Require Import MetadataService.
From S2P Require Import Network.
From S2P Require Import ClusterFacts.
From S2P Require Import RoutingFacts.
From S2P Require Import Clients.
From S2P Require Import Gateway.
From S2P Require Import Uploads.
From S2P Require Import SystemFacts.
From S2P Require Import Progress.
From S2P Require Import Samples.
From S2P Require Import SampleSystem.
From S2P Require Import FailureTheorems.
From S2P Require Import SystemTheorems.
From S2P Require Import DeleteTheorems.
Open Scope string_scope.
Open Scope list_scope.
Open Scope Z_scope.

Section theorems.
Context `{MetaDeps} `{Xxh3} `{Crc32} `{Base64} `{UnicodeTables}.

Lemma placed_registered w name data :
  ms_wf (meta w) → placed w name data → ∃ o, objects (meta w) !! name = Some o ∧ all_registered (meta w) o.
Proof. intros Hwf (o & Ho & Hreg & _)%placed_response; [by exists o|done]. Qed.

(** An upload that ends well has put its remaining chunks after what was there. *)
Lemma run_steps_placed name rest g g' data :
  gw_ok name g → Forall (λ c, zlen c ≤ SLOT_DATA_SIZE) rest → placed (gw_world g) name data →
  run_steps (4 * length rest + 2) name (Sending rest) g = (Ok Finished, g') →
  gw_ok name g' ∧ placed (gw_world g') name (data ++ rest).
Proof.
  intros Hg Hsz Hp. rewrite run_steps_chunks by done. unfold as_phase.
  destruct (put_chunks name rest g) as [[[]|e|] g1] eqn:Hput; [|done..]. intros [= <-].
  by eapply put_chunks_ok.
Qed.

(** C36: An object deleted while it is uploaded as JSON, and uploaded anew by somebody else, ends
    as a mixture. The first upload has sent some of its chunks; the object is deleted, and
    the second upload stores its own body; the first upload goes on where it was. While the
    storage nodes have room, all three requests are answered with success, the first upload's
    remaining chunks are appended to the second object, and a download gives the second body
    followed by the rest of the first. *)
Theorem delete_mixes_uploads name sent rest payload bytes g :
  gw_ok name g → server_ok (mn_server (w_meta (gw_world g))) →
  validate_object_name name = None → placed (gw_world g) name sent →
  Forall (λ c, zlen c ≤ SLOT_DATA_SIZE) rest →
  b64_decode payload = Some bytes → zlen bytes ≤ MAX_OBJECT_SIZE →
  ready (length (slice_chunks SLOT_DATA_SIZE bytes) + length rest) (gw_world g) →
  ∃ g1 g2 g3 g4, handle_delete_object name g = (Ok (), g1) ∧
    handle_put_object name payload g1 = (Ok (zlen bytes), g2) ∧
    run_steps (4 * length rest + 2) name (Sending rest) g2 = (Ok Finished, g3) ∧
    handle_get_object name g3 = (Ok (b64_encode (bytes ++ concat rest)), g4).
Proof.
  intros Hg Hok Hv Hp Hsz Hb Hmax Hrd.
  destruct (placed_registered _ _ _ (gk_wf _ _ Hg) Hp) as (o & Ho & Hreg).
  destruct (delete_run name o g Hg Hok Hv Ho Hreg) as (g1 & Hdel & Hdl).
  pose proof (dl_ok _ _ _ _ _ Hdl) as Hg1. pose proof (ready_deleted _ _ _ _ _ _ Hdl Hrd) as Hrd1.
  assert (objects (meta (gw_world g1)) !! name = None) as Hn1.
  { by rewrite (dl_objects _ _ _ _ _ Hdl), lookup_delete_eq. }
  destruct (upload_run _ _ _ _ _ Hg1 Hv Hb Hmax Hn1 Hrd1) as (_ & g2' & g2 & Hput & _ & _ & Hw & _ & Hrd2).
  rewrite <- Hw in Hrd2.
  destruct (upload_placed _ _ _ _ _ Hg1 Hput) as (_ & bytes' & Hb' & _ & Hg2 & Hp2).
  rewrite Hb in Hb'. injection Hb' as <-.
  destruct (put_chunks_ready name rest 0 g2 _ Hg2 Hsz Hp2) as (g3 & Hrest & _);
    [by rewrite Nat.add_0_r|].
  assert (run_steps (4 * length rest + 2) name (Sending rest) g2 = (Ok Finished, g3)) as Hrun.
  { rewrite run_steps_chunks by done. unfold as_phase. by rewrite Hrest. }
  destruct (run_steps_placed _ _ _ _ _ Hg2 Hsz Hp2 Hrun) as [Hg3 Hp3].
  destruct (get_placed _ _ g3 Hv Hg3 Hp3) as (g4 & Hget).
  destruct (slice_chunks_spec SLOT_DATA_SIZE bytes slot_size_pos) as [Hcat _].
  rewrite concat_app, Hcat in Hget. by exists g1, g2, g3, g4.
Qed.

(** A download compares neither the checksum of the object nor that of a chunk with the
    metadata: whatever they say, it answers with the bytes that the storage nodes have. *)
Theorem downloads_ignore_checksums name data o g :
  validate_object_name name = None → gw_ok name g → placed (gw_world g) name data →
  objects (meta (gw_world g)) !! name = Some o → mo_checksum o ≠ compute_checksum (concat data) →
  ∃ g', handle_get_object name g = (Ok (b64_encode (concat data)), g').
Proof. intros Hv Hg Hp _ _. by apply get_placed. Qed.

(** ** Requests on an object that is not there *)

Lemma confirm_refused n id name checksum nid (s := sv_store (mn_server n)) :
  serves_itself n name → objects s !! name = None →
  is_Some (storage_nodes s !! nid) → chunks s !! id = Some (new_pending id name) →
  ∃ n', svc_confirm_chunk id name checksum nid n = (Err NotFoundCode, n') ∧
    sv_store (mn_server n') = s ∧ serves_itself n' name.
Proof.
  intros Hs Ho Hnid Hch. unfold svc_confirm_chunk. rewrite route_object_here by done.
  unfold locked, with_index, on_server, on_index, zoom, count, confirm_chunk. run_st. fold s.
  rewrite decide_True, Hch by done. cbn [new_pending]. rewrite Ho. by eexists.
Qed.

Lemma delete_refused n name (s := sv_store (mn_server n)) :
  serves_itself n name → objects s !! name = None →
  ∃ e n', svc_delete_object name n = (Err e, n') ∧ sv_store (mn_server n') = s.
Proof.
  intros Hs Ho. unfold svc_delete_object. rewrite route_object_here by done.
  unfold locked, with_index, on_server, on_index, zoom, count, current_store, delete_object. run_st.
  fold s. rewrite Ho. cbn. by eexists _, _.
Qed.

(** Where the metadata does not have the object, as after a DELETE, a PUT that goes on
    writes its next chunk, is refused the confirmation, and is answered [500]. Its
    rollback finds nothing to delete: the chunk stays in a slot of the storage node, on
    no list, and pending in the metadata, where nothing removes it. *)
Theorem rollback_leaves_the_chunk name chunk g k :
  gw_ok name g → zlen chunk ≤ SLOT_DATA_SIZE → objects (meta (gw_world g)) !! name = None →
  ready (S k) (gw_world g) →
  ∃ id a g', put_one_chunk name chunk g = (Err INTERNAL_SERVER_ERROR, g') ∧
    node_data (gw_world g) a !! id = None ∧ node_data (gw_world g') a !! id = Some chunk ∧
    objects (meta (gw_world g')) = objects (meta (gw_world g)) ∧
    chunks (meta (gw_world g')) = <[id := new_pending id name]> (chunks (meta (gw_world g))).
Proof.
  intros Hg Hlen Hn Hrd.
  destruct (chunk_written_ready _ _ _ _ Hg Hlen Hrd) as (resp & g1 & -> & Hg1 & _ & Hw).
  destruct Hw as [Hobj Hfree Hfresh Hch (node & Hnode & _) Hdata].
  set (id := ac_chunk_id resp) in *. exists id, (ac_storage_node_address resp).
  destruct (confirm_refused (w_meta (gw_world g1)) id name (compute_checksum chunk)
    (ac_storage_node_id resp)) as (n2 & Hr2 & Hs2 & Hserves);
    [apply Hg1|by rewrite Hobj|by eexists|by rewrite Hch, lookup_insert_eq|].
  assert (mc_confirm_chunk id name (compute_checksum chunk) (ac_storage_node_id resp) (gw_world g1)
    = (Err NotFoundCode, set_meta n2 (gw_world g1))) as Hm2.
  { cbn. unfold on_meta, zoom. by rewrite Hr2. }
  unfold confirm_written. rewrite (bind_ok _ _ _ _ _ (call_run _ _ _ _ Hm2)).
  destruct (delete_refused n2 name Hserves) as (e & n3 & Hr3 & Hs3); [by rewrite Hs2, Hobj|].
  assert (mc_delete_object name (set_meta n2 (gw_world g1)) = (Err e, set_meta n3 (gw_world g1))) as Hm3.
  { cbn. unfold on_meta, zoom. cbn. by rewrite Hr3. }
  unfold ignore_error. eexists. split.
  { cbv [mbind ST_bind].
    rewrite (call_run (mc_delete_object name) (set_gw_world (set_meta n2 (gw_world g1)) g1) _ _ Hm3).
    done. }
  split_and!; [done|exact Hdata| |]; cbn; by rewrite Hs3, Hs2.
Qed.

(** ** Replication *)

(** DELETE asks for the copies once, and then works on that answer. *)
Lemma delete_is_get_then_known name :
  handle_delete_object (W := World) name =
  match validate_object_name name with
  | Some _ => refuse "DELETE" "object" "400" BAD_REQUEST
  | None =>
      r ← call (mc_get_object name);
      match r with
      | inl _ => refuse "DELETE" "object" "404" NOT_FOUND
      | inr resp => delete_known name (go_chunks resp)
      end
  end.
Proof. done. Qed.

(** A copy that the replication service adds after DELETE has asked for the copies is not
    deleted: the request is answered with success, the metadata has neither the object nor
    its chunk any more, and the copy stays in its slot, on no list. *)
Theorem replica_added_during_delete_stays name o infos id a bytes g :
  gw_ok name g → server_ok (mn_server (w_meta (gw_world g))) →
  objects (meta (gw_world g)) !! name = Some o → ci_id <$> infos = mo_chunks o →
  id ∈ mo_chunks o → node_data (gw_world g) a !! id = Some bytes →
  (id, a) ∉ delete_targets infos →
  ∃ g', delete_known name infos g = (Ok (), g') ∧
    objects (meta (gw_world g')) !! name = None ∧ chunks (meta (gw_world g')) !! id = None ∧
    node_data (gw_world g') a !! id = Some bytes.
Proof.
  intros Hg Hok Ho Hids Hid Hdata Hnot.
  destruct (delete_known_run name infos o g Hg Hok Ho Hids) as (g' & Hr & [_ _ _ _ Ho' Hc' _ _ _ Hd']).
  exists g'. split; [done|]. rewrite Ho', lookup_delete_eq, Hc', Hd', decide_True, decide_False by done.
  done.
Qed.

End theorems.

(** ** Witnesses *)

#[local] Existing Instance toy_deps.
#[local] Existing Instance toy_xxh3.
#[local] Existing Instance crc32_ieee.
#[local] Existing Instance toy_base64.
#[local] Existing Instance ascii_only.

(** An upload has created its object and sent nothing. *)
Definition just_created : AppState World := (call (mc_put_object "a" 5) gateway1).2.
Definition just_deleted : AppState World := (handle_delete_object "a" just_created).2.
Definition uploaded_anew : AppState World := (handle_put_object "a" "two" just_deleted).2.
Definition first_body : list (list byte) := [String.list_byte_of_string "one"].
Definition both_done : AppState World := (run_steps 6 "a" (Sending first_body) uploaded_anew).2.

Lemma just_created_ok : gw_ok "a" just_created ∧ placed (gw_world just_created) "a" [].
Proof.
  apply (created_placed "a" 5 gateway1); [apply gateway1_ok|].
  unfold just_created. apply run_answer. vm_compute. reflexivity.
Qed.

Lemma just_created_server_ok : server_ok (mn_server (w_meta (gw_world just_created))).
Proof.
  destruct just_created_ok as [Hg _]. split; [apply Hg| |split; [vm_compute; reflexivity|by eexists]].
  intros k o id. change (objects _) with ({["a" := new_object "a" 5]} : gmap string MetaObject).
  intros [<- <-]%lookup_singleton_Some Hi. by apply not_elem_of_nil in Hi.
Qed.

Lemma just_created_ready : ready 2 (gw_world just_created).
Proof.
  pose proof (gateway1_ready 2 ltac:(lia)) as Hrd.
  destruct (created_ready "a" 5 gateway1 2 (gateway1_ok _) eq_refl Hrd) as (g' & Hr & Hrd').
  by assert (just_created = g') as -> by (unfold just_created; by rewrite Hr).
Qed.

Definition two_bytes : list byte := String.list_byte_of_string "two".

Lemma delete_mixes_uploads_witness :
  b64_encode (two_bytes ++ concat first_body) = "twoone" ∧
  ∃ g1 g2 g3 g4, handle_delete_object "a" just_created = (Ok (), g1) ∧
    handle_put_object "a" "two" g1 = (Ok (zlen two_bytes), g2) ∧
    run_steps (4 * length first_body + 2) "a" (Sending first_body) g2 = (Ok Finished, g3) ∧
    handle_get_object "a" g3 = (Ok (b64_encode (two_bytes ++ concat first_body)), g4).
Proof.
  split; [vm_compute; reflexivity|]. destruct just_created_ok as [Hg Hp].
  apply (delete_mixes_uploads "a" [] first_body "two" two_bytes just_created Hg
    just_created_server_ok).
  - reflexivity.
  - exact Hp.
  - by repeat constructor.
  - reflexivity.
  - by vm_compute.
  - exact just_created_ready.
Defined.

Lemma both_done_ok :
  gw_ok "a" both_done ∧
  placed (gw_world both_done) "a" [String.list_byte_of_string "two"; String.list_byte_of_string "one"].
Proof.
  destruct just_created_ok as [Hg Hp].
  destruct (placed_registered _ _ _ (gk_wf _ _ Hg) Hp) as (o & Ho & Hreg).
  destruct (delete_run "a" o just_created Hg just_created_server_ok eq_refl Ho Hreg)
    as (g1 & Hdel & [Hg1 _ _ _ _ _ _ _ _]).
  assert (g1 = just_deleted) as -> by (unfold just_deleted; by rewrite Hdel).
  destruct (upload_placed "a" "two" 3 just_deleted uploaded_anew Hg1) as (_ & bytes & Hb & _ & Hg2 & Hp2).
  { unfold uploaded_anew. apply run_answer. vm_compute. reflexivity. }
  injection Hb as <-.
  apply (run_steps_placed "a" first_body uploaded_anew both_done
    [String.list_byte_of_string "two"] Hg2); [by repeat constructor|exact Hp2|].
  unfold both_done. apply run_answer. vm_compute. reflexivity.
Qed.

Lemma downloads_ignore_checksums_witness :
  ∃ g', handle_get_object "a" both_done = (Ok (b64_encode (concat
    [String.list_byte_of_string "two"; String.list_byte_of_string "one"])), g').
Proof.
  destruct both_done_ok as [Hg Hp].
  apply (downloads_ignore_checksums "a" _ (mkMetaObject "a"
    (compute_checksum (String.list_byte_of_string "two")) [21; 22] 0) both_done eq_refl Hg Hp).
  - vm_compute. reflexivity.
  - vm_compute. done.
Defined.

Lemma rollback_leaves_the_chunk_witness :
  ∃ id a g', put_one_chunk "a" [x41] gateway1 = (Err INTERNAL_SERVER_ERROR, g') ∧
    node_data (gw_world gateway1) a !! id = None ∧ node_data (gw_world g') a !! id = Some [x41] ∧
    objects (meta (gw_world g')) = objects (meta (gw_world gateway1)) ∧
    chunks (meta (gw_world g')) = <[id := new_pending id "a"]> (chunks (meta (gw_world gateway1))).
Proof.
  apply (rollback_leaves_the_chunk "a" [x41] gateway1 0);
    [apply gateway1_ok|done|reflexivity|apply gateway1_ready; lia].
Defined.

Lemma both_up_server_ok : server_ok (mn_server (w_meta (gw_world both_up))).
Proof.
  split; [apply (gk_wf _ _ both_up_ok)| |split; [reflexivity|by eexists]].
  intros k o id. change (objects _) with ({["a" := a_object]} : gmap string MetaObject).
  intros [<- <-]%lookup_singleton_Some ->%list_elem_of_singleton. reflexivity.
Qed.

(** The answer that DELETE got when only the first node had the chunk. *)
Definition before_replication : list ChunkInfo := [mkChunkInfo 21 0 [node_d]].

Lemma replica_added_during_delete_stays_witness :
  ∃ g', delete_known "a" before_replication both_up = (Ok (), g') ∧
    objects (meta (gw_world g')) !! "a" = None ∧ chunks (meta (gw_world g')) !! 21 = None ∧
    node_data (gw_world g') "http://e:3000" !! 21 = Some a_bytes.
Proof.
  apply (replica_added_during_delete_stays "a" a_object before_replication 21 "http://e:3000" a_bytes
    both_up both_up_ok both_up_server_ok).
  - reflexivity.
  - reflexivity.
  - by left.
  - vm_compute. reflexivity.
  - by intros [[=]|[]%not_elem_of_nil]%elem_of_cons.
Defined.
