(* ===== verification/UploadTheorems.v ===== *)
(** * UploadTheorems: uploads that take turns

    Several uploads at once, with downloads in between, one remote call at a time: what a
    step of one upload leaves of the others, and what every upload that ends has stored. *)

From S2P Require Import Prelude.
From S2P Require Import Bytes.
From S2P Require Import Crc32.
From S2P Require Import ChunkStore.
From S2P Require Import ChunkStoreFacts.
From S2P Require Import ChunkStoreSpec.
From S2P Require Import Grpc.
From S2P Require Import StorageNode.
From S2P Require Import NodeFacts.
From S2P Require Import HashRing.
From S2P Require Import MetadataStore.
From S2P Require Import MetadataStoreFacts.
From S2P Require Import ChunkIndex.
From S2P Require Import ClusterService.
From S2P Require Import Cluster.
From S2P Require Import Forwarding.
From S2P Require Import MetadataService.
From S2P Require Import Network.
From S2P Require Import ClusterFacts.
From S2P Require Import RoutingFacts.
From S2P Require Import PublicService.
From S2P Require Import PublicFacts.
From S2P Require Import ClusterRun.
From S2P Require Import Clients.
From S2P Require Import Gateway.
From S2P Require Import Uploads.
From S2P Require Import SystemFacts.
From S2P Require Import Samples.
From S2P Require Import SampleSystem.
Open Scope string_scope.
Open Scope list_scope.
Open Scope Z_scope.

Lemma Forall2_impl_in {A B} (P Q : A → B → Prop) l k :
  Forall2 P l k → (∀ x y, x ∈ l → P x y → Q x y) → Forall2 Q l k.
Proof.
  induction 1 as [|x y l k Hp Hf IH]; intros Hi; [constructor|].
  constructor; [by apply Hi; [left|]|]. apply IH. intros a b Ha. apply Hi. by right.
Qed.

(** ** What a request on one object leaves of the others *)

Section frame.
Context `{MetaDeps} `{Xxh3}.

(** The ids that the metadata has drawn or will draw. *)
Definition knows (s : MetadataStore) (id : Z) : Prop :=
  id ∈ rng_draws (ms_rng s) ∨ is_Some (chunks s !! id).

(** [s'] differs from [s] at most in object [name], in chunks of that object and in new
    chunks, whose ids are drawn. *)
Record frame (name : string) (s s' : MetadataStore) : Prop := mkFrame {
  fr_wf : ms_wf s';
  fr_draws : draws_u64 s';
  fr_objects k : k ≠ name → objects s' !! k = objects s !! k;
  fr_chunks id c : chunks s !! id = Some c → mc_object_name c ≠ name → chunks s' !! id = Some c;
  fr_nodes : storage_nodes s' = storage_nodes s;
  fr_knows id : knows s' id → knows s id;
}.

Lemma frame_refl name s : ms_wf s → draws_u64 s → frame name s s.
Proof. by split. Qed.

#[export] Instance frame_trans name : Transitive (frame name).
Proof.
  intros a b c [w1 d1 o1 c1 n1 k1] [w2 d2 o2 c2 n2 k2]. split; [done|done| | |congruence|auto].
  - intros k Hk. by rewrite o2, o1.
  - intros id ch Hc Hn. auto.
Qed.

Lemma frame_save name s s1 r s' :
  save s1 = (r, s') → frame name s s1 → frame name s s'.
Proof.
  destruct (save_spec s1) as (r1 & d & -> & _). intros [= _ <-] []. by split; try apply ms_wf_disk.
Qed.

Lemma put_object_frame checksum name s r s' :
  ms_wf s → draws_u64 s → put_object checksum name s = (r, s') → frame name s s'.
Proof.
  intros Hwf Hd Hr. pose proof (put_object_keeps _ _ s _ _ Hwf Hr) as Hwf'. revert Hr.
  unfold put_object. run_st. case_decide; [intros [= _ <-]; by apply frame_refl|].
  set (s1 := set_objects _ s). destruct (save_spec s1) as (r1 & d & -> & _). intros [= _ <-].
  split; [exact Hwf'|done| |done|done|done]. intros k Hk. cbn. by apply lookup_insert_ne.
Qed.

Lemma allocate_chunk_frame name s r s' :
  ms_wf s → draws_u64 s → allocate_chunk name s = (r, s') →
  frame name s s' ∧ objects s' = objects s.
Proof.
  intros Hwf Hd Hr. pose proof (allocate_chunk_keeps name s _ _ Hwf Hr) as Hwf'. revert Hr.
  unfold allocate_chunk, generate_unique_id. run_st.
  destruct (draw_unused _ _) as [[i rest]|] eqn:Hdr; [|intros [= _ <-]; by split; [apply frame_refl|]].
  destruct (draw_unused_sub _ _ _ _ Hdr Hd) as [_ Hrest].
  pose proof (draw_unused_rest _ _ _ _ Hdr) as Hsub.
  apply draw_unused_spec in Hdr as [Hfree Hi]. unfold choose_storage_node. cbn.
  assert (∀ id, id ∈ rest ∨ is_Some (chunks s !! id) → knows s id) as Hkn.
  { intros id [Hid|Hid]; [left; by apply Hsub|by right]. }
  destruct ((map_to_list (storage_nodes s)).*2) as [|x l].
  - intros [= _ <-]. split; [|done]. by split; [exact Hwf'|exact Hrest| | | |exact Hkn].
  - destruct ((x :: l) !! _) as [n|]; intros [= _ <-]; (split; [|done]);
      (split; [exact Hwf'|exact Hrest|done| |done|]).
    + intros id c Hc _. cbn. rewrite lookup_insert_ne; [done|]. congruence.
    + intros id [Hid|Hid]; [apply Hkn; by left|]. cbn in Hid.
      apply lookup_insert_is_Some in Hid as [<-|[_ Hid]]; [by left|by right].
    + done.
    + exact Hkn.
Qed.

Lemma confirm_chunk_frame id name checksum nid s r s' :
  ms_wf s → draws_u64 s → (∀ c, chunks s !! id = Some c → mc_object_name c = name) → knows s id →
  confirm_chunk id name checksum nid s = (r, s') →
  frame name s s' ∧ (is_Some (objects s !! name) → is_Some (objects s' !! name)).
Proof.
  intros Hwf Hd Hown Hid Hr. pose proof (confirm_chunk_keeps _ _ _ _ s _ _ Hwf Hr) as Hwf'.
  apply confirm_chunk_cases in Hr as [(e & -> & ->)|(o & Ho & _ & Hsave)];
    [by split; [apply frame_refl|]|].
  revert Hsave. match goal with |- save ?x = _ → _ => destruct (save_spec x) as (r1 & d & -> & _) end.
  intros [= _ <-]. split; [|intros _; cbn; rewrite lookup_insert_eq; by eexists].
  split; [exact Hwf'|done| | |done|].
  - intros k Hk. cbn. by apply lookup_insert_ne.
  - intros i c Hc Hne. cbn. rewrite lookup_insert_ne; [done|]. intros <-. by apply Hne, Hown.
  - intros i [Hi|Hi]; [by left|]. cbn in Hi.
    apply lookup_insert_is_Some in Hi as [<-|[_ Hi]]; [done|by right].
Qed.

Lemma delete_object_frame name s r s' :
  ms_wf s → draws_u64 s → delete_object name s = (r, s') → frame name s s'.
Proof.
  intros Hwf Hd Hr. pose proof (delete_object_keeps name s _ _ Hwf Hr) as Hwf'.
  destruct (objects s !! name) as [o|] eqn:Ho.
  - rewrite (delete_object_run name s o Ho) in Hr. revert Hr. unfold remove_object_of. rewrite Ho.
    match goal with |- save ?x = _ → _ => destruct (save_spec x) as (r1 & d & -> & _) end.
    intros [= _ <-]. split; [exact Hwf'|done| | |done|].
    + intros k Hk. cbn. by apply lookup_delete_ne.
    + intros i c Hc Hne. cbn. rewrite lookup_delete_all, decide_False; [done|]. intros Hi.
      destruct (mw_listed _ Hwf _ _ i Ho Hi) as (c' & Hc' & Hn & _). congruence.
    + intros i [Hi|Hi]; [by left|]. cbn in Hi. rewrite lookup_delete_all in Hi.
      case_decide; [by destruct Hi|by right].
  - revert Hr. unfold delete_object. run_st. rewrite Ho. intros [= _ <-]. by apply frame_refl.
Qed.

(** ** The same for the requests to the service *)

(** Also the ids in the chunk index. *)
Definition mine (c : ClusterServer) (id : Z) : Prop :=
  knows (sv_store c) id ∨ is_Some (sv_index c !! id).

(** A handler that works on the store alone, and then counts. *)
Definition frames (name : string) (n n' : MetaNode Network) : Prop :=
  frame name (sv_store (mn_server n)) (sv_store (mn_server n')) ∧ same_place n n' ∧
  (server_ok (mn_server n) → server_ok (mn_server n')) ∧
  ∀ id, is_Some (sv_index (mn_server n') !! id) → mine (mn_server n) id.

(** Asserts the part of [frames] that is known of any request served here. *)
Ltac served_here n n' effect :=
  assert (server_ok (mn_server n) → server_ok (mn_server n'))
    by (eapply served_here_ok; [by eapply effect|eapply destination_here; [done|]|done];
        intros k; cbn; try destruct (String.eqb _ _); by intros [= <-]).

Lemma svc_put_object_frames name checksum n r n' :
  serves_itself n name → ms_wf (sv_store (mn_server n)) → draws_u64 (sv_store (mn_server n)) →
  svc_put_object name checksum n = (r, n') → frames name n n'.
Proof.
  intros Hs Hwf Hd Hr. served_here n n' put_object_effect. revert Hr.
  unfold svc_put_object. rewrite route_object_here by done.
  unfold locked, on_server, zoom, count. run_st.
  destruct (put_object checksum name (sv_store (mn_server n))) as [r1 s1] eqn:Hp.
  apply put_object_frame in Hp; [|done..].
  destruct r1; intros [= _ <-]; split_and!; try done; by right.
Qed.

Lemma svc_allocate_chunk_frames name n r n' :
  serves_itself n name → ms_wf (sv_store (mn_server n)) → draws_u64 (sv_store (mn_server n)) →
  svc_allocate_chunk name n = (r, n') →
  frames name n n' ∧ objects (sv_store (mn_server n')) = objects (sv_store (mn_server n)).
Proof.
  intros Hs Hwf Hd Hr. served_here n n' allocate_chunk_effect. revert Hr.
  unfold svc_allocate_chunk.
  destruct (String.eqb name ""); [|rewrite route_object_here by done].
  all: unfold locked, on_server, zoom, count; run_st.
  all: destruct (allocate_chunk name (sv_store (mn_server n))) as [r1 s1] eqn:Hp.
  all: apply allocate_chunk_frame in Hp as [Hf Ho]; [|done..].
  all: destruct r1 as [[[? ?] ?]|e|]; intros [= _ <-]; (split; [|done]); split_and!; try done; by right.
Qed.

Lemma svc_confirm_chunk_frames id name checksum nid n r n' :
  serves_itself n name → ms_wf (sv_store (mn_server n)) → draws_u64 (sv_store (mn_server n)) →
  (∀ c, chunks (sv_store (mn_server n)) !! id = Some c → mc_object_name c = name) →
  knows (sv_store (mn_server n)) id →
  svc_confirm_chunk id name checksum nid n = (r, n') →
  frames name n n' ∧ (is_Some (objects (sv_store (mn_server n)) !! name) →
    is_Some (objects (sv_store (mn_server n')) !! name)).
Proof.
  intros Hs Hwf Hd Hown Hid Hr. served_here n n' confirm_chunk_effect. revert Hr.
  unfold svc_confirm_chunk. rewrite route_object_here by done.
  unfold locked, with_index, on_server, on_index, zoom, count. run_st.
  destruct (confirm_chunk id name checksum nid (sv_store (mn_server n))) as [r1 s1] eqn:Hp.
  apply confirm_chunk_frame in Hp as [Hf Ho]; [|done..].
  destruct r1; intros [= _ <-]; (split; [|done]); split_and!; try done; try by right.
  intros i Hi. cbn in Hi. unfold index_insert in Hi.
  apply lookup_insert_is_Some in Hi as [<-|[_ Hi]]; [by left|by right].
Qed.

Lemma svc_delete_object_frames name n r n' :
  serves_itself n name → ms_wf (sv_store (mn_server n)) → draws_u64 (sv_store (mn_server n)) →
  svc_delete_object name n = (r, n') → frames name n n'.
Proof.
  intros Hs Hwf Hd Hr. served_here n n' delete_object_effect. revert Hr.
  unfold svc_delete_object. rewrite route_object_here by done.
  unfold locked, on_server, zoom, with_index, count, current_store. run_st.
  destruct (delete_object name (sv_store (mn_server n))) as [r1 s1] eqn:Hp.
  apply delete_object_frame in Hp; [|done..].
  destruct r1; intros [= _ <-]; split_and!; try done; try by right.
  intros i Hi. cbn in Hi. unfold remove_all in Hi. rewrite foldl_remove_lookup in Hi.
  case_decide; [by destruct Hi|by right].
Qed.

End frame.

(** ** Uploads *)

Section uploads.
Context `{MetaDeps} `{Xxh3} `{Crc32} `{Base64} `{UnicodeTables}.

(** The upload was given chunk id and storage node, and no one else has the chunk. *)
Definition held (w : World) (name : string) (resp : AllocateChunkResponse) : Prop :=
  is_u64 (ac_chunk_id resp) ∧
  chunks (meta w) !! ac_chunk_id resp = Some (new_pending (ac_chunk_id resp) name) ∧
  ∃ node, storage_nodes (meta w) !! ac_storage_node_id resp = Some node ∧
    sn_address node = ac_storage_node_address resp.

(** All of the body but [rest] is placed. *)
Definition so_far (w : World) (name : string) (body rest : list (list byte)) : Prop :=
  ∃ sent, sent ++ rest = body ∧ placed w name sent.

(** What holds of an upload of [body] to [name] that stands at [p]. *)
Definition task_ok (w : World) (name : string) (body : list (list byte)) (p : phase) : Prop :=
  match p with
  | Creating _ chunked => chunked = body
  | Sending rest => so_far w name body rest
  | Connecting resp chunk rest => so_far w name body (chunk :: rest) ∧ held w name resp
  | Writing client resp chunk rest =>
      client = ac_storage_node_address resp ∧ so_far w name body (chunk :: rest) ∧ held w name resp
  | Confirming resp chunk rest =>
      so_far w name body (chunk :: rest) ∧ held w name resp ∧
      node_data w (ac_storage_node_address resp) !! ac_chunk_id resp = Some chunk
  | RollingBack => is_Some (objects (meta w) !! name)
  | Finished => placed w name body
  | Refused _ => True
  end.

(** The upload has created the object and has not given it up. *)
Definition owns (p : phase) : Prop :=
  match p with Creating _ _ | Refused _ => False | _ => True end.

Lemma owns_object w name body p :
  task_ok w name body p → owns p → is_Some (objects (meta w) !! name).
Proof.
  assert (∀ l, placed w name l → is_Some (objects (meta w) !! name)) as Hpl.
  { intros l (o & Ho & _). by eexists. }
  destruct p; simpl; try done.
  - intros (sent & _ & Hp) _. by eapply Hpl.
  - intros [(sent & _ & Hp) _] _. by eapply Hpl.
  - intros (_ & (sent & _ & Hp) & _) _. by eapply Hpl.
  - intros [(sent & _ & Hp) _] _. by eapply Hpl.
  - intros Hp _. by eapply Hpl.
Qed.

(** What a step of an upload to [name] leaves. *)
Record wframe (name : string) (w w' : World) : Prop := mkWframe {
  wf_meta : frame name (meta w) (meta w');
  wf_place : same_place (w_meta w) (w_meta w');
  wf_good : nodes_good w';
  wf_grows a id b : node_data w a !! id = Some b → node_data w' a !! id = Some b;
  wf_server : server_ok (mn_server (w_meta w)) → server_ok (mn_server (w_meta w'));
  wf_index id : is_Some (sv_index (mn_server (w_meta w')) !! id) → mine (mn_server (w_meta w)) id;
  wf_new a id : is_Some (node_data w' a !! id) →
    is_Some (node_data w a !! id) ∨ mine (mn_server (w_meta w)) id;
}.

Lemma wf_mine name w w' id :
  wframe name w w' → mine (mn_server (w_meta w')) id → mine (mn_server (w_meta w)) id.
Proof. intros Hf [Hk|Hi]; [left; by eapply fr_knows, Hk; apply Hf|by eapply wf_index]. Qed.

Lemma wframe_refl name w : ms_wf (meta w) → draws_u64 (meta w) → nodes_good w → wframe name w w.
Proof. intros. split; [by apply frame_refl|done..|by right|by left]. Qed.

Lemma wframe_same name w w' :
  ms_wf (meta w) → draws_u64 (meta w) → mn_server (w_meta w') = mn_server (w_meta w) →
  same_place (w_meta w) (w_meta w') → nodes_good w' →
  (∀ a id b, node_data w a !! id = Some b → node_data w' a !! id = Some b) →
  (∀ a id, is_Some (node_data w' a !! id) →
    is_Some (node_data w a !! id) ∨ mine (mn_server (w_meta w)) id) → wframe name w w'.
Proof.
  intros Hwf Hd Hs Hp Hgood Hgr Hnew. split; rewrite ?Hs; [by apply frame_refl|done..|by right|done].
Qed.

Lemma read_only_wframe name g g' : gw_ok name g → read_only g g' → wframe name (gw_world g) (gw_world g').
Proof.
  intros Hg [Hs Hp Hd Hgood _ _]. apply wframe_same; try done; [apply Hg..| | |].
  - apply Hgood, Hg.
  - intros a id b. by rewrite Hd.
  - intros a id. rewrite Hd. by left.
Qed.

#[export] Instance wframe_trans name : Transitive (wframe name).
Proof.
  intros a b c Hab Hbc. pose proof (λ id, wf_mine _ _ _ id Hab) as Hm.
  destruct Hab as [f1 p1 g1 d1 s1 i1 n1], Hbc as [f2 p2 g2 d2 s2 i2 n2].
  split; [by trans (meta b)|by trans (w_meta b)|done|auto..|].
  intros x id [Hd|Hi]%n2; [by apply n1|right; by apply Hm].
Qed.

Lemma wframe_meta name w n' : frames name (w_meta w) n' → nodes_good w → wframe name w (set_meta n' w).
Proof. intros (Hf & Hp & Hs & Hi) Hg. split; try done. by left. Qed.

Lemma chunk_at_grows w w' id bytes :
  chunk_at w id bytes →
  (∀ c, chunks (meta w) !! id = Some c → chunks (meta w') !! id = Some c) →
  storage_nodes (meta w') = storage_nodes (meta w) →
  (∀ a i b, node_data w a !! i = Some b → node_data w' a !! i = Some b) →
  chunk_at w' id bytes.
Proof.
  intros (c & x & node & Hc & Hx & Hn & Hd) Hch Hnodes Hgr. exists c, x, node.
  rewrite Hnodes. split_and!; [by apply Hch|done|done|by apply Hgr].
Qed.

(** The chunks of an object stay where they are when no chunk of that object changes. *)
Lemma placed_grows w w' name data :
  ms_wf (meta w) → placed w name data → objects (meta w') !! name = objects (meta w) !! name →
  (∀ id c, chunks (meta w) !! id = Some c → mc_object_name c = name → mc_status c = Confirmed →
    chunks (meta w') !! id = Some c) →
  storage_nodes (meta w') = storage_nodes (meta w) →
  (∀ a i b, node_data w a !! i = Some b → node_data w' a !! i = Some b) →
  placed w' name data.
Proof.
  intros Hwf (o & Ho & Hd) Hobj Hch Hnodes Hgr. exists o. split; [by rewrite Hobj|].
  eapply Forall2_impl_in; [exact Hd|]. intros id bytes Hid Hat.
  eapply chunk_at_grows; [exact Hat| |done|done]. intros c Hc.
  destruct (mw_listed _ Hwf _ _ id Ho Hid) as (c' & Hc' & Hn & Hs).
  apply Hch; [done| |]; congruence.
Qed.

(** A step of another upload leaves an upload as it is. *)
Lemma task_ok_framed w w' name n body p :
  wframe name w w' → ms_wf (meta w) → n ≠ name → task_ok w n body p → task_ok w' n body p.
Proof.
  intros [Hf _ _ Hgr _ _ _] Hwf Hne.
  assert (∀ data, placed w n data → placed w' n data) as Hpl.
  { intros data Hp. apply (placed_grows w); try done; [by apply (fr_objects _ _ _ Hf)| |apply Hf].
    intros id c Hc Hn _. apply (fr_chunks _ _ _ Hf); congruence. }
  assert (∀ l, so_far w n body l → so_far w' n body l) as Hso.
  { intros l (sent & Hs & Hp). exists sent. auto. }
  assert (∀ resp, held w n resp → held w' n resp) as Hh.
  { intros resp (Hid & Hc & node & Hn & Ha). split; [done|]. split.
    - by apply (fr_chunks _ _ _ Hf).
    - exists node. by rewrite (fr_nodes _ _ _ Hf). }
  destruct p; simpl; try done; [naive_solver..| |naive_solver].
  by rewrite (fr_objects _ _ _ Hf).
Qed.

Lemma gw_ok_framed name g w' :
  (∀ n, gw_ok n g) → wframe name (gw_world g) w' → ∀ n, gw_ok n (set_gw_world w' g).
Proof.
  intros Hg Hw n. destruct Hw as [Hf Hp Hgood _ _ _ _], (Hg n) as [_ _ _ Hs Hc].
  split; [apply Hf|apply Hf|exact Hgood|by eapply same_place_serves|exact Hc].
Qed.

(** A call of the metadata service. *)
Lemma call_meta_inv {A} (m : ST (MetaNode Network) Code A) g r g' :
  call (on_meta m) g = (Ok r, g') →
  ∃ r0 n', m (w_meta (gw_world g)) = (r0, n') ∧ g' = set_gw_world (set_meta n' (gw_world g)) g ∧
    match r0 with Ok a => r = inr a | Err e => r = inl e | Panic => False end.
Proof.
  unfold call, on_meta, zoom. run_st. destruct (m (w_meta (gw_world g))) as [r0 n'].
  destruct r0; intros [= <- <-]; by eexists _, _.
Qed.

(** ** A step of an upload *)

(** What a step from [p] to [p'] keeps. *)
Definition step_ok (name : string) (body : list (list byte)) (p p' : phase) (g g' : AppState World) :
    Prop :=
  (∀ n, gw_ok n g') ∧ wframe name (gw_world g) (gw_world g') ∧ task_ok (gw_world g') name body p' ∧
  (owns p' → owns p ∨ objects (meta (gw_world g)) !! name = None).

Section step.
Context (name : string) (body : list (list byte)) (g g' : AppState World).
Context (Hg : ∀ n, gw_ok n g) (Hlen : Forall (λ c, zlen c ≤ SLOT_DATA_SIZE) body).

Lemma creating_ok checksum chunked p' :
  chunked = body → upload_step name (Creating checksum chunked) g = (Ok p', g') →
  step_ok name body (Creating checksum chunked) p' g g'.
Proof.
  intros -> Hr. pose proof (Hg name) as Hgn. cbn [upload_step] in Hr. inv_bind Hr.
  injection Hr as <- <-. apply (call_meta_inv (svc_put_object name checksum)) in Hrun
    as (r0 & n' & Hr & -> & Hcase).
  pose proof (svc_put_object_frames _ _ _ _ _ (gk_serves _ _ Hgn) (gk_wf _ _ Hgn) (gk_draws _ _ Hgn) Hr)
    as Hf. pose proof (wframe_meta name _ _ Hf (gk_nodes _ _ Hgn)) as Hw.
  split; [by eapply gw_ok_framed|]. split; [exact Hw|].
  destruct r0 as [[]|e|]; [|by subst a|done]. subst a.
  destruct (local_put_object _ _ _ _ (gk_serves _ _ Hgn) (gk_wf _ _ Hgn) Hr)
    as (_ & _ & _ & Hfree & Ho & _).
  split; [|by right]. exists []. split; [done|]. exists (new_object name checksum). cbn.
  rewrite Ho. split; [apply lookup_insert_eq|constructor].
Qed.

Lemma sending_ok chunked p' :
  so_far (gw_world g) name body chunked → upload_step name (Sending chunked) g = (Ok p', g') →
  step_ok name body (Sending chunked) p' g g'.
Proof.
  intros (sent & Hs & Hp) Hr. pose proof (Hg name) as Hgn.
  destruct chunked as [|chunk rest]; cbn [upload_step] in Hr.
  { injection Hr as <- <-. split; [done|]. split; [by apply wframe_refl; apply Hgn|].
    split; [|by left]. simpl. rewrite app_nil_r in Hs. by subst sent. }
  inv_bind Hr. injection Hr as <- <-. apply (call_meta_inv (svc_allocate_chunk name)) in Hrun
    as (r0 & n' & Hr & -> & Hcase).
  destruct (svc_allocate_chunk_frames _ _ _ _ (gk_serves _ _ Hgn) (gk_wf _ _ Hgn) (gk_draws _ _ Hgn) Hr)
    as [Hf Hobj]. pose proof (wframe_meta name _ _ Hf (gk_nodes _ _ Hgn)) as Hw.
  split; [by eapply gw_ok_framed|]. split; [exact Hw|].
  destruct r0 as [resp|e|]; [|subst a|done].
  - subst a. split; [|by left].
    destruct (local_allocate _ _ _ _ (gk_serves _ _ Hgn) (gk_wf _ _ Hgn) (gk_draws _ _ Hgn) Hr)
      as (Hid & Hfree & _ & _ & _ & Hnode & _ & Hn1 & Hc1).
    split.
    + exists sent. split; [done|]. apply (placed_grows (gw_world g)); [apply Hgn|done| | |done|done].
      * cbn. by rewrite Hobj.
      * intros id c Hc _ _. cbn. rewrite Hc1, lookup_insert_ne; [done|]. congruence.
    + split; [done|]. split; [cbn; rewrite Hc1; apply lookup_insert_eq|]. cbn. by rewrite Hn1.
  - split; [|by left]. simpl. rewrite Hobj. destruct Hp as (o & Ho & _). by eexists.
Qed.

Lemma connecting_ok resp chunk rest p' :
  so_far (gw_world g) name body (chunk :: rest) ∧ held (gw_world g) name resp →
  upload_step name (Connecting resp chunk rest) g = (Ok p', g') →
  step_ok name body (Connecting resp chunk rest) p' g g'.
Proof.
  intros [Hso Hh] Hr. cbn [upload_step] in Hr. inv_bind Hr. injection Hr as <- <-.
  destruct (get_or_connect_spec name (ac_storage_node_address resp) g (Hg name))
    as (rc & g2 & Hgc & Hw2 & _ & Hrc).
  assert (∀ n, gw_ok n g2) as Hg2.
  { intros n. destruct (get_or_connect_spec n (ac_storage_node_address resp) g (Hg n))
      as (rc' & g2' & Hgc' & _ & Hok & _). rewrite Hgc in Hgc'. by injection Hgc' as <- <-. }
  unfold attempt in Hrun. rewrite Hgc in Hrun.
  assert (wframe name (gw_world g) (gw_world g2)) as Hw.
  { rewrite Hw2. apply wframe_refl; apply (Hg name). }
  destruct rc as [client|e|]; [|injection Hrun as <- <-|done].
  - injection Hrun as <- <-. subst client. split; [exact Hg2|]. split; [exact Hw|].
    split; [|by left]. cbn [task_ok]. by rewrite Hw2.
  - split; [exact Hg2|]. split; [exact Hw|]. by split.
Qed.

Lemma sent_chunk_length w chunk rest :
  so_far w name body (chunk :: rest) → zlen chunk ≤ SLOT_DATA_SIZE.
Proof.
  intros (sent & <- & _). apply Forall_app in Hlen as [_ Hl]. by apply list.Forall_cons in Hl as [].
Qed.

Lemma writing_ok client resp chunk rest p' :
  client = ac_storage_node_address resp ∧ so_far (gw_world g) name body (chunk :: rest) ∧
    held (gw_world g) name resp →
  upload_step name (Writing client resp chunk rest) g = (Ok p', g') →
  step_ok name body (Writing client resp chunk rest) p' g g'.
Proof.
  intros (-> & Hso & Hid & Hc & Hnode) Hr. pose proof (Hg name) as Hgn.
  cbn [upload_step] in Hr. inv_bind Hr. injection Hr as <- <-.
  set (a0 := ac_storage_node_address resp) in *. set (id := ac_chunk_id resp) in *.
  destruct (world_write a0 id chunk (gw_world g) (gk_nodes _ _ Hgn) Hid (sent_chunk_length _ _ _ Hso))
    as (r & w' & Hwr & Hm & Hgood & _ & Hd).
  rewrite (call_run _ _ _ _ Hwr) in Hrun.
  assert (∀ x i b, node_data (gw_world g) x !! i = Some b → node_data w' x !! i = Some b) as Hgr.
  { intros x i b Hb. destruct r as [[]|e|]; [|by rewrite Hd|done]. destruct Hd as (_ & Hn & Hd).
    rewrite Hd. case_decide as Hx; [|done]. subst x. rewrite lookup_insert_ne; [done|congruence]. }
  assert (∀ x i, is_Some (node_data w' x !! i) →
    is_Some (node_data (gw_world g) x !! i) ∨ mine (mn_server (w_meta (gw_world g))) i) as Hnew.
  { intros x i. destruct r as [[]|e|]; [|rewrite Hd; by left|done]. destruct Hd as (_ & _ & Hd).
    rewrite Hd. case_decide as Hx; [|by left]. intros [<-|[_ Hi]]%lookup_insert_is_Some; [|by left].
    right. left. right. by eexists. }
  assert (wframe name (gw_world g) w') as Hw.
  { apply wframe_same; try done; [apply Hgn..| |]; by rewrite Hm. }
  assert (so_far w' name body (chunk :: rest)) as Hso'.
  { destruct Hso as (sent & Hs & Hp). exists sent. split; [done|].
    apply (placed_grows (gw_world g)); try done; [apply Hgn|by rewrite Hm..]. }
  destruct r as [[]|e|]; [| |done]; injection Hrun as <- <-.
  all: split; [by eapply gw_ok_framed|]; split; [exact Hw|]; split; [|by left].
  - cbn [task_ok]. unfold held. cbn. rewrite Hm. split; [done|]. split; [done|].
    destruct Hd as (_ & _ & Hd). fold a0 id. rewrite Hd, decide_True by done. apply lookup_insert_eq.
  - cbn. rewrite Hm. destruct Hso as (_ & _ & o & Ho & _). by eexists.
Qed.

Lemma confirming_ok resp chunk rest p' :
  so_far (gw_world g) name body (chunk :: rest) ∧ held (gw_world g) name resp ∧
    node_data (gw_world g) (ac_storage_node_address resp) !! ac_chunk_id resp = Some chunk →
  upload_step name (Confirming resp chunk rest) g = (Ok p', g') →
  step_ok name body (Confirming resp chunk rest) p' g g'.
Proof.
  intros ((sent & Hs & o & Ho & Hat) & (Hid & Hc & node & Hnode & Haddr) & Hdata) Hr.
  pose proof (Hg name) as Hgn. cbn [upload_step] in Hr. inv_bind Hr. injection Hr as <- <-.
  set (id := ac_chunk_id resp) in *.
  apply (call_meta_inv (svc_confirm_chunk id name (compute_checksum chunk) (ac_storage_node_id resp)))
    in Hrun as (r0 & n' & Hr & -> & Hcase).
  assert (∀ c, chunks (meta (gw_world g)) !! id = Some c → mc_object_name c = name) as Hown.
  { intros c Hc'. rewrite Hc in Hc'. by injection Hc' as <-. }
  destruct (svc_confirm_chunk_frames _ _ _ _ _ _ _ (gk_serves _ _ Hgn) (gk_wf _ _ Hgn)
    (gk_draws _ _ Hgn) Hown (or_intror (mk_is_Some _ _ Hc)) Hr) as [Hf Hkeep].
  pose proof (wframe_meta name _ _ Hf (gk_nodes _ _ Hgn)) as Hw.
  split; [by eapply gw_ok_framed|]. split; [exact Hw|]. split; [|by left].
  destruct r0 as [[]|e|]; [subst a|subst a; apply Hkeep; by eexists|done].
  destruct (local_confirm _ _ _ _ _ _ (gk_serves _ _ Hgn) (gk_wf _ _ Hgn) Hr)
    as (_ & _ & _ & (o1 & Ho1 & Hobj) & Hn1 & Hc1).
  rewrite Ho in Ho1. injection Ho1 as <-.
  exists (sent ++ [chunk]). split; [by rewrite <- app_assoc|]. exists (add_chunk id o). cbn.
  rewrite Hobj. split; [apply lookup_insert_eq|]. apply Forall2_app; [|constructor; [|constructor]].
  - eapply Forall2_impl_in; [exact Hat|]. intros i b Hi Hib.
    eapply chunk_at_grows; [exact Hib| |exact Hn1|done]. intros c Hci. cbn.
    rewrite Hc1, lookup_insert_ne; [done|]. intros <-.
    destruct (mw_listed _ (gk_wf _ _ Hgn) _ _ id Ho Hi) as (c' & Hc' & _ & Hst).
    rewrite Hc in Hc'. by injection Hc' as <-.
  - exists (mkMetaChunk id name (compute_checksum chunk) [ac_storage_node_id resp] Confirmed),
      (ac_storage_node_id resp), node. cbn.
    rewrite Hc1, lookup_insert_eq, Hn1, Haddr. by split_and!.
Qed.

Lemma rolling_back_ok p' :
  upload_step name RollingBack g = (Ok p', g') → step_ok name body RollingBack p' g g'.
Proof.
  intros Hr. pose proof (Hg name) as Hgn. cbn [upload_step] in Hr. inv_bind Hr.
  injection Hr as <- <-. unfold ignore_error in Hrun. inv_bind Hrun. injection Hrun as <- <-.
  apply (call_meta_inv (svc_delete_object name)) in Hrun0 as (r0 & n' & Hr & -> & Hcase).
  pose proof (svc_delete_object_frames _ _ _ _ (gk_serves _ _ Hgn) (gk_wf _ _ Hgn) (gk_draws _ _ Hgn) Hr)
    as Hf. pose proof (wframe_meta name _ _ Hf (gk_nodes _ _ Hgn)) as Hw.
  split; [by eapply gw_ok_framed|]. by split.
Qed.

Lemma upload_step_ok p p' :
  task_ok (gw_world g) name body p → upload_step name p g = (Ok p', g') →
  step_ok name body p p' g g'.
Proof.
  pose proof (Hg name) as Hgn. destruct p; cbn [task_ok].
  - apply creating_ok.
  - apply sending_ok.
  - apply connecting_ok.
  - apply writing_ok.
  - apply confirming_ok.
  - intros _. apply rolling_back_ok.
  - intros Hp [= <- <-]. split; [done|]. split; [by apply wframe_refl; apply Hgn|]. by split; [|left].
  - intros Hp [= <- <-]. split; [done|]. split; [by apply wframe_refl; apply Hgn|]. by split.
Qed.

End step.

(** Steps in a row. *)
Lemma run_steps_ok k name body p p' g g' :
  (∀ n, gw_ok n g) → Forall (λ c, zlen c ≤ SLOT_DATA_SIZE) body →
  task_ok (gw_world g) name body p → run_steps k name p g = (Ok p', g') →
  (∀ n, gw_ok n g') ∧ wframe name (gw_world g) (gw_world g') ∧ task_ok (gw_world g') name body p'.
Proof.
  intros Hg Hlen. revert p g Hg. induction k as [|k IH]; intros p g Hg Hp Hr.
  { injection Hr as <- <-. split; [done|]. split; [by apply wframe_refl; apply (Hg name)|done]. }
  rewrite run_steps_step in Hr. inv_bind Hr.
  destruct (upload_step_ok _ _ _ _ Hg Hlen _ _ Hp Hrun) as (Hg1 & Hw1 & Hp1 & _).
  destruct (IH _ _ Hg1 Hp1 Hr) as (Hg2 & Hw2 & Hp2). split; [done|]. split; [|done]. by etrans.
Qed.

(** An upload that does not have the object changes nothing while another one has it. *)
Lemma bystander name p p' g g' other :
  (∀ n, gw_ok n g) → ¬ owns p → is_Some (objects (meta (gw_world g)) !! name) →
  upload_step name p g = (Ok p', g') → wframe other (gw_world g) (gw_world g').
Proof.
  intros Hg Hno Hobj Hr. pose proof (Hg name) as Hgn. destruct p; simpl in Hno; try done.
  - cbn [upload_step] in Hr. inv_bind Hr. injection Hr as _ <-.
    apply (call_meta_inv (svc_put_object name checksum)) in Hrun as (r0 & n' & Hr & -> & _).
    apply wframe_meta; [|apply Hgn]. revert Hr. unfold svc_put_object.
    rewrite route_object_here by apply Hgn. unfold locked, on_server, zoom, count, put_object. run_st.
    rewrite decide_True by done. intros [= _ <-]. split; [apply frame_refl; apply Hgn|].
    split; [done|]. split; [intros [? ? ?]; by split|by right].
  - injection Hr as _ <-. apply wframe_refl; apply Hgn.
Qed.

(** ** Taking turns *)

(** One remote call of a download. *)
Inductive reader_step (g g' : AppState World) : Prop :=
  | reads_object name r : call (mc_get_object name) g = (r, g') → reader_step g g'
  | reads_connection a r : get_or_connect a g = (r, g') → reader_step g g'
  | reads_chunk a id r : call (sn_read_chunk a id) g = (r, g') → reader_step g g'.

Record Task := mkTask { tk_name : string; tk_body : list (list byte); tk_phase : phase }.
Definition with_phase (p : phase) (t : Task) : Task := mkTask (tk_name t) (tk_body t) p.

(** The gateway with the uploads under way; any of them, or a download, takes a step. *)
Inductive turn : AppState World * list Task → AppState World * list Task → Prop :=
  | upload_turn g ts i t p' g' :
      ts !! i = Some t → upload_step (tk_name t) (tk_phase t) g = (Ok p', g') →
      turn (g, ts) (g', <[i := with_phase p' t]> ts)
  | reader_turn g ts g' : reader_step g g' → turn (g, ts) (g', ts).

Record turns_ok (st : AppState World * list Task) : Prop := mkTurnsOk {
  to_gw n : gw_ok n st.1;
  to_task i t : st.2 !! i = Some t → task_ok (gw_world st.1) (tk_name t) (tk_body t) (tk_phase t);
  to_sizes i t : st.2 !! i = Some t → Forall (λ c, zlen c ≤ SLOT_DATA_SIZE) (tk_body t);
  to_owner i j t u : st.2 !! i = Some t → st.2 !! j = Some u → tk_name t = tk_name u →
    owns (tk_phase t) → owns (tk_phase u) → i = j;
}.

Lemma reader_step_read_only g g' : (∀ n, gw_ok n g) → reader_step g g' → read_only g g'.
Proof.
  intros Hg [name r Hr|a r Hr|a id r Hr].
  - destruct (get_call name g (Hg name)) as (r1 & g1 & Hr1 & Hro & _).
    rewrite Hr in Hr1. by injection Hr1 as _ ->.
  - destruct (get_or_connect_spec "" a g (Hg "")) as (r' & g2 & Hgc & Hw & Hok & _).
    rewrite Hr in Hgc. injection Hgc as -> ->. split; rewrite ?Hw; try done. intros _. apply Hok.
  - destruct (world_read a id (gw_world g) (gk_nodes _ _ (Hg ""))) as (r' & w' & Hrd & Hs & _).
    rewrite (call_run _ _ _ _ Hrd) in Hr. injection Hr as _ <-.
    apply (same_data_read_only ""); [|done]. by apply gw_ok_same.
Qed.

Lemma reader_step_ok g g' :
  (∀ n, gw_ok n g) → reader_step g g' →
  (∀ n, gw_ok n g') ∧ ∀ name, wframe name (gw_world g) (gw_world g').
Proof.
  intros Hg Hr. pose proof (reader_step_read_only _ _ Hg Hr) as Hro.
  split; intros name; [by eapply gw_ok_read_only|by apply read_only_wframe].
Qed.

(** Whatever leaves all names as they are leaves an upload as it is. *)
Lemma task_ok_all w w' n body p :
  (∀ name, wframe name w w') → ms_wf (meta w) → task_ok w n body p → task_ok w' n body p.
Proof.
  intros Hw Hwf. apply (task_ok_framed _ _ (String Ascii.zero n)); [apply Hw|done|].
  intros He. apply (f_equal String.length) in He. simpl in He. lia.
Qed.

Lemma upload_turn_ok g ts i t p' g' :
  turns_ok (g, ts) → ts !! i = Some t → upload_step (tk_name t) (tk_phase t) g = (Ok p', g') →
  turns_ok (g', <[i := with_phase p' t]> ts).
Proof.
  intros [Hg Ht Hs Ho] Hi Hstep. cbn in *.
  destruct (upload_step_ok _ _ g g' Hg (Hs i t Hi) _ _ (Ht i t Hi) Hstep) as (Hg' & Hw & Htask & Hown).
  assert (∀ j u, <[i:=with_phase p' t]> ts !! j = Some u →
    (j = i ∧ u = with_phase p' t) ∨ (j ≠ i ∧ ts !! j = Some u)) as Hcases.
  { intros j u Hj. destruct (decide (i = j)) as [<-|Hne].
    - left. rewrite list_lookup_insert_eq in Hj; [by injection Hj as <-|by eapply lookup_lt_Some].
    - right. by rewrite list_lookup_insert_ne in Hj. }
  assert (∀ j u, j ≠ i → ts !! j = Some u → tk_name u = tk_name t → owns p' → owns (tk_phase u) →
    False) as Hexcl.
  { intros j u Hne Hj Hn Hp' Hu. destruct (Hown Hp') as [Hp|Hfree]; [apply Hne; by apply (Ho j i u t)|].
    destruct (owns_object _ _ _ _ (Ht j u Hj) Hu) as [? Hx]. rewrite Hn in Hx. congruence. }
  split; cbn; [exact Hg'| | |].
  - intros j u [[-> ->]|[Hne Hj]]%Hcases; [exact Htask|].
    destruct (decide (tk_name u = tk_name t)) as [Hn|Hn].
    2: { eapply task_ok_framed; [exact Hw|apply (gk_wf _ _ (Hg ""))|done|by apply (Ht j)]. }
    assert (owns (tk_phase u) → ∀ other, wframe other (gw_world g) (gw_world g')) as Hby.
    { intros Hu other. eapply (bystander (tk_name t)); [done| | |exact Hstep].
      - intros Hp. apply Hne. by apply (Ho j i u t).
      - rewrite <- Hn. by eapply owns_object; [apply (Ht j)|]. }
    specialize (Ht j u Hj). revert Ht Hby.
    assert (owns (tk_phase u) ∨ ∀ w, task_ok w (tk_name u) (tk_body u) (tk_phase u) →
      task_ok (gw_world g') (tk_name u) (tk_body u) (tk_phase u)) as [Hu|Htriv];
      [destruct (tk_phase u); simpl; auto| |by intros ? _; eapply Htriv].
    intros Ht Hby. eapply task_ok_all; [by apply Hby|apply (gk_wf _ _ (Hg ""))|exact Ht].
  - intros j u [[-> ->]|[_ Hj]]%Hcases; [exact (Hs i t Hi)|exact (Hs j u Hj)].
  - intros j k u v [[-> ->]|[Hne Hj]]%Hcases [[-> ->]|[Hne' Hk]]%Hcases Hn Hu Hv; try done.
    + by destruct (Hexcl k v).
    + by destruct (Hexcl j u).
    + by eapply Ho.
Qed.

Lemma turn_ok st st' : turns_ok st → turn st st' → turns_ok st'.
Proof.
  intros Hok Hturn. destruct Hturn as [g ts i t p' g' Hi Hstep|g ts g' Hread].
  - by apply (upload_turn_ok g).
  - destruct Hok as [Hg Ht Hs Ho]. cbn in *. destruct (reader_step_ok _ _ Hg Hread) as [Hg' Hw].
    split; cbn; [exact Hg'| |exact Hs|exact Ho].
    intros i t Hi. eapply task_ok_all; [exact Hw|apply (gk_wf _ _ (Hg ""))|by apply (Ht i)].
Qed.

(** Uploads that have not begun, each of its body cut into chunks. *)
Definition fresh_uploads (ts : list Task) : Prop :=
  ∀ i t, ts !! i = Some t → (∃ checksum, tk_phase t = Creating checksum (tk_body t)) ∧
    ∃ bytes, tk_body t = slice_chunks SLOT_DATA_SIZE bytes.

Lemma turns_run g ts g' ts' :
  (∀ n, gw_ok n g) → fresh_uploads ts → rtc turn (g, ts) (g', ts') → turns_ok (g', ts').
Proof.
  intros Hg Hts Hrun. assert (turns_ok (g, ts)) as Hok.
  { split; cbn; [exact Hg| | |].
    - intros i t Hi. by destruct (Hts i t Hi) as [[ck ->] _].
    - intros i t Hi. destruct (Hts i t Hi) as [_ [bytes ->]].
      destruct (slice_chunks_spec SLOT_DATA_SIZE bytes) as [_ Hsz]; [done|].
      eapply list.Forall_impl; [exact Hsz|]. intros c [_ Hc]. exact Hc.
    - intros i j t u Hi _ _ Ho _. destruct (Hts i t Hi) as [[ck Hp] _]. by rewrite Hp in Ho. }
  remember (g, ts) as st. remember (g', ts') as st'. clear Heqst Heqst'.
  induction Hrun as [st|st1 st2 st3 Hstep _ IH]; [done|]. apply IH. by eapply turn_ok.
Qed.

(** C11: JSON uploads do not disturb each other: however the remote calls of any number of JSON
    uploads and of downloads take turns, also of uploads to the same name, every upload that
    finishes has stored its own body, whole, and a download gives it back. *)
Theorem concurrent_uploads_read_back g ts g' ts' i t :
  (∀ n, gw_ok n g) → fresh_uploads ts → rtc turn (g, ts) (g', ts') →
  ts' !! i = Some t → tk_phase t = Finished → validate_object_name (tk_name t) = None →
  ∃ g2, handle_get_object (tk_name t) g' = (Ok (b64_encode (concat (tk_body t))), g2).
Proof.
  intros Hg Hts Hrun Hi Hp Hv. destruct (turns_run _ _ _ _ Hg Hts Hrun) as [Hg' Ht _ _].
  specialize (Ht i t Hi). rewrite Hp in Ht. by apply get_placed.
Qed.

(** An object can be downloaded while it is uploaded: between the chunks of its upload, a
    GET is answered with the chunks confirmed so far, as if they were the object. *)
Theorem download_during_upload_is_a_prefix g ts g' ts' i t rest :
  (∀ n, gw_ok n g) → fresh_uploads ts → rtc turn (g, ts) (g', ts') →
  ts' !! i = Some t → tk_phase t = Sending rest → validate_object_name (tk_name t) = None →
  ∃ sent g2, sent ++ rest = tk_body t ∧
    handle_get_object (tk_name t) g' = (Ok (b64_encode (concat sent)), g2).
Proof.
  intros Hg Hts Hrun Hi Hp Hv. destruct (turns_run _ _ _ _ Hg Hts Hrun) as [Hg' Ht _ _].
  specialize (Ht i t Hi). rewrite Hp in Ht. destruct Ht as (sent & Hs & Hpl).
  destruct (get_placed _ _ g' Hv (Hg' _) Hpl) as (g2 & Hget). by exists sent, g2.
Qed.

End uploads.

(** ** Witnesses *)

#[local] Existing Instance toy_deps.
#[local] Existing Instance toy_xxh3.
#[local] Existing Instance crc32_ieee.
#[local] Existing Instance toy_base64.
#[local] Existing Instance ascii_only.

(** Runs the uploads in the order of a schedule. *)
Fixpoint run_schedule (l : list nat) (g : AppState World) (ts : list Task) :
    AppState World * list Task :=
  match l with
  | [] => (g, ts)
  | i :: l =>
      match ts !! i with
      | Some t =>
          match upload_step (tk_name t) (tk_phase t) g with
          | (Ok p', g') => run_schedule l g' (<[i := with_phase p' t]> ts)
          | _ => (g, ts)
          end
      | None => (g, ts)
      end
  end.

Lemma run_schedule_turns l g ts :
  rtc turn (g, ts) ((run_schedule l g ts).1, (run_schedule l g ts).2).
Proof.
  revert g ts. induction l as [|i l IH]; intros g ts; [done|]. cbn [run_schedule].
  destruct (ts !! i) as [t|] eqn:Hi; [|done].
  destruct (upload_step (tk_name t) (tk_phase t) g) as [[p'|e|] g'] eqn:Hs; [|done..].
  eapply rtc_l; [by eapply upload_turn|apply IH].
Qed.

Definition upload_of (name text : string) : Task :=
  let body := slice_chunks SLOT_DATA_SIZE (String.list_byte_of_string text) in
  mkTask name body (Creating (crc32 (concat body)) body).
(** Two uploads to one name and one to another. *)
Definition three_uploads : list Task := [upload_of "a" "one"; upload_of "a" "two"; upload_of "b" "three"].

Lemma three_uploads_fresh : fresh_uploads three_uploads.
Proof.
  intros i t Hi. assert (t ∈ three_uploads) as Hin by by eapply list_elem_of_lookup_2.
  assert (∃ name text, t = upload_of name text) as (name & text & ->).
  { unfold three_uploads in Hin. rewrite !elem_of_cons in Hin.
    destruct Hin as [->|[->|[->|Hin]]]; [by eexists _, _..|by apply not_elem_of_nil in Hin]. }
  split; [by eexists|]. by exists (String.list_byte_of_string text).
Qed.

Definition interleaved := run_schedule [2; 0; 2; 0; 1; 0; 2; 0; 2; 2; 0; 2; 0]%nat gateway1 three_uploads.

Lemma concurrent_uploads_read_back_witness :
  ∃ g2, handle_get_object "a" interleaved.1 =
    (Ok (b64_encode (concat (tk_body (upload_of "a" "one")))), g2).
Proof.
  apply (concurrent_uploads_read_back gateway1 three_uploads interleaved.1 interleaved.2 0
    (with_phase Finished (upload_of "a" "one"))).
  - exact gateway1_ok.
  - exact three_uploads_fresh.
  - apply run_schedule_turns.
  - vm_compute. reflexivity.
  - reflexivity.
  - reflexivity.
Defined.

Definition created_only := run_schedule [2; 0]%nat gateway1 three_uploads.

Lemma download_during_upload_is_a_prefix_witness :
  ∃ sent g2, sent ++ tk_body (upload_of "a" "one") = tk_body (upload_of "a" "one") ∧
    handle_get_object "a" created_only.1 = (Ok (b64_encode (concat sent)), g2).
Proof.
  apply (download_during_upload_is_a_prefix gateway1 three_uploads created_only.1 created_only.2 0
    (with_phase (Sending (tk_body (upload_of "a" "one"))) (upload_of "a" "one"))).
  - exact gateway1_ok.
  - exact three_uploads_fresh.
  - apply run_schedule_turns.
  - vm_compute. reflexivity.
  - reflexivity.
  - reflexivity.
Defined.
