(* ===== verification/JoinedTheorems.v ===== *)
(** * JoinedTheorems: the order of joined futures does not matter

    Reads and deletions that run under [join_all] end, whatever turns they take, and with
    the results and the stored chunks that running them one after the other gives. *)

From stdpp Require Import relations.
From S2P Require Import Prelude.
From S2P Require Import Bytes.
From S2P Require Import Crc32.
From S2P Require Import ChunkStore.
From S2P Require Import ChunkStoreFacts.
From S2P Require Import ChunkStoreSpec.
From S2P Require Import Grpc.
From S2P Require Import StorageNode.
From S2P Require Import NodeFacts.
From S2P Require Import HashRing.
From S2P Require Import MetadataStore.
From S2P Require Import ClusterService.
From S2P Require Import Cluster.
From S2P Require Import Forwarding.
From S2P Require Import MetadataService.
From S2P Require Import Network.
From S2P Require Import Clients.
From S2P Require Import Gateway.
From S2P Require Import Joined.
From S2P Require Import SystemFacts.
From S2P Require Import DeleteTheorems.
From S2P Require Import Samples.
From S2P Require Import SampleSystem.
Open Scope string_scope.
Open Scope list_scope.
Open Scope Z_scope.

(** ** Every joining ends *)

Section ends.
Context {W A : Type}.

(** [t'] is what a step of [t] can leave. *)
Definition next_task (t' t : task W A) : Prop :=
  ∃ m g g', t = More m ∧ m g = (Ok t', g').

Lemma next_task_wf : well_founded next_task.
Proof.
  refine (fix wf (t : task W A) : Acc next_task t :=
    match t with
    | Done a => Acc_intro _ _
    | More m => Acc_intro _ (λ t' Hn, _)
    end).
  - intros t' (m & g & g' & Hm & _). discriminate.
  - assert (∃ g g', m g = (Ok t', g')) as (g & g' & Hr).
    { destruct Hn as (m' & g & g' & Hm & Hr). injection Hm as ->. by exists g, g'. }
    clear Hn. revert Hr.
    refine (match m g as p return p = (Ok t', g') → _ with
      | (Ok t2, _) => λ Hr, eq_ind t2 (Acc next_task) (wf t2) t' _
      | (Err _, _) => λ Hr, _
      | (Panic, _) => λ Hr, _ end).
    + by injection Hr.
    + discriminate.
    + discriminate.
Qed.

(** One task of the list makes a step. *)
Definition next_tasks (ts' ts : list (task W A)) : Prop :=
  ∃ i t t', ts !! i = Some t ∧ next_task t' t ∧ ts' = <[i := t']> ts.

Lemma next_tasks_wf : well_founded next_tasks.
Proof.
  intros ts. induction ts as [|t ts IH].
  { constructor. intros ts' (i & t & t' & Hi & _). done. }
  revert ts IH. induction (next_task_wf t) as [t _ IHt]. intros ts Hts.
  induction Hts as [ts Hacc IHts]. constructor. intros ts' ([|i] & u & u' & Hi & Hn & ->); simpl in *.
  - injection Hi as ->. apply IHt; [done|]. by constructor.
  - apply IHts. by exists i, u, u'.
Qed.

End ends.

(** ** What joined tasks give, whatever the others do *)

Section together.
Context {W A : Type} (I : AppState W → Prop) (R : AppState W → AppState W → Prop)
  `{!PreOrder R}.

(** [t] never fails and ends with a result that satisfies [post], while other tasks keep [I]
    and change the state as [R] allows; so does [t] itself. *)
Inductive yields (post : AppState W → A → Prop) (g : AppState W) : task W A → Prop :=
  | yields_done a : post g a → yields post g (Done a)
  | yields_more m :
      (∀ g1, R g g1 → I g1 → ∃ t g2, m g1 = (Ok t, g2) ∧ I g2 ∧ R g1 g2 ∧ yields post g2 t) →
      yields post g (More m).

Definition stable (post : AppState W → A → Prop) : Prop :=
  ∀ g g' a, I g' → R g g' → post g a → post g' a.

Lemma yields_stable post g g' t : stable post → I g' → R g g' → yields post g t → yields post g' t.
Proof.
  intros Hst Hi Hr Hy. destruct Hy as [a Ha|m Hm]; constructor; [by eapply Hst|].
  intros g1 Hr1. apply Hm. by trans g'.
Qed.

(** The tasks of a joining, each with its own postcondition. *)
Definition all_yield (posts : list (AppState W → A → Prop)) (g : AppState W)
    (ts : list (task W A)) : Prop :=
  I g ∧ Forall2 (λ post t, stable post ∧ yields post g t) posts ts.

Lemma turn_yields posts g ts g' ts' :
  all_yield posts g ts → join_turn (g, ts) (g', ts') →
  all_yield posts g' ts' ∧ R g g' ∧ next_tasks ts' ts.
Proof.
  intros [Hi Hall] Hturn. inversion Hturn as [? ? i m t ? Hti Hm]; subst.
  destruct (Forall2_lookup_r _ _ _ _ _ Hall Hti) as (post & Hpi & Hst & Hy).
  inversion Hy as [|? Hmore]; subst.
  destruct (Hmore g) as (t2 & g2 & Hm2 & Hi2 & Hr2 & Hy2); [done|done|].
  rewrite Hm in Hm2. injection Hm2 as <- <-. split_and!; [|done|].
  - split; [done|]. rewrite <- (list_insert_id posts i post) by done.
    apply Forall2_insert; [|done].
    eapply list.Forall2_impl; [exact Hall|]. intros post' u [? ?]. split; [done|by eapply yields_stable].
  - exists i, (More m), t. split_and!; [done| |done]. by exists m, g, g'.
Qed.

Lemma turns_yield posts g ts g' ts' :
  all_yield posts g ts → rtc join_turn (g, ts) (g', ts') → all_yield posts g' ts' ∧ R g g'.
Proof.
  intros Hall Hrun. remember (g, ts) as st. remember (g', ts') as st'.
  revert g ts g' ts' Heqst Heqst' Hall. induction Hrun as [st|st [g1 ts1] st3 Hturn _ IH];
    intros g ts g' ts' -> Heq Hall.
  - injection Heq as -> ->. split; [done|reflexivity].
  - subst st3. destruct (turn_yields _ _ _ _ _ Hall Hturn) as (Hall1 & Hr & _).
    destruct (IH g1 ts1 g' ts' eq_refl eq_refl Hall1) as [? ?]. split; [done|by trans g1].
Qed.

Definition is_done (t : task W A) : bool := match t with Done _ => true | More _ => false end.

(** A task that is not done can make its next step. *)
Lemma can_turn posts g ts i m :
  all_yield posts g ts → ts !! i = Some (More m) → ∃ t g', join_turn (g, ts) (g', <[i := t]> ts).
Proof.
  intros [Hig Hf] Hi. destruct (Forall2_lookup_r _ _ _ _ _ Hf Hi) as (post & _ & _ & Hy).
  inversion Hy as [|? Hmore]; subst.
  destruct (Hmore g) as (t2 & g2 & Hm & _); [done|done|]. exists t2, g2. by eapply join_at.
Qed.

(** Tasks that are not all done can go on, and any joining can be completed. *)
Lemma joining_completes posts g ts :
  all_yield posts g ts →
  ∃ g' ts', rtc join_turn (g, ts) (g', ts') ∧ Forall is_done ts'.
Proof.
  revert g. induction (next_tasks_wf ts) as [ts _ IH]. intros g Hall.
  destruct (decide (Forall is_done ts)) as [Hd|Hd]; [by exists g, ts|].
  apply not_Forall_Exists, list.Exists_exists in Hd as (t & [i Hi]%list_elem_of_lookup & Ht); [|apply _].
  destruct t as [a|m]; [by destruct Ht|]. destruct (can_turn _ _ _ _ _ Hall Hi) as (t2 & g2 & Hturn).
  destruct (turn_yields _ _ _ _ _ Hall Hturn) as (Hall2 & _ & Hn).
  destruct (IH _ Hn g2 Hall2) as (g' & ts' & Hrun & Hd). exists g', ts'. split; [|done].
  by eapply rtc_l.
Qed.

(** The same for a task on its own. *)
Lemma run_yields post g t :
  I g → yields post g t → ∃ a g', run_task t g = (Ok a, g') ∧ post g' a ∧ I g' ∧ R g g'.
Proof.
  revert g. induction (next_task_wf t) as [t _ IH]. intros g Hi Hy.
  destruct Hy as [a Ha|m Hm]; [by exists a, g; split_and!|].
  destruct (Hm g) as (t2 & g2 & Hr & Hi2 & Hr2 & Hy2); [done|done|].
  destruct (IH t2) with g2 as (a & g' & Hrun & Ha & Hi' & Hr'); [by exists m, g, g2|done|done|].
  exists a, g'. split; [|split_and!; [done|done|by trans g2]]. cbn [run_task]. by rewrite Hr.
Qed.

End together.

(** ** Reads *)

Section reads.
Context `{MetaDeps} `{Xxh3} `{Crc32} `{Base64} `{UnicodeTables}.

(** What reading chunk [id] from these nodes gives: the first copy there is. *)
Definition copy_value (w : World) (id : Z) (nodes : list MetaStorageNode) : Z + list byte :=
  match head (omap (λ node, node_data w (sn_address node) !! id) nodes) with
  | Some bytes => inr bytes
  | None => inl INTERNAL_SERVER_ERROR
  end.

Lemma copy_value_cons w id node nodes :
  copy_value w id (node :: nodes) =
  match node_data w (sn_address node) !! id with
  | Some bytes => inr bytes
  | None => copy_value w id nodes
  end.
Proof. unfold copy_value. simpl. by destruct (node_data w (sn_address node) !! id). Qed.

(** In normal service, with the data of [w]. *)
Definition serving (name : string) (w : World) (g : AppState World) : Prop :=
  gw_ok name g ∧ same_data w (gw_world g).

Definition anything (g g' : AppState World) : Prop := True.
#[export] Instance anything_preorder : PreOrder anything.
Proof. by split. Qed.

Definition gives {A} (a : A) (g : AppState World) (a' : A) : Prop := a' = a.

Lemma attempts_yield name w k a id (next : Code + list byte → task World (Z + list byte)) v g :
  serving name w g →
  (∀ bytes g, node_data w a !! id = Some bytes →
    yields (serving name w) anything (gives v) g (next (inr bytes))) →
  (∀ e g, node_data w a !! id = None →
    yields (serving name w) anything (gives v) g (next (inl e))) →
  yields (serving name w) anything (gives v) g (attempts_task k (sn_read_chunk a id) next).
Proof.
  intros _ Hok Herr. revert g. induction k as [|k IH]; intros g; constructor; intros g1 _ [Hg1 Hs1].
  all: destruct (world_read a id (gw_world g1) (gk_nodes _ _ Hg1)) as (r & w2 & Hr & Hs2 & Hb).
  all: cbv [mbind ST_bind]; rewrite (call_run _ _ _ _ Hr).
  all: assert (serving name w (set_gw_world w2 g1)) as Hg2
    by (split; [by apply gw_ok_same|by trans (gw_world g1)]).
  all: rewrite (sd_data _ _ Hs1) in Hb.
  all: destruct r as [bytes|e|]; [| |done]; eexists _, _; (split; [done|]); (split; [done|]);
    (split; [done|]); eauto.
Qed.

Lemma read_task_yields name w id nodes g :
  yields (serving name w) anything (gives (copy_value w id nodes)) g (read_task id nodes).
Proof.
  revert g. induction nodes as [|node nodes IH]; intros g; cbn [read_task]; constructor; [done|].
  intros g1 _ [Hg1 Hs1]. unfold attempt. cbv [mbind ST_bind].
  destruct (get_or_connect_spec name (sn_address node) g1 Hg1) as (r & g2 & -> & Hw2 & Hg2 & Hr).
  assert (serving name w g2) as Hs2 by (split; [done|by rewrite Hw2]).
  rewrite copy_value_cons. destruct r as [c|e|]; [subst c| |done]; eexists _, g2.
  - split; [done|]. split; [done|]. split; [done|].
    apply (attempts_yield name w); [done| |].
    + intros bytes g3 ->. by constructor.
    + intros e g3 ->. apply IH.
  - split; [done|]. split; [done|]. split; [done|].
    destruct Hr as (_ & -> & Hdown). rewrite <- (sd_data _ _ Hs1). unfold node_data.
    rewrite Hdown, lookup_empty. apply IH.
Qed.

Lemma gives_stable {A} name w (a : A) : stable (serving name w) anything (gives a).
Proof. by intros g g' a' _ _. Qed.

(** The reads one after the other. *)
Lemma read_all_values name w infos g :
  serving name w g →
  ∃ g', read_all infos g =
      (Ok ((λ info, copy_value w (ci_id info) (ci_storage_nodes info)) <$> infos), g') ∧
    serving name w g'.
Proof.
  revert g. induction infos as [|info infos IH]; intros g Hg; [by exists g|].
  destruct (run_yields _ _ _ _ _ Hg (read_task_yields name w (ci_id info) (ci_storage_nodes info) g))
    as (a & g1 & Hr & Ha & Hg1 & _). rewrite run_read_task in Hr.
  destruct (IH g1 Hg1) as (g2 & Hr2 & Hg2). exists g2. split; [|done].
  cbn [read_all]. rewrite (bind_ok _ _ _ _ _ Hr), (bind_ok _ _ _ _ _ Hr2).
  unfold gives in Ha. by rewrite Ha.
Qed.

Definition read_tasks (infos : list ChunkInfo) : list (task World (Z + list byte)) :=
  (λ info, read_task (ci_id info) (ci_storage_nodes info)) <$> infos.

Lemma reads_all_yield name w infos g :
  serving name w g →
  all_yield (serving name w) anything
    ((λ info, gives (copy_value w (ci_id info) (ci_storage_nodes info))) <$> infos) g (read_tasks infos).
Proof.
  intros Hg. split; [done|]. apply Forall2_fmap, Forall_Forall2_diag, list.Forall_forall.
  intros info _. split; [apply gives_stable|apply read_task_yields].
Qed.

(** C15: The reads of a download run together, and in whatever order their calls are made: they
    all come to an end, and each gives what it gives when they run one after the other, so
    the answer of the download is the same. *)
Theorem joined_reads_are_sequential name infos g g' ts' :
  gw_ok name g → rtc join_turn (g, read_tasks infos) (g', ts') →
  ∃ g2 ts2 results g3, rtc join_turn (g', ts') (g2, ts2) ∧ ts2 = Done <$> results ∧
    read_all infos g = (Ok results, g3) ∧
    same_data (gw_world g) (gw_world g2) ∧ same_data (gw_world g) (gw_world g3).
Proof.
  intros Hg Hrun. set (w := gw_world g). assert (serving name w g) as Hs by by split.
  destruct (turns_yield _ _ _ _ _ _ _ (reads_all_yield name w infos g Hs) Hrun) as [Hall _].
  destruct (joining_completes _ _ _ _ _ Hall) as (g2 & ts2 & Hrun2 & Hdone).
  destruct (turns_yield _ _ _ _ _ _ _ Hall Hrun2) as [[[_ Hsame] Hf] _].
  destruct (read_all_values name w infos g Hs) as (g3 & Hr3 & [_ Hs3]).
  eexists g2, ts2, _, g3. split_and!; [done| |done|done|done].
  clear -Hdone Hf. apply Forall2_fmap_l in Hf. induction Hf as [|info t infos ts [_ Ht] _ IH]; [done|].
  apply list.Forall_cons in Hdone as [Hd Hdone]. destruct t as [a|m]; [|done].
  inversion Ht as [? Ha|]; subst. unfold gives in Ha. rewrite Ha. rewrite !fmap_cons. by rewrite <- IH.
Qed.

(** ** Deletions *)

(** In normal service, with the metadata of [n]. *)
Definition deleting (name : string) (n : MetaNode Network) (g : AppState World) : Prop :=
  gw_ok name g ∧ w_meta (gw_world g) = n.

(** Copies of the targets may be gone, and nothing else. *)
Definition only_deletes (targets : list (Z * string)) (g g' : AppState World) : Prop :=
  ∀ x id, node_data (gw_world g') x !! id = node_data (gw_world g) x !! id ∨
    (node_data (gw_world g') x !! id = None ∧ (id, x) ∈ targets).

#[export] Instance only_deletes_preorder targets : PreOrder (only_deletes targets).
Proof.
  split; [by intros g x id; left|]. intros a b c Hab Hbc x id.
  destruct (Hbc x id) as [->|?]; [apply Hab|by right].
Qed.

(** The copy of [target] is gone. *)
Definition gone (target : Z * string) (g : AppState World) (_ : bool) : Prop :=
  node_data (gw_world g) target.2 !! target.1 = None.

Lemma gone_stable name n targets target :
  stable (deleting name n) (only_deletes targets) (gone target).
Proof.
  intros g g' b _ Hr Hg. unfold gone in *. destruct (Hr target.2 target.1) as [->|[? _]]; done.
Qed.

Lemma attempts_delete name n targets k id a (next : Code + unit → task World bool) g :
  (id, a) ∈ targets →
  (∀ r g, gone (id, a) g true → yields (deleting name n) (only_deletes targets) (gone (id, a)) g (next r)) →
  yields (deleting name n) (only_deletes targets) (gone (id, a)) g
    (attempts_task k (sn_delete_chunk a id) next).
Proof.
  intros Hin Hnext. revert g. induction k as [|k IH]; intros g; constructor; intros g1 _ [Hg1 Hm1].
  all: destruct (world_delete a id (gw_world g1) (gk_nodes _ _ Hg1))
    as (r & w2 & Hr & Hm2 & Hgood & _ & Hnp & Hd).
  all: cbv [mbind ST_bind]; rewrite (call_run _ _ _ _ Hr).
  all: assert (deleting name n (set_gw_world w2 g1)) as Hg2
    by (split; [by apply gw_ok_world|cbn; by rewrite Hm2]).
  all: assert (only_deletes targets g1 (set_gw_world w2 g1)) as Hod.
  1, 3: intros x i; cbn; rewrite Hd; case_decide as Hx; [subst x|by left];
    rewrite lookup_delete; case_decide; [subst i; by right|by left].
  all: assert (gone (id, a) (set_gw_world w2 g1) true) as Hgone
    by (unfold gone; cbn; by rewrite Hd, decide_True, lookup_delete_eq).
  all: destruct r as [[]|e|]; [| |done]; eexists _, _; (split; [done|]); (split; [done|]);
    (split; [done|]); auto.
Qed.

Lemma delete_task_yields name n targets target g :
  target ∈ targets →
  yields (deleting name n) (only_deletes targets) (gone target) g (delete_task target).
Proof.
  destruct target as [id a]. intros Hin. constructor. intros g1 _ [Hg1 Hm1].
  unfold attempt. cbv [mbind ST_bind]. cbn [snd].
  destruct (get_or_connect_spec name a g1 Hg1) as (r & g2 & -> & Hw2 & Hg2 & Hr).
  assert (deleting name n g2) as Hs2 by (split; [done|by rewrite Hw2]).
  assert (only_deletes targets g1 g2) as Hod by (intros x i; rewrite Hw2; by left).
  destruct r as [c|e|]; [subst c| |done]; eexists _, g2; (split; [done|]); (split; [done|]); (split; [done|]).
  - apply attempts_delete; [done|]. intros r g3 Hg3. by constructor.
  - constructor. destruct Hr as (_ & -> & Hdown). unfold gone, node_data. cbn.
    by rewrite Hdown, lookup_empty.
Qed.

Lemma deletes_all_yield name targets g :
  gw_ok name g →
  all_yield (deleting name (w_meta (gw_world g))) (only_deletes targets) (gone <$> targets) g
    (delete_task <$> targets).
Proof.
  intros Hg. split; [by split|]. apply Forall2_fmap, Forall_Forall2_diag, list.Forall_forall.
  intros target Hin. split; [apply gone_stable|by apply delete_task_yields].
Qed.

(** The deletions of an object's copies run together, and in whatever order their calls are
    made: they all come to an end, the copies that are targets are gone from every storage
    node that is up, all other chunks and the metadata are as before; the same as when they
    run one after the other. *)
Theorem joined_deletes_are_sequential name targets g g' ts' :
  gw_ok name g → rtc join_turn (g, delete_task <$> targets) (g', ts') →
  ∃ g2 ts2, rtc join_turn (g', ts') (g2, ts2) ∧ Forall is_done ts2 ∧ gw_ok name g2 ∧
    w_meta (gw_world g2) = w_meta (gw_world g) ∧
    (∀ x id, node_data (gw_world g2) x !! id =
      if decide ((id, x) ∈ targets) then None else node_data (gw_world g) x !! id) ∧
    ∃ bs g3, delete_copies targets g = (Ok bs, g3) ∧
      ∀ x, node_data (gw_world g3) x = node_data (gw_world g2) x.
Proof.
  intros Hg Hrun. set (n := w_meta (gw_world g)).
  destruct (turns_yield _ _ _ _ _ _ _ (deletes_all_yield name targets g Hg) Hrun) as [Hall Hr1].
  destruct (joining_completes _ _ _ _ _ Hall) as (g2 & ts2 & Hrun2 & Hdone).
  destruct (turns_yield _ _ _ _ _ _ _ Hall Hrun2) as [[[Hg2 Hn2] Hf] Hr2].
  assert (∀ x id, node_data (gw_world g2) x !! id =
    if decide ((id, x) ∈ targets) then None else node_data (gw_world g) x !! id) as Hdata.
  { intros x id. case_decide as Hin.
    - apply list_elem_of_lookup in Hin as [i Hi].
      destruct (Forall2_lookup_l _ _ _ i (gone (id, x)) Hf) as (t & Ht & _ & Hy);
        [by rewrite list_lookup_fmap, Hi|].
      pose proof (proj1 (list.Forall_lookup _ _) Hdone i t Ht) as Hd. destruct t as [b|]; [|done].
      by inversion Hy.
    - assert (only_deletes targets g g2) as Hr by by trans g'. by destruct (Hr x id) as [?|[_ ?]]. }
  exists g2, ts2. split_and!; [done..|].
  destruct (delete_copies_spec name targets g Hg) as (bs & g3 & Hd3 & _ & _ & _ & Hdata3).
  exists bs, g3. split; [done|]. intros x. apply map_eq. intros id. by rewrite Hdata, Hdata3.
Qed.

End reads.

(** ** Witnesses *)

#[local] Existing Instance toy_deps.
#[local] Existing Instance toy_xxh3.
#[local] Existing Instance crc32_ieee.
#[local] Existing Instance toy_base64.
#[local] Existing Instance ascii_only.

(** The uploaded chunk, listed on a node that is down and on the one that is up, and one
    that nobody has; the second read makes the first two turns. *)
Definition two_chunks : list ChunkInfo :=
  [mkChunkInfo 21 0 [down_node; up_node]; mkChunkInfo 99 0 [up_node]].

Lemma joined_reads_are_sequential_witness :
  ∃ g' ts', rtc join_turn (stored, read_tasks two_chunks) (g', ts') ∧
  ∃ g2 ts2 results g3, rtc join_turn (g', ts') (g2, ts2) ∧ ts2 = Done <$> results ∧
    read_all two_chunks stored = (Ok results, g3).
Proof.
  assert (∃ t g', join_turn (stored, read_tasks two_chunks) (g', <[1%nat := t]> (read_tasks two_chunks)))
    as (t & g' & Hturn).
  { assert (∃ m, read_tasks two_chunks !! 1%nat = Some (More m)) as [m Hm] by (eexists; reflexivity).
    eapply (can_turn _ anything), Hm. apply (reads_all_yield "a/b" (gw_world stored)).
    split; [apply stored_ok|done]. }
  exists g', (<[1%nat := t]> (read_tasks two_chunks)). split; [by apply rtc_once|].
  destruct (joined_reads_are_sequential "a/b" two_chunks stored g' _ (proj1 stored_ok)
    (rtc_once _ _ Hturn)) as (g2 & ts2 & results & g3 & Hrun & Hts & Hr & _).
  exists g2, ts2, results, g3. split_and!; [exact Hrun|exact Hts|exact Hr].
Defined.

Definition two_targets : list (Z * string) := [(21, "http://e"); (21, "http://d")].

Lemma joined_deletes_are_sequential_witness :
  ∃ g' ts', rtc join_turn (stored, delete_task <$> two_targets) (g', ts') ∧
  ∃ g2 ts2, rtc join_turn (g', ts') (g2, ts2) ∧ Forall is_done ts2 ∧
    node_data (gw_world stored) "http://d" !! 21 ≠ None ∧
    node_data (gw_world g2) "http://d" !! 21 = None.
Proof.
  assert (∃ t g', join_turn (stored, delete_task <$> two_targets)
      (g', <[1%nat := t]> (delete_task <$> two_targets)))
    as (t & g' & Hturn).
  { assert (∃ m, (delete_task <$> two_targets : list (task World bool)) !! 1%nat = Some (More m))
      as [m Hm] by (eexists; reflexivity).
    eapply (can_turn _ (only_deletes two_targets)), Hm. apply (deletes_all_yield "a/b"), stored_ok. }
  exists g', (<[1%nat := t]> (delete_task <$> two_targets)). split; [by apply rtc_once|].
  destruct (joined_deletes_are_sequential "a/b" two_targets stored g' _ (proj1 stored_ok)
    (rtc_once _ _ Hturn)) as (g2 & ts2 & Hrun & Hd & _ & _ & Hdata & _).
  exists g2, ts2. split_and!; [exact Hrun|exact Hd|by vm_compute|].
  rewrite Hdata. reflexivity.
Defined.
