(* ===== verification/ListTheorems.v ===== *)
(** * ListTheorems: what GET / answers

    The listing of all objects, with their bytes, in every case. *)

From S2P Require Import Prelude.
From S2P Require Import Bytes.
From S2P Require Import Crc32.
From S2P Require Import ChunkStore.
From S2P Require Import ChunkStoreFacts.
From S2P Require Import ChunkStoreSpec.
From S2P Require Import Grpc.
From S2P Require Import StorageNode.
From S2P Require Import HashRing.
From S2P Require Import MetadataStore.
From S2P Require Import MetadataStoreFacts.
From S2P Require Import ClusterService.
From S2P Require Import Cluster.
From S2P Require Import Forwarding.
From S2P Require Import MetadataService.
From S2P Require Import Network.
From S2P Require Import RoutingFacts.
From S2P Require Import Clients.
From S2P Require Import Gateway.
From S2P Require Import SystemFacts.
From S2P Require Import DeleteTheorems.
From S2P Require Import Samples.
From S2P Require Import SampleSystem.
Open Scope string_scope.
Open Scope list_scope.
Open Scope Z_scope.

Section listing.
Context `{MetaDeps} `{Xxh3} `{Crc32} `{Base64} `{UnicodeTables}.

(** ** The listing as a function of the system's state *)

(** The first of the nodes that is up. *)
Fixpoint first_up (w : World) (nodes : list MetaStorageNode) : option string :=
  match nodes with
  | [] => None
  | node :: nodes =>
      if decide (is_Some (w_nodes w !! sn_address node)) then Some (sn_address node)
      else first_up w nodes
  end.

(** How a chunk is listed: as the first node that is up has it, if it has it. *)
Definition listed_chunk (w : World) (info : ChunkInfo) : option ListObjectsResponseChunk :=
  a ← first_up w (ci_storage_nodes info);
  bytes ← node_data w a !! ci_id info;
  Some (mkListChunk (ci_id info) (b64_encode bytes) a).

Definition listed_object (w : World) (obj : ObjectInfo) :
    option (string * list ListObjectsResponseChunk) :=
  chunks ← mapM (listed_chunk w) (oi_chunks obj); Some (oi_name obj, chunks).

Definition listing (w : World) (objs : list ObjectInfo) :
    option (list (string * list ListObjectsResponseChunk)) := mapM (listed_object w) objs.

Definition or_500 {A} (o : option A) : outcome Z A :=
  match o with Some a => Ok a | None => Err INTERNAL_SERVER_ERROR end.

(** ** The handler computes it *)

Lemma first_up_same w w' nodes : same_data w w' → first_up w' nodes = first_up w nodes.
Proof.
  intros Hs. induction nodes as [|node nodes IH]; [done|]. simpl. rewrite IH.
  by rewrite (decide_ext _ _ _ _ (sd_up _ _ Hs (sn_address node))).
Qed.

Lemma listed_chunk_same w w' info : same_data w w' → listed_chunk w' info = listed_chunk w info.
Proof.
  intros Hs. unfold listed_chunk. rewrite (first_up_same w w') by done.
  destruct (first_up w _); [|done]. simpl. by rewrite (sd_data _ _ Hs).
Qed.

Lemma listed_object_same w w' obj : same_data w w' → listed_object w' obj = listed_object w obj.
Proof.
  intros Hs. unfold listed_object. rewrite (mapM_ext (listed_chunk w') (listed_chunk w)); [done|].
  intros info. by apply listed_chunk_same.
Qed.

Lemma first_reachable_run nodes g :
  first_reachable nodes g = (Ok (first_up (gw_world g) nodes), g).
Proof.
  induction nodes as [|node nodes IH]; [done|]. cbn [first_reachable first_up].
  cbv [mbind ST_bind]. rewrite (call_run _ _ _ _ (world_connect _ _)).
  replace (set_gw_world (gw_world g) g) with g by by destruct g.
  case_decide; [done|]. exact IH.
Qed.

Definition good_world (g : AppState World) : Prop := nodes_good (gw_world g).

Lemma list_chunks_run infos g :
  good_world g →
  ∃ g', list_chunks infos g = (or_500 (mapM (listed_chunk (gw_world g)) infos), g') ∧
    same_data (gw_world g) (gw_world g') ∧ gw_connections g' = gw_connections g.
Proof.
  revert g. induction infos as [|info infos IH]; intros g Hg; [by exists g|].
  cbn [list_chunks mapM].
  assert (listed_chunk (gw_world g) info =
    (a ← first_up (gw_world g) (ci_storage_nodes info);
     bytes ← node_data (gw_world g) a !! ci_id info;
     Some (mkListChunk (ci_id info) (b64_encode bytes) a))) as -> by done.
  case_decide as Hn; [exists g; by rewrite Hn|].
  rewrite (bind_ok _ _ _ _ _ (first_reachable_run _ g)).
  destruct (first_up (gw_world g) (ci_storage_nodes info)) as [a|]; [|by exists g].
  destruct (world_read a (ci_id info) (gw_world g) Hg) as (r & w' & Hr & Hs & Hd).
  set (g1 := set_gw_world w' g).
  assert (call_or_500 (sn_read_chunk a (ci_id info)) g =
    (match r with Ok bytes => Ok bytes | Err _ => Err INTERNAL_SERVER_ERROR | Panic => Panic end, g1))
    as Hcall.
  { unfold call_or_500. cbv [mbind ST_bind]. rewrite (call_run _ _ _ _ Hr). by destruct r. }
  cbv [mbind ST_bind]. rewrite Hcall. simpl.
  destruct r as [bytes|e|]; [| |done]; rewrite Hd; [|by exists g1]. simpl.
  destruct (IH g1) as (g2 & Hr2 & Hs2 & Hc2); [by apply (sd_good _ _ Hs)|].
  exists g2. split; [|by split; [trans w'|]].
  rewrite Hr2. erewrite mapM_ext by (intros; by apply (listed_chunk_same _ _ _ Hs)).
  by destruct (mapM (listed_chunk (gw_world g)) infos).
Qed.

Lemma list_payloads_run objs g :
  good_world g →
  ∃ g', list_payloads objs g = (or_500 (listing (gw_world g) objs), g') ∧
    same_data (gw_world g) (gw_world g') ∧ gw_connections g' = gw_connections g.
Proof.
  revert g. induction objs as [|obj objs IH]; intros g Hg; [by exists g|].
  cbn [list_payloads]. unfold listing. cbn [mapM].
  assert (listed_object (gw_world g) obj =
    (chunks ← mapM (listed_chunk (gw_world g)) (oi_chunks obj); Some (oi_name obj, chunks))) as -> by done.
  destruct (list_chunks_run (oi_chunks obj) g Hg) as (g1 & Hr & Hs & Hc). cbv [mbind ST_bind].
  rewrite Hr. destruct (mapM (listed_chunk (gw_world g)) (oi_chunks obj)) as [l|]; [|by exists g1].
  simpl. destruct (IH g1) as (g2 & Hr2 & Hs2 & Hc2); [by apply (sd_good _ _ Hs)|].
  exists g2. split; [|split; [by trans (gw_world g1)|congruence]]. rewrite Hr2. unfold listing.
  erewrite mapM_ext by (intros; by apply (listed_object_same _ _ _ Hs)).
  by destruct (mapM (listed_object (gw_world g)) objs).
Qed.

(** The metadata node asks no peer. *)
Definition lists_alone (n : MetaNode Network) : Prop :=
  mn_forwarding n = false ∨ get_all_peer_addrs (mn_cluster n) = [].

Lemma list_call g :
  lists_alone (w_meta (gw_world g)) →
  call mc_list_objects g = (Ok (inr (local_objects (meta (gw_world g)))), g).
Proof.
  intros Hl.
  assert (∃ n', svc_list_objects (w_meta (gw_world g)) =
      (Ok (local_objects (meta (gw_world g))), n') ∧ n' = w_meta (gw_world g)) as (n' & Hr & ->).
  { unfold svc_list_objects, current_store, scatter_gather_list_objects, gather_all, on_net, zoom.
    run_st. destruct Hl as [->|Hp]; [by eexists|]. destruct (mn_forwarding _); [|by eexists].
    rewrite Hp. simpl. run_st. rewrite app_nil_r. eexists. split; [done|]. by destruct (w_meta (gw_world g)). }
  assert (mc_list_objects (gw_world g) = (Ok (local_objects (meta (gw_world g))), gw_world g)) as Hm.
  { cbn. unfold on_meta, zoom. rewrite Hr. by destruct (gw_world g). }
  rewrite (call_run _ _ _ _ Hm). by destruct g.
Qed.

(** A run of the handler. *)
Lemma list_run g :
  good_world g → lists_alone (w_meta (gw_world g)) →
  ∃ g', handle_list_objects g =
      (or_500 (listing (gw_world g) (local_objects (meta (gw_world g)))), g') ∧
    same_data (gw_world g) (gw_world g') ∧ gw_connections g' = gw_connections g.
Proof.
  intros Hg Hl. unfold handle_list_objects. rewrite (bind_ok _ _ _ _ _ (list_call g Hl)).
  destruct (list_payloads_run (local_objects (meta (gw_world g))) g Hg) as (g2 & Hr2 & Hs2).
  cbv [mbind ST_bind]. rewrite Hr2. destruct (listing _ _) as [l|]; [|by eexists].
  simpl. by eexists.
Qed.

(** C18: With one metadata node, GET / answers with every object and the bytes of every chunk, each from the first of its
    storage nodes that is up; and when that node does not have one of the chunks, or none
    is up, the answer to the whole listing is [500], also when another node has the
    chunk and the object can be downloaded. *)
Theorem list_objects_answers g :
  good_world g → lists_alone (w_meta (gw_world g)) →
  ∃ g', handle_list_objects g =
    (or_500 (listing (gw_world g) (local_objects (meta (gw_world g)))), g').
Proof.
  intros Hg Hl. destruct (list_run g Hg Hl) as (g' & Hr & _). by exists g'.
Qed.

End listing.

(** ** Witnesses *)

#[local] Existing Instance toy_deps.
#[local] Existing Instance toy_xxh3.
#[local] Existing Instance crc32_ieee.
#[local] Existing Instance toy_base64.
#[local] Existing Instance ascii_only.

Lemma list_objects_answers_witness :
  ∃ g', handle_list_objects stored = (Ok [("a/b", [mkListChunk 21 "hello" "http://d"])], g').
Proof.
  destruct (list_objects_answers stored) as (g' & Hr).
  - apply (gk_nodes "a/b"), stored_ok.
  - right. vm_compute. reflexivity.
  - exists g'. rewrite Hr. apply (f_equal (λ r, (r, g'))). vm_compute. reflexivity.
Defined.
