(* ===== verification/FormProgress.v ===== *)
(** * FormProgress: an upload as a form, step by step

    What [Progress] and [UploadTheorems] say of an upload in one body, for the streaming
    upload of api-gateway/src/handlers.rs ([flush_chunk_to_storage], [stream_field],
    [or_rollback]): each flush succeeds while the resources last, and leaves the other
    objects as they are; a form that breaks is rolled back. *)

From S2P Require Import Prelude.
From S2P Require Import Bytes.
From S2P Require Import Crc32.
From S2P Require Import ChunkStore.
From S2P Require Import ChunkStoreFacts.
From S2P Require Import ChunkStoreSpec.
From S2P Require Import Grpc.
From S2P Require Import StorageNode.
From S2P Require Import NodeFacts.
From S2P Require Import HashRing.
From S2P Require Import MetadataStore.
From S2P Require Import MetadataStoreFacts.
From S2P Require Import ChunkIndex.
From S2P Require Import ClusterService.
From S2P Require Import Cluster.
From S2P Require Import Forwarding.
From S2P Require Import MetadataService.
From S2P Require Import Network.
From S2P Require Import ClusterFacts.
From S2P Require Import RoutingFacts.
From S2P Require Import PublicService.
From S2P Require Import PublicFacts.
From S2P Require Import ClusterRun.
From S2P Require Import Clients.
From S2P Require Import Gateway.
From S2P Require Import Multipart.
From S2P Require Import Uploads.
From S2P Require Import SystemFacts.
From S2P Require Import Progress.
From S2P Require Import SystemTheorems.
From S2P Require Import DeleteTheorems.
From S2P Require Import UploadTheorems.
Open Scope string_scope.
Open Scope list_scope.
Open Scope Z_scope.

Section form.
Context `{MetaDeps} `{Xxh3} `{Crc32} `{Base64} `{UnicodeTables}.

(** An upload of [name], which began in [w0], has placed [data], and has room for [k] more
    chunks. *)
Record uploading (name : string) (w0 : World) (data : list (list byte)) (k : nat)
    (g : AppState World) : Prop := mkUploading {
  ug_gateway n : gw_ok n g;
  ug_frame : wframe name w0 (gw_world g);
  ug_sizes : Forall (λ c, zlen c ≤ SLOT_DATA_SIZE) data;
  ug_placed : placed (gw_world g) name data;
  ug_ready : ready k (gw_world g);
}.

Lemma uploading_weaken name w0 data j k g :
  (k ≤ j)%nat → uploading name w0 data j g → uploading name w0 data k g.
Proof. intros Hk []. split; try done. by eapply ready_weaken. Qed.

(** ** Flushing *)

(** A successful upload of one chunk is a successful flush. *)
Lemma put_one_chunk_flush buf name g g' :
  put_one_chunk name buf g = (Ok (), g') → flush_chunk_to_storage buf name g = (Ok (), g').
Proof.
  unfold flush_chunk_to_storage, put_one_chunk, call_or_500. intros Hr.
  inv_bind Hr. destruct a as [e|resp]; [by inv_bind Hr|]. run_st. rewrite Hrun. run_st.
  inv_bind Hr. run_st. rewrite Hrun0. inv_bind Hr. destruct a0 as [e|u]; [by inv_bind Hr|].
  rewrite Hrun1. inv_bind Hr. rewrite Hrun2. by destruct a0 as [e|[]]; [inv_bind Hr|].
Qed.

Lemma flush_run buf name w0 data k g :
  uploading name w0 data (S k) g → zlen buf ≤ SLOT_DATA_SIZE →
  ∃ g', flush_chunk_to_storage buf name g = (Ok (), g') ∧
    uploading name w0 (data ++ [buf]) k g'.
Proof.
  intros [Hg Hf Hsz Hp Hrd] Hlen.
  destruct (put_one_chunk_ready _ _ _ _ _ (Hg name) Hlen Hp Hrd) as (g' & Hr & Hrd').
  exists g'. split; [by apply put_one_chunk_flush|].
  assert (put_chunks name [buf] g = (Ok (), g')) as Hput.
  { cbn [put_chunks]. by rewrite (bind_ok _ _ _ _ _ Hr). }
  assert (Forall (λ c, zlen c ≤ SLOT_DATA_SIZE) (data ++ [buf])) as Hsz'.
  { apply Forall_app. by split; [|apply list.Forall_singleton]. }
  destruct (run_steps_ok 6 name (data ++ [buf]) (Sending [buf]) Finished g g') as (Hg' & Hf' & Hp').
  - done.
  - done.
  - by exists data.
  - rewrite run_steps_chunks by done. unfold as_phase. by rewrite Hput.
  - split; [done|by trans (gw_world g)|done..].
Qed.

(** The full chunks in [n] bytes. *)
Definition full (n : Z) : nat := Z.to_nat (n / SLOT_DATA_SIZE).

Lemma full_split x n :
  0 ≤ x → 0 ≤ n → full (x + n) = (full x + full (x `mod` SLOT_DATA_SIZE + n))%nat.
Proof.
  intros Hx Hn. unfold full. pose proof (Z.div_mod x SLOT_DATA_SIZE) as Hdm.
  pose proof (Z.mod_pos_bound x SLOT_DATA_SIZE slot_size_pos) as Hm.
  assert (x + n = (x `mod` SLOT_DATA_SIZE + n) + x / SLOT_DATA_SIZE * SLOT_DATA_SIZE) as -> by lia.
  rewrite Z.div_add by done. rewrite <- Z2Nat.inj_add; [f_equal; lia|apply Z.div_pos; lia..].
Qed.

Lemma full_more n : SLOT_DATA_SIZE ≤ n → full n = S (full (n - SLOT_DATA_SIZE)).
Proof.
  intros Hn. pose proof slot_size_pos.
  replace n with (SLOT_DATA_SIZE + (n - SLOT_DATA_SIZE)) at 1 by lia.
  rewrite full_split by lia. unfold full at 1. by rewrite Z_div_same_full, Z_mod_same_full.
Qed.

Lemma flush_full_run fuel name buffer w0 data k g :
  (length buffer < fuel)%nat → uploading name w0 data (full (zlen buffer) + k) g →
  ∃ pieces rest g', flush_full fuel SLOT_DATA_SIZE name buffer g = (Ok rest, g') ∧
    uploading name w0 (data ++ pieces) k g' ∧ concat pieces ++ rest = buffer ∧
    zlen rest = zlen buffer `mod` SLOT_DATA_SIZE.
Proof.
  revert buffer data g. induction fuel as [|fuel IH]; intros buffer data g Hfuel Hu; [lia|].
  cbn [flush_full]. pose proof slot_size_pos as Hpos. pose proof (zlen_nonneg buffer) as Hnn.
  destruct (Z.leb_spec SLOT_DATA_SIZE (zlen buffer)) as [Hle|Hlt].
  - rewrite full_more in Hu by done. cbn [Nat.add] in Hu.
    assert (zlen (ztake SLOT_DATA_SIZE buffer) = SLOT_DATA_SIZE) as Hlen
      by (rewrite zlen_ztake by done; lia).
    assert (zlen (zdrop SLOT_DATA_SIZE buffer) = zlen buffer - SLOT_DATA_SIZE) as Hdrop.
    { pose proof (f_equal zlen (ztake_zdrop SLOT_DATA_SIZE buffer)) as Hz.
      rewrite zlen_app in Hz. lia. }
    destruct (flush_run (ztake SLOT_DATA_SIZE buffer) _ _ _ _ _ Hu) as (g1 & Hr & Hu1); [lia|].
    destruct (IH (zdrop SLOT_DATA_SIZE buffer) (data ++ [ztake SLOT_DATA_SIZE buffer]) g1) as (pieces & rest & g2 & Hr2 & Hu2 & Hcat & Hrest).
    { unfold zlen in Hdrop, Hle. lia. }
    { by rewrite Hdrop. }
    rewrite (bind_ok _ _ _ _ _ Hr). exists (ztake SLOT_DATA_SIZE buffer :: pieces), rest, g2.
    rewrite <- app_assoc in Hu2. split_and!; [done|done| |].
    + simpl. by rewrite <- app_assoc, Hcat, ztake_zdrop.
    + rewrite Hrest, Hdrop. rewrite <- (Z_mod_plus_full (zlen buffer - _) 1). f_equal. lia.
  - exists [], buffer, g. rewrite app_nil_r. split_and!; [done| |done|].
    + eapply uploading_weaken; [|exact Hu]. lia.
    + symmetry. by apply Z.mod_small.
Qed.

(** ** Streaming a field *)

(** The bytes of a field that are taken when [size] bytes came before, and the status that
    ends the upload, if something does. *)
Fixpoint received (size : Z) (content : list stream_event) : list byte * option Z :=
  match content with
  | [] => ([], None)
  | StreamError :: _ => ([], Some BAD_REQUEST)
  | Data d :: content =>
      if MAX_OBJECT_SIZE <? size + zlen d then ([], Some PAYLOAD_TOO_LARGE)
      else let '(bytes, e) := received (size + zlen d) content in (d ++ bytes, e)
  end.

Lemma stream_field_run name content u w0 data k g bytes e :
  received (up_total_size u) content = (bytes, e) → zlen (up_buffer u) < SLOT_DATA_SIZE →
  uploading name w0 data (full (zlen (up_buffer u) + zlen bytes) + k) g →
  ∃ pieces g', uploading name w0 (data ++ pieces) k g' ∧
    match e with
    | Some status => stream_field SLOT_DATA_SIZE name content u g = (Err status, g')
    | None => ∃ u', stream_field SLOT_DATA_SIZE name content u g = (Ok u', g') ∧
        concat pieces ++ up_buffer u' = up_buffer u ++ bytes ∧
        zlen (up_buffer u') = (zlen (up_buffer u) + zlen bytes) `mod` SLOT_DATA_SIZE ∧
        up_total_size u' = up_total_size u + zlen bytes
    end.
Proof.
  revert u data g bytes. induction content as [|ev content IH]; intros u data g bytes Hrec Hb Hu.
  { injection Hrec as <- <-. exists [], g. rewrite app_nil_r. split.
    - eapply uploading_weaken; [|exact Hu]. lia.
    - exists u. rewrite zlen_nil, !Z.add_0_r, app_nil_r. split_and!; [done|done| |done].
      symmetry. apply Z.mod_small. split; [apply zlen_nonneg|done]. }
  destruct ev as [d|].
  2: { injection Hrec as <- <-. exists [], g. rewrite app_nil_r. split; [|done].
    eapply uploading_weaken; [|exact Hu]. lia. }
  cbn [received stream_field] in *.
  destruct (_ <? _).
  { injection Hrec as <- <-. exists [], g. rewrite app_nil_r. split; [|done].
    eapply uploading_weaken; [|exact Hu]. lia. }
  destruct (received (up_total_size u + zlen d) content) as [bytes1 e1] eqn:Hrec1.
  injection Hrec as <- <-. set (buffer := up_buffer u ++ d).
  pose proof (zlen_nonneg buffer). pose proof (zlen_nonneg bytes1).
  assert (zlen (up_buffer u) + zlen (d ++ bytes1) = zlen buffer + zlen bytes1) as Hlen
    by (unfold buffer; rewrite !zlen_app; lia).
  rewrite Hlen, full_split, <- Nat.add_assoc in Hu by done.
  destruct (flush_full_run (S (length buffer)) name buffer _ _ _ _ (Nat.lt_succ_diag_r _) Hu)
    as (p1 & rest & g1 & Hr & Hu1 & Hcat1 & Hrest).
  pose proof (Z.mod_pos_bound (zlen buffer) SLOT_DATA_SIZE slot_size_pos) as Hmod.
  rewrite <- Hrest in Hu1, Hmod.
  destruct (IH (mkUpload _ (hasher_update (up_hasher u) d) rest (up_total_size u + zlen d))
    (data ++ p1) g1 bytes1 Hrec1 (proj2 Hmod) Hu1) as (p2 & g2 & Hu2 & Hres).
  exists (p1 ++ p2), g2. rewrite <- app_assoc in Hu2. split; [done|].
  rewrite (bind_ok _ _ _ _ _ Hr). destruct e1 as [status|]; [exact Hres|].
  destruct Hres as (u' & Hr2 & Hcat2 & Hlen2 & Ht). exists u'. cbn [up_buffer up_total_size] in *.
  split_and!; [exact Hr2| | |rewrite Ht, zlen_app; lia].
  - rewrite concat_app, <- app_assoc, Hcat2, app_assoc, Hcat1. unfold buffer. by rewrite app_assoc.
  - rewrite Hlen2, Hlen, Hrest. by rewrite Z.add_mod_idemp_l.
Qed.

(** ** The first call and the last *)

Lemma created_uploading name checksum k g :
  (∀ n, gw_ok n g) → objects (meta (gw_world g)) !! name = None → ready k (gw_world g) →
  ∃ g1, call (mc_put_object name checksum) g = (Ok (inr ()), g1) ∧
    uploading name (gw_world g) [] k g1.
Proof.
  intros Hg Hn Hrd. destruct (created_ready name checksum _ _ (Hg name) Hn Hrd) as (g1 & Hc & Hrd1).
  exists g1. split; [done|].
  assert (upload_step (W := World) name (Creating checksum []) g = (Ok (Sending []), g1)) as Hstep.
  { cbn [upload_step]. by rewrite (bind_ok _ _ _ _ _ Hc). }
  destruct (creating_ok name [] g g1 Hg checksum [] _ eq_refl Hstep)
    as (Hg1 & Hf1 & (sent & Hsent & Hp1) & _).
  apply app_eq_nil in Hsent as [-> _]. by split.
Qed.

Lemma update_frames name checksum size n (s := sv_store (mn_server n)) :
  ms_wf s → draws_u64 s → store_calm s → is_Some (objects s !! name) →
  ∃ n' (s' := sv_store (mn_server n')), svc_update_object_checksum name checksum size n = (Ok (), n') ∧
    frames name n n' ∧ store_calm s' ∧ ms_rng s' = ms_rng s ∧ chunks s' = chunks s.
Proof.
  intros Hwf Hd Hcalm [o Ho].
  assert (∃ d, update_object_checksum name checksum size s = (Ok (), set_disk d
    (set_objects (<[name := mkMetaObject (mo_name o) checksum (mo_chunks o) size]> (objects s)) s)) ∧
    store_calm (set_disk d s)) as (d & Hr & Hcalm').
  { unfold update_object_checksum. run_st. rewrite Ho.
    match goal with |- context [save ?x] =>
      assert (store_calm x) as Hx by exact Hcalm; destruct (save_calm x Hx) as (d & -> & Hd') end.
    exists d. split; [done|]. by split; [|apply Hcalm]. }
  unfold svc_update_object_checksum, route_by_object, locked, on_server, zoom, count. run_st. fold s.
  rewrite Hr. eexists. split; [done|]. cbn. split; [|by split_and!].
  split; [|split; [done|split; [|by right]]].
  - pose proof (update_object_checksum_keeps _ _ _ s _ _ Hwf Hr) as Hwf'.
    split; cbn; [done|done| |done|done|done]. intros k Hk. by apply lookup_insert_ne.
  - intros Hok. pose proof (own_effect_ok (UpdateObjectChecksum name checksum size) _ Hok) as Hok'.
    cbn [own_effect] in Hok'. fold s in Hok'. by rewrite Hr in Hok'.
Qed.

Lemma uploading_object name w0 data k g :
  uploading name w0 data k g → is_Some (objects (meta (gw_world g)) !! name).
Proof. intros [_ _ _ (o & Ho & _) _]. by exists o. Qed.

Lemma update_run name checksum size w0 data k g :
  uploading name w0 data k g →
  ∃ g', call_or_500 (mc_update_object_checksum name checksum size) g = (Ok (), g') ∧
    uploading name w0 data k g'.
Proof.
  intros Hu. destruct (uploading_object _ _ _ _ _ Hu) as [o Ho]. destruct Hu as [Hg Hf Hsz Hp Hrd].
  pose proof (Hg name) as Hgn.
  destruct (update_frames name checksum size (w_meta (gw_world g)) (gk_wf _ _ Hgn) (gk_draws _ _ Hgn)
    (rd_calm _ _ Hrd)) as (n' & Hr & Hfr & Hcalm & Hrng & Hch); [by eexists|].
  assert (mc_update_object_checksum name checksum size (gw_world g) = (Ok (), set_meta n' (gw_world g)))
    as Hm.
  { cbn. unfold on_meta, zoom. by rewrite Hr. }
  apply (call_run _ g) in Hm. cbv beta iota in Hm. set (g' := set_gw_world _ g) in Hm.
  destruct (update_checksum_placed _ _ _ _ _ _ Hgn Hp Hm) as (_ & Hp' & _).
  pose proof (wframe_meta name _ _ Hfr (gk_nodes _ _ Hgn)) as Hf1.
  exists g'. split; [unfold call_or_500; by rewrite (bind_ok _ _ _ _ _ Hm)|].
  split; [by eapply gw_ok_framed|by trans (gw_world g)|done|done|].
  apply (ready_kept k (gw_world g)); cbn; [done|done|by rewrite Hch| | |done|done].
  - apply (fr_nodes _ _ _ (wf_meta _ _ _ Hf1)).
  - by apply same_nodes_eq.
Qed.

(** Giving the upload up removes the object; the chunks stay on the storage nodes. *)
Lemma rollback_run name w0 data k g :
  server_ok (mn_server (w_meta w0)) → uploading name w0 data k g →
  ∃ g', ignore_error (mc_delete_object name) g = (Ok (), g') ∧ (∀ n, gw_ok n g') ∧
    wframe name w0 (gw_world g') ∧ ready k (gw_world g') ∧
    objects (meta (gw_world g')) !! name = None.
Proof.
  intros Hok0 Hu. destruct (uploading_object _ _ _ _ _ Hu) as [o Ho].
  destruct Hu as [Hg Hf Hsz Hp Hrd]. pose proof (Hg name) as Hgn.
  destruct (delete_object_here _ name o (gk_serves _ _ Hgn) (wf_server _ _ _ Hf Hok0) Ho)
    as (n' & Hr & Hpl & Hok & Hobj & Hch & Hn & Hrng & _).
  pose proof (svc_delete_object_frames _ _ _ _ (gk_serves _ _ Hgn) (gk_wf _ _ Hgn) (gk_draws _ _ Hgn) Hr)
    as Hfr. pose proof (wframe_meta name _ _ Hfr (gk_nodes _ _ Hgn)) as Hf1.
  assert (mc_delete_object name (gw_world g) = (Ok (), set_meta n' (gw_world g))) as Hm.
  { cbn. unfold on_meta, zoom. by rewrite Hr. }
  unfold ignore_error. rewrite (bind_ok _ _ _ _ _ (call_run _ _ _ _ Hm)). eexists.
  split; [done|]. split; [by eapply gw_ok_framed|]. split; [by trans (gw_world g)|]. split.
  - apply (ready_kept k (gw_world g)); cbn; [apply Hok|done| |done| |done|done].
    + intros id Hid. rewrite Hch, lookup_delete_all. by case_decide.
    + by apply same_nodes_eq.
  - cbn. by rewrite Hobj, lookup_delete_eq.
Qed.

(** The creation of an object that is there is refused, and changes nothing. *)
Lemma create_refused name checksum g :
  gw_ok name g → is_Some (objects (meta (gw_world g)) !! name) →
  ∃ e g', call (mc_put_object name checksum) g = (Ok (inl e), g') ∧ read_only g g'.
Proof.
  intros Hg Hn. destruct (svc_put_object name checksum (w_meta (gw_world g))) as [r n'] eqn:Hr.
  assert ((∃ e, r = Err e) ∧ mn_server n' = mn_server (w_meta (gw_world g)) ∧
    same_place (w_meta (gw_world g)) n') as ([e ->] & Hs & Hp).
  { revert Hr. unfold svc_put_object. rewrite route_object_here by apply Hg.
    unfold locked, on_server, zoom, count, put_object. run_st. rewrite decide_True by done.
    intros [= <- <-]. cbn. split; [by eexists|]. split; [by destruct (mn_server _)|done]. }
  assert (mc_put_object name checksum (gw_world g) = (Err e, set_meta n' (gw_world g))) as Hm.
  { cbn. unfold on_meta, zoom. by rewrite Hr. }
  rewrite (call_run _ _ _ _ Hm). eexists _, _. split; [done|]. by split.
Qed.

(** ** The whole upload *)

(** What the handler does once the object is created, and from there on, where [upd] is how
    it has the checksum and the size of the object set. *)
Definition form_body (upd : Z → Z → GW (W := World) unit) (name : string) (form : list form_event) :
    GW (W := World) Upload :=
  match find_file form with
  | None => throw BAD_REQUEST
  | Some content =>
      u ← stream_field SLOT_DATA_SIZE name content (mkUpload _ hasher_new [] 0);
      _ ← (if decide (up_buffer u = []) then mret () else flush_chunk_to_storage (up_buffer u) name);
      _ ← upd (hasher_finalize (up_hasher u)) (up_total_size u);
      mret u
  end.

Definition form_cut (upd : Z → Z → GW (W := World) unit) (name : string) (form : list form_event) : GW (W := World) Z :=
  created ← call (mc_put_object name 0);
  match created with
  | inl _ => refuse "PUT" "object_multipart" "409" CONFLICT
  | inr _ =>
      u ← or_rollback name (form_body upd name form);
      _ ← measure (add_uploaded (up_total_size u));
      _ ← measure (inc_http "PUT" "object_multipart" "200");
      _ ← measure (observe_operation "put_object_multipart");
      mret (up_total_size u)
  end.

(** The request of the code, and what comes of it where the object is not. *)
Definition set_checksum (name : string) (checksum size : Z) : GW (W := World) unit :=
  call_or_500 (mc_update_object_checksum name checksum size).
Definition no_checksum (checksum size : Z) : GW (W := World) unit := throw INTERNAL_SERVER_ERROR.

Lemma form_start name form g :
  validate_object_name name = None → offers (gw_world g) →
  handle_put_object_multipart name form g = form_cut (set_checksum name) name form g.
Proof.
  intros Hv Hof. unfold handle_put_object_multipart. rewrite Hv.
  destruct (list_nodes_offers _ Hof) as (first & rest & Hl & Hup).
  destruct (connect_up _ _ Hup) as [Hconn Hsize].
  assert (call_or_500 (W := World) mc_list_storage_nodes g = (Ok (first :: rest), g)) as Hl'.
  { unfold call_or_500. by rewrite (bind_ok _ _ _ _ _ Hl). }
  assert (call_or_500 (sn_get_chunk_size (sn_address first)) g = (Ok SLOT_DATA_SIZE, g)) as Hsize'.
  { unfold call_or_500. by rewrite (bind_ok _ _ _ _ _ Hsize). }
  by rewrite (bind_ok _ _ _ _ _ Hl'), (bind_ok _ _ _ _ _ Hconn), (bind_ok _ _ _ _ _ Hsize').
Qed.

Definition first_some {A} (x y : option A) : option A := match x with Some _ => x | None => y end.

(** A body is cut into as many chunks as it takes to hold it. *)
Lemma slices_hold bytes : zlen bytes ≤ SLOT_DATA_SIZE * Z.of_nat (length (slice_chunks SLOT_DATA_SIZE bytes)).
Proof.
  destruct (slice_chunks_spec SLOT_DATA_SIZE bytes slot_size_pos) as [Hcat Hlen].
  rewrite <- Hcat at 1. clear Hcat. induction Hlen as [|c l Hc _ IH]; [done|].
  cbn [concat length]. rewrite zlen_app. lia.
Qed.

Lemma slices_enough bytes :
  (full (zlen bytes) ≤ length (slice_chunks SLOT_DATA_SIZE bytes))%nat ∧
  (zlen bytes `mod` SLOT_DATA_SIZE ≠ 0 →
    (full (zlen bytes) + 1 ≤ length (slice_chunks SLOT_DATA_SIZE bytes))%nat).
Proof.
  pose proof (slices_hold bytes) as Hh. pose proof slot_size_pos. pose proof (zlen_nonneg bytes).
  pose proof (Z.div_mod (zlen bytes) SLOT_DATA_SIZE) as Hdm.
  pose proof (Z.mod_pos_bound (zlen bytes) SLOT_DATA_SIZE) as Hm.
  assert (0 ≤ zlen bytes / SLOT_DATA_SIZE) by (by apply Z.div_pos).
  unfold full. split; [|intros Hne]; nia.
Qed.

Lemma or_rollback_done {A} name (m : GW (W := World) A) g a g1 :
  m g = (Ok a, g1) → or_rollback name m g = (Ok a, g1).
Proof. intros Hm. unfold or_rollback, attempt. cbv [mbind ST_bind]. by rewrite Hm. Qed.

(** The bytes that a form brings, how many of them are taken, and the status that it is
    refused with. *)
Definition form_result (form : list form_event) : list byte * option Z :=
  match find_file form with None => ([], Some BAD_REQUEST) | Some content => received 0 content end.

(** How setting the checksum ends: it may be refused, with the status [refused]. *)
Section form_run.
Context (upd : Z → Z → GW (W := World) unit) (refused : option Z) (name : string).
Hypothesis upd_run : ∀ checksum size w0 data k g, uploading name w0 data k g →
  ∃ g', upd checksum size g = (match refused with None => Ok () | Some status => Err status end, g') ∧
    uploading name w0 data k g'.

Lemma form_body_run form content w0 k g bytes e :
  find_file form = Some content → received 0 content = (bytes, e) →
  uploading name w0 [] (length (slice_chunks SLOT_DATA_SIZE bytes) + k) g →
  ∃ data g', uploading name w0 data k g' ∧
    match first_some e refused with
    | Some status => form_body upd name form g = (Err status, g')
    | None => ∃ u, form_body upd name form g = (Ok u, g') ∧ up_total_size u = zlen bytes ∧
        concat data = bytes
    end.
Proof.
  intros Hform Hrec Hu. unfold form_body. rewrite Hform.
  destruct (slices_enough bytes) as [Hfull Hmore].
  set (j := (length (slice_chunks SLOT_DATA_SIZE bytes) - full (zlen bytes) + k)%nat).
  destruct (stream_field_run name content (mkUpload _ hasher_new [] 0) w0 [] j g bytes e Hrec)
    as (pieces & g1 & Hu1 & Hres); [done| |].
  { eapply uploading_weaken; [|exact Hu]. cbn [up_buffer]. rewrite zlen_nil, Z.add_0_l. unfold j. lia. }
  destruct e as [status|].
  { exists pieces, g1. split; [eapply uploading_weaken; [|exact Hu1]; unfold j; lia|].
    by rewrite (bind_err _ _ _ _ _ Hres). }
  destruct Hres as (u & Hr & Hcat & Hlen & Ht). rewrite (bind_ok _ _ _ _ _ Hr). cbn in Hcat, Hlen, Ht.
  rewrite zlen_nil, Z.add_0_l in Hlen.
  assert (∃ data g2, (if decide (up_buffer u = []) then mret ()
      else flush_chunk_to_storage (up_buffer u) name) g1 = (Ok (), g2) ∧
    uploading name w0 data k g2 ∧ concat data = bytes) as (data & g2 & Hr2 & Hu2 & Hdata).
  { case_decide as Hnil.
    - exists pieces, g1. split; [done|]. rewrite Hnil, app_nil_r in Hcat. split; [|done].
      eapply uploading_weaken; [|exact Hu1]. unfold j. lia.
    - assert (zlen (up_buffer u) ≠ 0) as Hpos.
      { unfold zlen. by destruct (up_buffer u). }
      destruct (flush_run (up_buffer u) name w0 pieces k g1) as (g2 & Hr2 & Hu2).
      + eapply uploading_weaken; [|exact Hu1]. rewrite Hlen in Hpos. specialize (Hmore Hpos).
        unfold j. lia.
      + rewrite Hlen. pose proof (Z.mod_pos_bound (zlen bytes) SLOT_DATA_SIZE slot_size_pos). lia.
      + exists (pieces ++ [up_buffer u]), g2. split; [done|]. split; [done|].
        rewrite concat_app. simpl. by rewrite app_nil_r. }
  destruct (upd_run (hasher_finalize (up_hasher u)) (up_total_size u) _ _ _ _ Hu2)
    as (g3 & Hr3 & Hu3).
  rewrite (bind_ok _ _ _ _ _ Hr2). exists data, g3. split; [done|]. cbn [first_some].
  destruct refused; [by rewrite (bind_err _ _ _ _ _ Hr3)|]. rewrite (bind_ok _ _ _ _ _ Hr3).
  by exists u.
Qed.

(** An upload of a new object as a form: either the object is there with all the bytes, or it
    is not there. *)
Lemma form_cut_run form k g bytes e :
  (∀ n, gw_ok n g) → server_ok (mn_server (w_meta (gw_world g))) →
  objects (meta (gw_world g)) !! name = None →
  form_result form = (bytes, e) →
  ready (length (slice_chunks SLOT_DATA_SIZE bytes) + k) (gw_world g) →
  ∃ g', (∀ n, gw_ok n g') ∧ wframe name (gw_world g) (gw_world g') ∧ ready k (gw_world g') ∧
    match first_some e refused with
    | Some status => form_cut upd name form g = (Err status, g') ∧
        objects (meta (gw_world g')) !! name = None
    | None => form_cut upd name form g = (Ok (zlen bytes), g') ∧
        ∃ data, concat data = bytes ∧ placed (gw_world g') name data
    end.
Proof.
  intros Hg Hok Hn Hres Hrd. unfold form_cut.
  destruct (created_uploading name 0 _ _ Hg Hn Hrd) as (g1 & Hc & Hu1).
  rewrite (bind_ok _ _ _ _ _ Hc).
  unfold form_result in Hres. destruct (find_file form) as [content|] eqn:Hform.
  2: { injection Hres as <- <-.
    destruct (rollback_run _ _ _ _ _ Hok Hu1) as (g2 & Hr & Hg2 & Hf & Hrd2 & Hno).
    assert (form_body upd name form g1 = (Err BAD_REQUEST, g1)) as Hb
      by (unfold form_body; by rewrite Hform).
    exists g2. cbn [first_some].
    split_and!; [done|done|by eapply ready_weaken; [|exact Hrd2]; lia| |done].
    by rewrite (bind_err _ _ _ _ _ (or_rollback_failed _ _ _ _ _ _ Hb Hr)). }
  destruct (form_body_run _ _ _ _ _ _ _ Hform Hres Hu1) as (data & g2 & Hu2 & Hrun).
  destruct (first_some e refused) as [status|].
  - destruct (rollback_run _ _ _ _ _ Hok Hu2) as (g3 & Hr & Hg3 & Hf & Hrd3 & Hno).
    exists g3. split_and!; [done..| |done].
    by rewrite (bind_err _ _ _ _ _ (or_rollback_failed _ _ _ _ _ _ Hrun Hr)).
  - destruct Hrun as (u & Hr & Ht & Hcat). destruct Hu2 as [Hg2 Hf2 _ Hp2 Hrd2].
    rewrite (bind_ok _ _ _ _ _ (or_rollback_done _ _ _ _ _ Hr)), Ht.
    match goal with |- ∃ g', _ ∧ _ ∧ _ ∧ ?run g2 = _ ∧ _ =>
      assert (∃ g', run g2 = (Ok (zlen bytes), g') ∧ gw_world g' = gw_world g2 ∧
        gw_connections g' = gw_connections g2) as (g' & Hrun & Hw & Hcs) by by eexists end.
    exists g'. rewrite Hw. split; [|by split_and!; [..|exists data]].
    intros n. by eapply gw_ok_read_only; [apply Hg2|apply read_only_same].
Qed.

End form_run.

Lemma no_checksum_run name checksum size w0 data k g :
  uploading name w0 data k g →
  ∃ g', no_checksum checksum size g = (Err INTERNAL_SERVER_ERROR, g') ∧ uploading name w0 data k g'.
Proof. by exists g. Qed.

Lemma form_run name form k g bytes e :
  (∀ n, gw_ok n g) → server_ok (mn_server (w_meta (gw_world g))) →
  validate_object_name name = None → objects (meta (gw_world g)) !! name = None →
  form_result form = (bytes, e) →
  ready (length (slice_chunks SLOT_DATA_SIZE bytes) + k) (gw_world g) →
  ∃ g', (∀ n, gw_ok n g') ∧ wframe name (gw_world g) (gw_world g') ∧ ready k (gw_world g') ∧
    match e with
    | Some status => handle_put_object_multipart name form g = (Err status, g') ∧
        objects (meta (gw_world g')) !! name = None
    | None => handle_put_object_multipart name form g = (Ok (zlen bytes), g') ∧
        ∃ data, concat data = bytes ∧ placed (gw_world g') name data
    end.
Proof.
  intros Hg Hok Hv Hn Hres Hrd. rewrite (form_start name form g Hv (ready_offers _ _ Hrd)).
  destruct (form_cut_run (set_checksum name) None name (update_run name) form k g bytes e)
    as (g' & H'); [done..|]. exists g'. by destruct e.
Qed.

Lemma form_cut_conflict upd name form g :
  gw_ok name g → is_Some (objects (meta (gw_world g)) !! name) →
  ∃ g', form_cut upd name form g = (Err CONFLICT, g') ∧ read_only g g'.
Proof.
  intros Hg Hn. unfold form_cut. destruct (create_refused name 0 g Hg Hn) as (e & g1 & Hr & Hro).
  rewrite (bind_ok _ _ _ _ _ Hr). eexists. split; [done|]. trans g1; [done|by apply read_only_same].
Qed.

(** Refused uploads, in one body and as a form, of an object that is there. *)
Lemma put_refused name payload bytes form k g :
  gw_ok name g → validate_object_name name = None → ready k (gw_world g) →
  is_Some (objects (meta (gw_world g)) !! name) →
  (b64_decode payload = Some bytes → zlen bytes ≤ MAX_OBJECT_SIZE →
    ∃ g', handle_put_object name payload g = (Err CONFLICT, g') ∧ read_only g g') ∧
  ∃ g', handle_put_object_multipart name form g = (Err CONFLICT, g') ∧ read_only g g'.
Proof.
  intros Hg Hv Hrd Hn. split.
  - intros Hb Hsz. rewrite (put_start _ _ _ _ Hv Hb Hsz (ready_offers _ _ Hrd)). unfold put_cut.
    destruct (create_refused name (compute_checksum bytes) g Hg Hn) as (e & g1 & Hr & Hro).
    rewrite (bind_ok _ _ _ _ _ Hr). eexists. split; [done|]. trans g1; [done|by apply read_only_same].
  - rewrite (form_start _ _ _ Hv (ready_offers _ _ Hrd)). by apply form_cut_conflict.
Qed.

End form.
