(* ===== verification/AnyNode.v ===== *)
(** * AnyNode: a gateway in front of any metadata node

    A gateway whose metadata node does not own an object, next to a gateway whose metadata
    node does: the requests between metadata nodes make the two answer alike, except for an
    upload as a form, which only the owner can finish. *)

From S2P Require Import Prelude.
From S2P Require Import Bytes.
From S2P Require Import Crc32.
From S2P Require Import ChunkStore.
From S2P Require Import Grpc.
From S2P Require Import StorageNode.
From S2P Require Import HashRing.
From S2P Require Import MetadataStore.
From S2P Require Import MetadataStoreFacts.
From S2P Require Import ChunkIndex.
From S2P Require Import ClusterService.
From S2P Require Import Cluster.
From S2P Require Import Forwarding.
From S2P Require Import MetadataService.
From S2P Require Import Network.
From S2P Require Import ClusterFacts.
From S2P Require Import RoutingFacts.
From S2P Require Import PublicService.
From S2P Require Import PublicFacts.
From S2P Require Import Clients.
From S2P Require Import Gateway.
From S2P Require Import Multipart.
From S2P Require Import SystemFacts.
From S2P Require Import Progress.
From S2P Require Import SystemTheorems.
From S2P Require Import DeleteTheorems.
From S2P Require Import UploadTheorems.
From S2P Require Import FormProgress.
From S2P Require Import Relate.
Open Scope string_scope.
Open Scope list_scope.
Open Scope Z_scope.

Section via.
Context `{MetaDeps} `{Xxh3} `{Crc32} `{Base64} `{UnicodeTables}.

(** ** The two worlds *)

(** [n] takes requests on [name] to the metadata node at [b]. *)
Record away (n : MetaNode Network) (name b : string) : Prop := mkAway {
  aw_on : mn_forwarding n = true;
  aw_owner : ∃ addr, get_owner_addr name (mn_cluster n) = Some addr ∧ endpoint_of addr = b;
  aw_right : clients_right (mn_cluster n);
}.

(** The node once was [n], and passes requests on [name] on to the node at [b], whose server
    is [c]; it has done nothing else. *)
Record passes (name b : string) (n n' : MetaNode Network) (c : ClusterServer) : Prop := mkPasses {
  ps_away : away n name b;
  ps_server : mn_server n' = mn_server n;
  ps_world : mn_world n' = <[b := c]> (mn_world n);
}.

(** It serves them itself, with the server [c], and has asked no other. *)
Record keeps_here (name : string) (n n' : MetaNode Network) (c : ClusterServer) : Prop := mkKeepsHere {
  kh_serves : serves_itself n name;
  kh_server : mn_server n' = c;
  kh_world : mn_world n' = mn_world n;
}.

(** The same storage nodes; requests on [name] end at a server in the state of that of [w'],
    whether the metadata node of [w], once [n], has it or is to pass them on to it. *)
Record via (name b : string) (n : MetaNode Network) (w w' : World) : Prop := mkVia {
  via_nodes : w_nodes w = w_nodes w';
  via_member : same_membership n (w_meta w);
  via_serves : serves_itself (w_meta w') name;
  via_where : passes name b n (w_meta w) (mn_server (w_meta w')) ∨
    keeps_here name n (w_meta w) (mn_server (w_meta w'));
}.

(** Two gateways in the same state, in front of them. *)
Record gvia (name b : string) (n : MetaNode Network) (g g' : AppState World) : Prop := mkGvia {
  gv_metrics : gw_metrics g = gw_metrics g';
  gv_connections : gw_connections g = gw_connections g';
  gv_world : via name b n (gw_world g) (gw_world g');
}.

Lemma leads_to_endpoint addr c : clients_right c → leads_to addr (endpoint_of addr) c.
Proof.
  intros Hc. unfold leads_to. destruct (cached_client addr c) as [client|] eqn:Hcl; [|done].
  unfold cached_client in Hcl.
  apply head_omap_Some in Hcl as ([nid a] & Hin%elem_of_map_to_list & Hf).
  case_decide; [subst a|done]. by apply (Hc nid).
Qed.

Lemma passes_forwards name b n n' c :
  same_membership n n' → passes name b n n' c → forwards n' name b c.
Proof.
  intros (Hf' & (Hr & Hi & Ha) & Hc') [[Hf (addr & Ho & <-) Hc] _ Hw].
  split; [congruence| |rewrite Hw; apply lookup_insert_eq].
  exists addr. split; [unfold get_owner_addr in *; by rewrite Hr, Hi, Ha|].
  apply leads_to_endpoint. auto.
Qed.

Lemma same_membership_serves n n' name :
  same_membership n n' → serves_itself n name → serves_itself n' name.
Proof.
  intros (Hf & (Hr & Hi & Ha) & _). unfold serves_itself, get_owner_addr. by rewrite Hf, Hr, Hi, Ha.
Qed.

Lemma same_membership_eq n n' :
  mn_forwarding n' = mn_forwarding n → mn_cluster n' = mn_cluster n → same_membership n n'.
Proof. intros Hf Hc. split; [done|]. by rewrite Hc. Qed.

Lemma same_membership_trans n1 n2 n3 :
  same_membership n1 n2 → same_membership n2 n3 → same_membership n1 n3.
Proof.
  intros (F1 & (R1 & I1 & A1) & C1) (F2 & (R2 & I2 & A2) & C2).
  split; [congruence|]. split; [|auto]. split_and!; congruence.
Qed.

(** Which of the two it is depends on the node alone. *)
Lemma via_here name b n w w' :
  serves_itself n name → via name b n w w' → keeps_here name n (w_meta w) (mn_server (w_meta w')).
Proof.
  intros Hs [_ _ _ [[[Hf (addr & Ho & _) _] _ _]|Hk]]; [|done].
  destruct Hs as [Hs|Hs]; congruence.
Qed.

Lemma via_passes name b n w w' :
  away n name b → via name b n w w' → passes name b n (w_meta w) (mn_server (w_meta w')).
Proof.
  intros [Hf (addr & Ho & _) _] [_ _ _ [Hp|[Hs _ _]]]; [done|]. destruct Hs as [Hs|Hs]; congruence.
Qed.

(** ** Requests on the object *)

Section request.
Context {A : Type} (name b : string) (nA : MetaNode Network) (req : MetaRequest) (p : PeerRequest)
  (project : PeerResponse → option A) (fwd : string → @MN Network A) (here : @MN Network A)
  (op : CS A) (inj : A → PeerResponse).
Hypotheses (Hfwd : ∀ addr, fwd addr = on_net (expect project (call_peer addr p)))
  (Hserve : ∀ c, serve p c = (x ← op; mret (inj x)) c)
  (Hinj : ∀ a, project (inj a) = Some a)
  (Hreq : ∀ n : MetaNode Network, routed_by req n = Some name)
  (Hlocal : local_effect (served_by p) here).

(** The local handler, next to the request between peers. *)
Lemma here_served n : mn_server (here n).2 = (op (mn_server n)).2 ∧
  same_membership n (here n).2 ∧ mn_world (here n).2 = mn_world n.
Proof.
  destruct (here n) as [r n'] eqn:Hh. destruct (Hlocal _ _ _ Hh) as (Hf & Hc & Hw & Hs).
  split; [|split; [by apply same_membership_eq|done]]. cbn [snd]. rewrite Hs. unfold served_by.
  rewrite Hserve. run_st. by destruct (op _) as [[]].
Qed.

(** The two answers, when the local handler answers as the request between peers does. *)
Lemma request_step_related w w' :
  via name b nA w w' →
  (∀ n, serves_itself n name → mn_server n = mn_server (w_meta w') →
    outcome_rel any_error eq (op (mn_server n)).1 (here n).1) →
  outcome_rel any_error eq (on_meta (route_object name fwd here) w).1
    (on_meta (route_object name fwd here) w').1 ∧
  via name b nA (on_meta (route_object name fwd here) w).2 (on_meta (route_object name fwd here) w').2.
Proof.
  intros [Hn Hmb Hs Hwh] Ha. unfold on_meta, zoom. rewrite (route_object_here (w_meta w')) by done.
  destruct (here_served (w_meta w')) as (HsB & HmB & _). pose proof (Ha _ Hs eq_refl) as HaB.
  destruct (here (w_meta w')) as [r nB]. cbn [fst snd] in *.
  assert (serves_itself nB name) as HsB' by by eapply same_membership_serves.
  destruct Hwh as [Hp|Hk].
  - destruct (route_object_is_peers _ name b _ project p fwd here op inj
      (passes_forwards _ _ _ _ _ Hmb Hp) Hfwd Hserve Hinj) as (n' & HrA & HsA & _ & _ & _ & HwA).
    pose proof (route_object_effect req p name project fwd here _ _ _ Hfwd Hlocal (Hreq _) HrA) as [Hm _].
    rewrite HrA. split; [done|]. destruct Hp as [Haw Hsv Hww].
    split; cbn [fst snd w_meta w_nodes set_meta]; [done|by eapply same_membership_trans|done|].
    left. split; [done|congruence|]. by rewrite HwA, HsB, Hww, insert_insert_eq.
  - destruct Hk as [Hsn Hsv Hww]. pose proof (same_membership_serves _ _ _ Hmb Hsn) as HsA.
    rewrite route_object_here by done. destruct (here_served (w_meta w)) as (HsA' & HmA & HwA).
    pose proof (Ha _ HsA Hsv) as HaA. destruct (here (w_meta w)) as [rA nA']. cbn [fst snd] in *.
    split; [eapply outcome_rel_join, HaB; by rewrite <- Hsv|].
    split; cbn [fst snd w_meta w_nodes set_meta]; [done|by eapply same_membership_trans|done|].
    right. split; [done| |congruence]. by rewrite HsA', HsB, Hsv.
Qed.

(** The same for a handler that is not routed, on the node that has the server. *)
Lemma here_step_related w w' :
  via name b nA w w' → keeps_here name nA (w_meta w) (mn_server (w_meta w')) →
  (∀ n, outcome_rel any_error eq (op (mn_server n)).1 (here n).1) →
  outcome_rel any_error eq (on_meta here w).1 (on_meta here w').1 ∧
  via name b nA (on_meta here w).2 (on_meta here w').2 ∧
  keeps_here name nA (w_meta (on_meta here w).2) (mn_server (w_meta (on_meta here w').2)) ∧
  mn_server (w_meta (on_meta here w').2) = (op (mn_server (w_meta w'))).2.
Proof.
  intros [Hn Hmb Hs _] [Hsn Hsv Hww] Ha. unfold on_meta, zoom.
  destruct (here_served (w_meta w')) as (HsB & HmB & _). pose proof (Ha (w_meta w')) as HaB.
  destruct (here_served (w_meta w)) as (HsA' & HmA & HwA). pose proof (Ha (w_meta w)) as HaA.
  destruct (here (w_meta w')) as [r nB], (here (w_meta w)) as [rA nA']. cbn [fst snd] in *.
  assert (keeps_here name nA nA' (mn_server nB)) as Hk.
  { split; [done| |congruence]. by rewrite HsA', HsB, Hsv. }
  split; [eapply outcome_rel_join, HaB; by rewrite <- Hsv|]. split_and!; [|done|done].
  split; cbn [fst snd w_meta w_nodes set_meta]; [done|by eapply same_membership_trans| |by right].
  by eapply same_membership_serves.
Qed.

Lemma request_related :
  (∀ n, outcome_rel any_error eq (op (mn_server n)).1 (here n).1) →
  related (via name b nA) any_error eq (on_meta (route_object name fwd here))
    (on_meta (route_object name fwd here)).
Proof. intros Ha w w' Hv. by apply request_step_related. Qed.

End request.

(** The answers of a local handler and of the request between peers, on the result of the
    store's operation. *)
Ltac same_answers op :=
  let n := fresh "n" in intros n;
  unfold locked, current_store, on_server, with_index, on_server, on_index, zoom, count;
  unfold forward_put_object, forward_delete_object, forward_allocate_chunk, forward_confirm_chunk,
    forward_delete_chunk, on_index, with_store, zoom, rethrow;
  run_st;
  destruct (op (sv_store (mn_server n))) as [[?a|?e|] ?s]; cbn.

Lemma put_object_related name b nA checksum :
  related (via name b nA) any_error eq (mc_put_object name checksum) (mc_put_object name checksum).
Proof.
  eapply (request_related name b nA (PutObject name checksum) (ForwardPutObject name checksum)
    resp_unit _ _ (forward_put_object name checksum) (λ _, RespUnit)); [done|done|by intros []|done|..].
  - run_here (put_object checksum name); by intros [= _ <-].
  - same_answers (put_object checksum name); try done. by destruct a.
Qed.

Lemma delete_object_related name b nA :
  related (via name b nA) any_error eq (mc_delete_object name) (mc_delete_object name).
Proof.
  eapply (request_related name b nA (DeleteObject name) (ForwardDeleteObject name)
    resp_unit _ _ (forward_delete_object name) (λ _, RespUnit)); [done|done|by intros []|done|..].
  - run_here (delete_object name); by intros [= _ <-].
  - by same_answers (delete_object name).
Qed.

(** A chunk of the object, or one that is not in the index, is deleted where the object is. *)
Lemma delete_chunk_related_at name b nA id w w' :
  via name b nA w w' → keeps_here name nA (w_meta w) (mn_server (w_meta w')) →
  (∀ k, sv_index (mn_server (w_meta w')) !! id = Some k → k = name) →
  outcome_rel any_error eq (mc_delete_chunk id w).1 (mc_delete_chunk id w').1 ∧
  via name b nA (mc_delete_chunk id w).2 (mc_delete_chunk id w').2 ∧
  keeps_here name nA (w_meta (mc_delete_chunk id w).2) (mn_server (w_meta (mc_delete_chunk id w').2)) ∧
  ∀ i k, sv_index (mn_server (w_meta (mc_delete_chunk id w').2)) !! i = Some k →
    sv_index (mn_server (w_meta w')) !! i = Some k.
Proof.
  intros Hv Hk Hid. pose proof (same_membership_serves _ _ _ (via_member _ _ _ _ _ Hv) (kh_serves _ _ _ _ Hk)) as HsA.
  assert (∀ n, mn_server n = mn_server (w_meta w') → serves_itself n name →
    ∀ A (fwd : string → @MN Network A) here, route_chunk id fwd here n = here n) as Hhere.
  { intros n Hsv Hs A fwd here. destruct (sv_index (mn_server n) !! id) as [k|] eqn:Hi.
    - rewrite (route_chunk_known _ _ _ _ _ Hi). rewrite Hsv in Hi. apply Hid in Hi as ->.
      by apply route_object_here.
    - by apply route_chunk_unknown. }
  cbn. unfold on_meta, zoom, svc_delete_chunk. rewrite !Hhere by (done || apply Hk || apply Hv).
  set (here := (r ← locked (delete_chunk id);
    match r with
    | inl e => throw (not_found_status e)
    | inr _ => with_index (λ idx, (index_remove id idx).2)
    end) : @MN Network unit).
  destruct (here_step_related name b nA (ForwardDeleteChunk id) here (forward_delete_chunk id)
    (λ _, RespUnit)) with (w := w) (w' := w') as (Ha & Hv' & Hk' & Hs'); [done| |done|done| |].
  - unfold here. run_here (delete_chunk id); by intros [= _ <-].
  - unfold here. by same_answers (delete_chunk id).
  - split_and!; [exact Ha|exact Hv'|exact Hk'|]. intros i k. unfold on_meta, zoom in Hs'. rewrite Hs'.
    unfold forward_delete_chunk, with_store, on_index, zoom, rethrow. run_st.
    destruct (delete_chunk id _) as [[]]; cbn; [|done..]. by intros [_ Hi]%lookup_delete_Some.
Qed.

Lemma confirm_chunk_related name b nA id checksum node :
  related (via name b nA) any_error eq (mc_confirm_chunk id name checksum node)
    (mc_confirm_chunk id name checksum node).
Proof.
  eapply (request_related name b nA (ConfirmChunk id name checksum node)
    (ForwardConfirmChunk id name checksum node) resp_unit _ _
    (forward_confirm_chunk id name checksum node) (λ _, RespUnit)); [done|done|by intros []|done|..].
  - run_here (confirm_chunk id name checksum node); by intros [= _ <-].
  - by same_answers (confirm_chunk id name checksum node).
Qed.

Lemma allocate_chunk_related name b nA :
  name ≠ "" →
  related (via name b nA) any_error eq (mc_allocate_chunk name) (mc_allocate_chunk name).
Proof.
  intros Hne%String.eqb_neq. cbn. unfold svc_allocate_chunk. rewrite Hne.
  eapply (request_related name b nA (AllocateChunk name) (ForwardAllocateChunk name)
    resp_allocate _ _ (forward_allocate_chunk name) RespAllocate); [done|done|done|..].
  - intros n. simpl. by rewrite Hne.
  - run_here (allocate_chunk name); [destruct a as [[]]|..]; by intros [= _ <-].
  - same_answers (allocate_chunk name); [by destruct a as [[]]|done|done].
Qed.

(** ** Storage nodes *)

Lemma via_set_nodes name b nA w w' ns :
  via name b nA w w' → via name b nA (mkWorld (w_meta w) ns) (mkWorld (w_meta w') ns).
Proof. by intros []. Qed.

Lemma on_node_related {A} name b nA a (m : ST StorageNodeImpl Code A) :
  related (via name b nA) any_error eq (on_node a m) (on_node a m).
Proof.
  intros w w' Hv. unfold on_node. rewrite <- (via_nodes _ _ _ _ _ Hv).
  destruct (w_nodes w !! a) as [n|]; [|done]. destruct (m n) as [r n'].
  split; [by destruct r|by apply via_set_nodes].
Qed.

Lemma sn_connect_related name b nA a :
  related (via name b nA) any_error eq (sn_connect a) (sn_connect a).
Proof.
  intros w w' Hv. cbn. rewrite <- (via_nodes _ _ _ _ _ Hv). by destruct (decide _).
Qed.

(** ** The gateway's steps *)

Abbreviation alike name b nA := (related (gvia name b nA) eq eq).

Lemma call_related {E A} name b nA (m : ST World E A) :
  related (via name b nA) any_error eq m m →
  related (gvia name b nA) (@eq Z) (answer_rel eq) (call m) (call m).
Proof.
  intros Hm. unfold call. apply related_zoom with (via name b nA).
  - by intros g g' [].
  - by intros g g' w w' [] Hw.
  - by apply related_attempt with any_error.
Qed.

Lemma measure_related name b nA f : alike name b nA (measure f) (measure f).
Proof. apply related_modify. intros g g' [Hm Hc Hw]. split; cbn; congruence. Qed.

Lemma refuse_related {A} name b nA method endpoint status code :
  related (gvia name b nA) eq (@eq A) (refuse method endpoint status code) (refuse method endpoint status code).
Proof.
  apply (related_bind eq); [apply measure_related|]. intros. by apply related_throw.
Qed.

Lemma ignore_error_related {E A} name b nA (m : ST World E A) :
  related (via name b nA) any_error eq m m → alike name b nA (ignore_error m) (ignore_error m).
Proof.
  intros Hm. apply (related_bind (answer_rel eq)); [by apply call_related|].
  intros. by apply related_ret.
Qed.

Lemma call_or_500_related {E A} name b nA (m : ST World E A) :
  related (via name b nA) any_error eq m m → alike name b nA (call_or_500 m) (call_or_500 m).
Proof.
  intros Hm. apply (related_bind (answer_rel eq)); [by apply call_related|].
  intros r r' [e f|x y ->]; [by apply related_throw|by apply related_ret].
Qed.

Lemma get_or_connect_related name b nA a : alike name b nA (get_or_connect a) (get_or_connect a).
Proof.
  apply (related_bind eq).
  { apply related_gets. intros g g' Hv. apply (gv_connections _ _ _ _ _ Hv). }
  intros c ? <-. destruct (c !! a) as [client|]; [by apply related_ret|].
  apply (related_bind eq); [apply call_or_500_related, sn_connect_related|]. intros _ _ _.
  apply (related_bind eq); [|intros; by apply related_ret].
  apply related_modify. intros g g' [Hm Hc Hw]. split; cbn; congruence.
Qed.

(** ** PUT with a JSON body *)

Lemma put_one_chunk_related name b nA chunk :
  name ≠ "" → alike name b nA (put_one_chunk name chunk) (put_one_chunk name chunk).
Proof.
  intros Hne.
  set (fail := (_ ← ignore_error (mc_delete_object name); throw INTERNAL_SERVER_ERROR) : GW (W := World) unit).
  assert (alike name b nA fail fail) as Hfail.
  { apply (related_bind eq); [apply ignore_error_related, delete_object_related|].
    intros. by apply related_throw. }
  apply (related_bind (answer_rel eq)); [by apply call_related, allocate_chunk_related|].
  intros ? ? [e f|resp ? <-]; [exact Hfail|].
  apply (related_bind eq); [apply get_or_connect_related|]. intros client ? <-.
  apply (related_bind (answer_rel eq)); [apply call_related, on_node_related|].
  intros ? ? [e f|[] ? <-]; [exact Hfail|].
  apply (related_bind (answer_rel eq)); [apply call_related, confirm_chunk_related|].
  intros ? ? [e f|[] ? <-]; [exact Hfail|by apply related_ret].
Qed.

Lemma put_chunks_related name b nA l :
  name ≠ "" → alike name b nA (put_chunks name l) (put_chunks name l).
Proof.
  intros Hne. induction l as [|chunk l IH]; [by apply related_ret|].
  apply (related_bind eq); [by apply put_one_chunk_related|]. by intros.
Qed.

Lemma put_cut_related name b nA bytes :
  name ≠ "" → alike name b nA (put_cut name bytes) (put_cut name bytes).
Proof.
  intros Hne. apply (related_bind (answer_rel eq)); [apply call_related, put_object_related|].
  intros ? ? [e f|[] ? <-]; [apply refuse_related|].
  apply (related_bind eq); [by apply put_chunks_related|]. intros _ _ _.
  do 3 (apply (related_bind eq); [apply measure_related|]; intros _ _ _). by apply related_ret.
Qed.

(** ** GET *)

Lemma retry_related {A} name b nA k (m : ST World Code A) :
  related (via name b nA) any_error eq m m →
  related (via name b nA) any_error eq (retry_attempts k m) (retry_attempts k m).
Proof.
  intros Hm. induction k as [|k IH]; [done|].
  apply (related_bind (answer_rel eq)); [by apply related_attempt with any_error|].
  intros ? ? [e f|x ? <-]; [exact IH|by apply related_ret].
Qed.

Lemma read_from_any_related name b nA id nodes :
  alike name b nA (read_from_any id nodes) (read_from_any id nodes).
Proof.
  induction nodes as [|node nodes IH]; [by apply related_throw|].
  apply (related_bind eq); [apply related_attempt_eq, get_or_connect_related|].
  intros [e|client] ? <-; [exact IH|].
  apply (related_bind (answer_rel eq)); [apply call_related, retry_related, on_node_related|].
  intros ? ? [e f|x ? <-]; [exact IH|by apply related_ret].
Qed.

Lemma read_all_related name b nA infos : alike name b nA (read_all infos) (read_all infos).
Proof.
  induction infos as [|info infos IH]; [by apply related_ret|].
  apply (related_bind eq); [apply related_attempt_eq, read_from_any_related|]. intros r ? <-.
  apply (related_bind eq); [exact IH|]. intros rs ? <-. by apply related_ret.
Qed.

Lemma stream_chunks_related name b nA infos : alike name b nA (stream_chunks infos) (stream_chunks infos).
Proof.
  induction infos as [|info infos IH]; [by apply related_ret|].
  apply (related_bind eq); [apply related_attempt_eq, read_from_any_related|].
  intros [e|bytes] ? <-; [by apply related_ret|].
  apply (related_bind eq); [exact IH|]. intros [rest cut] ? <-. by apply related_ret.
Qed.

(** Every storage node of the object's chunks is registered: the owner answers [Internal]
    otherwise, and the others leave the node out. *)
Definition registered (w : World) (name : string) : Prop :=
  ms_wf (meta w) ∧ ∀ o, objects (meta w) !! name = Some o → all_registered (meta w) o.

Lemma get_object_related_at name b nA w w' :
  via name b nA w w' → registered w' name →
  outcome_rel any_error eq (mc_get_object name w).1 (mc_get_object name w').1 ∧
  via name b nA (mc_get_object name w).2 (mc_get_object name w').2.
Proof.
  intros Hv [Hwf Hreg].
  eapply (request_step_related name b nA (GetObject name) (ForwardGetObject name)
    resp_object _ _ (forward_get_object name) RespObject); [done|done|done|done| |done|].
  - unfold get_object_lookup, get_object_resolve. run_here (get_object name).
    + destruct (response_chunks _ _); intros [= _ <-]; destruct (chunks_or_internal _ _); done.
    + by intros [= _ <-].
    + by intros [= _ <-].
  - intros n Hs Hsv. rewrite <- Hsv in Hwf, Hreg.
    destruct (get_object_local _ _ Hs Hwf) as [Hg _].
    unfold svc_get_object in Hg. rewrite route_object_here in Hg by done.
    unfold forward_get_object, with_store, zoom, rethrow, get_object, lift_outcome. run_st. simpl.
    destruct (objects _ !! name) as [o|] eqn:Ho; simpl; [|by rewrite Hg].
    rewrite (chunks_or_internal_listed _ _ (listed_chunks _ name o Hwf Ho)).
    by rewrite (proj1 Hg (Hreg _ eq_refl)).
Qed.

Lemma call_related_at {E A} name b nA (m : ST World E A) g g' :
  gvia name b nA g g' →
  outcome_rel any_error eq (m (gw_world g)).1 (m (gw_world g')).1 →
  via name b nA (m (gw_world g)).2 (m (gw_world g')).2 →
  outcome_rel (@eq Z) (answer_rel eq) (call m g).1 (call m g').1 ∧ gvia name b nA (call m g).2 (call m g').2.
Proof.
  intros [Hm Hc _] Hr Hv. unfold call, zoom, attempt.
  destruct (m (gw_world g)) as [[a|e|] w1], (m (gw_world g')) as [[a'|e'|] w2]; try done;
    by split; [constructor|split].
Qed.

(** ** The handlers *)

(** Two gateways answer alike, and stay so. *)
Definition answer_alike {A} (name b : string) (nA : MetaNode Network) (m : GW (W := World) A) (g g' : AppState World) : Prop :=
  (m g).1 = (m g').1 ∧ gvia name b nA (m g).2 (m g').2.

Lemma alike_answers {A} name b nA (m : GW (W := World) A) g g' :
  alike name b nA m m → gvia name b nA g g' → answer_alike name b nA m g g'.
Proof. intros Hm Hv. destruct (Hm _ _ Hv) as [Hr Hs]. split; [by apply outcome_rel_eq|done]. Qed.

Lemma put_alike name b nA payload g g' :
  gvia name b nA g g' → offers (gw_world g) → offers (gw_world g') →
  answer_alike name b nA (handle_put_object name payload) g g'.
Proof.
  intros Hv Ho Ho'. destruct (validate_object_name name) as [e|] eqn:Hn.
  { unfold handle_put_object. rewrite Hn. by apply alike_answers; [apply refuse_related|]. }
  assert (name ≠ "") as Hne by (by intros ->).
  destruct (b64_decode payload) as [bytes|] eqn:Hb.
  2: { unfold handle_put_object. rewrite Hn, Hb. by apply alike_answers; [apply refuse_related|]. }
  destruct (Z.ltb_spec MAX_OBJECT_SIZE (zlen bytes)) as [Hsz|Hsz].
  { unfold handle_put_object. rewrite Hn, Hb, (proj2 (Z.ltb_lt _ _) Hsz).
    by apply alike_answers; [apply refuse_related|]. }
  unfold answer_alike. rewrite !(put_start _ _ _ _ Hn Hb Hsz) by done.
  by apply alike_answers; [apply put_cut_related|].
Qed.

(** Both kinds of download start with the request to the metadata node. *)
Lemma get_alike {A} name b nA (k : Code + GetObjectResponse → GW (W := World) A) g g' :
  gvia name b nA g g' → registered (gw_world g') name →
  (∀ r r', answer_rel eq r r' → alike name b nA (k r) (k r')) →
  answer_alike name b nA (r ← call (mc_get_object name); k r) g g'.
Proof.
  intros Hv Hreg Hk.
  destruct (get_object_related_at _ _ _ _ _ (gv_world _ _ _ _ _ Hv) Hreg) as [Hr Hw].
  destruct (call_related_at _ _ _ _ _ _ Hv Hr Hw) as [Hc Hs].
  destruct (related_bind_at (answer_rel eq) _ _ k k _ _ Hc Hs Hk) as [Ha Hs'].
  split; [by apply outcome_rel_eq|done].
Qed.

Lemma get_object_alike name b nA g g' :
  gvia name b nA g g' → registered (gw_world g') name →
  answer_alike name b nA (handle_get_object name) g g'.
Proof.
  intros Hv Hreg. unfold handle_get_object.
  destruct (validate_object_name name); [by apply alike_answers; [apply refuse_related|]|].
  apply get_alike; [done..|]. intros ? ? [e f|resp ? <-]; [apply refuse_related|].
  apply (related_bind eq); [apply read_all_related|]. intros rs ? <-.
  destruct (join_chunks rs); [apply refuse_related|].
  do 3 (apply (related_bind eq); [apply measure_related|]; intros _ _ _). by apply related_ret.
Qed.

Lemma get_stream_alike name b nA g g' :
  gvia name b nA g g' → registered (gw_world g') name →
  answer_alike name b nA (handle_get_object_stream name) g g'.
Proof.
  intros Hv Hreg. unfold handle_get_object_stream.
  destruct (validate_object_name name); [by apply alike_answers; [apply refuse_related|]|].
  apply get_alike; [done..|]. intros ? ? [e f|resp ? <-]; [apply refuse_related|].
  do 3 (apply (related_bind eq); [apply measure_related|]; intros _ _ _). apply stream_chunks_related.
Qed.

(** ** DELETE *)

Lemma delete_copies_related name b nA targets :
  alike name b nA (delete_copies targets) (delete_copies targets).
Proof.
  induction targets as [|t targets IH]; [by apply related_ret|].
  apply (related_bind eq).
  - apply (related_bind eq); [apply related_attempt_eq, get_or_connect_related|].
    intros [e|client] ? <-; [by apply related_ret|].
    apply (related_bind (answer_rel eq)); [apply call_related, retry_related, on_node_related|].
    intros ? ? [e f|x ? <-]; by apply related_ret.
  - intros r ? <-. apply (related_bind eq); [exact IH|]. intros rs ? <-. by apply related_ret.
Qed.

Lemma delete_last_related name b nA : alike name b nA (delete_last name) (delete_last name).
Proof.
  apply (related_bind (answer_rel eq)); [apply call_related, delete_object_related|].
  intros ? ? [e f|x ? <-]; [apply refuse_related|].
  do 2 (apply (related_bind eq); [apply measure_related|]; intros _ _ _). apply measure_related.
Qed.

Lemma call_world {E A} (m : ST World E A) (g : AppState World) : gw_world (call m g).2 = (m (gw_world g)).2.
Proof. unfold call, zoom, attempt. by destruct (m (gw_world g)) as [[]]. Qed.

(** On the node that has the object its chunks are deleted as on the other. *)
Lemma delete_from_metadata_here name b nA infos g g' :
  serves_itself nA name → gvia name b nA g g' →
  (∀ i k, i ∈ ci_id <$> infos → sv_index (mn_server (w_meta (gw_world g'))) !! i = Some k → k = name) →
  answer_alike name b nA (delete_from_metadata infos) g g'.
Proof.
  intros Hs. unfold answer_alike. rewrite <- outcome_rel_eq.
  revert g g'. induction infos as [|info infos IH]; intros g g' Hv Hi; [done|].
  pose proof (via_here _ _ _ _ _ Hs (gv_world _ _ _ _ _ Hv)) as Hk.
  destruct (delete_chunk_related_at name b nA (ci_id info) _ _ (gv_world _ _ _ _ _ Hv) Hk) as (Ha & Hw & _ & Hsub).
  { intros k. apply Hi. by left. }
  destruct (call_related_at _ _ _ _ _ _ Hv Ha Hw) as [Hc Hg].
  pose proof (call_world (mc_delete_chunk (ci_id info)) g') as Hend.
  destruct (related_bind_at (RC := eq) (answer_rel eq) _ _ (λ _, mret ()) (λ _, mret ()) _ _ Hc Hg)
    as [Hc' Hg']; [intros; by apply related_ret|].
  apply (related_bind_run eq); [exact Hc'|exact Hg'|]. intros [] [] h h' Hr Hr' _ Hh. apply IH; [done|].
  intros i k Hin Hk'. apply (Hi i k); [by right|]. apply Hsub. rewrite <- Hend.
  enough ((call (mc_delete_chunk (ci_id info)) g').2 = h') as -> by done.
  revert Hr'. unfold ignore_error. cbv [mbind ST_bind].
  destruct (call _ g') as [[]]; by intros [= <-].
Qed.

(** On another node, which knows nothing of the chunks, nothing happens. *)
Lemma delete_from_metadata_unknown infos g :
  (∀ i, i ∈ ci_id <$> infos → ¬ mine (mn_server (w_meta (gw_world g))) i) →
  delete_from_metadata infos g = (Ok (), g).
Proof.
  induction infos as [|info infos IH]; intros Hi; [done|].
  assert (mc_delete_chunk (ci_id info) (gw_world g) = (Err NotFoundCode, gw_world g)) as Hm.
  { assert (svc_delete_chunk (ci_id info) (w_meta (gw_world g)) = (Err NotFoundCode, w_meta (gw_world g))) as Hr.
    - assert (¬ mine (mn_server (w_meta (gw_world g))) (ci_id info)) as Hno by (apply Hi; by left).
      unfold svc_delete_chunk. rewrite route_chunk_unknown.
      2: { apply eq_None_not_Some. intros Hx. apply Hno. by right. }
      unfold locked, on_server, zoom, delete_chunk. run_st.
      assert (chunks (sv_store (mn_server (w_meta (gw_world g)))) !! ci_id info = None) as ->.
      { apply eq_None_not_Some. intros Hx. apply Hno. left. by right. }
      by destruct (w_meta (gw_world g)) as [[] ? ? ? ?].
    - cbn. unfold on_meta, zoom. rewrite Hr. by destruct (gw_world g). }
  cbn [delete_from_metadata]. unfold ignore_error. cbv [mbind ST_bind].
  rewrite (call_run _ _ _ _ Hm). replace (set_gw_world (gw_world g) g) with g by by destruct g.
  apply IH. intros i Hin. apply Hi. by right.
Qed.

(** What DELETE does to the world of the owner when another node takes the request. *)
Definition delete_through (name : string) : GW (W := World) unit :=
  match validate_object_name name with
  | Some _ => refuse "DELETE" "object" "400" BAD_REQUEST
  | None =>
      r ← call (mc_get_object name);
      match r with
      | inl _ => refuse "DELETE" "object" "404" NOT_FOUND
      | inr resp => delete_whole name (go_chunks resp)
      end
  end.

(** Two runs of DELETE that go on differently once the chunks are known. *)
Lemma delete_alike name b nA g g' (k k' : list ChunkInfo → GW (W := World) unit) :
  gvia name b nA g g' → registered (gw_world g') name →
  (∀ resp h h', gvia name b nA h h' → call (mc_get_object name) g' = (Ok (inr resp), h') →
    (k (go_chunks resp) h).1 = (k' (go_chunks resp) h').1 ∧
    gvia name b nA (k (go_chunks resp) h).2 (k' (go_chunks resp) h').2) →
  let del (k : list ChunkInfo → GW (W := World) unit) : GW (W := World) unit :=
    r ← call (mc_get_object name);
    match r with
    | inl _ => refuse "DELETE" "object" "404" NOT_FOUND
    | inr resp => k (go_chunks resp)
    end in
  (del k g).1 = (del k' g').1 ∧ gvia name b nA (del k g).2 (del k' g').2.
Proof.
  intros Hv Hreg Hk del. rewrite <- outcome_rel_eq.
  destruct (get_object_related_at _ _ _ _ _ (gv_world _ _ _ _ _ Hv) Hreg) as [Hr Hw].
  destruct (call_related_at _ _ _ _ _ _ Hv Hr Hw) as [Hc Hg].
  apply (related_bind_run (answer_rel eq)); [exact Hc|exact Hg|].
  intros ra rb h h' _ Hrun' Ha Hh. revert Hrun'. destruct Ha as [e f|resp ? <-]; intros Hrun'.
  - by apply refuse_related.
  - rewrite outcome_rel_eq. by apply Hk.
Qed.

(** DELETE through the node that has the object, whose index has the object's chunks. *)
Lemma delete_here_alike name b nA g g' :
  gvia name b nA g g' → serves_itself nA name → registered (gw_world g') name → gw_ok name g' →
  (∀ resp h' i k, call (mc_get_object name) g' = (Ok (inr resp), h') → i ∈ ci_id <$> go_chunks resp →
    sv_index (mn_server (w_meta (gw_world g'))) !! i = Some k → k = name) →
  answer_alike name b nA (handle_delete_object name) g g'.
Proof.
  intros Hv Hs Hreg Hok Hidx. unfold handle_delete_object.
  destruct (validate_object_name name); [by apply alike_answers; [apply refuse_related|]|].
  apply (delete_alike name b nA g g' (delete_known name) (delete_known name)); [done|done|].
  intros resp h h' Hh Hrun. rewrite <- outcome_rel_eq.
  destruct (get_call name g' Hok) as (r & h1 & Hr & Hro & _). rewrite Hrun in Hr. injection Hr as <- <-.
  pose proof (gw_ok_read_only _ _ _ Hok Hro) as Hok'.
  destruct (delete_copies_related name b nA (delete_targets (go_chunks resp)) _ _ Hh) as [Hc Hg].
  apply (related_bind_run eq); [exact Hc|exact Hg|]. intros bs ? s t _ Ht <- Hst.
  destruct (delete_copies_spec name (delete_targets (go_chunks resp)) h' Hok')
    as (bs' & t' & Ht' & _ & Hm & _). rewrite Ht in Ht'. injection Ht' as <- <-.
  destruct (delete_from_metadata_here name b nA (go_chunks resp) s t) as [Hc2 Hg2]; [done|done| |].
  { intros i k Hi. rewrite Hm, (ro_server _ _ Hro). by eapply Hidx. }
  apply (related_bind_at eq); [by apply outcome_rel_eq|exact Hg2|]. intros _ _ _. apply delete_last_related.
Qed.

(** DELETE through another node, which knows nothing of the chunks. *)
Lemma delete_away_alike name b nA g g' :
  gvia name b nA g g' → away nA name b → registered (gw_world g') name →
  (∀ resp h' i, call (mc_get_object name) g' = (Ok (inr resp), h') → i ∈ ci_id <$> go_chunks resp →
    ¬ mine (mn_server nA) i) →
  (handle_delete_object name g).1 = (delete_through name g').1 ∧
  gvia name b nA (handle_delete_object name g).2 (delete_through name g').2.
Proof.
  intros Hv Hs Hreg Hno. unfold handle_delete_object, delete_through.
  destruct (validate_object_name name); [by apply (alike_answers name b nA); [apply refuse_related|]|].
  apply (delete_alike name b nA g g' (delete_known name) (delete_whole name)); [done|done|].
  intros resp h h' Hh Hrun. rewrite <- outcome_rel_eq.
  destruct (delete_copies_related name b nA (delete_targets (go_chunks resp)) _ _ Hh) as [Hc Hg].
  apply (related_bind_run eq); [exact Hc|exact Hg|]. intros bs ? s t _ _ _ Hst.
  pose proof (ps_server _ _ _ _ _ (via_passes _ _ _ _ _ Hs (gv_world _ _ _ _ _ Hst))) as Hsv.
  assert (delete_from_metadata (go_chunks resp) s = (Ok (), s)) as Hnone.
  { apply delete_from_metadata_unknown. rewrite Hsv. intros i. by eapply Hno. }
  cbv [mbind ST_bind]. rewrite Hnone. by apply delete_last_related.
Qed.

(** ** PUT with a form *)

Lemma flush_related name b nA buf :
  name ≠ "" → alike name b nA (flush_chunk_to_storage buf name) (flush_chunk_to_storage buf name).
Proof.
  intros Hne. unfold flush_chunk_to_storage.
  apply (related_bind eq); [by apply call_or_500_related, allocate_chunk_related|]. intros resp ? <-.
  apply (related_bind eq); [apply get_or_connect_related|]. intros client ? <-.
  apply (related_bind eq); [apply call_or_500_related, on_node_related|]. intros _ _ _.
  apply call_or_500_related, confirm_chunk_related.
Qed.

Lemma flush_full_related fuel size name b nA buffer :
  name ≠ "" → alike name b nA (flush_full fuel size name buffer) (flush_full fuel size name buffer).
Proof.
  intros Hne. revert buffer. induction fuel as [|fuel IH]; intros buffer; [apply related_panic|].
  cbn [flush_full]. destruct (_ <=? _); [|by apply related_ret].
  apply (related_bind eq); [by apply flush_related|]. intros _ _ _. apply IH.
Qed.

Lemma stream_field_related size name b nA content u :
  name ≠ "" → alike name b nA (stream_field size name content u) (stream_field size name content u).
Proof.
  intros Hne. revert u. induction content as [|[d|] content IH]; intros u; [by apply related_ret| |].
  - cbn [stream_field]. destruct (_ <? _); [by apply related_throw|].
    apply (related_bind eq); [by apply flush_full_related|]. intros rest ? <-. apply IH.
  - by apply related_throw.
Qed.

Lemma or_rollback_related {A} name b nA (m m' : GW (W := World) A) :
  alike name b nA m m' → alike name b nA (or_rollback name m) (or_rollback name m').
Proof.
  intros Hm. apply (related_bind eq); [by apply related_attempt_eq|].
  intros [e|a] ? <-; [|by apply related_ret].
  apply (related_bind eq); [apply ignore_error_related, delete_object_related|].
  intros _ _ _. by apply related_throw.
Qed.

Lemma form_cut_related name b nA upd upd' form :
  name ≠ "" → (∀ checksum size, alike name b nA (upd checksum size) (upd' checksum size)) →
  alike name b nA (form_cut upd name form) (form_cut upd' name form).
Proof.
  intros Hne Hupd. apply (related_bind (answer_rel eq)); [apply call_related, put_object_related|].
  intros ? ? [e f|[] ? <-]; [apply refuse_related|]. apply (related_bind eq).
  - apply or_rollback_related. unfold form_body.
    destruct (find_file form) as [content|]; [|by apply related_throw].
    apply (related_bind eq); [by apply stream_field_related|]. intros u ? <-.
    apply (related_bind eq); [case_decide; [by apply related_ret|by apply flush_related]|]. intros _ _ _.
    apply (related_bind eq); [apply Hupd|]. intros _ _ _. by apply related_ret.
  - intros u ? <-. do 3 (apply (related_bind eq); [apply measure_related|]; intros _ _ _).
    by apply related_ret.
Qed.

(** Setting the checksum, on the node that has the object and on another, which has not. *)
Lemma update_local name checksum size (n : MetaNode Network)
    (up := update_object_checksum name checksum size (sv_store (mn_server n))) :
  ∃ n', svc_update_object_checksum name checksum size n =
      (match up.1 with Ok _ => Ok () | Err e => Err (not_found_status e) | Panic => Panic end, n') ∧
    mn_server n' = set_sv_store up.2 (mn_server n) ∧ same_membership n n' ∧ mn_world n' = mn_world n.
Proof.
  unfold svc_update_object_checksum, route_by_object, locked, on_server, zoom, count. run_st.
  fold up. destruct up as [[a|e|] s']; eexists; (split; [done|]); (split; [done|]); by split; [apply same_membership_eq|].
Qed.

Lemma set_checksum_here name b nA checksum size :
  serves_itself nA name → alike name b nA (set_checksum name checksum size) (set_checksum name checksum size).
Proof.
  intros Hs. apply call_or_500_related. intros w w' Hv.
  pose proof (via_here _ _ _ _ _ Hs Hv) as [_ Hsv Hww]. destruct Hv as [Hn Hmb Hs' _].
  cbn. unfold on_meta, zoom.
  destruct (update_local name checksum size (w_meta w)) as (m & -> & Hm1 & Hm2 & Hm3).
  destruct (update_local name checksum size (w_meta w')) as (m' & -> & Hm1' & Hm2' & _).
  rewrite Hsv in Hm1 |- *. split; [by destruct (update_object_checksum _ _ _ _) as [[]]|].
  split; cbn [snd w_meta w_nodes set_meta]; [done|by eapply same_membership_trans| |].
  - by eapply same_membership_serves.
  - right. split; [done|congruence..].
Qed.

Lemma set_checksum_away name b nA checksum size :
  away nA name b → objects (sv_store (mn_server nA)) !! name = None →
  alike name b nA (set_checksum name checksum size) (no_checksum checksum size).
Proof.
  intros Ha Hno g g' [Hmt Hcn Hv]. pose proof (via_passes _ _ _ _ _ Ha Hv) as [_ Hsv Hww].
  destruct Hv as [Hn Hmb Hs' _].
  destruct (update_local name checksum size (w_meta (gw_world g))) as (m & Hr & Hm1 & Hm2 & Hm3).
  rewrite Hsv in Hr, Hm1. unfold update_object_checksum in Hr, Hm1. run_st. rewrite Hno in Hr, Hm1. cbn in Hr, Hm1.
  assert (mc_update_object_checksum name checksum size (gw_world g) =
    (Err NotFoundCode, set_meta m (gw_world g))) as Hm.
  { cbn. unfold on_meta, zoom. by rewrite Hr. }
  unfold set_checksum, call_or_500. cbv [mbind ST_bind]. rewrite (call_run _ _ _ _ Hm).
  split; [done|]. split; cbn; [done|done|].
  split; cbn; [done|by eapply same_membership_trans|done|]. left. split; [done| |congruence].
  rewrite Hm1. by destruct (mn_server nA).
Qed.

(** Both start alike. *)
Lemma form_alike name b nA upd form g g' :
  gvia name b nA g g' → offers (gw_world g) → validate_object_name name = None →
  (∀ checksum size, alike name b nA (set_checksum name checksum size) (upd checksum size)) →
  (handle_put_object_multipart name form g).1 = (form_cut upd name form g').1 ∧
  gvia name b nA (handle_put_object_multipart name form g).2 (form_cut upd name form g').2.
Proof.
  intros Hv Ho Hn Hupd. rewrite (form_start _ _ _ Hn Ho). rewrite <- outcome_rel_eq.
  apply form_cut_related; [by intros ->|done..].
Qed.

(** A gateway in front of a metadata node that does not own the object answers uploads in JSON
    and downloads as one in front of the owner. *)
Theorem any_node_answers_as_the_owner name b nA payload g g' :
  gvia name b nA g g' →
  (offers (gw_world g) → offers (gw_world g') →
   answer_alike name b nA (handle_put_object name payload) g g') ∧
  (registered (gw_world g') name →
   answer_alike name b nA (handle_get_object name) g g' ∧
   answer_alike name b nA (handle_get_object_stream name) g g').
Proof.
  intros Hv. split; [by apply put_alike|]. intros Hr.
  by split; [apply get_object_alike|apply get_stream_alike].
Qed.

End via.
