(* ===== verification/ObjectStore.v ===== *)
(** * ObjectStore: the system as a map from names to bytes

    What the clients of the gateway see: an abstract store, a map from names to bytes, with
    what each request of a client is answered and does to the map; and that the handlers of
    the gateway on a system in normal service refine it, whatever the sequence of requests. *)

From S2P Require Import Prelude.
From S2P Require Import Bytes.
From S2P Require Import Str.
From S2P Require Import Crc32.
From S2P Require Import ChunkStore.
From S2P Require Import ChunkStoreFacts.
From S2P Require Import ChunkStoreSpec.
From S2P Require Import Grpc.
From S2P Require Import StorageNode.
From S2P Require Import NodeFacts.
From S2P Require Import HashRing.
From S2P Require Import MetadataStore.
From S2P Require Import MetadataStoreFacts.
From S2P Require Import ChunkIndex.
From S2P Require Import ClusterService.
From S2P Require Import Cluster.
From S2P Require Import Forwarding.
From S2P Require Import MetadataService.
From S2P Require Import Network.
From S2P Require Import ClusterFacts.
From S2P Require Import RoutingFacts.
From S2P Require Import Clients.
From S2P Require Import Gateway.
From S2P Require Import Multipart.
From S2P Require Import Uploads.
From S2P Require Import SystemFacts.
From S2P Require Import Progress.
From S2P Require Import Samples.
From S2P Require Import SampleSystem.
From S2P Require Import SystemTheorems.
From S2P Require Import DeleteTheorems.
From S2P Require Import UploadTheorems.
From S2P Require Import ListTheorems.
From S2P Require Import FormProgress.
Open Scope string_scope.
Open Scope list_scope.
Open Scope Z_scope.

Abbreviation Objects := (gmap string (list byte)).

Section store.
Context `{MetaDeps} `{Xxh3} `{Crc32} `{Base64} `{UnicodeTables}.

(** ** What clients ask and what they are answered *)

(** PUT with a body in JSON or a form, GET with what it accepts, DELETE, and the listing. *)
Inductive Request :=
  | Put (name : string) (body : PutRequest)
  | Get (name : string) (accept : option string)
  | Delete (name : string)
  | ListAll.

Inductive Answer :=
  | Stored (length : Z)
  | Content (answer : GetAnswer)
  | Deleted
  | Listing (l : list (string * list ListObjectsResponseChunk))
  | Failed (status : Z).

(** The answer of a handler's run; there is none when it panics. *)
Definition answer {A} (f : A → Answer) (r : outcome Z A) : option Answer :=
  match r with Ok a => Some (f a) | Err e => Some (Failed e) | Panic => None end.

Definition serve_request (req : Request) (g : AppState World) : option Answer * AppState World :=
  match req with
  | Put name body => let '(r, g') := handle_put_dispatch name body g in (answer Stored r, g')
  | Get name accept => let '(r, g') := handle_get_dispatch name accept g in (answer Content r, g')
  | Delete name => let '(r, g') := handle_delete_object name g in (answer (λ _, Deleted) r, g')
  | ListAll => let '(r, g') := handle_list_objects g in (answer Listing r, g')
  end.

Fixpoint serve_requests (reqs : list Request) (g : AppState World) :
    list (option Answer) * AppState World :=
  match reqs with
  | [] => ([], g)
  | req :: reqs =>
      let '(a, g) := serve_request req g in
      let '(l, g) := serve_requests reqs g in (a :: l, g)
  end.

(** ** The abstract store *)

(** The bytes that a PUT of a valid name stores, or the status it is refused with: the body
    in JSON is looked at before the name is, a form after it. *)
Definition json_outcome (name payload : string) (m : Objects) : Z + list byte :=
  match b64_decode payload with
  | None => inl BAD_REQUEST
  | Some bytes =>
      if MAX_OBJECT_SIZE <? zlen bytes then inl PAYLOAD_TOO_LARGE
      else if decide (is_Some (m !! name)) then inl CONFLICT else inr bytes
  end.

Definition form_outcome (name : string) (form : list form_event) (m : Objects) : Z + list byte :=
  if decide (is_Some (m !! name)) then inl CONFLICT
  else match form_result form with
       | (_, Some status) => inl status
       | (bytes, None) => inr bytes
       end.

Definition is_form (body : PutRequest) : bool :=
  starts_with "multipart/form-data" (default "" (pr_content_type body)).

Definition put_outcome (name : string) (body : PutRequest) (m : Objects) : Z + list byte :=
  match validate_object_name name with
  | Some _ => inl BAD_REQUEST
  | None =>
      if is_form body
      then match pr_form body with None => inl BAD_REQUEST | Some form => form_outcome name form m end
      else match pr_json body with
           | None => inl BAD_REQUEST
           | Some payload => json_outcome name payload m
           end
  end.

(** The bytes under a name, or the status that asking for them is refused with. *)
Definition lookup_outcome (name : string) (m : Objects) : Z + list byte :=
  match validate_object_name name, m !! name with
  | Some _, _ => inl BAD_REQUEST
  | None, None => inl NOT_FOUND
  | None, Some bytes => inr bytes
  end.

(** What a request makes of the map. *)
Definition after (m : Objects) (req : Request) : Objects :=
  match req with
  | Put name body =>
      match put_outcome name body m with inr bytes => <[name := bytes]> m | inl _ => m end
  | Delete name => match lookup_outcome name m with inr _ => delete name m | inl _ => m end
  | Get _ _ | ListAll => m
  end.

(** The bytes of a listed object, which the answer has chunk by chunk. *)
Definition listed_bytes (l : list ListObjectsResponseChunk) : option (list byte) :=
  (λ data, concat data) <$> mapM (λ c, b64_decode (lc_bytes c)) l.

(** How a request has to be answered. *)
Definition expected (m : Objects) (req : Request) (a : Answer) : Prop :=
  match req with
  | Put name body =>
      a = match put_outcome name body m with
          | inl status => Failed status
          | inr bytes => Stored (zlen bytes)
          end
  | Get name accept =>
      match lookup_outcome name m with
      | inl status => a = Failed status
      | inr bytes =>
          if contains "application/json" (default "" accept)
          then a = Content (JsonBytes (b64_encode bytes))
          else ∃ pieces, a = Content (Stream pieces false) ∧ concat pieces = bytes
      end
  | Delete name =>
      a = match lookup_outcome name m with inl status => Failed status | inr _ => Deleted end
  | ListAll =>
      ∃ l, a = Listing l ∧
        ((λ e, (e.1, listed_bytes e.2)) <$> l) ≡ₚ (prod_map id Some <$> map_to_list m)
  end.

(** A whole run. *)
Fixpoint meets (m : Objects) (reqs : list Request) (answers : list Answer) : Prop :=
  match reqs, answers with
  | [], [] => True
  | req :: reqs, a :: answers => expected m req a ∧ meets (after m req) reqs answers
  | _, _ => False
  end.

(** The bytes that are sent to storage nodes: those of a form that breaks are, up to where it
    breaks. *)
Definition taken (name : string) (body : PutRequest) (m : Objects) : list byte :=
  match validate_object_name name, put_outcome name body m, pr_form body with
  | None, inr bytes, _ => bytes
  | None, inl _, Some form =>
      if is_form body && bool_decide (m !! name = None) then (form_result form).1 else []
  | _, _, _ => []
  end.

(** The slots and ids that a request uses up: one for each chunk that is sent. *)
Definition cost (m : Objects) (req : Request) : nat :=
  match req with
  | Put name body => length (slice_chunks SLOT_DATA_SIZE (taken name body m))
  | _ => O
  end.

Fixpoint total_cost (m : Objects) (reqs : list Request) : nat :=
  match reqs with
  | [] => O
  | req :: reqs => (cost m req + total_cost (after m req) reqs)%nat
  end.

(** ** The system that implements it *)

(** Every node that is listed for chunk [id] is registered and has these bytes, and there is
    one. *)
Definition copies (w : World) (id : Z) (bytes : list byte) : Prop :=
  ∃ c, chunks (meta w) !! id = Some c ∧ mc_storage_nodes c ≠ [] ∧
    ∀ x, x ∈ mc_storage_nodes c → ∃ node, storage_nodes (meta w) !! x = Some node ∧
      node_data w (sn_address node) !! id = Some bytes.

(** Object [name] lists chunks whose copies have the bytes [data]. *)
Definition kept (w : World) (name : string) (data : list (list byte)) : Prop :=
  ∃ o, objects (meta w) !! name = Some o ∧ Forall2 (copies w) (mo_chunks o) data.

(** A system in normal service, with every storage node up: every object of [m] is kept with
    its bytes, and the metadata has no other object. *)
Record stands (m : Objects) (g : AppState World) : Prop := mkStands {
  st_gateway name : gw_ok name g;
  st_server : server_ok (mn_server (w_meta (gw_world g)));
  st_alone : lists_alone (w_meta (gw_world g));
  st_up x node : storage_nodes (meta (gw_world g)) !! x = Some node →
    is_Some (w_nodes (gw_world g) !! sn_address node);
  st_stored name bytes : m !! name = Some bytes →
    ∃ data, concat data = bytes ∧ kept (gw_world g) name data;
  st_absent name : m !! name = None → objects (meta (gw_world g)) !! name = None;
}.

(** There is room for [k] chunks, too. *)
Definition implements (k : nat) (m : Objects) (g : AppState World) : Prop :=
  stands m g ∧ ready k (gw_world g).

Lemma lists_alone_place n n' : same_place n n' → lists_alone n → lists_alone n'.
Proof. intros [Hc Hf]. unfold lists_alone. by rewrite Hc, Hf. Qed.

Lemma placed_kept w name data : placed w name data → kept w name data.
Proof.
  intros (o & Ho & Hd). exists o. split; [done|]. eapply list.Forall2_impl; [exact Hd|].
  intros id bytes (c & x & node & Hc & Hx & Hn & Hb). exists c. rewrite Hx.
  split_and!; [done|done|]. intros y ->%list_elem_of_singleton. by exists node.
Qed.

(** What the metadata answers for a chunk that is kept: the nodes that are listed, all with
    the bytes. *)
Lemma known_copies s (P : MetaStorageNode → Prop) ids :
  (∀ x, x ∈ ids → ∃ node, storage_nodes s !! x = Some node ∧ P (mkMetaStorageNode x (sn_address node))) →
  length (known_nodes s ids) = length ids ∧ Forall P (known_nodes s ids).
Proof.
  intros Hall. unfold known_nodes. induction ids as [|x ids IH]; [by split|].
  destruct (Hall x) as (node & Hn & HP); [by left|]. destruct IH as [IH1 IH2]; [intros; apply Hall; by right|].
  cbn [omap list_omap]. rewrite Hn. simpl. split; [by rewrite IH1|by constructor].
Qed.

Lemma copies_known w id bytes :
  ms_wf (meta w) → copies w id bytes →
  ∃ c node nodes, chunks (meta w) !! id = Some c ∧ mc_id c = id ∧
    known_nodes (meta w) (mc_storage_nodes c) = node :: nodes ∧
    Forall (λ n, node_data w (sn_address n) !! id = Some bytes) (node :: nodes).
Proof.
  intros Hwf (c & Hc & Hne & Hall). destruct (mw_chunk _ Hwf _ _ Hc) as [Hid _].
  destruct (known_copies (meta w) (λ n, node_data w (sn_address n) !! id = Some bytes)
    (mc_storage_nodes c)) as [Hlen HP]; [exact Hall|].
  destruct (known_nodes (meta w) (mc_storage_nodes c)) as [|node nodes] eqn:Hk.
  { by destruct (mc_storage_nodes c). }
  by exists c, node, nodes.
Qed.

Lemma kept_available w name data : ms_wf (meta w) → kept w name data → available w name data.
Proof.
  intros Hwf (o & Ho & Hdata). exists o. split; [done|]. unfold all_registered, object_info.
  cbn [oi_chunks]. clear Ho. induction Hdata as [|id bytes ids data Hat Hrest [IH1 IH2]].
  { split; constructor. }
  destruct (copies_known _ _ _ Hwf Hat) as (c & node & nodes & Hc & Hid & Hk & HP). split.
  - constructor; [|done]. intros c'. rewrite Hc. intros [= <-].
    destruct Hat as (c' & Hc' & _ & Hall). rewrite Hc in Hc'. injection Hc' as <-.
    apply list.Forall_forall. intros x Hx. destruct (Hall x Hx) as (n & Hn & _). by exists n.
  - assert (omap (λ i, chunks (meta w) !! i) (id :: ids) =
      c :: omap (λ i, chunks (meta w) !! i) ids) as -> by (simpl; by rewrite Hc).
    rewrite fmap_cons. constructor; [|done]. unfold readable, chunk_info.
    cbn [ci_storage_nodes ci_id]. rewrite Hk, Hid. split.
    + apply Exists_cons_hd. by apply list.Forall_cons in HP as [].
    + eapply list.Forall_impl; [exact HP|]. intros n Hn b. congruence.
Qed.

(** The bytes of an object stay where they are when its chunks and their copies do. *)
Lemma kept_same w w' name data :
  kept w name data → objects (meta w') !! name = objects (meta w) !! name →
  (∀ o id, objects (meta w) !! name = Some o → id ∈ mo_chunks o →
    chunks (meta w') !! id = chunks (meta w) !! id ∧
    ∀ a b, node_data w a !! id = Some b → node_data w' a !! id = Some b) →
  storage_nodes (meta w') = storage_nodes (meta w) → kept w' name data.
Proof.
  intros (o & Ho & Hd) Hobj Hch Hn. exists o. split; [by rewrite Hobj|].
  eapply Forall2_impl_in; [exact Hd|]. intros id bytes Hid (c & Hc & Hne & Hall).
  destruct (Hch o id Ho Hid) as [Hc' Hd']. exists c. rewrite Hc'. split_and!; [done|done|].
  intros x Hx. destruct (Hall x Hx) as (node & Hnode & Hb). exists node. rewrite Hn. auto.
Qed.

Lemma kept_framed w w' name n data :
  wframe name w w' → ms_wf (meta w) → n ≠ name → kept w n data → kept w' n data.
Proof.
  intros [Hf _ _ Hgr _] Hwf Hne Hk. apply (kept_same w); [done| | |apply Hf].
  - by apply (fr_objects _ _ _ Hf).
  - intros o id Ho Hid. split; [|auto].
    destruct (mw_listed _ Hwf _ _ id Ho Hid) as (c & Hc & Hn & _). rewrite Hc.
    apply (fr_chunks _ _ _ Hf); [done|congruence].
Qed.

Lemma ready_read_only k g g' :
  store_calm (meta (gw_world g)) → read_only g g' → ready k (gw_world g) → ready k (gw_world g').
Proof.
  intros Hcalm [Hs _ Hd _ Hn _]. apply ready_kept; rewrite ?Hs; try done. intros a. by rewrite Hd.
Qed.

Lemma stands_read_only m g g' : stands m g → read_only g g' → stands m g'.
Proof.
  intros [Hg Hok Hal Hup Hst Habs] Hro. destruct (Hro) as [Hs Hp Hd Hgood Hn Hc].
  split; rewrite ?Hs; try done.
  - intros name. by eapply gw_ok_read_only.
  - by eapply lists_alone_place.
  - intros x node Hx. rewrite (sm_up _ _ Hn). by eapply Hup.
  - intros name bytes Hm. destruct (Hst _ _ Hm) as (data & Hcat & Hk). exists data.
    split; [done|]. apply (kept_same (gw_world g)); rewrite ?Hs; try done. intros o id _ _.
    split; [done|]. intros a b. by rewrite Hd.
Qed.

Lemma implements_read_only k m g g' :
  implements k m g → read_only g g' → implements k m g'.
Proof.
  intros [Hst Hrd] Hro. split; [by eapply stands_read_only|].
  by eapply ready_read_only; [apply Hst|..].
Qed.

Lemma stands_object m g name :
  stands m g → is_Some (objects (meta (gw_world g)) !! name) ↔ is_Some (m !! name).
Proof.
  intros Hs. destruct (m !! name) as [b|] eqn:Hm.
  - destruct (st_stored _ _ Hs _ _ Hm) as (data & _ & o & Ho & _). rewrite Ho. split; by eexists.
  - by rewrite (st_absent _ _ Hs _ Hm).
Qed.

(** ** What a request leaves of other metadata nodes' objects *)

(** The storage nodes stay registered; chunks come and go only on ids that the metadata node
    knows, and it comes to know no others. *)
Record moves (w w' : World) : Prop := mkMoves {
  mv_mine id : mine (mn_server (w_meta w')) id → mine (mn_server (w_meta w)) id;
  mv_data a id : ¬ mine (mn_server (w_meta w)) id → node_data w' a !! id = node_data w a !! id;
  mv_nodes : storage_nodes (meta w') = storage_nodes (meta w);
}.

Lemma moves_framed name w w' : wframe name w w' → moves w w'.
Proof.
  intros Hf. split; [intros id; by apply wf_mine with name| |apply Hf]. intros a id Hno.
  destruct (node_data w a !! id) as [b|] eqn:Hb; [by eapply wf_grows|]. apply eq_None_not_Some.
  intros [Hi|Hi]%(wf_new _ _ _ Hf); [|done]. rewrite Hb in Hi. by destruct Hi.
Qed.

Lemma moves_read_only g g1 g' :
  read_only g1 g' → moves (gw_world g) (gw_world g1) → moves (gw_world g) (gw_world g').
Proof. intros [Hs _ Hd _ _ _] []. split; rewrite ?Hs; try done. intros a id. rewrite Hd. auto. Qed.

Lemma moves_only_read g g' : read_only g g' → moves (gw_world g) (gw_world g').
Proof. intros Hro. apply (moves_read_only g g); [done|]. by split. Qed.

Lemma moves_deleted name o g g' (s := meta (gw_world g)) :
  ms_wf s → objects s !! name = Some o →
  deleted name o (delete_targets (oi_chunks (object_info s o))) g g' →
  moves (gw_world g) (gw_world g').
Proof.
  intros Hwf Ho Hdl. pose proof (listed_chunks _ _ _ Hwf Ho) as Hall. split; [| |apply Hdl].
  - intros id [[Hi|Hi]|Hi].
    + left. left. by rewrite (dl_rng _ _ _ _ _ Hdl) in Hi.
    + left. right. rewrite (dl_chunks _ _ _ _ _ Hdl) in Hi. case_decide; [by destruct Hi|done].
    + right. by eapply dl_index.
  - intros a id Hno. rewrite (dl_data _ _ _ _ _ Hdl), decide_False; [done|].
    intros [Hi _]%(delete_targets_spec s o id a Hwf Hall). apply Hno. left. right. by apply Hall.
Qed.

(** ** DELETE *)

Lemma deleted_gateway n name o targets g g' :
  deleted name o targets g g' → gw_ok n g → gw_ok n g'.
Proof.
  intros Hdl [_ _ _ Hs _]. destruct (dl_ok _ _ _ _ _ Hdl) as [Hwf Hd Hgood _ Hc]. split; try done.
  by eapply same_place_serves; [apply Hdl|].
Qed.

Lemma deleted_data name o g g' (s := meta (gw_world g)) :
  ms_wf s → objects s !! name = Some o →
  deleted name o (delete_targets (oi_chunks (object_info s o))) g g' →
  ∀ a id, id ∉ mo_chunks o → node_data (gw_world g') a !! id = node_data (gw_world g) a !! id.
Proof.
  intros Hwf Ho Hdl a id Hi. rewrite (dl_data _ _ _ _ _ Hdl), decide_False; [done|].
  by intros [? _]%(delete_targets_spec s o id a Hwf (listed_chunks _ _ _ Hwf Ho)).
Qed.

Lemma stands_deleted m g g' name o (s := meta (gw_world g)) :
  stands m g → objects s !! name = Some o →
  deleted name o (delete_targets (oi_chunks (object_info s o))) g g' →
  stands (delete name m) g'.
Proof.
  intros [Hg Hok Hal Hup Hst Habs] Ho Hdl. pose proof (gk_wf _ _ (Hg name)) as Hwf.
  pose proof (deleted_data _ _ _ _ Hwf Ho Hdl) as Hdata. split.
  - intros n. by eapply deleted_gateway.
  - apply Hdl.
  - eapply lists_alone_place; [apply Hdl|done].
  - intros x node. rewrite (dl_nodes _ _ _ _ _ Hdl), (sm_up _ _ (dl_up _ _ _ _ _ Hdl)). apply Hup.
  - intros n bytes [Hne Hm]%lookup_delete_Some. destruct (Hst _ _ Hm) as (data & Hcat & Hp).
    exists data. split; [done|]. apply (kept_same (gw_world g)); [done| | |apply Hdl].
    + by rewrite (dl_objects _ _ _ _ _ Hdl), lookup_delete_ne.
    + intros o2 id Ho2 Hi. assert (id ∉ mo_chunks o) as Hno.
      { intros Hi1. destruct (mw_listed _ Hwf _ _ _ Ho Hi1) as (c & Hc & Hn & _).
        destruct (mw_listed _ Hwf _ _ _ Ho2 Hi) as (c2 & Hc2 & Hn2 & _). congruence. }
      rewrite (dl_chunks _ _ _ _ _ Hdl), decide_False by done. split; [done|].
      intros a b. by rewrite Hdata.
  - intros n [->|Hm]%lookup_delete_None; rewrite (dl_objects _ _ _ _ _ Hdl); [apply lookup_delete_eq|].
    apply lookup_delete_None. right. auto.
Qed.

(** ** PUT *)

(** An upload leaves the object with its bytes, or none, and the others as they are. *)
Lemma implements_upload k m g g' name (new : option (list byte)) :
  stands m g → (∀ n, gw_ok n g') → wframe name (gw_world g) (gw_world g') →
  ready k (gw_world g') →
  match new with
  | Some bytes => ∃ data, concat data = bytes ∧ placed (gw_world g') name data
  | None => objects (meta (gw_world g')) !! name = None
  end →
  implements k (partial_alter (λ _, new) name m) g'.
Proof.
  intros [Hg Hok Hal _ Hst Habs] Hg' Hf Hrd Hnew. pose proof (gk_wf _ _ (Hg name)) as Hwf.
  split; [|done]. split.
  - done.
  - by apply Hf.
  - eapply lists_alone_place; [apply Hf|done].
  - intros x node Hx. eapply room_up, rd_room; [exact Hrd|exact Hx].
  - intros n b. destruct (decide (name = n)) as [<-|Hne].
    + rewrite lookup_partial_alter_eq. intros ->. destruct Hnew as (data & Hcat & Hp).
      exists data. split; [done|]. by apply placed_kept.
    + rewrite lookup_partial_alter_ne by done. intros Hn.
      destruct (Hst _ _ Hn) as (data & Hcat & Hpl). exists data. split; [done|].
      by eapply kept_framed.
  - intros n. destruct (decide (name = n)) as [<-|Hne].
    + rewrite lookup_partial_alter_eq. intros ->. exact Hnew.
    + rewrite lookup_partial_alter_ne by done. intros Hn.
      rewrite (fr_objects _ _ _ (wf_meta _ _ _ Hf)) by done. auto.
Qed.

(** An upload of a new object, as the steps of the task do it. *)
Lemma upload_frames name bytes g g1 g2 :
  (∀ n, gw_ok n g) → call (mc_put_object name (compute_checksum bytes)) g = (Ok (inr ()), g1) →
  put_chunks name (slice_chunks SLOT_DATA_SIZE bytes) g1 = (Ok (), g2) →
  (∀ n, gw_ok n g2) ∧ wframe name (gw_world g) (gw_world g2) ∧
  placed (gw_world g2) name (slice_chunks SLOT_DATA_SIZE bytes).
Proof.
  intros Hg Hc Hput. set (body := slice_chunks SLOT_DATA_SIZE bytes) in *.
  assert (Forall (λ c, zlen c ≤ SLOT_DATA_SIZE) body) as Hlen.
  { destruct (slice_chunks_spec SLOT_DATA_SIZE bytes slot_size_pos) as [_ Hl].
    eapply list.Forall_impl; [exact Hl|]. by intros c []. }
  eapply (run_steps_ok (1 + (4 * length body + 2)) name body
    (Creating (compute_checksum bytes) body) Finished); [done|done|done|].
  cbn [Nat.add]. rewrite run_steps_step. cbn [upload_step].
  assert (upload_step (W := World) name (Creating (compute_checksum bytes) body) g =
    (Ok (Sending body), g1)) as Hstep.
  { cbn [upload_step]. by rewrite (bind_ok _ _ _ _ _ Hc). }
  rewrite (bind_ok _ _ _ _ _ Hstep), run_steps_chunks by done. unfold as_phase. by rewrite Hput.
Qed.

Lemma implements_put name payload bytes k m g :
  implements (length (slice_chunks SLOT_DATA_SIZE bytes) + k) m g →
  validate_object_name name = None → b64_decode payload = Some bytes →
  zlen bytes ≤ MAX_OBJECT_SIZE → m !! name = None →
  ∃ g', handle_put_object name payload g = (Ok (zlen bytes), g') ∧
    implements k (<[name := bytes]> m) g' ∧ moves (gw_world g) (gw_world g').
Proof.
  intros Him Hv Hb Hsz Hm.
  destruct (upload_run _ _ _ _ _ (st_gateway _ _ (proj1 Him) name) Hv Hb Hsz (st_absent _ _ (proj1 Him) _ Hm)
    (proj2 Him)) as (g1 & g2 & g' & Hr & Hc & Hput & Hw & Hcs & Hrd2).
  destruct (upload_frames _ _ _ _ _ (st_gateway _ _ (proj1 Him)) Hc Hput) as (Hg2 & Hf & Hp).
  pose proof (read_only_same g2 g' Hw Hcs) as Hro. exists g'. split; [done|].
  split; [|by eapply moves_read_only, moves_framed]. apply implements_read_only with g2; [|done].
  apply (implements_upload k m g g2 name (Some bytes) (proj1 Him)); try done.
  eexists. split; [|exact Hp]. by destruct (slice_chunks_spec SLOT_DATA_SIZE bytes slot_size_pos).
Qed.

Lemma implements_json name payload body k m g :
  validate_object_name name = None → is_form body = false → pr_json body = Some payload →
  implements (cost m (Put name body) + k) m g →
  ∃ g', handle_put_object name payload g =
      (match json_outcome name payload m with inl e => Err e | inr bytes => Ok (zlen bytes) end, g') ∧
    implements k (after m (Put name body)) g' ∧ moves (gw_world g) (gw_world g').
Proof.
  intros Hv Hform Hjson. cbn [cost after]. unfold taken, put_outcome. rewrite Hv, Hform, Hjson.
  assert (∀ g', read_only g g' → implements k m g →
    implements k m g' ∧ moves (gw_world g) (gw_world g')) as Hread.
  { intros g' Hro Him. by split; [eapply implements_read_only|apply moves_only_read]. }
  unfold json_outcome. destruct (b64_decode payload) as [bytes|] eqn:Hb.
  2: { intros Him. unfold handle_put_object. rewrite Hv, Hb. eexists. split; [done|].
    apply Hread; [by apply read_only_same|by destruct (pr_form body)]. }
  destruct (Z.ltb_spec MAX_OBJECT_SIZE (zlen bytes)) as [Hsz|Hsz].
  { intros Him. unfold handle_put_object. rewrite Hv, Hb, (proj2 (Z.ltb_lt _ _) Hsz). eexists.
    split; [done|]. apply Hread; [by apply read_only_same|by destruct (pr_form body)]. }
  case_decide as Hm; intros Him.
  - pose proof (proj2 (stands_object _ _ _ (proj1 Him)) Hm) as Ho.
    destruct (put_refused name payload bytes [] _ g (st_gateway _ _ (proj1 Him) name) Hv
      (proj2 Him) Ho) as [Hput _]. destruct (Hput Hb Hsz) as (g' & Hr & Hro).
    exists g'. split; [done|]. apply Hread; [done|by destruct (pr_form body)].
  - apply eq_None_not_Some in Hm. by eapply implements_put.
Qed.

(** A form, when setting the checksum may be refused. *)
Definition form_outcome_if (refused : option Z) (name : string) (form : list form_event) (m : Objects) :
    Z + list byte :=
  match form_outcome name form m, refused with
  | inr _, Some status => inl status
  | out, _ => out
  end.

Lemma implements_form_cut upd refused name form body k m g :
  (∀ checksum size w0 data k g, uploading name w0 data k g →
    ∃ g', upd checksum size g = (match refused with None => Ok () | Some status => Err status end, g') ∧
      uploading name w0 data k g') →
  validate_object_name name = None → is_form body = true → pr_form body = Some form →
  implements (cost m (Put name body) + k) m g →
  ∃ g', form_cut upd name form g =
      (match form_outcome_if refused name form m with
       | inl e => Err e | inr bytes => Ok (zlen bytes) end, g') ∧
    implements k (match form_outcome_if refused name form m with
                  | inl _ => m | inr bytes => <[name := bytes]> m end) g' ∧
    moves (gw_world g) (gw_world g').
Proof.
  intros Hupd Hv His Hform. cbn [cost]. unfold taken, put_outcome. rewrite Hv, His, Hform.
  unfold form_outcome_if, form_outcome. case_decide as Hm; intros Him.
  - pose proof (proj2 (stands_object _ _ _ (proj1 Him)) Hm) as Ho.
    destruct (form_cut_conflict upd name form g (st_gateway _ _ (proj1 Him) name) Ho) as (g' & Hr & Hro).
    exists g'. split; [done|]. split; [|by apply moves_only_read]. eapply implements_read_only; [|done].
    rewrite bool_decide_eq_false_2 in Him; [done|]. destruct Hm as [? ->]. done.
  - apply eq_None_not_Some in Hm. destruct (form_result form) as [bytes e] eqn:Hres.
    assert (implements (length (slice_chunks SLOT_DATA_SIZE bytes) + k) m g) as Him'.
    { rewrite bool_decide_eq_true_2 in Him by done. by destruct e. }
    destruct (form_cut_run upd refused name Hupd form k g bytes e (st_gateway _ _ (proj1 Him'))
      (st_server _ _ (proj1 Him')) (st_absent _ _ (proj1 Him') _ Hm) Hres (proj2 Him'))
      as (g' & Hg' & Hf & Hrd & Hrun).
    exists g'. pose proof (moves_framed _ _ _ Hf) as Hmv.
    assert (objects (meta (gw_world g')) !! name = None → implements k m g') as Hnone.
    { intros Hno. rewrite <- (delete_id m name) by done.
      by apply (implements_upload k m g g' name None (proj1 Him')). }
    assert ((∃ data, concat data = bytes ∧ placed (gw_world g') name data) →
      implements k (<[name := bytes]> m) g') as Hsome.
    { intros Hnew. by apply (implements_upload k m g g' name (Some bytes) (proj1 Him')). }
    destruct e as [status|], refused as [status2|]; destruct Hrun as [Hr Hnew]; auto.
Qed.

Lemma implements_form name form body k m g :
  validate_object_name name = None → is_form body = true → pr_form body = Some form →
  implements (cost m (Put name body) + k) m g →
  ∃ g', handle_put_object_multipart name form g =
      (match form_outcome name form m with inl e => Err e | inr bytes => Ok (zlen bytes) end, g') ∧
    implements k (after m (Put name body)) g' ∧ moves (gw_world g) (gw_world g').
Proof.
  intros Hv His Hform Him. rewrite (form_start _ _ _ Hv (ready_offers _ _ (proj2 Him))).
  destruct (implements_form_cut (set_checksum name) None name form body k m g (update_run name) Hv His
    Hform Him) as (g' & Hr & Hi).
  exists g'. cbn [after]. unfold put_outcome. rewrite Hv, His, Hform.
  unfold form_outcome_if in *. by destruct (form_outcome name form m).
Qed.

(** Every kind of PUT. *)
Lemma implements_dispatch name body k m g :
  implements (cost m (Put name body) + k) m g →
  ∃ g', handle_put_dispatch name body g =
      (match put_outcome name body m with inl e => Err e | inr bytes => Ok (zlen bytes) end, g') ∧
    implements k (after m (Put name body)) g' ∧ moves (gw_world g) (gw_world g').
Proof.
  intros Him. unfold handle_put_dispatch. change (starts_with _ _) with (is_form body).
  destruct (validate_object_name name) as [e|] eqn:Hv.
  - cbn [cost after] in *. unfold taken, put_outcome in *. rewrite Hv in *. cbn in Him.
    unfold handle_put_object_multipart, handle_put_object. rewrite Hv.
    destruct (is_form body), (pr_form body), (pr_json body); eexists; (split; [done|]);
      (split; [eapply implements_read_only; [exact Him|by apply read_only_same]|
        by apply moves_only_read, read_only_same]).
  - destruct (is_form body) eqn:His.
    + destruct (pr_form body) as [form|] eqn:Hform.
      * unfold put_outcome. rewrite Hv, His, Hform. by apply implements_form.
      * cbn [cost after] in *. unfold taken, put_outcome in *. rewrite Hv, His, Hform in *. exists g.
        split; [done|]. by split; [|apply moves_only_read].
    + destruct (pr_json body) as [payload|] eqn:Hjson.
      * unfold put_outcome. rewrite Hv, His, Hjson. by apply implements_json.
      * cbn [cost after] in *. unfold taken, put_outcome in *. rewrite Hv, His, Hjson in *.
        exists g. split; [done|]. by split; [destruct (pr_form body)|apply moves_only_read].
Qed.

(** ** GET *)

Lemma stands_get name accept m g :
  stands m g →
  ∃ a g', serve_request (Get name accept) g = (Some a, g') ∧ expected m (Get name accept) a ∧
    read_only g g'.
Proof.
  intros Hs. pose proof (st_gateway _ _ Hs name) as Hg.
  cbn [serve_request expected]. unfold lookup_outcome, handle_get_dispatch.
  set (json := contains "application/json" (default "" accept)).
  destruct (validate_object_name name) as [e|] eqn:Hv.
  { unfold handle_get_object, handle_get_object_stream. rewrite Hv.
    destruct json; eexists (Failed _), _; (split; [done|]); (split; [done|]); by apply read_only_same. }
  destruct (m !! name) as [bytes|] eqn:Hm.
  - destruct (st_stored _ _ Hs _ _ Hm) as (data & <- & Hp).
    apply kept_available in Hp; [|apply Hg]. destruct json.
    + destruct (get_run _ _ _ Hv Hg Hp) as (g' & Hr & Hro).
      rewrite (bind_ok _ _ _ _ _ Hr). by eexists _, g'.
    + destruct (stream_run _ _ _ Hv Hg Hp) as (g' & Hr & Hro).
      rewrite (bind_ok _ _ _ _ _ Hr). eexists _, g'. split; [done|]. split; [|done]. by exists data.
  - destruct (get_absent name g Hv Hg (st_absent _ _ Hs _ Hm))
      as ((g1 & Hr1 & Hro1) & (g2 & Hr2 & Hro2) & _).
    destruct json.
    + rewrite (bind_err _ _ _ _ _ Hr1). by eexists _, g1.
    + rewrite (bind_err _ _ _ _ _ Hr2). by eexists _, g2.
Qed.

(** ** LIST *)

Lemma listed_kept w n o data :
  ms_wf (meta w) → objects (meta w) !! n = Some o → Forall2 (copies w) (mo_chunks o) data →
  ∃ l, listed_object w (object_info (meta w) o) = Some (n, l) ∧ listed_bytes l = Some (concat data).
Proof.
  intros Hwf Ho Hd. destruct (mw_object _ Hwf _ _ Ho) as [Hn _]. unfold listed_object, object_info.
  cbn [oi_chunks oi_name].
  assert (∃ l, mapM (listed_chunk w) (chunk_info (meta w) <$> omap (λ id, chunks (meta w) !! id)
    (mo_chunks o)) = Some l ∧ mapM (λ c, b64_decode (lc_bytes c)) l = Some data) as (l & -> & Hl).
  { clear Ho Hn. induction Hd as [|id bytes ids data Hat _ (l & IH1 & IH2)]; [by exists []|].
    destruct (copies_known _ _ _ Hwf Hat) as (c & node & nodes & Hc & Hid & Hk & HP).
    apply list.Forall_cons in HP as [Hb _].
    assert (listed_chunk w (chunk_info (meta w) c) =
      Some (mkListChunk id (b64_encode bytes) (sn_address node))) as Hlc.
    { unfold listed_chunk, chunk_info. cbn [ci_storage_nodes ci_id]. rewrite Hk, Hid. cbn [first_up].
      rewrite decide_True by by eapply node_data_up. simpl. by rewrite Hb. }
    exists (mkListChunk id (b64_encode bytes) (sn_address node) :: l). split.
    - assert (omap (λ i, chunks (meta w) !! i) (id :: ids) =
        c :: omap (λ i, chunks (meta w) !! i) ids) as -> by (simpl; by rewrite Hc).
      rewrite fmap_cons. cbn [mapM]. by rewrite Hlc, IH1.
    - cbn [mapM lc_bytes]. by rewrite b64_roundtrip, IH2. }
  exists l. simpl. rewrite Hn. split; [done|]. unfold listed_bytes. by rewrite Hl.
Qed.

Lemma listing_kept w (m : Objects) (kvs : list (string * MetaObject)) :
  ms_wf (meta w) →
  (∀ n o, (n, o) ∈ kvs → objects (meta w) !! n = Some o ∧
    ∃ data, m !! n = Some (concat data) ∧ kept w n data) →
  ∃ l, listing w (object_info (meta w) <$> kvs.*2) = Some l ∧
    (λ e, (e.1, listed_bytes e.2)) <$> l = (λ kv, (kv.1, m !! kv.1)) <$> kvs.
Proof.
  intros Hwf. induction kvs as [|[n o] kvs IH]; intros Hall; [by exists []|].
  destruct IH as (l & Hl & Hb); [intros; apply Hall; by right|].
  destruct (Hall n o) as (Ho & data & Hm & o1 & Ho1 & Hd); [by left|].
  rewrite Ho in Ho1. injection Ho1 as <-.
  destruct (listed_kept _ _ _ _ Hwf Ho Hd) as (l1 & Hl1 & Hb1).
  exists ((n, l1) :: l). unfold listing in *. rewrite !fmap_cons. cbn [mapM snd].
  rewrite Hl1. simpl. rewrite Hl. split; [done|]. cbn [fst snd]. by rewrite Hb, Hb1, Hm.
Qed.

(** Two maps with the same names, listed by name. *)
Lemma listing_permutation {A} (objs : gmap string A) (m : Objects) :
  (∀ n, is_Some (objs !! n) ↔ is_Some (m !! n)) →
  ((λ kv, (kv.1, m !! kv.1)) <$> map_to_list objs) ≡ₚ (prod_map id Some <$> map_to_list m).
Proof.
  intros Hdom. apply NoDup_Permutation.
  - apply (NoDup_fmap_1 fst). rewrite <- list_fmap_compose. apply NoDup_fst_map_to_list.
  - apply (NoDup_fmap_1 fst). rewrite <- list_fmap_compose. apply NoDup_fst_map_to_list.
  - intros [n ob]. rewrite !list_elem_of_fmap. split.
    + intros ([k o] & [= -> ->] & Hk%elem_of_map_to_list).
      destruct (proj1 (Hdom k)) as [b Hb]; [by eexists|]. exists (k, b). simpl. rewrite Hb.
      by rewrite elem_of_map_to_list.
    + intros ([k b] & [= -> ->] & Hk%elem_of_map_to_list).
      destruct (proj2 (Hdom k)) as [o Ho]; [by eexists|]. exists (k, o). simpl. rewrite Hk.
      by rewrite elem_of_map_to_list.
Qed.

(** What is listed, by name and with its bytes. *)
Definition listed (l : list (string * list ListObjectsResponseChunk)) : list (string * option (list byte)) :=
  (λ e, (e.1, listed_bytes e.2)) <$> l.

Lemma stands_listing m g :
  stands m g →
  ∃ l, listing (gw_world g) (local_objects (meta (gw_world g))) = Some l ∧
    listed l ≡ₚ (prod_map id Some <$> map_to_list m).
Proof.
  intros Hst. pose proof (st_gateway _ _ Hst "") as Hg.
  assert (∀ n o, objects (meta (gw_world g)) !! n = Some o →
    ∃ data, m !! n = Some (concat data) ∧ kept (gw_world g) n data) as Hall.
  { intros n o Ho. destruct (m !! n) as [b|] eqn:Hm.
    - destruct (st_stored _ _ Hst _ _ Hm) as (data & <- & Hp). by exists data.
    - apply (st_absent _ _ Hst) in Hm. congruence. }
  destruct (listing_kept (gw_world g) m (map_to_list (objects (meta (gw_world g)))))
    as (l & Hl & Hb); [apply Hg| |].
  { intros n o Ho%elem_of_map_to_list. eauto. }
  exists l. split; [exact Hl|]. unfold listed. rewrite Hb. apply listing_permutation. intros n.
  by apply stands_object.
Qed.

Lemma stands_list m g :
  stands m g →
  ∃ a g', serve_request ListAll g = (Some a, g') ∧ expected m ListAll a ∧ read_only g g'.
Proof.
  intros Hst. pose proof (st_gateway _ _ Hst "") as Hg.
  destruct (list_run g (gk_nodes _ _ Hg) (st_alone _ _ Hst)) as (g' & Hr & Hs & Hc).
  destruct (stands_listing _ _ Hst) as (l & Hl & Hp). rewrite Hl in Hr.
  eexists (Listing l), g'. cbn [serve_request]. rewrite Hr. split; [done|]. split; [by exists l|].
  apply (same_data_read_only ""); [|done]. destruct Hg as [H1g H2g H3g H4g H5g].
  destruct Hs as [Hmeta _ _ Hgood _]. split; rewrite ?Hmeta, ?Hc; auto.
Qed.

(** ** One request, and any sequence of them *)

(** A request that stores nothing is served without room. *)
Definition is_put (req : Request) : bool := match req with Put _ _ => true | _ => false end.

Lemma stands_step req m g :
  is_put req = false → stands m g →
  ∃ a g', serve_request req g = (Some a, g') ∧ expected m req a ∧ stands (after m req) g' ∧
    (∀ k, ready k (gw_world g) → ready k (gw_world g')) ∧ moves (gw_world g) (gw_world g').
Proof.
  intros Hput Hst. pose proof (so_calm _ (st_server _ _ Hst)) as Hcalm.
  assert (∀ a g', serve_request req g = (Some a, g') → expected m req a → read_only g g' →
    after m req = m →
    ∃ a g', serve_request req g = (Some a, g') ∧ expected m req a ∧ stands (after m req) g' ∧
      (∀ k, ready k (gw_world g) → ready k (gw_world g')) ∧ moves (gw_world g) (gw_world g')) as Hread.
  { intros a g' Hr Ha Hro ->. exists a, g'. split_and!; [done|done|by eapply stands_read_only| |].
    - intros k. by apply ready_read_only.
    - by apply moves_only_read. }
  destruct req as [name body|name accept|name|]; [done|..].
  - destruct (stands_get name accept _ _ Hst) as (a & g' & Hr & Ha & Hro). by apply (Hread a g').
  - cbn [after expected serve_request] in *. unfold lookup_outcome in *.
    pose proof (st_gateway _ _ Hst name) as Hg.
    destruct (validate_object_name name) as [e|] eqn:Hv.
    { eapply (Hread (Failed _)); [unfold handle_delete_object; by rewrite Hv|done| |done].
      by apply read_only_same. }
    destruct (m !! name) as [bytes|] eqn:Hm.
    + destruct (st_stored _ _ Hst _ _ Hm) as (data & _ & Hp).
      apply kept_available in Hp as (o & Ho & Hreg & _); [|apply Hg].
      destruct (delete_run name o g Hg (st_server _ _ Hst) Hv Ho Hreg) as (g' & Hr & Hdl).
      rewrite Hr. eexists Deleted, g'. split; [done|]. split; [done|].
      split; [by eapply stands_deleted|]. split; [intros k; by eapply ready_deleted|].
      eapply moves_deleted; [apply Hg|done..].
    + destruct (get_absent name g Hv Hg (st_absent _ _ Hst _ Hm)) as (_ & _ & g' & Hr & Hro).
      apply (Hread (Failed NOT_FOUND) g'); [by rewrite Hr|done..].
  - destruct (stands_list _ _ Hst) as (a & g' & Hr & Ha & Hro). by apply (Hread a g').
Qed.

Lemma implements_step req k m g :
  implements (cost m req + k) m g →
  ∃ a g', serve_request req g = (Some a, g') ∧ expected m req a ∧ implements k (after m req) g' ∧
    moves (gw_world g) (gw_world g').
Proof.
  intros Him. destruct (is_put req) eqn:Hn; cycle 1.
  - destruct (stands_step req m g Hn (proj1 Him)) as (a & g' & Hr & Ha & Hs & Hrd & Hmv).
    exists a, g'. split; [done|]. split; [done|]. split; [|done]. split; [done|]. apply Hrd.
    destruct req; [done|apply Him..].
  - destruct req as [name body| | |]; [|done..].
    destruct (implements_dispatch name body _ _ _ Him) as (g' & Hr & Him').
    cbn [serve_request expected]. rewrite Hr.
    destruct (put_outcome name body m); [by eexists (Failed _), g'|by eexists (Stored _), g'].
Qed.

(** C1: The system is a map from names to bytes: whatever clients ask, in whatever order, as
    long as there is room for the bodies that are stored, every request is answered as the map
    answers it (no handler panics, none answers [500]), and the system stands for the map
    after the requests. *)
Theorem gateway_is_an_object_store reqs m g :
  implements (total_cost m reqs) m g →
  ∃ answers g', serve_requests reqs g = (Some <$> answers, g') ∧ meets m reqs answers ∧
    implements 0 (foldl after m reqs) g'.
Proof.
  revert m g. induction reqs as [|req reqs IH]; intros m g Him; [by exists [], g|].
  cbn [total_cost serve_requests foldl] in *.
  destruct (implements_step _ _ _ _ Him) as (a & g1 & Hr & Ha & Him1 & _).
  destruct (IH _ _ Him1) as (answers & g' & Hrs & Hm & Him').
  exists (a :: answers), g'. by rewrite Hr, Hrs.
Qed.

Lemma meets_nil m answers : meets m [] answers → answers = [].
Proof. by destruct answers. Qed.

Lemma meets_cons m req reqs answers :
  meets m (req :: reqs) answers →
  ∃ a l, answers = a :: l ∧ expected m req a ∧ meets (after m req) reqs l.
Proof. destruct answers as [|a l]; [done|]. intros [Ha Hl]. by exists a, l. Qed.

End store.

(** ** Witness *)

#[local] Existing Instance toy_deps.
#[local] Existing Instance toy_xxh3.
#[local] Existing Instance crc32_ieee.
#[local] Existing Instance toy_base64.
#[local] Existing Instance ascii_only.

Definition json (payload : string) : PutRequest := mkPutRequest None None (Some payload).
Definition form_of (content : list stream_event) : PutRequest :=
  mkPutRequest (Some "multipart/form-data; boundary=b")
    (Some [Field (Some "comment") []; Field (Some "file") content]) None.

(** Two objects, one uploaded in JSON and one as a form, a second upload of the first and a
    form that breaks, downloads of both kinds, the listing, a deletion, and the download of
    what is no longer there. *)
Definition session : list Request :=
  [Put "a" (json "one"); Put "a" (json "two"); Get "a" (Some "application/json");
   Put "b" (form_of [Data (String.list_byte_of_string "x"); Data (String.list_byte_of_string "y")]);
   Put "c" (form_of [StreamError]); Get "b" None; ListAll; Delete "a"; Get "a" None; Get "//" None].

Lemma gateway1_server_ok : server_ok (mn_server (w_meta (gw_world gateway1))).
Proof.
  split; [apply (gk_wf "" gateway1), gateway1_ok| |split; [done|by eexists]].
  intros k o id Ho. change (objects _) with (∅ : gmap string MetaObject) in Ho.
  by rewrite lookup_empty in Ho.
Qed.

Lemma gateway1_implements : implements 2 ∅ gateway1.
Proof.
  split; [|by apply gateway1_ready]. split.
  - apply gateway1_ok.
  - apply gateway1_server_ok.
  - right. vm_compute. reflexivity.
  - intros x node Hx. eapply room_up, rd_room; [by apply (gateway1_ready 0); lia|exact Hx].
  - intros name bytes. by rewrite lookup_empty.
  - intros name _. apply lookup_empty.
Qed.

Lemma gateway_is_an_object_store_witness :
  ∃ l pieces g', serve_requests session gateway1 = (Some <$>
      [Stored 3; Failed 409; Content (JsonBytes "one"); Stored 2; Failed 400;
       Content (Stream pieces false); Listing l; Deleted; Failed 404; Failed 400], g') ∧
    concat pieces = String.list_byte_of_string "xy" ∧
    implements 0 {["b" := String.list_byte_of_string "xy"]} g'.
Proof.
  destruct (gateway_is_an_object_store session ∅ gateway1) as (answers & g' & Hr & Hm & Him).
  { assert (total_cost ∅ session = 2%nat) as -> by (vm_compute; reflexivity).
    exact gateway1_implements. }
  assert (foldl after ∅ session = {["b" := String.list_byte_of_string "xy"]}) as Hf
    by (vm_compute; reflexivity).
  rewrite Hf in Him. clear Hf. unfold session in Hm.
  apply meets_cons in Hm as (a1 & l1 & -> & H1 & Hm).
  apply meets_cons in Hm as (a2 & l2 & -> & H2 & Hm).
  apply meets_cons in Hm as (a3 & l3 & -> & H3 & Hm).
  apply meets_cons in Hm as (a4 & l4 & -> & H4 & Hm).
  apply meets_cons in Hm as (a5 & l5 & -> & H5 & Hm).
  apply meets_cons in Hm as (a6 & l6 & -> & H6 & Hm).
  apply meets_cons in Hm as (a7 & l7 & -> & (l & H7 & _) & Hm).
  apply meets_cons in Hm as (a8 & l8 & -> & H8 & Hm).
  apply meets_cons in Hm as (a9 & l9 & -> & H9 & Hm).
  apply meets_cons in Hm as (a10 & l10 & -> & H10 & Hm).
  apply meets_nil in Hm as ->. vm_compute in H1, H2, H3, H4, H5, H6, H8, H9, H10.
  destruct H6 as (pieces & H6 & Hx). subst a1 a2 a3 a4 a5 a6 a7 a8 a9 a10.
  exists l, pieces, g'. split; [exact Hr|]. split; [exact Hx|exact Him].
Defined.
