(* ===== verification/ReplicationFacts.v ===== *)
(** * ReplicationFacts: single steps of the replication cycle

    Remote calls of the replication service on the models of the services. *)

From S2P Require Import Prelude.
From S2P Require Import Bytes.
From S2P Require Import Crc32.
From S2P Require Import ChunkStore.
From S2P Require Import Grpc.
From S2P Require Import StorageNode.
From S2P Require Import HashRing.
From S2P Require Import MetadataStore.
From S2P Require Import ClusterService.
From S2P Require Import Forwarding.
From S2P Require Import MetadataService.
From S2P Require Import Network.
From S2P Require Import Clients.
From S2P Require Import Replication.
From S2P Require Import SystemFacts.
Open Scope string_scope.
Open Scope list_scope.
Open Scope Z_scope.

Section facts.
Context `{MetaDeps} `{Xxh3} `{Crc32}.

Lemma remote_run {E A} (m : ST World E A) (s : Repl World) r w :
  m (rp_world s) = (r, w) →
  remote m s = (match r with Ok a => Ok (inr a) | Err e => Ok (inl e) | Panic => Panic end,
                set_rp_world w s).
Proof. intros Hm. unfold remote, zoom. run_st. rewrite Hm. by destruct r. Qed.

(** Connecting and calling: either nothing happened, or the call ran. *)
Lemma connect_then_run {A} a (m : ST World Code A) (s : Repl World) r w :
  m (rp_world s) = (r, w) → r ≠ Panic →
  connect_then a m s =
    (if decide (is_Some (w_nodes (rp_world s) !! a))
     then match r with Ok x => Ok (inr x) | Err e => Ok (inl (Some e)) | Panic => Panic end
     else Ok (inl None),
     if decide (is_Some (w_nodes (rp_world s) !! a)) then set_rp_world w s else s).
Proof.
  intros Hm Hr. unfold connect_then. cbv [mbind ST_bind].
  rewrite (remote_run _ _ _ _ (world_connect a (rp_world s))).
  replace (set_rp_world (rp_world s) s) with s by by destruct s.
  destruct (decide _) as [Hu|Hu]; [|done]. rewrite (remote_run _ _ _ _ Hm). by destruct r.
Qed.

Lemma eligible_spec nodes chunk n :
  n ∈ eligible_nodes nodes chunk → sn_id n ∉ ur_current_storage_node_ids chunk.
Proof.
  unfold eligible_nodes. rewrite list_elem_of_In, filter_In. intros [_ Hn].
  by case_bool_decide.
Qed.

Lemma eligible_in nodes chunk n : n ∈ eligible_nodes nodes chunk → n ∈ nodes.
Proof. unfold eligible_nodes. rewrite !list_elem_of_In, filter_In. by intros [? _]. Qed.

Lemma remote_meta_run {A} (m : ST (MetaNode Network) Code A) (s : Repl World) :
  remote (on_meta m) s =
  (match (m (w_meta (rp_world s))).1 with
   | Ok a => Ok (inr a) | Err e => Ok (inl e) | Panic => Panic
   end, set_rp_world (set_meta (m (w_meta (rp_world s))).2 (rp_world s)) s).
Proof.
  unfold remote, on_meta, zoom. run_st. destruct (m (w_meta (rp_world s))) as [r n]. by destruct r.
Qed.

(** The free space of a node is asked without changing anything. *)
Lemma has_space_run a (s : Repl World) : ∃ b, has_space a s = (Ok b, s).
Proof.
  assert (∃ r, sn_get_free_chunks a (rp_world s) = (r, rp_world s) ∧ r ≠ Panic) as (r & Hr & Hnp).
  { cbn. unfold on_node. destruct (w_nodes (rp_world s) !! a) as [n|] eqn:Ha; [|by eexists].
    cbn. rewrite insert_id by done. destruct (rp_world s). by eexists. }
  unfold has_space. cbv [mbind ST_bind]. rewrite (connect_then_run _ _ _ _ _ Hr Hnp).
  replace (set_rp_world (rp_world s) s) with s by by destruct s.
  destruct (decide _) as [Hu|Hu]; [destruct r as [x|e|]; [| |done]|]; by eexists.
Qed.

Lemma choose_node_spec l (s : Repl World) :
  ∃ r picks, choose_node l s = (Ok r, mkRepl (rp_metrics s) picks (rp_world s)) ∧
    ∀ n, r = Some n → n ∈ l.
Proof.
  unfold choose_node. destruct l as [|n l]; [by exists None, (rp_picks s); destruct s|].
  eexists _, _. split; [done|]. intros x Hx. by apply list_elem_of_lookup_2 in Hx.
Qed.

End facts.
