(* ===== verification/ReplicationProgress.v ===== *)
(** * ReplicationProgress: replication that gets done

    In a system in normal service with one metadata node, a cycle copies every chunk it
    takes up that some storage node does not have yet; two cycles leave no chunk with
    fewer copies than there can be. *)

From S2P Require Import Prelude.
From S2P Require Import Bytes.
From S2P Require Import Crc32.
From S2P Require Import ChunkStore.
From S2P Require Import ChunkStoreFacts.
From S2P Require Import ChunkStoreSpec.
From S2P Require Import Grpc.
From S2P Require Import StorageNode.
From S2P Require Import NodeFacts.
From S2P Require Import NodeTheorems.
From S2P Require Import HashRing.
From S2P Require Import MetadataStore.
From S2P Require Import MetadataStoreFacts.
From S2P Require Import MetadataStoreTheorems.
From S2P Require Import ChunkIndex.
From S2P Require Import ClusterService.
From S2P Require Import Cluster.
From S2P Require Import Forwarding.
From S2P Require Import MetadataService.
From S2P Require Import Network.
From S2P Require Import ClusterFacts.
From S2P Require Import RoutingFacts.
From S2P Require Import Clients.
From S2P Require Import Gateway.
From S2P Require Import Replication.
From S2P Require Import SystemFacts.
From S2P Require Import Samples.
From S2P Require Import SampleSystem.
From S2P Require Import Progress.
From S2P Require Import ReplicationFacts.
From S2P Require Import ListTheorems.
Open Scope string_scope.
Open Scope list_scope.
Open Scope Z_scope.

Section progress.
Context `{MetaDeps} `{Xxh3} `{Crc32}.

(** ** A metadata node without peers *)

Definition alone (n : MetaNode Network) : Prop := cm_peer_addrs (mn_cluster n) = ∅.

Lemma alone_serves n name : alone n → serves_itself n name.
Proof.
  intros Ha. right. unfold get_owner_addr. rewrite Ha.
  destruct (get_owner _ _) as [o|]; [|done]. by case_decide.
Qed.

Lemma alone_route_chunk {A} n id (fwd : string → MN A) here :
  alone n → route_chunk id fwd here n = here n.
Proof.
  intros Ha. destruct (sv_index (mn_server n) !! id) as [name|] eqn:Hi.
  - rewrite (route_chunk_known _ _ _ _ _ Hi). by apply route_object_here, alone_serves.
  - by apply route_chunk_unknown.
Qed.

(** ** The state in which replication works *)

Definition confirmed (w : World) (id : Z) (c : MetaChunk) : Prop :=
  chunks (meta w) !! id = Some c ∧ mc_status c = Confirmed.

(** The nodes listed for the chunk are registered and have [bytes] under its id. *)
Definition stored_on (w : World) (id : Z) (c : MetaChunk) (bytes : list byte) : Prop :=
  ∀ y, y ∈ mc_storage_nodes c → ∃ n, storage_nodes (meta w) !! y = Some n ∧
    node_data w (sn_address n) !! id = Some bytes.

(** Every registered storage node is up, at an address of its own, with [k] free slots;
    the nodes of a confirmed chunk are registered and have its bytes, and a node that is not
    listed for it does not have it. *)
Record healthy (k : nat) (w : World) : Prop := mkHealthy {
  hl_good : nodes_good w;
  hl_wf : ms_wf (meta w);
  hl_calm : store_calm (meta w);
  hl_alone : alone (w_meta w);
  hl_addr x y n m : storage_nodes (meta w) !! x = Some n → storage_nodes (meta w) !! y = Some m →
    sn_address n = sn_address m → x = y;
  hl_room x n : storage_nodes (meta w) !! x = Some n → room w k (sn_address n);
  hl_source id c : confirmed w id c → ∃ x rest bytes, mc_storage_nodes c = x :: rest ∧
    crc32 bytes = mc_checksum c ∧ stored_on w id c bytes;
  hl_absent id c y n : confirmed w id c → storage_nodes (meta w) !! y = Some n →
    y ∉ mc_storage_nodes c → node_data w (sn_address n) !! id = None;
}.

Lemma room_less w k j a : (j ≤ k)%nat → room w k a → room w j a.
Proof. intros Hj (n & Hn & Hs). exists n. split; [done|lia]. Qed.

Lemma healthy_less w k j : (j ≤ k)%nat → healthy k w → healthy j w.
Proof. intros Hj []. split; eauto using room_less. Qed.

Lemma add_replica_calm id y c (s : MetadataStore) :
  store_calm s → is_Some (storage_nodes s !! y) → chunks s !! id = Some c →
  y ∉ mc_storage_nodes c → zlen (mc_storage_nodes c) < MAX_REPLICAS →
  ∃ d, add_chunk_replica id y s =
      (Ok (), set_disk d (set_chunks (<[id := add_storage_node y c]> (chunks s)) s)) ∧
    dk_script d = [].
Proof.
  intros Hc Hy Hid Hn Hl. unfold add_chunk_replica. run_st.
  rewrite decide_True by done. rewrite Hid. cbn. rewrite decide_False by done.
  rewrite (proj2 (Z.leb_gt _ _) Hl). apply save_calm. exact Hc.
Qed.

(** The metadata after one more copy of the chunk. *)
Lemma replica_recorded id y c w :
  healthy 0 w → is_Some (storage_nodes (meta w) !! y) → chunks (meta w) !! id = Some c →
  y ∉ mc_storage_nodes c → zlen (mc_storage_nodes c) < MAX_REPLICAS →
  ∃ n', svc_add_chunk_replica id y (w_meta w) = (Ok (), n') ∧ alone n' ∧
    ms_wf (sv_store (mn_server n')) ∧ store_calm (sv_store (mn_server n')) ∧
    storage_nodes (sv_store (mn_server n')) = storage_nodes (meta w) ∧
    chunks (sv_store (mn_server n')) = <[id := add_storage_node y c]> (chunks (meta w)).
Proof.
  intros Hh Hy Hid Hn Hl. unfold svc_add_chunk_replica.
  rewrite alone_route_chunk by apply Hh. unfold locked, on_server, zoom, count. run_st.
  destruct (add_replica_calm id y c (meta w)) as (d & Ha & Hd); [apply Hh|done..|].
  pose proof (add_chunk_replica_keeps id y (meta w) _ _ (hl_wf _ _ Hh) Ha) as Hwf.
  rewrite Ha. eexists. split; [done|]. split; [apply Hh|]. split; [exact Hwf|].
  split; [|done]. split; [exact Hd|]. apply (hl_calm _ _ Hh).
Qed.

(** A world with one more copy of one chunk, on a node that was not listed for it. *)
Lemma healthy_copied k w w' id c y n bytes :
  healthy (S k) w → confirmed w id c → storage_nodes (meta w) !! y = Some n →
  stored_on w id c bytes → crc32 bytes = mc_checksum c → y ∉ mc_storage_nodes c → nodes_good w' → ms_wf (meta w') → store_calm (meta w') →
  alone (w_meta w') → storage_nodes (meta w') = storage_nodes (meta w) →
  chunks (meta w') = <[id := add_storage_node y c]> (chunks (meta w)) →
  (∀ x, room w (S k) x → room w' k x) →
  (∀ x, node_data w' x = if decide (sn_address n = x) then <[id := bytes]> (node_data w x)
                         else node_data w x) →
  healthy k w'.
Proof.
  intros Hh [Hc Hst] Hy Hon Hcrc Hny Hg Hwf Hcalm Hal Hsn Hch Hroom Hd.
  assert (∀ i c', confirmed w' i c' → ∃ c0, confirmed w i c0 ∧ mc_checksum c' = mc_checksum c0 ∧
    (c' = c0 ∧ i ≠ id ∨ c0 = c ∧ i = id ∧ mc_storage_nodes c' = mc_storage_nodes c ++ [y])) as Hback.
  { intros i c' [Hi Hs]. rewrite Hch in Hi.
    apply lookup_insert_Some in Hi as [[<- <-]|[Hne Hi]].
    - exists c. split_and!; [done|done|]. by right.
    - exists c'. split_and!; [done|done|]. left. by split. }
  split; [done..| | | |].
  - rewrite Hsn. apply Hh.
  - intros x m. rewrite Hsn. intros Hx. by apply Hroom, (hl_room _ _ Hh x).
  - intros i c' (c0 & Hc0 & -> & Hcase)%Hback.
    destruct (hl_source _ _ Hh i c0 Hc0) as (x & rest & b & Hx & Hcr & Hb).
    destruct Hcase as [[-> Hne]|(-> & -> & Hns)].
    + exists x, rest, b. split_and!; [done..|]. intros z Hz. destruct (Hb z Hz) as (m & Hzm & Hzb).
      exists m. rewrite Hsn, Hd. split; [done|]. case_decide; [by rewrite lookup_insert_ne|done].
    + exists x, (rest ++ [y]), bytes. rewrite Hns, Hx. split_and!; [done..|].
      intros z. rewrite Hns. intros [Hz| ->%list_elem_of_singleton]%elem_of_app.
      * destruct (Hon z Hz) as (m & Hzm & Hzb). exists m. rewrite Hsn, Hd. split; [done|].
        case_decide; [apply lookup_insert_eq|done].
      * exists n. rewrite Hsn, Hd. split; [done|]. rewrite decide_True by done. apply lookup_insert_eq.
  - intros i c' z m (c0 & Hc0 & _ & Hcase)%Hback. rewrite Hsn, Hd. intros Hz Hnz.
    destruct Hcase as [[-> Hne]|(-> & -> & Hns)].
    + case_decide as Ha; [rewrite lookup_insert_ne by done|]; by eapply (hl_absent _ _ Hh).
    + rewrite Hns in Hnz. case_decide as Ha; [|eapply (hl_absent _ _ Hh); [done..|set_solver]].
      destruct Hnz. apply elem_of_app. right. apply list_elem_of_singleton.
      by apply (hl_addr _ _ Hh _ _ m n).
Qed.

Lemma room_same_data w w' k a : same_data w w' → room w k a → room w' k a.
Proof.
  intros Hs (n & Hn & Hk). destruct (proj2 (sd_up _ _ Hs a)) as [n' Hn']; [by eexists|].
  exists n'. split; [done|]. pose proof (sd_data _ _ Hs a) as Hd. pose proof (sd_slots _ _ Hs a) as Ht.
  unfold node_data, node_slots in *. rewrite Hn, Hn' in *. by rewrite Hd, Ht.
Qed.

Lemma svc_get_storage_node_run x (n : MetaNode Network) addr :
  storage_nodes (sv_store (mn_server n)) !! x = Some addr →
  svc_get_storage_node x n = (Ok (sn_address addr), n).
Proof.
  intros Hx. unfold svc_get_storage_node, locked, on_server, zoom, get_storage_node. run_st.
  rewrite Hx. cbn. by destruct n as [[]].
Qed.

(** A remote call that goes well; one made after connecting to a node that is up. *)
Lemma remote_ok {E A} (m : ST World E A) (s : Repl World) a w :
  m (rp_world s) = (Ok a, w) → remote m s = (Ok (inr a), set_rp_world w s).
Proof. intros Hm. by rewrite (remote_run _ _ _ _ Hm). Qed.

Lemma connect_then_ok {A} a (m : ST World Code A) (s : Repl World) x w :
  is_Some (w_nodes (rp_world s) !! a) → m (rp_world s) = (Ok x, w) →
  connect_then a m s = (Ok (inr x), set_rp_world w s).
Proof. intros Hu Hm. rewrite (connect_then_run _ _ _ _ _ Hm); [by rewrite !decide_True|done]. Qed.

(** The copy of a confirmed chunk to a node without it. *)
Lemma copy_chunk_done k id c y n (s : Repl World) :
  healthy (S k) (rp_world s) → confirmed (rp_world s) id c →
  zlen (mc_storage_nodes c) < MAX_REPLICAS →
  storage_nodes (meta (rp_world s)) !! y = Some n → y ∉ mc_storage_nodes c →
  ∃ w', copy_chunk (under_replicated_info c) n s = (Ok Replicated, set_rp_world w' s) ∧
    healthy k w' ∧ storage_nodes (meta w') = storage_nodes (meta (rp_world s)) ∧
    chunks (meta w') = <[id := add_storage_node y c]> (chunks (meta (rp_world s))).
Proof.
  intros Hh Hcf Hl Hy Hny. destruct (mw_chunk _ (hl_wf _ _ Hh) _ _ (proj1 Hcf)) as [Hid _].
  pose proof (mw_node _ (hl_wf _ _ Hh) _ _ Hy) as Hsn.
  destruct (hl_source _ _ Hh id c Hcf) as (x & rest & bytes & Hx & Hcrc & Hon).
  destruct (Hon x) as (m & Hm & Hb); [rewrite Hx; by left|].
  unfold copy_chunk, under_replicated_info. cbn [ur_current_storage_node_ids ur_chunk_id ur_checksum].
  rewrite Hx, Hid, Hsn. set (w := rp_world s) in *.
  assert (mc_get_storage_node x w = (Ok (sn_address m), w)) as Hsrc.
  { change (on_meta (svc_get_storage_node x) w = (Ok (sn_address m), w)). unfold on_meta, zoom.
    rewrite (svc_get_storage_node_run x _ m Hm). by destruct w. }
  rewrite (bind_ok _ _ _ _ _ (remote_ok _ s _ _ Hsrc)). cbv beta iota.
  destruct (world_read (sn_address m) id w (hl_good _ _ Hh)) as (r & w2 & Hr & Hsame & Hrb).
  assert (r = Ok bytes) as -> by (destruct r; [congruence|congruence|done]).
  rewrite (bind_ok _ _ _ _ _ (connect_then_ok _ _ (set_rp_world w s) _ _ (node_data_up _ _ _ _ Hb) Hr)).
  cbv beta iota. rewrite decide_True by done. cbv zeta.
  pose proof (sd_good _ _ Hsame (hl_good _ _ Hh)) as Hg2.
  assert (is_u64 id ∧ zlen bytes ≤ SLOT_DATA_SIZE) as [Hu Hlen].
  { revert Hb. unfold node_data. destruct (w_nodes w !! sn_address m) eqn:Hs; [|done].
    apply stored_bounds. by apply (hl_good _ _ Hh _ _ Hs). }
  set (a := sn_address n). pose proof (hl_room _ _ Hh y n Hy) as Hra. fold a in Hra.
  pose proof (room_same_data _ _ _ _ Hsame Hra) as Hra2.
  assert (node_data w2 a !! id = None) as Hnone.
  { rewrite (sd_data _ _ Hsame). by eapply (hl_absent _ _ Hh). }
  destruct (world_write_room a id bytes w2 k Hg2 Hu Hlen Hnone Hra2) as (w3 & Hw & Hroom).
  destruct (world_write a id bytes w2 Hg2 Hu Hlen) as (r' & w3' & Hw' & Hm3 & Hg3 & _ & Hd3).
  rewrite Hw in Hw'. injection Hw' as <- <-. destruct Hd3 as (Hup & _ & Hd3).
  rewrite (bind_ok _ _ _ _ _ (connect_then_ok a _ (set_rp_world w2 (set_rp_world w s)) _ _ Hup Hw)).
  cbv beta iota.
  destruct (replica_recorded id y c w) as (n' & Hrec & Hal & Hwf' & Hcalm' & Hsn' & Hch');
    [by apply (healthy_less _ (S k)); [lia|]|by eexists|apply Hcf|done|done|].
  assert (mc_add_chunk_replica id y w3 = (Ok (), set_meta n' w3)) as Hadd.
  { change (on_meta (svc_add_chunk_replica id y) w3 = (Ok (), set_meta n' w3)).
    unfold on_meta, zoom. by rewrite Hm3, (sd_meta _ _ Hsame), Hrec. }
  rewrite (bind_ok _ _ _ _ _ (remote_ok _ (set_rp_world w3 (set_rp_world w2 (set_rp_world w s))) _ _ Hadd)).
  exists (set_meta n' w3). split; [done|]. split; [|done].
  apply (healthy_copied k w _ id c y n bytes); try done.
  - intros z Hz. by apply Hroom, (room_same_data _ _ _ _ Hsame).
  - intros z. unfold node_data at 1. cbn. fold (node_data w3 z). rewrite Hd3.
    by rewrite (sd_data _ _ Hsame).
Qed.

(** ** One turn of the loop *)

Lemma has_space_true k a (s : Repl World) :
  nodes_good (rp_world s) → room (rp_world s) (S k) a → has_space a s = (Ok true, s).
Proof.
  intros Hg (n & Hn & Hk). pose proof (Hg _ _ Hn) as [Hwf Hcl _ _].
  pose proof (clean_capacity _ Hwf Hcl) as Hcap. unfold has_space.
  assert (sn_get_free_chunks a (rp_world s) = (Ok (free_slots (store n)), rp_world s)) as Hf.
  { cbn. unfold on_node. rewrite Hn. cbn. rewrite insert_id by done. by destruct (rp_world s). }
  rewrite (bind_ok _ _ _ _ _ (connect_then_ok a _ s _ _ (ex_intro _ n Hn) Hf)).
  unfold free_slots. rewrite (proj2 (Z.ltb_lt _ _)) by (unfold zlen in *; lia). by destruct s.
Qed.

(** [c'] is [c] with one more node, unless [c] was on every node known. *)
Definition one_more (known : gmap Z MetaStorageNode) (c c' : MetaChunk) : Prop :=
  (c' = c ∧ ∀ y, is_Some (known !! y) → y ∈ mc_storage_nodes c) ∨
  ∃ y, (y ∉ mc_storage_nodes c) ∧ c' = add_storage_node y c.

(** [nodes] are the storage nodes that the metadata knows. *)
Definition lists_nodes (nodes : list MetaStorageNode) (w : World) : Prop :=
  ∀ n, n ∈ nodes ↔ (∃ y, storage_nodes (meta w) !! y = Some n).

Lemma choose_node_some n l (s : Repl World) :
  n ∈ l → ∃ m picks, choose_node l s = (Ok (Some m), mkRepl (rp_metrics s) picks (rp_world s)) ∧ m ∈ l.
Proof.
  intros Hn. unfold choose_node. destruct l as [|x l]; [by apply not_elem_of_nil in Hn|].
  destruct (lookup_lt_is_Some_2 (x :: l) (default O (head (rp_picks s)) `mod` length (x :: l)))
    as [m Hm]; [by apply Nat.mod_upper_bound|].
  exists m. eexists. rewrite Hm. split; [done|]. by eapply list_elem_of_lookup_2.
Qed.

Lemma replicate_chunk_done k id c nodes (s : Repl World) :
  healthy (S k) (rp_world s) → confirmed (rp_world s) id c →
  zlen (mc_storage_nodes c) < MAX_REPLICAS → lists_nodes nodes (rp_world s) →
  ∃ r s' c', replicate_chunk nodes (under_replicated_info c) s = (Ok r, s') ∧
    healthy k (rp_world s') ∧
    storage_nodes (meta (rp_world s')) = storage_nodes (meta (rp_world s)) ∧
    chunks (meta (rp_world s')) = <[id := c']> (chunks (meta (rp_world s))) ∧
    one_more (storage_nodes (meta (rp_world s))) c c'.
Proof.
  intros Hh Hc Hl Hn. unfold replicate_chunk.
  set (el := eligible_nodes nodes (under_replicated_info c)).
  assert (∀ n, n ∈ nodes → sn_id n ∉ mc_storage_nodes c → n ∈ el) as Hel.
  { intros n Hin Hni. unfold el, eligible_nodes. apply list_elem_of_In, filter_In.
    split; [by apply list_elem_of_In|]. by rewrite bool_decide_eq_false_2. }
  destruct el as [|n0 rest] eqn:He.
  - exists Skipped, s, c. split_and!; [done|by apply (healthy_less _ (S k)); [lia|]|done| |].
    { by rewrite insert_id by apply Hc. }
    left. split; [done|]. intros y [n Hy]. destruct (decide (y ∈ mc_storage_nodes c)) as [|Hni]; [done|].
    rewrite <- (mw_node _ (hl_wf _ _ Hh) _ _ Hy) in Hni.
    assert (n ∈ @nil MetaStorageNode) as Hin; [|by apply not_elem_of_nil in Hin].
    apply Hel; [|done]. apply Hn. by exists y.
  - rewrite <- He. destruct (choose_node_some n0 el s) as (n & picks & Hch & Hin); [rewrite He; by left|].
    rewrite (bind_ok _ _ _ _ _ Hch). cbv beta iota. set (s1 := mkRepl _ _ _).
    pose proof (eligible_spec _ _ _ Hin) as Hni. cbn in Hni.
    assert (n ∈ nodes) as Hnn.
    { revert Hin. unfold el, eligible_nodes. rewrite !list_elem_of_In, filter_In. by intros []. }
    apply Hn in Hnn as [y Hy]. pose proof (mw_node _ (hl_wf _ _ Hh) _ _ Hy) as Hsn.
    rewrite Hsn in Hni.
    rewrite (bind_ok _ _ _ _ _ (has_space_true k _ s1 (hl_good _ _ Hh) (hl_room _ _ Hh _ _ Hy))).
    cbv beta iota.
    destruct (copy_chunk_done k id c y n s1 Hh Hc Hl Hy Hni) as (w' & Hcopy & Hh' & Hs' & Hc').
    rewrite (bind_ok _ _ _ _ _ Hcopy). cbv beta iota.
    eexists Replicated, _, (add_storage_node y c). split; [done|]. split; [exact Hh'|].
    split; [exact Hs'|]. split; [exact Hc'|]. right. by exists y.
Qed.

Lemma replicate_chunks_done k l nodes (s : Repl World) :
  healthy (length l + k) (rp_world s) → NoDup (mc_id <$> l) →
  (∀ c, c ∈ l → confirmed (rp_world s) (mc_id c) c ∧ zlen (mc_storage_nodes c) < MAX_REPLICAS) →
  lists_nodes nodes (rp_world s) →
  ∃ rs s', replicate_chunks nodes (under_replicated_info <$> l) s = (Ok rs, s') ∧
    healthy k (rp_world s') ∧
    storage_nodes (meta (rp_world s')) = storage_nodes (meta (rp_world s)) ∧
    (∀ c, c ∈ l → ∃ c', chunks (meta (rp_world s')) !! mc_id c = Some c' ∧
      one_more (storage_nodes (meta (rp_world s))) c c') ∧
    ∀ id, id ∉ mc_id <$> l → chunks (meta (rp_world s')) !! id = chunks (meta (rp_world s)) !! id.
Proof.
  revert s. induction l as [|c l IH]; intros s Hh Hnd Hl Hn.
  { exists [], s. split_and!; [done|exact Hh|done| |done]. by intros c ?%not_elem_of_nil. }
  rewrite fmap_cons in Hnd. apply list.NoDup_cons in Hnd as [Hni Hnd].
  destruct (Hl c (list_elem_of_here _ _)) as [Hc Hlen].
  destruct (replicate_chunk_done (length l + k) (mc_id c) c nodes s Hh Hc Hlen Hn)
    as (r & s1 & c' & Hr & Hh1 & Hs1 & Hch1 & Hone).
  destruct (IH s1 Hh1 Hnd) as (rs & s2 & Hrs & Hh2 & Hs2 & Hin2 & Hout2).
  { intros d Hd. destruct (Hl d (list_elem_of_further _ _ _ Hd)) as [[Hdc Hds] Hdl].
    split; [|done]. split; [|done]. rewrite Hch1, lookup_insert_ne; [done|].
    intros He. apply Hni. rewrite He. by apply list_elem_of_fmap_2. }
  { intros n. rewrite (Hn n). by rewrite Hs1. }
  exists (r :: rs), s2. rewrite Hs1 in *. split_and!; [|done|done| |].
  - rewrite fmap_cons. cbn [replicate_chunks].
    rewrite (bind_ok _ _ _ _ _ Hr), (bind_ok _ _ _ _ _ Hrs). done.
  - intros d [->|Hd]%elem_of_cons; [|by apply Hin2].
    exists c'. rewrite Hout2 by done. rewrite Hch1. split; [apply lookup_insert_eq|done].
  - intros id [Hne Hid]%not_elem_of_cons. rewrite Hout2 by done.
    rewrite Hch1. by apply lookup_insert_ne.
Qed.

(** ** A cycle *)

(** The list that a metadata node without peers gives the replication service. *)
Definition under_listing (s : MetadataStore) : list UnderReplicatedChunk :=
  sort_by_key (λ c, zlen (ur_current_storage_node_ids c))
    (under_replicated_info <$> list_under_replicated_chunks MAX_REPLICAS s).

Lemma alone_lists (n : MetaNode Network) : alone n → lists_alone n.
Proof. intros Ha. right. unfold get_all_peer_addrs. by rewrite Ha, map_to_list_empty. Qed.

Lemma same_place_alone (n n' : MetaNode Network) : same_place n n' → alone n → alone n'.
Proof. intros [Hc _]. unfold alone. by rewrite Hc. Qed.

(** Listing asks no peer when there is none to ask. *)
Lemma svc_list_alone (n : MetaNode Network) :
  lists_alone n →
  ∃ n', svc_list_under_replicated_chunks MAX_REPLICAS n =
      (Ok (under_listing (sv_store (mn_server n))), n') ∧
    mn_server n' = mn_server n ∧ same_place n n'.
Proof.
  intros Hal. unfold svc_list_under_replicated_chunks, current_store, count. run_st.
  change (wanted_replicas MAX_REPLICAS) with MAX_REPLICAS.
  destruct Hal as [->|Hp]; [by eexists|]. destruct (mn_forwarding n) eqn:Hf; [|by eexists].
  unfold scatter_gather_under_replicated_chunks, gather_all, on_net, zoom. run_st.
  rewrite Hp. cbn. rewrite app_nil_r. eexists. split; [done|]. by split_and!.
Qed.

(** The chunks that the metadata node lists. *)
Lemma listed_under_replicated w :
  ms_wf (meta w) → alone (w_meta w) →
  ∃ l n', svc_list_under_replicated_chunks MAX_REPLICAS (w_meta w) =
      (Ok (under_replicated_info <$> l), n') ∧
    mn_server n' = mn_server (w_meta w) ∧ alone n' ∧ NoDup (mc_id <$> l) ∧
    (length l ≤ size (chunks (meta w)))%nat ∧
    ∀ c, c ∈ l ↔ (confirmed w (mc_id c) c ∧ zlen (mc_storage_nodes c) < MAX_REPLICAS).
Proof.
  intros Hwf Hal. set (here := list_under_replicated_chunks MAX_REPLICAS (meta w)).
  destruct (svc_list_alone _ (alone_lists _ Hal)) as (n' & Hr & Hs & Hp0).
  pose proof (same_place_alone _ _ Hp0 Hal) as Ha. clear Hp0.
  destruct (Permutation_map_inv under_replicated_info (l1 := under_listing (meta w)) here)
    as (l & Hl & Hp); [apply sort_by_key_perm|].
  exists l, n'. rewrite Hr. split; [by rewrite Hl|]. clear Hr Hl. split; [done|]. split; [done|].
  assert (here ≡ₚ List.filter (under_replicated MAX_REPLICAS) (map_to_list (chunks (meta w))).*2) as Hh
    by apply sort_by_key_perm. rewrite Hh in Hp. clear Hh.
  assert (∀ c, c ∈ (map_to_list (chunks (meta w))).*2 ↔ chunks (meta w) !! mc_id c = Some c) as Hin.
  { intros c. rewrite list_elem_of_fmap. split.
    - intros ([id c'] & -> & Hc%elem_of_map_to_list). by destruct (mw_chunk _ Hwf _ _ Hc) as [<- _].
    - intros Hc. exists (mc_id c, c). by rewrite elem_of_map_to_list. }
  assert (∀ c, c ∈ l ↔ (confirmed w (mc_id c) c ∧ zlen (mc_storage_nodes c) < MAX_REPLICAS)) as Hl.
  { intros c. rewrite <- Hp, list_elem_of_In, filter_In, <- list_elem_of_In, Hin.
    unfold under_replicated, confirmed. rewrite andb_true_iff, bool_decide_eq_true, Z.ltb_lt. tauto. }
  split_and!; [| |done].
  - apply NoDup_fmap_2_strong.
    { intros x y [[Hx _] _]%Hl [[Hy _] _]%Hl He. rewrite He in Hx. congruence. }
    rewrite <- Hp. apply NoDup_ListNoDup, List.NoDup_filter, NoDup_ListNoDup.
    apply NoDup_fmap_2_strong; [|apply NoDup_map_to_list].
    intros [i c] [j d] Hi%elem_of_map_to_list Hj%elem_of_map_to_list. simpl. intros <-.
    destruct (mw_chunk _ Hwf _ _ Hi) as [<- _]. by destruct (mw_chunk _ Hwf _ _ Hj) as [<- _].
  - rewrite <- Hp. etrans; [apply List.filter_length_le|].
    by rewrite length_fmap, length_map_to_list.
Qed.

Lemma healthy_server k w n' :
  mn_server n' = mn_server (w_meta w) → alone n' → healthy k w → healthy k (set_meta n' w).
Proof.
  intros Hs Ha [G W C _ A R S N]. unfold confirmed, stored_on in *.
  split; unfold confirmed, stored_on; cbn [w_meta set_meta]; rewrite ?Hs; eauto.
Qed.

Lemma list_nodes_run (s : Repl World) :
  remote mc_list_storage_nodes s = (Ok (inr (list_storage_nodes (meta (rp_world s)))), s).
Proof.
  assert (mc_list_storage_nodes (rp_world s) =
    (Ok (list_storage_nodes (meta (rp_world s))), rp_world s)) as Hm.
  { change (on_meta svc_list_storage_nodes (rp_world s) =
      (Ok (list_storage_nodes (meta (rp_world s))), rp_world s)).
    unfold on_meta, zoom, svc_list_storage_nodes, current_store. run_st. by destruct (rp_world s). }
  rewrite (remote_ok _ _ _ _ Hm). by destruct s.
Qed.

Lemma list_storage_nodes_lists w : lists_nodes (list_storage_nodes (meta w)) w.
Proof.
  intros n. unfold list_storage_nodes. rewrite list_elem_of_fmap. split.
  - intros ([y m] & -> & Hm%elem_of_map_to_list). by exists y.
  - intros [y Hy]. exists (y, n). by rewrite elem_of_map_to_list.
Qed.

(** What a cycle that takes up every listed chunk leaves. *)
Record after_cycle (k : nat) (w w' : World) : Prop := mkAfterCycle {
  cy_healthy : healthy k w';
  cy_known : storage_nodes (meta w') = storage_nodes (meta w);
  cy_dom id : is_Some (chunks (meta w') !! id) ↔ is_Some (chunks (meta w) !! id);
  cy_chunk id c' : chunks (meta w') !! id = Some c' → ∃ c, chunks (meta w) !! id = Some c ∧
    ((c' = c ∧ (mc_status c = Confirmed → MAX_REPLICAS ≤ zlen (mc_storage_nodes c))) ∨
     (mc_status c = Confirmed ∧ one_more (storage_nodes (meta w)) c c'));
}.

(** What the loop over all the listed chunks leaves. *)
Lemma loop_leaves k w w' (l : list MetaChunk) :
  (∀ c, c ∈ l ↔ (confirmed w (mc_id c) c ∧ zlen (mc_storage_nodes c) < MAX_REPLICAS)) →
  ms_wf (meta w) → healthy k w' → storage_nodes (meta w') = storage_nodes (meta w) →
  (∀ c, c ∈ l → ∃ c', chunks (meta w') !! mc_id c = Some c' ∧
    one_more (storage_nodes (meta w)) c c') →
  (∀ id, id ∉ mc_id <$> l → chunks (meta w') !! id = chunks (meta w) !! id) →
  after_cycle k w w'.
Proof.
  intros Hl Hwf Hh Hs Hin Hout. split; [done|done| |].
  - intros id. destruct (decide (id ∈ mc_id <$> l)) as [Hi|Hi]; [|by rewrite Hout].
    apply list_elem_of_fmap in Hi as (c & -> & Hc). destruct (Hin c Hc) as (c' & -> & _).
    apply Hl in Hc as [[-> _] _]. split; by eexists.
  - intros id c' Hc'. destruct (decide (id ∈ mc_id <$> l)) as [Hi|Hi].
    + apply list_elem_of_fmap in Hi as (c & -> & Hc). exists c. destruct (Hin c Hc) as (c1 & Hc1 & Ho).
      apply Hl in Hc as [[Hc Hst] _]. split; [done|]. right. split; [done|]. congruence.
    + rewrite Hout in Hc' by done. exists c'. split; [done|]. left. split; [done|]. intros Hst.
      destruct (mw_chunk _ Hwf _ _ Hc') as [Hid _].
      destruct (Z.le_gt_cases MAX_REPLICAS (zlen (mc_storage_nodes c'))) as [|Hlt]; [done|].
      destruct Hi. apply list_elem_of_fmap. exists c'. split; [done|]. apply Hl. by rewrite Hid.
Qed.

Lemma listing_run k (s : Repl World) :
  healthy k (rp_world s) →
  ∃ l w1, remote (mc_list_under_replicated_chunks MAX_REPLICAS) s =
      (Ok (inr (under_replicated_info <$> l)), set_rp_world w1 s) ∧
    healthy k w1 ∧ mn_server (w_meta w1) = mn_server (w_meta (rp_world s)) ∧
    NoDup (mc_id <$> l) ∧ (length l ≤ size (chunks (meta w1)))%nat ∧
    ∀ c, c ∈ l ↔ (confirmed w1 (mc_id c) c ∧ zlen (mc_storage_nodes c) < MAX_REPLICAS).
Proof.
  intros Hh. set (w := rp_world s) in *.
  destruct (listed_under_replicated w (hl_wf _ _ Hh) (hl_alone _ _ Hh))
    as (l & n' & Hlist & Hsrv & Hal & Hnd & Hlen & Hl).
  assert (mc_list_under_replicated_chunks MAX_REPLICAS w =
    (Ok (under_replicated_info <$> l), set_meta n' w)) as Hm.
  { change (on_meta (svc_list_under_replicated_chunks MAX_REPLICAS) w =
      (Ok (under_replicated_info <$> l), set_meta n' w)). unfold on_meta, zoom. by rewrite Hlist. }
  exists l, (set_meta n' w). split; [by apply remote_ok|]. split; [by apply healthy_server|].
  unfold confirmed. cbn [w_meta set_meta]. by rewrite Hsrv.
Qed.

(** The loop over all the listed chunks, if there are any. *)
Lemma loop_run k l (s : Repl World) :
  healthy (length l + k) (rp_world s) → NoDup (mc_id <$> l) →
  (∀ c, c ∈ l ↔ (confirmed (rp_world s) (mc_id c) c ∧ zlen (mc_storage_nodes c) < MAX_REPLICAS)) →
  ∃ rs s', replicate_chunks (list_storage_nodes (meta (rp_world s))) (under_replicated_info <$> l) s =
      (Ok rs, s') ∧
    after_cycle k (rp_world s) (rp_world s') ∧ (l ≠ [] → list_storage_nodes (meta (rp_world s)) ≠ []).
Proof.
  intros Hh Hnd Hl. pose proof (list_storage_nodes_lists (rp_world s)) as Hlists.
  destruct (replicate_chunks_done k l _ s Hh Hnd (λ c Hc, proj1 (Hl c) Hc) Hlists)
    as (rs & s2 & Hrs & Hh2 & Hs2 & Hin2 & Hout2).
  exists rs, s2. split; [exact Hrs|]. split; [by apply (loop_leaves k _ _ l); [|apply Hh|..]|].
  intros Hne He. destruct l as [|c l]; [done|].
  destruct (proj1 (Hl c) (list_elem_of_here _ _)) as [Hcf _].
  destruct (hl_source _ _ Hh _ _ Hcf) as (x & rest & bytes & Hx & _ & Hon).
  destruct (Hon x) as (m & Hxm & _); [rewrite Hx; by left|].
  assert (m ∈ list_storage_nodes (meta (rp_world s))) as Hin by (apply Hlists; by exists x).
  rewrite He in Hin. by apply not_elem_of_nil in Hin.
Qed.

Lemma cycle_done max k (s : Repl World) :
  healthy (size (chunks (meta (rp_world s))) + k) (rp_world s) →
  (size (chunks (meta (rp_world s))) ≤ max)%nat →
  ∃ rs s', run_replication_cycle max s = (Ok rs, s') ∧ after_cycle k (rp_world s) (rp_world s').
Proof.
  intros Hh Hmax. unfold run_replication_cycle.
  set (s0 := mkRepl (inc_run (rp_metrics s)) (rp_picks s) (rp_world s)).
  assert (count_repl inc_run s = (Ok (), s0)) as Hc0 by done. rewrite (bind_ok _ _ _ _ _ Hc0).
  destruct (listing_run _ s0 Hh) as (l & w1 & Hr & Hh1 & Hsrv & Hnd & Hlen & Hl).
  cbv beta. rewrite (bind_ok _ _ _ _ _ Hr). cbv beta iota.
  assert (∀ w', after_cycle k w1 w' → after_cycle k (rp_world s) w') as Hback.
  { intros w' [A B C D]. rewrite Hsrv in B, C, D. by split. }
  change (rp_world s0) with (rp_world s) in Hsrv. rewrite Hsrv in Hlen.
  set (s1 := mkRepl (set_under_replicated (zlen (under_replicated_info <$> l)) (rp_metrics s0))
    (rp_picks s0) w1).
  assert (count_repl (set_under_replicated (zlen (under_replicated_info <$> l))) (set_rp_world w1 s0) =
    (Ok (), s1)) as Hc1 by done.
  rewrite (bind_ok _ _ _ _ _ Hc1). cbv beta.
  destruct (loop_run k l s1) as (rs & s2 & Hrs & Hafter & Hsome); [|done|done|].
  { apply (healthy_less _ (size (chunks (meta (rp_world s))) + k)); [lia|done]. }
  destruct (decide (under_replicated_info <$> l = [])) as [Hnil|Hnil].
  { apply fmap_nil_inv in Hnil as ->. injection Hrs as <- <-.
    eexists [], _. split; [done|]. by apply Hback. }
  rewrite (bind_ok _ _ _ _ _ (list_nodes_run s1)). cbv beta iota.
  rewrite decide_False by (apply Hsome; by intros ->).
  rewrite length_fmap. replace (length l - max)%nat with O by lia. cbv zeta.
  rewrite decide_True by done. assert ((mret () : RM (W := World) unit) s1 = (Ok (), s1)) as Hm0 by done.
  rewrite (bind_ok _ _ _ _ _ Hm0).
  rewrite take_ge by (rewrite length_fmap; lia). cbv beta.
  rewrite (bind_ok _ _ _ _ _ Hrs). eexists rs, _. split; [done|]. by apply Hback.
Qed.

(** A chunk has three copies, or one on every storage node known. *)
Definition spread (known : gmap Z MetaStorageNode) (c : MetaChunk) : Prop :=
  MAX_REPLICAS ≤ zlen (mc_storage_nodes c) ∨ ∀ y, is_Some (known !! y) → y ∈ mc_storage_nodes c.

Lemma after_cycle_chunk k w w' id c' :
  after_cycle k w w' → confirmed w' id c' →
  ∃ c, confirmed w id c ∧ (spread (storage_nodes (meta w)) c' ∨
    zlen (mc_storage_nodes c') = zlen (mc_storage_nodes c) + 1) ∧
    (spread (storage_nodes (meta w)) c → spread (storage_nodes (meta w)) c').
Proof.
  intros Hw [Hc' Hst]. destruct (cy_chunk _ _ _ Hw id c' Hc') as (c & Hc & Hcase). exists c.
  destruct Hcase as [[-> Hlen]|[Hs [[-> Hall]|(y & _ & ->)]]].
  - split; [done|]. split; [left; left; by apply Hlen|done].
  - split; [done|]. split; [by left; right|done].
  - assert (zlen (mc_storage_nodes (add_storage_node y c)) = zlen (mc_storage_nodes c) + 1) as Hl.
    { cbn. by rewrite zlen_app, zlen_cons, zlen_nil. }
    split; [done|]. split; [by right|]. intros [Hm|Hall]; [left; lia|].
    right. intros z Hz. cbn. apply elem_of_app. left. by apply Hall.
Qed.

(** Three different storage nodes, or all that are registered, have the bytes of the chunk:
    the ones that the metadata lists for it. *)
Definition fully_replicated (w : World) (id : Z) (c : MetaChunk) : Prop :=
  ∃ bytes, crc32 bytes = mc_checksum c ∧ NoDup (mc_storage_nodes c) ∧ stored_on w id c bytes ∧
    spread (storage_nodes (meta w)) c.


(** ** Chunks whose first copy is gone *)

(** The node that a copy would be read from is not known. *)
Definition source_gone (s : MetadataStore) (c : UnderReplicatedChunk) : Prop :=
  match ur_current_storage_node_ids c with [] => True | x :: _ => storage_nodes s !! x = None end.

(** The storage nodes and the metadata are as they were. *)
Definition untouched (w w' : World) : Prop :=
  w_nodes w' = w_nodes w ∧ mn_server (w_meta w') = mn_server (w_meta w) ∧ alone (w_meta w').

Lemma svc_get_storage_node_none x (n : MetaNode Network) :
  storage_nodes (sv_store (mn_server n)) !! x = None →
  svc_get_storage_node x n = (Err NotFoundCode, n).
Proof.
  intros Hx. unfold svc_get_storage_node, locked, on_server, zoom, get_storage_node. run_st.
  rewrite Hx. cbn. by destruct n as [[]].
Qed.

Lemma has_space_same a (s : Repl World) : ∃ b, has_space a s = (Ok b, s).
Proof.
  unfold has_space.
  assert (∃ r, sn_get_free_chunks a (rp_world s) = (r, rp_world s) ∧ r ≠ Panic) as (r & Hr & Hnp).
  { cbn. unfold on_node. destruct (w_nodes (rp_world s) !! a) as [n|] eqn:Ha; [|by eexists].
    cbn. rewrite insert_id by done. destruct (rp_world s). by eexists. }
  pose proof (connect_then_run a _ s r _ Hr Hnp) as Hc.
  assert (set_rp_world (rp_world s) s = s) as Hs by by destruct s. rewrite Hs in Hc.
  destruct (decide _) as [Hu|Hu].
  - destruct r as [x|e|]; [| |done]; rewrite (bind_ok _ _ _ _ _ Hc); by eexists.
  - rewrite (bind_ok _ _ _ _ _ Hc). by eexists.
Qed.

Lemma replicate_chunk_stuck nodes c (s : Repl World) :
  source_gone (meta (rp_world s)) c →
  ∃ r s', replicate_chunk nodes c s = (Ok r, s') ∧ r ≠ Replicated ∧ rp_world s' = rp_world s.
Proof.
  intros Hgone. unfold replicate_chunk.
  destruct (eligible_nodes nodes c) as [|n0 rest] eqn:He; [by eexists Skipped, s|]. rewrite <- He.
  destruct (choose_node_some n0 (eligible_nodes nodes c) s) as (n & picks & Hch & _);
    [rewrite He; by left|].
  rewrite (bind_ok _ _ _ _ _ Hch). cbv beta iota. set (s1 := mkRepl _ _ _).
  destruct (has_space_same (sn_address n) s1) as (b & Hb). rewrite (bind_ok _ _ _ _ _ Hb).
  destruct b; [|by eexists Skipped, s1]. unfold copy_chunk, source_gone in *.
  destruct (ur_current_storage_node_ids c) as [|x ids]; [by eexists Skipped, s1|].
  assert (mc_get_storage_node x (rp_world s1) = (Err NotFoundCode, rp_world s1)) as Hsrc.
  { change (on_meta (svc_get_storage_node x) (rp_world s) = (Err NotFoundCode, rp_world s)).
    unfold on_meta, zoom. rewrite svc_get_storage_node_none by done. by destruct (rp_world s). }
  cbv [mbind ST_bind]. rewrite (remote_run _ _ _ _ Hsrc). by eexists (Failed _), _.
Qed.

Lemma replicate_chunks_stuck nodes l (s : Repl World) :
  Forall (source_gone (meta (rp_world s))) l →
  ∃ rs s', replicate_chunks nodes l s = (Ok rs, s') ∧ (Replicated ∉ rs) ∧ rp_world s' = rp_world s.
Proof.
  revert s. induction l as [|c l IH]; intros s Hl; [by exists [], s; split_and!; [|apply not_elem_of_nil|]|].
  apply list.Forall_cons in Hl as [Hc Hl]. cbn [replicate_chunks].
  destruct (replicate_chunk_stuck nodes c s Hc) as (r & s1 & Hr & Hne & Hw).
  destruct (IH s1) as (rs & s2 & Hrs & Hni & Hw2); [by rewrite Hw|].
  rewrite (bind_ok _ _ _ _ _ Hr), (bind_ok _ _ _ _ _ Hrs). eexists (r :: rs), s2.
  split; [done|]. split; [|by rewrite Hw2]. apply not_elem_of_cons. by split; [intros <-|].
Qed.

Lemma cycle_stuck max (s : Repl World) :
  alone (w_meta (rp_world s)) →
  Forall (source_gone (meta (rp_world s))) (take max (under_listing (meta (rp_world s)))) →
  ∃ rs s', run_replication_cycle max s = (Ok rs, s') ∧ (Replicated ∉ rs) ∧
    untouched (rp_world s) (rp_world s').
Proof.
  intros Hal Hgone. unfold run_replication_cycle.
  destruct (svc_list_alone _ (alone_lists _ Hal)) as (n' & Hlist & Hsrv & Hpl).
  pose proof (same_place_alone _ _ Hpl Hal) as Hal'. clear Hpl.
  set (s0 := mkRepl (inc_run (rp_metrics s)) (rp_picks s) (rp_world s)).
  assert (count_repl inc_run s = (Ok (), s0)) as Hc0 by done. rewrite (bind_ok _ _ _ _ _ Hc0).
  cbv beta. set (l := under_listing (meta (rp_world s))) in *.
  assert (mc_list_under_replicated_chunks MAX_REPLICAS (rp_world s0) =
    (Ok l, set_meta n' (rp_world s))) as Hm.
  { change (on_meta (svc_list_under_replicated_chunks MAX_REPLICAS) (rp_world s) =
      (Ok l, set_meta n' (rp_world s))). unfold on_meta, zoom. by rewrite Hlist. }
  rewrite (bind_ok _ _ _ _ _ (remote_ok _ s0 _ _ Hm)). cbv beta iota.
  set (s1 := mkRepl (set_under_replicated (zlen l) (rp_metrics s0)) (rp_picks s0)
    (set_meta n' (rp_world s))).
  assert (count_repl (set_under_replicated (zlen l)) (set_rp_world (set_meta n' (rp_world s)) s0) =
    (Ok (), s1)) as Hc1 by done. rewrite (bind_ok _ _ _ _ _ Hc1). cbv beta.
  assert (untouched (rp_world s) (set_meta n' (rp_world s))) as Hun by by split_and!.
  destruct (decide (l = [])); [by eexists [], _; split_and!; [|apply not_elem_of_nil|..]|].
  rewrite (bind_ok _ _ _ _ _ (list_nodes_run s1)). cbv beta iota zeta.
  destruct (decide (list_storage_nodes _ = [])); [by eexists [], _; split_and!; [|apply not_elem_of_nil|..]|].
  assert (∃ ms, (if decide ((length l - max)%nat = O) then mret ()
    else count_repl (inc_skipped (Z.of_nat (length l - max))) : RM (W := World) unit) s1 =
    (Ok (), mkRepl ms (rp_picks s1) (rp_world s1))) as (ms & Hskip).
  { destruct (decide _); by eexists. }
  rewrite (bind_ok _ _ _ _ _ Hskip). cbv beta.
  destruct (replicate_chunks_stuck (list_storage_nodes (meta (rp_world s1))) (take max l)
    (mkRepl ms (rp_picks s1) (rp_world s1))) as (rs & s2 & Hrs & Hni & Hw2).
  { cbn. by rewrite Hsrv. }
  rewrite (bind_ok _ _ _ _ _ Hrs). eexists rs, _. split; [done|]. split; [done|].
  cbn. rewrite Hw2. exact Hun.
Qed.

Fixpoint run_cycles (k max : nat) : RM (W := World) (list chunk_result) :=
  match k with
  | O => mret []
  | S k => rs ← run_replication_cycle max; more ← run_cycles k max; mret (rs ++ more)
  end.

(** C38: Replication stops for good behind chunks whose first copy is gone: a copy is only ever
    read from the first node listed for a chunk, so when the chunks that a cycle takes up,
    those with the fewest copies, have a first node that the metadata no longer knows, no
    number of cycles replicates any chunk, neither these, whatever other copies are live,
    nor those listed after them. *)
Theorem gone_sources_starve_replication k max (s : Repl World) :
  alone (w_meta (rp_world s)) →
  Forall (source_gone (meta (rp_world s))) (take max (under_listing (meta (rp_world s)))) →
  ∃ rs s', run_cycles k max s = (Ok rs, s') ∧ (Replicated ∉ rs) ∧
    w_nodes (rp_world s') = w_nodes (rp_world s) ∧ meta (rp_world s') = meta (rp_world s).
Proof.
  revert s. induction k as [|k IH]; intros s Hal Hgone.
  { by exists [], s; split_and!; [|apply not_elem_of_nil|..]. }
  destruct (cycle_stuck max s Hal Hgone) as (rs & s1 & Hr & Hni & Hn1 & Hs1 & Hal1).
  destruct (IH s1 Hal1) as (more & s2 & Hr2 & Hni2 & Hn2 & Hs2); [by rewrite Hs1|].
  exists (rs ++ more), s2. cbn [run_cycles].
  rewrite (bind_ok _ _ _ _ _ Hr), (bind_ok _ _ _ _ _ Hr2). split_and!; [done| |congruence|congruence].
  rewrite elem_of_app. tauto.
Qed.

End progress.

(** ** Witness *)

#[local] Existing Instance toy_deps.
#[local] Existing Instance toy_xxh3.
#[local] Existing Instance crc32_ieee.

(** One chunk, on the first of two storage nodes of four slots. *)
Definition b_bytes : list byte := String.list_byte_of_string "hello".
Definition empty_node : StorageNodeImpl := mkNode (new_store 4 default_options) metrics_new.
Definition b_node : StorageNodeImpl :=
  mkNode (ChunkStore.put_chunk 21 b_bytes (new_store 4 default_options)).2 metrics_new.
Definition b_chunk : MetaChunk := mkMetaChunk 21 "a" (crc32 b_bytes) [1] Confirmed.
Definition two_nodes : World :=
  mkWorld (mkMetaNode (mkClusterServer
      (mkMetadataStore {["a" := mkMetaObject "a" 0 [21] 5]} {[21 := b_chunk]}
        {[1 := up_node; 2 := down_node]} (mkDisk None None []) (mkRng [] [])) {[21 := "a"]})
    (mkClusterManager [(5, "m")] "m" "0.0.0.0:3001" ∅ ∅) true meta_metrics_new ∅)
  {["http://d" := b_node; "http://e" := empty_node]}.
Definition repl2 : Repl World := mkRepl (mkReplMetrics 0 0 ∅ 0 0 0) [] two_nodes.

Lemma two_nodes_up a n :
  w_nodes two_nodes !! a = Some n → (a = "http://d" ∧ n = b_node) ∨ (a = "http://e" ∧ n = empty_node).
Proof.
  unfold two_nodes. cbn [w_nodes].
  intros [[<- <-]|[_ [<- <-]%lookup_singleton_Some]]%lookup_insert_Some; auto.
Qed.

Lemma two_nodes_known x n :
  storage_nodes (meta two_nodes) !! x = Some n → (x = 1 ∧ n = up_node) ∨ (x = 2 ∧ n = down_node).
Proof.
  unfold two_nodes. cbn [w_meta mn_server sv_store storage_nodes].
  intros [[<- <-]|[_ [<- <-]%lookup_singleton_Some]]%lookup_insert_Some; auto.
Qed.

Lemma two_nodes_chunk id c : confirmed two_nodes id c → id = 21 ∧ c = b_chunk.
Proof.
  intros [Hc _]. unfold two_nodes in Hc. cbn [w_meta mn_server sv_store chunks] in Hc.
  by apply lookup_singleton_Some in Hc as [<- <-].
Qed.

Lemma two_nodes_wf : ms_wf (meta two_nodes).
Proof.
  split; cbn.
  - intros k o [<- <-]%lookup_singleton_Some. split; [done|apply NoDup_singleton].
  - intros k o id [<- <-]%lookup_singleton_Some ->%list_elem_of_singleton. by exists b_chunk.
  - intros id c [<- <-]%lookup_singleton_Some. split; [done|].
    split_and!; [apply NoDup_singleton|done|done].
  - by intros id n [[-> ->]|[-> ->]]%two_nodes_known.
Qed.

Lemma two_nodes_healthy : healthy 2 two_nodes.
Proof.
  split.
  - intros a n [[_ ->]|[_ ->]]%two_nodes_up; [|by apply new_store_good].
    apply node_put_good; [by apply new_store_good|done|by vm_compute].
  - exact two_nodes_wf.
  - split; [done|by eexists].
  - done.
  - by intros x y n m [[-> ->]|[-> ->]]%two_nodes_known [[-> ->]|[-> ->]]%two_nodes_known.
  - intros x n [[-> ->]|[-> ->]]%two_nodes_known.
    + exists b_node. split; [done|]. vm_compute. by intros [=].
    + exists empty_node. split; [done|]. vm_compute. by intros [=].
  - intros id c [-> ->]%two_nodes_chunk. exists 1, [], b_bytes. split; [done|].
    split; [done|]. intros y ->%list_elem_of_singleton. exists up_node. split; [done|].
    vm_compute. reflexivity.
  - intros id c y n [-> ->]%two_nodes_chunk [[-> ->]|[-> ->]]%two_nodes_known Hn.
    + destruct Hn. by left.
    + vm_compute. reflexivity.
Qed.


(** The chunk's first node is not known, its second is up and has it; a third is free. *)
Definition orphan_world : World :=
  mkWorld (mkMetaNode (mkClusterServer
      (mkMetadataStore {["a" := mkMetaObject "a" 0 [21] 5]}
        {[21 := mkMetaChunk 21 "a" (crc32 b_bytes) [9; 1] Confirmed]}
        {[1 := up_node; 2 := down_node]} (mkDisk None None []) (mkRng [] [])) {[21 := "a"]})
    (mkClusterManager [(5, "m")] "m" "0.0.0.0:3001" ∅ ∅) true meta_metrics_new ∅)
  {["http://d" := b_node; "http://e" := empty_node]}.
Definition repl3 : Repl World := mkRepl (mkReplMetrics 0 0 ∅ 0 0 0) [] orphan_world.

Lemma gone_sources_starve_replication_witness :
  ∃ rs s', run_cycles 7 100 repl3 = (Ok rs, s') ∧ (Replicated ∉ rs) ∧
    w_nodes (rp_world s') = w_nodes orphan_world ∧ meta (rp_world s') = meta orphan_world.
Proof.
  apply (gone_sources_starve_replication 7 100 repl3); [done|].
  vm_compute. constructor; [done|constructor].
Defined.
