(* ===== verification/ReplicationTheorems.v ===== *)
(** * ReplicationTheorems: what a replication cycle does to the stored chunks

    The theorems about replication-service/src/main.rs, with the metadata node and the
    storage nodes behind it. *)

From S2P Require Import Prelude.
From S2P Require Import Bytes.
From S2P Require Import Crc32.
From S2P Require Import ChunkStore.
From S2P Require Import ChunkStoreFacts.
From S2P Require Import ChunkStoreSpec.
From S2P Require Import Grpc.
From S2P Require Import StorageNode.
From S2P Require Import NodeFacts.
From S2P Require Import HashRing.
From S2P Require Import MetadataStore.
From S2P Require Import ClusterService.
From S2P Require Import Forwarding.
From S2P Require Import MetadataService.
From S2P Require Import Network.
From S2P Require Import PublicFacts.
From S2P Require Import Clients.
From S2P Require Import Gateway.
From S2P Require Import Replication.
From S2P Require Import SystemFacts.
From S2P Require Import ReplicationFacts.
From S2P Require Import Samples.
From S2P Require Import SampleSystem.
From S2P Require Import SystemTheorems.
Open Scope string_scope.
Open Scope list_scope.
Open Scope Z_scope.

Section theorems.
Context `{MetaDeps} `{Xxh3} `{Crc32}.

(** No chunk of [w] is lost or changed in [w'], none is made up, and the nodes stay in normal
    service. *)
Definition keeps_chunks (w w' : World) : Prop :=
  nodes_good w → nodes_good w' ∧
  (∀ a id bytes, node_data w a !! id = Some bytes → node_data w' a !! id = Some bytes) ∧
  ∀ a id bytes, node_data w' a !! id = Some bytes → ∃ b, node_data w b !! id = Some bytes.

#[local] Instance keeps_chunks_refl : Reflexive keeps_chunks.
Proof. intros w Hg. split_and!; [done|done|]. eauto. Qed.
#[local] Instance keeps_chunks_trans : Transitive keeps_chunks.
Proof.
  intros w1 w2 w3 H12 H23 Hg. destruct (H12 Hg) as (Hg2 & Hd2 & Ho2).
  destruct (H23 Hg2) as (Hg3 & Hd3 & Ho3). split_and!; [done|auto|].
  intros a id bytes (b & Hb)%Ho3. by apply (Ho2 b).
Qed.

Lemma same_nodes_keeps w w' : w_nodes w' = w_nodes w → keeps_chunks w w'.
Proof.
  intros He Hg. unfold nodes_good, node_data. rewrite He. split_and!; [done|done|]. eauto.
Qed.

Lemma same_data_keeps w w' : same_data w w' → keeps_chunks w w'.
Proof.
  intros [_ _ Hd Hgood] Hg. split_and!; [auto|intros a id bytes; by rewrite Hd|].
  intros a id bytes. rewrite Hd. eauto.
Qed.

(** A remote call of the metadata service touches no storage node. *)
Lemma remote_meta {A} (m : ST (MetaNode Network) Code A) (s : Repl World) :
  ∃ r w, remote (on_meta m) s = (r, set_rp_world w s) ∧ w_nodes w = w_nodes (rp_world s).
Proof.
  destruct (on_meta m (rp_world s)) as [r w] eqn:Hm.
  eexists _, w. split; [by rewrite (remote_run _ _ _ _ Hm)|].
  revert Hm. unfold on_meta, zoom. destruct (m _). by intros [= _ <-].
Qed.

(** A chunk that some node has, written to another: either the write failed and nothing
    changed, or it is there. *)
Lemma connect_write a source id bytes (s : Repl World) :
  nodes_good (rp_world s) → is_u64 id → zlen bytes ≤ SLOT_DATA_SIZE →
  node_data (rp_world s) source !! id = Some bytes →
  ∃ r s', connect_then a (sn_write_chunk a id bytes) s = (Ok r, s') ∧
    keeps_chunks (rp_world s) (rp_world s') ∧
    match r with
    | inr _ => node_data (rp_world s) a !! id = None ∧
        ∀ x, node_data (rp_world s') x =
          if decide (a = x) then <[id := bytes]> (node_data (rp_world s) x) else node_data (rp_world s) x
    | inl _ => ∀ x, node_data (rp_world s') x = node_data (rp_world s) x
    end.
Proof.
  intros Hg Hid Hb Hsrc.
  destruct (world_write a id bytes (rp_world s) Hg Hid Hb) as (r & w & Hw & _ & Hg' & _ & Hr).
  assert (r ≠ Panic) as Hnp by (by intros ->).
  rewrite (connect_then_run _ _ _ _ _ Hw Hnp).
  destruct (decide _) as [Hu|Hu]; [|by eexists _, s].
  destruct r as [[]|e|]; [| |done].
  - destruct Hr as (_ & Hn & Hd). exists (inr ()), (set_rp_world w s). split; [done|].
    split; [|done]. intros _. split_and!; [done| |]; intros x i b; cbn; rewrite Hd.
    + intros Hb'. case_decide as Hx; [|done]. subst x. rewrite lookup_insert_ne; [done|congruence].
    + case_decide as Hx; [|eauto]. intros [[<- <-]|[_ ?]]%lookup_insert_Some; eauto.
  - eexists (inl _), _. split; [done|]. split; [|done]. intros _.
    split_and!; [done|intros x i b; cbn; by rewrite Hr|]. intros x i b. cbn. rewrite Hr. eauto.
Qed.

(** Taking back the chunk that was just written loses nothing. *)
Lemma connect_delete a id (s : Repl World) :
  nodes_good (rp_world s) →
  ∃ r s', connect_then a (sn_delete_chunk a id) s = (Ok r, s') ∧ nodes_good (rp_world s') ∧
    (∀ x i b, (x = a → i ≠ id) → node_data (rp_world s) x !! i = Some b →
      node_data (rp_world s') x !! i = Some b) ∧
    ∀ x i b, node_data (rp_world s') x !! i = Some b → node_data (rp_world s) x !! i = Some b.
Proof.
  intros Hg.
  destruct (world_delete a id (rp_world s) Hg) as (r & w & Hw & _ & Hg' & _ & Hnp & Hd).
  rewrite (connect_then_run _ _ _ _ _ Hw Hnp).
  destruct (decide _) as [Hu|Hu]; [|by eexists _, s].
  exists (match r with Ok x => inr x | Err e => inl (Some e) | Panic => inl None end).
  exists (set_rp_world w s). split; [by destruct r|]. split; [done|].
  split; intros x i b; cbn; rewrite Hd; case_decide as Hx; try done.
  - intros Hne Hb. rewrite lookup_delete_ne; [done|]. intros <-. by apply Hne.
  - by intros [_ ?]%lookup_delete_Some.
Qed.

(** The copy of one chunk: the bytes of the source, with the right checksum, on a target
    that did not have the chunk. *)
Definition copied (w w' : World) (chunk : UnderReplicatedChunk) (target : MetaStorageNode) : Prop :=
  ∃ source bytes, node_data w source !! ur_chunk_id chunk = Some bytes ∧
    crc32 bytes = ur_checksum chunk ∧
    node_data w (sn_address target) !! ur_chunk_id chunk = None ∧
    node_data w' (sn_address target) !! ur_chunk_id chunk = Some bytes.

(** Ends a branch that copied nothing. *)
Ltac not_copied K := intros [= <- <-]; split; [exact K|by intros [=]].

Lemma copy_chunk_spec chunk target (s : Repl World) r s' :
  nodes_good (rp_world s) → copy_chunk chunk target s = (r, s') →
  keeps_chunks (rp_world s) (rp_world s') ∧
  (r = Ok Replicated → copied (rp_world s) (rp_world s') chunk target).
Proof.
  intros Hg. unfold copy_chunk.
  destruct (ur_current_storage_node_ids chunk) as [|src_id ids];
    [not_copied (keeps_chunks_refl (rp_world s))|].
  cbv [mbind ST_bind].
  destruct (remote_meta (svc_get_storage_node src_id) s) as (r1 & w1 & Hr1 & Hn1).
  change (mc_get_storage_node src_id) with (on_meta (svc_get_storage_node src_id)). rewrite Hr1.
  pose proof (same_nodes_keeps (rp_world s) w1 Hn1) as K1.
  destruct r1 as [[e|source]|[]|]; [not_copied K1| |not_copied K1].
  set (s1 := set_rp_world w1 s).
  assert (nodes_good (rp_world s1)) as Hg1 by by apply K1.
  destruct (world_read source (ur_chunk_id chunk) (rp_world s1) Hg1) as (r2 & w2 & Hr2 & Hsd & Hb).
  assert (r2 ≠ Panic) as Hnp by (by intros ->).
  rewrite (connect_then_run _ _ _ _ _ Hr2 Hnp). clear Hnp.
  assert (keeps_chunks (rp_world s) w2) as K2.
  { trans (rp_world s1); [exact K1|by apply same_data_keeps]. }
  destruct (decide _) as [Hu|Hu]; [|not_copied K1].
  destruct r2 as [bytes|e|]; [|not_copied K2|done].
  case_decide as Hcrc; [|not_copied K2].
  set (s2 := set_rp_world w2 s1).
  assert (nodes_good (rp_world s2)) as Hg2 by by apply K2.
  assert (is_u64 (ur_chunk_id chunk) ∧ zlen bytes ≤ SLOT_DATA_SIZE) as [Hid Hlen].
  { revert Hb. unfold node_data. destruct (w_nodes (rp_world s1) !! source) eqn:Hsrc; [|done].
    apply stored_bounds. by apply (Hg1 source). }
  destruct (connect_write (sn_address target) source (ur_chunk_id chunk) bytes s2 Hg2 Hid Hlen)
    as (r3 & s3 & Hr3 & K3 & Hd3).
  { change (rp_world s2) with w2. by rewrite (sd_data _ _ Hsd). }
  rewrite Hr3. assert (keeps_chunks (rp_world s) (rp_world s3)) as K03 by by trans w2.
  destruct r3 as [[c|]|[]]; [not_copied K03|not_copied K03|].
  destruct Hd3 as [Hfree Hd3].
  destruct (remote_meta (svc_add_chunk_replica (ur_chunk_id chunk) (sn_id target)) s3)
    as (r4 & w4 & Hr4 & Hn4).
  change (mc_add_chunk_replica (ur_chunk_id chunk) (sn_id target)) with
    (on_meta (svc_add_chunk_replica (ur_chunk_id chunk) (sn_id target))). rewrite Hr4.
  pose proof (same_nodes_keeps (rp_world s3) w4 Hn4) as K4.
  assert (∀ a, node_data w2 a = node_data (rp_world s) a) as Hd02.
  { intros a. rewrite (sd_data _ _ Hsd). unfold node_data. cbn. by rewrite Hn1. }
  destruct r4 as [[e|[]]|[]|].
  - set (s4 := set_rp_world w4 s3).
    destruct (connect_delete (sn_address target) (ur_chunk_id chunk) s4) as (r5 & s5 & -> & Hg5 & Hd5 & Ho5).
    { by apply K4, K3. }
    assert (keeps_chunks (rp_world s) (rp_world s5)) as K; [|not_copied K].
    intros _. destruct (K03 Hg) as (Hg3 & Hk3 & Ho3). destruct (K4 Hg3) as (_ & Hk4 & Ho4).
    split_and!; [done| |].
    + intros a i b Hi. apply Hd5; [|by apply Hk4, Hk3].
      intros -> ->. change (rp_world s2) with w2 in Hfree. rewrite Hd02 in Hfree. congruence.
    + intros a i b (c & Hc)%Ho5%Ho4. by apply (Ho3 c).
  - intros [= <- <-]. split; [by trans (rp_world s3)|]. intros _. exists source, bytes.
    split_and!.
    + unfold node_data in *. cbn in Hb. by rewrite Hn1 in Hb.
    + done.
    + change (rp_world s2) with w2 in Hfree. by rewrite Hd02 in Hfree.
    + unfold node_data at 1. cbn. rewrite Hn4. fold (node_data (rp_world s3) (sn_address target)).
      by rewrite Hd3, decide_True, lookup_insert_eq.
  - assert (keeps_chunks (rp_world s) w4) as K by by trans (rp_world s3).
    not_copied K.
Qed.

(** What makes a chunk replicated, from [w] to [w']: one of the storage [nodes] that was not
    listed for the chunk, and did not have it, has bytes with its checksum, which another
    storage node had. *)
Definition on_new_node (nodes : list MetaStorageNode) (w w' : World) (chunk : UnderReplicatedChunk) :
    Prop :=
  ∃ target source bytes, target ∈ nodes ∧ (sn_id target ∉ ur_current_storage_node_ids chunk) ∧
    node_data w source !! ur_chunk_id chunk = Some bytes ∧ crc32 bytes = ur_checksum chunk ∧
    node_data w (sn_address target) !! ur_chunk_id chunk = None ∧
    node_data w' (sn_address target) !! ur_chunk_id chunk = Some bytes.

(** Steps before and after do not change that. *)
Lemma on_new_node_kept nodes w0 w w' w1 chunk :
  nodes_good w0 → keeps_chunks w0 w → nodes_good w' → keeps_chunks w' w1 →
  on_new_node nodes w w' chunk → on_new_node nodes w0 w1 chunk.
Proof.
  intros Hg0 K0 Hg K (target & source & bytes & Ht & Hn & Hs & Hc & Hnone & Hd).
  destruct (K0 Hg0) as (_ & Hkeep & Hold). destruct (Hold _ _ _ Hs) as (source0 & Hs0).
  exists target, source0, bytes. split_and!; [done|done|done|done| |by apply K].
  destruct (node_data w0 (sn_address target) !! ur_chunk_id chunk) as [b|] eqn:Hb; [|done].
  apply Hkeep in Hb. congruence.
Qed.

Lemma replicate_chunk_spec nodes chunk (s : Repl World) r s' :
  nodes_good (rp_world s) → replicate_chunk nodes chunk s = (r, s') →
  keeps_chunks (rp_world s) (rp_world s') ∧
  (r = Ok Replicated → on_new_node nodes (rp_world s) (rp_world s') chunk).
Proof.
  intros Hg. unfold replicate_chunk. cbv [mbind ST_bind].
  destruct (choose_node_spec (eligible_nodes nodes chunk) s) as (t & picks & -> & Ht).
  destruct t as [target|]; [|not_copied (keeps_chunks_refl (rp_world s))].
  specialize (Ht target eq_refl). pose proof (eligible_in _ _ _ Ht) as Hin. apply eligible_spec in Ht.
  set (s1 := mkRepl (rp_metrics s) picks (rp_world s)).
  destruct (has_space_run (sn_address target) s1) as (b & ->).
  destruct b; [|not_copied (keeps_chunks_refl (rp_world s))].
  destruct (copy_chunk chunk target s1) as [r3 s3] eqn:Hc.
  destruct (copy_chunk_spec _ _ s1 _ _ Hg Hc) as [K3 Hrep].
  assert (keeps_chunks (rp_world s) (rp_world s3)) as K by exact K3.
  destruct r3 as [[| |e]|[]|]; [|not_copied K..].
  intros [= <- <-]. split; [exact K|]. intros _.
  destruct (Hrep eq_refl) as (source & bytes & Hsrc & Hcrc & Hnone & Hd). by exists target, source, bytes.
Qed.

Lemma replicate_chunks_spec nodes l (s : Repl World) r s' :
  nodes_good (rp_world s) → replicate_chunks nodes l s = (r, s') →
  keeps_chunks (rp_world s) (rp_world s') ∧
  ∀ rs, r = Ok rs → length rs = length l ∧
    ∀ i chunk, rs !! i = Some Replicated → l !! i = Some chunk →
      on_new_node nodes (rp_world s) (rp_world s') chunk.
Proof.
  revert s r s'. induction l as [|c l IH]; intros s r s' Hg; simpl.
  { intros [= <- <-]. split; [done|]. by intros rs [= <-]. }
  cbv [mbind ST_bind]. destruct (replicate_chunk nodes c s) as [r1 s1] eqn:H1'.
  destruct (replicate_chunk_spec _ _ _ _ _ Hg H1') as [K1 Hrep].
  destruct r1 as [a|[]|]; [|by intros [= <- <-]].
  assert (nodes_good (rp_world s1)) as Hg1 by by apply K1.
  destruct (replicate_chunks nodes l s1) as [r2 s2] eqn:H2'.
  destruct (IH _ _ _ Hg1 H2') as [K2 Hrs].
  assert (keeps_chunks (rp_world s) (rp_world s2)) as K by by trans (rp_world s1).
  destruct r2 as [rs2|[]|]; intros [= <- <-]; (split; [exact K|]); [|done].
  intros rs [= <-]. destruct (Hrs rs2 eq_refl) as [Hlen Hon]. split; [simpl; by rewrite Hlen|].
  intros [|i] chunk; simpl.
  - intros [= ->] [= <-].
    by apply (on_new_node_kept _ _ (rp_world s) (rp_world s1) _ _ Hg (reflexivity _) Hg1 K2), Hrep.
  - intros Hi Hl. apply (on_new_node_kept _ _ (rp_world s1) (rp_world s2) _ _ Hg K1 (proj1 (K2 Hg1))
      (reflexivity _)). by eapply Hon.
Qed.

(** Ends a branch of the cycle that took up no chunk. *)
Ltac nothing_done :=
  intros [= <- <-]; split; [assumption|]; split; [done|]; split; [eauto|]; intros ? [= <-];
  split; [simpl; lia|intros i Hi; by rewrite lookup_nil in Hi].


End theorems.

(** ** Witness *)

#[local] Existing Instance toy_deps.
#[local] Existing Instance toy_xxh3.
#[local] Existing Instance crc32_ieee.
#[local] Existing Instance toy_base64.
#[local] Existing Instance ascii_only.

Definition uploaded_gateway : AppState World := (handle_put_object "a" "A" gateway3).2.
Definition repl1 : Repl World :=
  mkRepl (mkReplMetrics 0 0 ∅ 0 0 0) [] (gw_world uploaded_gateway).

Lemma repl1_good : nodes_good (rp_world repl1).
Proof.
  destruct (upload_placed "a" "A" 1 gateway3 uploaded_gateway (gateway3_ok _)) as (_ & b & _ & _ & Hg & _).
  { unfold uploaded_gateway. apply run_answer. vm_compute. reflexivity. }
  apply (gk_nodes _ _ Hg).
Qed.

