(* ===== verification/Background.v ===== *)
(** * Background: what goes on between the requests of clients

    A replication cycle, a turn of the health check in which every storage node answers in
    time, and the restart of a storage node: each leaves the objects, and the bytes of every
    copy that the metadata lists, as they were. *)

From S2P Require Import Prelude.
From S2P Require Import Bytes.
From S2P Require Import Crc32.
From S2P Require Import ChunkStore.
From S2P Require Import ChunkStoreFacts.
From S2P Require Import ChunkStoreSpec.
From S2P Require Import Grpc.
From S2P Require Import StorageNode.
From S2P Require Import NodeFacts.
From S2P Require Import NodeConfig.
From S2P Require Import HashRing.
From S2P Require Import MetadataStore.
From S2P Require Import MetadataStoreFacts.
From S2P Require Import MetadataStoreTheorems.
From S2P Require Import ChunkIndex.
From S2P Require Import ClusterService.
From S2P Require Import Cluster.
From S2P Require Import Forwarding.
From S2P Require Import MetadataService.
From S2P Require Import Network.
From S2P Require Import ClusterFacts.
From S2P Require Import RoutingFacts.
From S2P Require Import PublicService.
From S2P Require Import PublicFacts.
From S2P Require Import ClusterRun.
From S2P Require Import Startup.
From S2P Require Import Clients.
From S2P Require Import NodeLife.
From S2P Require Import Gateway.
From S2P Require Import Replication.
From S2P Require Import SystemFacts.
From S2P Require Import ReplicationFacts.
From S2P Require Import FailureTheorems.
From S2P Require Import ListTheorems.
From S2P Require Import ReplicationProgress.
From S2P Require Import ObjectStore.
Open Scope string_scope.
Open Scope list_scope.
Open Scope Z_scope.

Section background.
Context `{MetaDeps} `{Xxh3} `{Crc32} `{Base64} `{UnicodeTables}.

(** ** Normal service *)

(** Every storage node is up, and the metadata node serves every object itself. *)
Record normal (w : World) : Prop := mkNormal {
  no_server : server_ok (mn_server (w_meta w));
  no_draws : draws_u64 (meta w);
  no_good : nodes_good w;
  no_serves name : serves_itself (w_meta w) name;
  no_alone : lists_alone (w_meta w);
  no_up x node : storage_nodes (meta w) !! x = Some node → is_Some (w_nodes w !! sn_address node);
}.

(** Nothing that is stored is lost: no object changes, storage nodes stay registered, chunks
    stay on their nodes with the bytes they have there. *)
Record keeps_all (w w' : World) : Prop := mkKeepsAll {
  ka_objects : objects (meta w') = objects (meta w);
  ka_known x node : storage_nodes (meta w) !! x = Some node → storage_nodes (meta w') !! x = Some node;
  ka_chunks id c : chunks (meta w) !! id = Some c →
    ∃ c', chunks (meta w') !! id = Some c' ∧ mc_storage_nodes c ⊆ mc_storage_nodes c';
  ka_copies id bytes : copies w id bytes → copies w' id bytes;
}.

(** A step that does no harm. *)
Definition harmless (w w' : World) : Prop := normal w → normal w' ∧ keeps_all w w'.

#[export] Instance keeps_all_refl : Reflexive keeps_all.
Proof. intros w. split; eauto. Qed.
#[export] Instance keeps_all_trans : Transitive keeps_all.
Proof.
  intros a b c [o1 n1 h1 d1] [o2 n2 h2 d2]. split; [congruence|auto| |auto].
  intros id x Hx. destruct (h1 _ _ Hx) as (x1 & Hx1 & Hs1). destruct (h2 _ _ Hx1) as (x2 & Hx2 & Hs2).
  exists x2. split; [done|]. by trans (mc_storage_nodes x1).
Qed.

#[export] Instance harmless_refl : Reflexive harmless.
Proof. by intros w. Qed.
#[export] Instance harmless_trans : Transitive harmless.
Proof.
  intros a b c Hab Hbc Ha. destruct (Hab Ha) as [Hb K1]. destruct (Hbc Hb) as [Hc K2].
  split; [done|by trans b].
Qed.

Lemma copies_same w w' id bytes :
  chunks (meta w') !! id = chunks (meta w) !! id →
  (∀ x node, storage_nodes (meta w) !! x = Some node → storage_nodes (meta w') !! x = Some node) →
  (∀ a, node_data w a !! id = Some bytes → node_data w' a !! id = Some bytes) →
  copies w id bytes → copies w' id bytes.
Proof.
  intros Hc Hn Hd (c & Hch & Hne & Hall). exists c. rewrite Hc. split_and!; [done|done|].
  intros x Hx. destruct (Hall x Hx) as (node & Hnode & Hb). exists node. auto.
Qed.

Lemma membership_serves (n n' : MetaNode Network) name :
  same_membership n n' → serves_itself n name → serves_itself n' name.
Proof.
  intros (Hf & (Hr & Hi & Ha) & _). unfold serves_itself, get_owner_addr. by rewrite Hf, Hr, Hi, Ha.
Qed.

Lemma membership_alone (n n' : MetaNode Network) :
  same_membership n n' → lists_alone n → lists_alone n'.
Proof.
  intros (Hf & (Hr & Hi & Ha) & _). unfold lists_alone, get_all_peer_addrs. by rewrite Hf, Hi, Ha.
Qed.

(** Calls that change neither the metadata nor the chunks. *)
Lemma harmless_same w w' :
  mn_server (w_meta w') = mn_server (w_meta w) → same_membership (w_meta w) (w_meta w') →
  (∀ a, is_Some (w_nodes w' !! a) ↔ is_Some (w_nodes w !! a)) →
  (nodes_good w → nodes_good w') → (∀ a, node_data w' a = node_data w a) → harmless w w'.
Proof.
  intros Hs Hm Hup Hg Hd [N1 N2 N3 N4 N5 N6]. split.
  - split; rewrite ?Hs; [done|done|by apply Hg|..].
    + intros name. by eapply membership_serves.
    + by eapply membership_alone.
    + intros x node Hx. apply Hup. by eapply N6.
  - split; rewrite ?Hs; [done|done|by eauto|]. intros id bytes.
    apply copies_same; rewrite ?Hs; [done|done|]. intros a. by rewrite Hd.
Qed.

Lemma same_place_membership (n n' : MetaNode Network) : same_place n n' → same_membership n n'.
Proof. intros [Hc Hf]. unfold same_membership, same_routing. by rewrite Hc, Hf. Qed.

Lemma harmless_meta w n' :
  mn_server n' = mn_server (w_meta w) → same_membership (w_meta w) n' → harmless w (set_meta n' w).
Proof. intros Hs Hm. by apply harmless_same. Qed.

Lemma harmless_data w w' : same_data w w' → harmless w w'.
Proof.
  intros [Hm Hup Hd Hg _]. by apply harmless_same; rewrite ?Hm; try apply same_place_membership.
Qed.

Lemma stands_normal m g : stands m g → normal (gw_world g).
Proof.
  intros [Hg Hok Hal Hup _ _].
  split; [done|apply (Hg "")|apply (Hg "")|intros name; apply (Hg name)|done|done].
Qed.

(** What stands for a map goes on to. *)
Lemma stands_harmless m g w' :
  stands m g → harmless (gw_world g) w' → stands m (set_gw_world w' g).
Proof.
  intros Hm Hh. destruct (Hh (stands_normal _ _ Hm)) as [[N1 N2 N3 N4 N5 N6] [Ho Hn Hc Hd]].
  destruct Hm as [Hg _ _ _ Hst Habs].
  split; cbn; [|done|done|done| |by rewrite Ho].
  - intros name. split; cbn; [apply N1|done|done|apply N4|apply (Hg name)].
  - intros name bytes Hm. destruct (Hst _ _ Hm) as (data & Hcat & o & Hobj & Hdata). exists data.
    split; [done|]. exists o. split; [by rewrite <- Hobj, <- Ho|].
    eapply list.Forall2_impl; [exact Hdata|]. intros id b. apply Hd.
Qed.

(** ** Replication *)

Lemma route_chunk_here {A} id (fwd : string → @MN Network A) here n :
  (∀ name, serves_itself n name) → route_chunk id fwd here n = here n.
Proof.
  intros Hs. destruct (sv_index (mn_server n) !! id) as [name|] eqn:Hi.
  - rewrite (route_chunk_known _ _ _ _ _ Hi). by apply route_object_here.
  - by apply route_chunk_unknown.
Qed.

(** A replica is recorded, or nothing is. *)
Lemma add_replica_cases id y w r n' (s := meta w) :
  normal w → svc_add_chunk_replica id y (w_meta w) = (r, n') →
  same_membership (w_meta w) n' ∧
  ((∃ e, r = Err e ∧ mn_server n' = mn_server (w_meta w)) ∨
   (r = Ok () ∧ server_ok (mn_server n') ∧ is_Some (storage_nodes s !! y) ∧
    ∃ c d, chunks s !! id = Some c ∧ sv_store (mn_server n') =
      set_disk d (set_chunks (<[id := add_storage_node y c]> (chunks s)) s))).
Proof.
  intros Hn Hr. destruct (add_chunk_replica_effect _ _ _ _ _ Hr) as [Hm _]. split; [done|].
  assert (server_ok (mn_server n')) as Hok.
  { eapply (served_here_ok (AddChunkReplica id y)); [by eapply add_chunk_replica_effect| |done|apply Hn].
    unfold destination. destruct (mn_forwarding (w_meta w)) eqn:Hf; [|done].
    destruct (routed_by _ _) as [name|]; [|done]. simpl.
    destruct (no_serves _ Hn name) as [?|?]; congruence. }
  revert Hr. unfold svc_add_chunk_replica. rewrite route_chunk_here by apply Hn.
  unfold locked, on_server, zoom, count, add_chunk_replica. run_st. fold s.
  assert (∀ e : Code, mn_server (set_server (set_sv_store s (mn_server (w_meta w))) (w_meta w)) =
    mn_server (w_meta w)) as Hsame by (intros _; by destruct (w_meta w) as [[]]).
  case_decide as Hy; [|intros [= <- <-]; left; eexists; split; [done|]; by destruct (w_meta w) as [[]]].
  destruct (chunks s !! id) as [c|]; cbn;
    [|intros [= <- <-]; left; eexists; split; [done|]; by destruct (w_meta w) as [[]]].
  case_decide; [intros [= <- <-]; left; eexists; split; [done|]; by destruct (w_meta w) as [[]]|].
  destruct (_ <=? _); [intros [= <- <-]; left; eexists; split; [done|]; by destruct (w_meta w) as [[]]|].
  match goal with |- context [save ?x] =>
    assert (store_calm x) as Hx by exact (so_calm _ (no_server _ Hn)); destruct (save_calm x Hx) as (d & -> & _) end.
  intros [= <- <-]. right. split; [done|]. split; [done|]. split; [done|]. by exists c, d.
Qed.

(** One more copy of a chunk, with the bytes of the others. *)
Lemma copied_harmless id y target bytes w w' (a := sn_address target) :
  storage_nodes (meta w) !! y = Some target →
  same_membership (w_meta w) (w_meta w') → server_ok (mn_server (w_meta w')) →
  (∃ c d, chunks (meta w) !! id = Some c ∧ meta w' =
    set_disk d (set_chunks (<[id := add_storage_node y c]> (chunks (meta w))) (meta w))) →
  (∀ x, is_Some (w_nodes w' !! x) ↔ is_Some (w_nodes w !! x)) → nodes_good w' →
  node_data w a !! id = None →
  (∀ x, node_data w' x = if decide (a = x) then <[id := bytes]> (node_data w x) else node_data w x) →
  (∀ b, copies w id b → b = bytes) → harmless w w'.
Proof.
  intros Hy Hm Hok (c & d & Hc & Hs) Hup Hg Hnone Hd Hb [N1 N2 N3 N4 N5 N6]. split.
  - split; [done|by rewrite Hs|done|..].
    + intros name. by eapply membership_serves.
    + by eapply membership_alone.
    + intros x node. rewrite Hs, Hup. apply N6.
  - assert (∀ x i b, node_data w x !! i = Some b → node_data w' x !! i = Some b) as Hgr.
    { intros x i b Hi. rewrite Hd. case_decide as Hx; [|done]. subst x.
      rewrite lookup_insert_ne; [done|]. congruence. }
    split; rewrite ?Hs; cbn; [done|done|..].
    + intros i c0 Hi. destruct (decide (id = i)) as [<-|Hne].
      * rewrite Hc in Hi. injection Hi as <-. exists (add_storage_node y c).
        rewrite lookup_insert_eq. split; [done|]. cbn. set_solver.
      * exists c0. by rewrite lookup_insert_ne.
    + intros i b Hcp. destruct (decide (id = i)) as [<-|Hne].
      * pose proof (Hb b Hcp) as ->. destruct Hcp as (c0 & Hi & Hne & Hall).
        rewrite Hc in Hi. injection Hi as <-. exists (add_storage_node y c). rewrite Hs. cbn.
        rewrite lookup_insert_eq. split; [done|]. split; [by destruct (mc_storage_nodes c)|].
        intros x [Hx| ->%list_elem_of_singleton]%elem_of_app.
        -- destruct (Hall x Hx) as (node & Hnode & Hdata). exists node. auto.
        -- exists target. split; [done|]. rewrite Hd, decide_True by done. apply lookup_insert_eq.
      * apply (copies_same w); [|by rewrite Hs|auto|done]. rewrite Hs. cbn. by apply lookup_insert_ne.
Qed.

Lemma svc_get_storage_node_reads x (n : MetaNode Network) :
  svc_get_storage_node x n =
    (match storage_nodes (sv_store (mn_server n)) !! x with
     | Some node => Ok (sn_address node) | None => Err (not_found_status NotFound) end, n).
Proof.
  unfold svc_get_storage_node, locked, on_server, zoom, get_storage_node. run_st.
  destruct (storage_nodes _ !! x); cbn; by destruct n as [[]].
Qed.

(** A chunk of the listing: what it says of the chunk's nodes is still so. *)
Definition listed (w : World) (chunk : UnderReplicatedChunk) : Prop :=
  ∃ c, chunks (meta w) !! ur_chunk_id chunk = Some c ∧
    ur_current_storage_node_ids chunk ⊆ mc_storage_nodes c.

Definition known (w : World) (node : MetaStorageNode) : Prop :=
  storage_nodes (meta w) !! sn_id node = Some node.

Lemma listed_keeps w w' chunk : keeps_all w w' → listed w chunk → listed w' chunk.
Proof.
  intros K (c & Hc & Hs). destruct (ka_chunks _ _ K _ _ Hc) as (c' & Hc' & Hs').
  exists c'. split; [done|]. by trans (mc_storage_nodes c).
Qed.

(** The bytes read from a node that is listed are those of every copy. *)
Lemma read_is_the_copy w chunk src node bytes b :
  listed w chunk → src ∈ ur_current_storage_node_ids chunk →
  storage_nodes (meta w) !! src = Some node →
  node_data w (sn_address node) !! ur_chunk_id chunk = Some bytes →
  copies w (ur_chunk_id chunk) b → b = bytes.
Proof.
  intros (c & Hc & Hs) Hsrc Hnode Hb (c' & Hc' & _ & Hall). rewrite Hc in Hc'. injection Hc' as <-.
  destruct (Hall src (Hs src Hsrc)) as (node' & Hn' & Hd). congruence.
Qed.

(** The copy is taken back when it cannot be recorded. *)
Lemma taken_back a id bytes w w3 n' (s : Repl World) r s' :
  nodes_good w3 → w_meta w3 = w_meta w → node_data w a !! id = None →
  (∀ x, is_Some (w_nodes w3 !! x) ↔ is_Some (w_nodes w !! x)) →
  (∀ x, node_data w3 x = if decide (a = x) then <[id := bytes]> (node_data w x) else node_data w x) →
  is_Some (w_nodes w !! a) →
  mn_server n' = mn_server (w_meta w) → same_membership (w_meta w) n' →
  rp_world s = set_meta n' w3 → connect_then a (sn_delete_chunk a id) s = (r, s') →
  harmless w (rp_world s').
Proof.
  intros Hg Hm3 Hnone Hup Hd Ha Hs Hmem Hw.
  destruct (world_delete a id (rp_world s)) as (r5 & w5 & Hr5 & Hm5 & Hg5 & [Hup5 _] & Hnp & Hd5).
  { by rewrite Hw. }
  rewrite (connect_then_run _ _ _ _ _ Hr5 Hnp).
  assert (is_Some (w_nodes (rp_world s) !! a)) as Hua by (rewrite Hw; cbn; by apply Hup).
  rewrite !decide_True by done. intros [= _ <-]. cbn.
  apply harmless_same; rewrite ?Hm5, ?Hw; [done|done| |done|].
  - intros x. rewrite Hup5, Hw. apply Hup.
  - intros x. rewrite Hd5, Hw. unfold node_data at 1 2. cbn. fold (node_data w3 x). rewrite Hd.
    case_decide; [|done]. subst x. by apply delete_insert_id.
Qed.

Lemma copy_chunk_harmless chunk target (s : Repl World) r s' :
  normal (rp_world s) → listed (rp_world s) chunk → known (rp_world s) target →
  copy_chunk chunk target s = (r, s') → harmless (rp_world s) (rp_world s').
Proof.
  intros Hn Hl Ht. unfold copy_chunk. set (w := rp_world s) in *. set (id := ur_chunk_id chunk) in *.
  destruct (ur_current_storage_node_ids chunk) as [|src ids] eqn:Hids; [by intros [= _ <-]|].
  assert (src ∈ ur_current_storage_node_ids chunk) as Hsrc by (rewrite Hids; by left).
  cbv [mbind ST_bind].
  change (mc_get_storage_node src) with (on_meta (svc_get_storage_node src)).
  rewrite remote_meta_run, svc_get_storage_node_reads. cbn [fst snd]. fold w.
  replace (set_rp_world (set_meta (w_meta w) w) s) with s by (unfold w; by destruct s as [? ? []]).
  destruct (storage_nodes _ !! src) as [node|] eqn:Hnode; [|by intros [= _ <-]]. cbv beta iota.
  destruct (world_read (sn_address node) id (rp_world s) (no_good _ Hn)) as (r2 & w2 & Hr2 & Hsd & Hb).
  fold w in Hb, Hsd. assert (r2 ≠ Panic) as Hnp by (by intros ->).
  rewrite (connect_then_run _ _ _ _ _ Hr2 Hnp). fold w.
  destruct (decide _) as [Hu|Hu]; [|by intros [= _ <-]].
  pose proof (harmless_data _ _ Hsd) as Hh2.
  destruct r2 as [bytes|e|]; [|by intros [= _ <-]|done].
  case_decide as Hcrc; [|by intros [= _ <-]]. cbv zeta.
  assert (is_u64 id ∧ zlen bytes ≤ SLOT_DATA_SIZE) as [Hid Hlen].
  { revert Hb. unfold node_data. destruct (w_nodes w !! _) eqn:Hn1; [|done].
    apply stored_bounds. by apply (no_good _ Hn _ _ Hn1). }
  set (a := sn_address target). set (s2 := set_rp_world w2 s).
  destruct Hsd as [Hm2 Hup2 Hd2 Hg2 _].
  destruct (world_write a id bytes (rp_world s2) (Hg2 (no_good _ Hn)) Hid Hlen)
    as (r3 & w3 & Hr3 & Hm3 & Hg3 & Hup3 & Hw3).
  assert (r3 ≠ Panic) as Hnp3 by (by intros ->). rewrite (connect_then_run _ _ _ _ _ Hr3 Hnp3).
  cbn [rp_world set_rp_world s2] in Hm3, Hup3, Hw3 |- *.
  destruct (decide _) as [Hu3|Hu3]; [|by intros [= _ <-]].
  destruct r3 as [[]|e|]; [|intros [= _ <-]; trans w2; [done|]|done].
  2: { change (harmless w2 w3). by apply harmless_same; rewrite ?Hm3; try apply same_place_membership. }
  destruct Hw3 as (_ & Hnone & Hd3). rewrite Hd2 in Hnone. set (s3 := set_rp_world w3 s2).
  assert (w_meta w3 = w_meta w) as Hm by congruence.
  assert (∀ x, is_Some (w_nodes w3 !! x) ↔ is_Some (w_nodes w !! x)) as Hup by (intros x; by rewrite Hup3).
  assert (∀ x, node_data w3 x = if decide (a = x) then <[id := bytes]> (node_data w x) else node_data w x) as Hd.
  { intros x. by rewrite Hd3, Hd2. }
  change (mc_add_chunk_replica id (sn_id target)) with (on_meta (svc_add_chunk_replica id (sn_id target))).
  rewrite (remote_meta_run (svc_add_chunk_replica id (sn_id target)) s3).
  change (rp_world s3) with w3. rewrite Hm.
  destruct (svc_add_chunk_replica id (sn_id target) (w_meta w)) as [r4 n4] eqn:Hr4. cbn [fst snd].
  destruct (add_replica_cases _ _ _ _ _ Hn Hr4) as [Hmem [(e & -> & Hs4)|(-> & Hok & _ & Hrec)]].
  - set (s4 := set_rp_world (set_meta n4 w3) s3).
    destruct (connect_then a (sn_delete_chunk a id) s4) as [r5 s5] eqn:Hr5.
    assert (harmless w (rp_world s5)) as Hh.
    { apply (taken_back a id bytes w w3 n4 s4 r5 s5); try done. by apply Hup2. }
    destruct r5 as [?|[]|]; by intros [= _ <-].
  - intros [= _ <-]. apply (copied_harmless id (sn_id target) target bytes w (set_meta n4 w3) Ht Hmem Hok Hrec Hup Hg3 Hnone Hd).
    intros b. by eapply read_is_the_copy.
Qed.

Lemma known_keeps w w' node : keeps_all w w' → known w node → known w' node.
Proof. intros K. apply (ka_known _ _ K). Qed.

(** A harmless step from normal service, with what stays true of a cycle's lists. *)
Lemma lists_harmless w w' l nodes :
  normal w → harmless w w' → Forall (listed w) l → Forall (known w) nodes →
  normal w' ∧ Forall (listed w') l ∧ Forall (known w') nodes.
Proof.
  intros Hn Hh Hl Hk. destruct (Hh Hn) as [Hn' K]. split_and!; [done|..].
  - eapply list.Forall_impl; [exact Hl|]. intros x. by apply listed_keeps.
  - eapply list.Forall_impl; [exact Hk|]. intros x. by apply known_keeps.
Qed.

Lemma replicate_chunk_harmless nodes chunk (s : Repl World) r s' :
  normal (rp_world s) → listed (rp_world s) chunk → Forall (known (rp_world s)) nodes →
  replicate_chunk nodes chunk s = (r, s') → harmless (rp_world s) (rp_world s').
Proof.
  intros Hn Hl Hk. unfold replicate_chunk. cbv [mbind ST_bind].
  destruct (choose_node_spec (eligible_nodes nodes chunk) s) as (t & picks & -> & Ht).
  destruct t as [target|]; [|by intros [= _ <-]].
  assert (known (rp_world s) target) as Htk.
  { specialize (Ht target eq_refl). unfold eligible_nodes in Ht.
    apply list_elem_of_In, filter_In in Ht as [Ht%list_elem_of_In _].
    by eapply list.Forall_forall in Hk. }
  set (s1 := mkRepl (rp_metrics s) picks (rp_world s)).
  destruct (has_space_run (sn_address target) s1) as (b & ->). destruct b; [|by intros [= _ <-]].
  destruct (copy_chunk chunk target s1) as [r3 s3] eqn:Hc.
  pose proof (copy_chunk_harmless chunk target s1 _ _ Hn Hl Htk Hc) as Hh.
  destruct r3 as [[| |e]|[]|]; by intros [= _ <-].
Qed.

Lemma replicate_chunks_harmless nodes l (s : Repl World) r s' :
  normal (rp_world s) → Forall (listed (rp_world s)) l → Forall (known (rp_world s)) nodes →
  replicate_chunks nodes l s = (r, s') → harmless (rp_world s) (rp_world s').
Proof.
  revert s r s'. induction l as [|c l IH]; intros s r s' Hn Hl Hk; simpl; [by intros [= _ <-]|].
  apply list.Forall_cons in Hl as [Hc Hl]. cbv [mbind ST_bind].
  destruct (replicate_chunk nodes c s) as [r1 s1] eqn:Hr1.
  pose proof (replicate_chunk_harmless _ _ _ _ _ Hn Hc Hk Hr1) as Hh1.
  destruct r1 as [a|[]|]; [|by intros [= _ <-]].
  destruct (lists_harmless _ _ _ _ Hn Hh1 Hl Hk) as (Hn1 & Hl1 & Hk1).
  destruct (replicate_chunks nodes l s1) as [r2 s2] eqn:Hr2.
  pose proof (IH _ _ _ Hn1 Hl1 Hk1 Hr2) as Hh2.
  destruct r2 as [rs|[]|]; intros [= _ <-]; by trans (rp_world s1).
Qed.

(** What the metadata node lists is so. *)
Lemma under_listing_listed w :
  ms_wf (meta w) → Forall (listed w) (under_listing (meta w)).
Proof.
  intros Hwf. unfold under_listing. rewrite sort_by_key_perm. apply list.Forall_forall.
  intros u (c & -> & Hc)%list_elem_of_fmap. revert Hc. unfold list_under_replicated_chunks.
  rewrite sort_by_key_perm, list_elem_of_In, filter_In, <- list_elem_of_In.
  intros [([id c'] & -> & Hc%elem_of_map_to_list)%list_elem_of_fmap _]. exists c'.
  cbn. by destruct (mw_chunk _ Hwf _ _ Hc) as [-> _].
Qed.

Lemma list_storage_nodes_known w :
  ms_wf (meta w) → Forall (known w) (list_storage_nodes (meta w)).
Proof.
  intros Hwf. apply list.Forall_forall. intros n [y Hy]%list_storage_nodes_lists.
  unfold known. by rewrite (mw_node _ Hwf _ _ Hy).
Qed.

Lemma run_replication_cycle_harmless max (s : Repl World) r s' :
  normal (rp_world s) → run_replication_cycle max s = (r, s') →
  harmless (rp_world s) (rp_world s').
Proof.
  intros Hn. pose proof (so_wf _ (no_server _ Hn)) as Hwf. fold (meta (rp_world s)) in Hwf.
  unfold run_replication_cycle.
  destruct (svc_list_alone _ (no_alone _ Hn)) as (n' & Hlist & Hsrv & Hpl).
  set (s0 := mkRepl (inc_run (rp_metrics s)) (rp_picks s) (rp_world s)).
  assert (count_repl inc_run s = (Ok (), s0)) as Hc0 by done. rewrite (bind_ok _ _ _ _ _ Hc0).
  cbv beta. set (l := under_listing (meta (rp_world s))) in *. set (w1 := set_meta n' (rp_world s)).
  assert (mc_list_under_replicated_chunks MAX_REPLICAS (rp_world s0) = (Ok l, w1)) as Hm.
  { change (on_meta (svc_list_under_replicated_chunks MAX_REPLICAS) (rp_world s) = (Ok l, w1)).
    unfold on_meta, zoom. by rewrite Hlist. }
  rewrite (bind_ok _ _ _ _ _ (remote_ok _ s0 _ _ Hm)). cbv beta iota.
  set (s1 := mkRepl (set_under_replicated (zlen l) (rp_metrics s0)) (rp_picks s0) w1).
  assert (count_repl (set_under_replicated (zlen l)) (set_rp_world w1 s0) = (Ok (), s1)) as Hc1 by done.
  rewrite (bind_ok _ _ _ _ _ Hc1). cbv beta.
  assert (harmless (rp_world s) w1) as Hh1 by by apply harmless_meta, same_place_membership.
  destruct (decide (l = [])); [by intros [= _ <-]|].
  rewrite (bind_ok _ _ _ _ _ (list_nodes_run s1)). cbv beta iota zeta.
  destruct (decide (list_storage_nodes _ = [])); [by intros [= _ <-]|].
  assert (∃ ms, (if decide ((length l - max)%nat = O) then mret ()
    else count_repl (inc_skipped (Z.of_nat (length l - max))) : RM (W := World) unit) s1 =
    (Ok (), mkRepl ms (rp_picks s1) w1)) as (ms & Hskip).
  { destruct (decide _); by eexists. }
  rewrite (bind_ok _ _ _ _ _ Hskip). cbv beta. set (s2 := mkRepl ms _ _).
  destruct (lists_harmless _ w1 l (list_storage_nodes (meta (rp_world s))) Hn Hh1) as (Hn1 & Hl1 & Hk1);
    [by apply under_listing_listed|by apply list_storage_nodes_known|].
  cbv [mbind ST_bind]. destruct (replicate_chunks _ (take max l) s2) as [r5 s5] eqn:Hr5.
  assert (harmless (rp_world s) (rp_world s5)) as Hh.
  { trans w1; [done|]. apply (replicate_chunks_harmless _ _ s2 _ _ Hn1) with (3 := Hr5).
    - by apply list.Forall_take.
    - cbn. by rewrite Hsrv. }
  destruct r5 as [rs|[]|]; by intros [= _ <-].
Qed.

(** ** The health check *)

(** No registered storage node takes more than the five seconds it has to answer. *)
Definition in_time (latency : string → Z) (w : World) : Prop :=
  ∀ x node, storage_nodes (meta w) !! x = Some node → latency (sn_address node) ≤ 5000.

Lemma health_check_harmless latency w :
  in_time latency w → harmless w (health_check_turn latency w).2.
Proof.
  intros Hlat. destruct (health_check_turn_run latency w) as (w' & -> & [Hn Hcl Hf Ho Hch Hrng Hk Hok]).
  cbn. intros [N1 N2 N3 N4 N5 N6].
  assert (∀ x node, storage_nodes (meta w) !! x = Some node → storage_nodes (meta w') !! x = Some node)
    as Hkn.
  { intros x node Hx. apply Hk. split; [done|]. split; [by eapply N6|by eapply Hlat]. }
  assert (same_place (w_meta w) (w_meta w')) as Hpl by by split.
  split.
  - split; [by apply Hok|by unfold draws_u64; rewrite Hrng|by unfold nodes_good; rewrite Hn|..].
    + intros name. by eapply same_place_serves.
    + by eapply lists_alone_place.
    + intros x node [Hx _]%Hk. rewrite Hn. by eapply N6.
  - split; [done|done| |].
    + intros id c Hc. exists c. by rewrite Hch.
    + intros id bytes. apply copies_same; [by rewrite Hch|done|].
      intros a. unfold node_data. by rewrite Hn.
Qed.

(** ** The restart of a storage node *)

(** The process at [a] can come back: its configuration is that of its file, and its
    registration is answered. *)
Definition restartable (parsed : option StorageNodeConfig) (e : env) (ip a : string) (w : World) : Prop :=
  ∃ config node id m1, load parsed e = Ok config ∧ register_address ip config = a ∧
    w_nodes w !! a = Some node ∧ allocated_slots config = Some (cs_total (store node)) ∧
    svc_put_storage_node a (w_meta w) = (Ok id, m1).

(** It stops, and starts on the file that it left. *)
Definition restarted (parsed : option StorageNodeConfig) (e : env) (ip a : string) (w : World) : World :=
  match w_nodes w !! a with
  | Some node => (node_starts parsed e ip (cs_file (store node)) (node_stops a w)).2
  | None => w
  end.

Lemma register_membership a (n n' : MetaNode Network) r :
  svc_put_storage_node a n = (r, n') → server_ok (mn_server n) →
  same_membership n n' ∧ server_ok (mn_server n').
Proof.
  intros (Hm & Hs & _)%put_storage_node_effect Hok. split; [done|]. rewrite Hs.
  by apply served_ok.
Qed.

Lemma restart_harmless parsed e ip a w :
  restartable parsed e ip a w → harmless w (restarted parsed e ip a w).
Proof.
  intros (config & node & id & m1 & Hl & Ha & Hup & Hslots & Hreg) Hn.
  pose proof Hn as [N1 N2 N3 N4 N5 N6].
  unfold restarted. rewrite Hup.
  destruct (node_starts_run parsed e ip config a (store node) (node_stops a w) id m1)
    as (node' & -> & Habs & Hg'); [done|done|by apply (N3 a)|done|done|]. cbn [snd node_stops w_nodes].
  rewrite insert_delete_eq.
  destruct (register_run _ _ _ _ (so_wf _ N1) N2 Hreg) as (_ & Hdr & Ho & Hc & Hfree & Hs & _).
  destruct (register_membership _ _ _ _ Hreg N1) as [Hm Hok].
  set (w' := mkWorld m1 _).
  assert (∀ x, is_Some (w_nodes w !! x) → is_Some (w_nodes w' !! x)) as Hups.
  { intros x Hx. cbn. destruct (decide (a = x)) as [<-|Hne].
    - rewrite lookup_insert_eq. by eexists.
    - by rewrite lookup_insert_ne. }
  assert (∀ x, node_data w' x = node_data w x) as Hd.
  { intros x. unfold w'. rewrite node_data_insert. case_decide; [|done]. subst x.
    unfold node_data. by rewrite Hup. }
  assert (∀ x n, storage_nodes (meta w) !! x = Some n → storage_nodes (meta w') !! x = Some n) as Hkn.
  { intros x n Hx. cbn. rewrite Hs, lookup_insert_ne; [done|congruence]. }
  split.
  - split; [exact Hok|exact Hdr|by apply nodes_good_insert|..].
    + intros name. by eapply membership_serves.
    + by eapply membership_alone.
    + intros x n. cbn [w_meta w']. rewrite Hs.
      intros [[_ <-]|[_ Hx]]%lookup_insert_Some; apply Hups; [by cbn; rewrite Hup|by eapply N6].
  - split; [done|done| |].
    + intros i c. cbn. rewrite Hc. eauto.
    + intros i bytes. apply copies_same; [by cbn; rewrite Hc|done|]. intros x. by rewrite Hd.
Qed.

End background.
