(* ===== verification/ObjectStoreLife.v ===== *)
(** * ObjectStoreLife: the object store while the system works on itself

    Requests of clients, in any order with cycles of the replication service, turns of the
    health check and restarts of storage nodes: the answers are those of the map from names
    to bytes that the requests alone make. *)

From S2P Require Import Prelude.
From S2P Require Import Bytes.
From S2P Require Import Crc32.
From S2P Require Import ChunkStore.
From S2P Require Import ChunkStoreFacts.
From S2P Require Import ChunkStoreSpec.
From S2P Require Import StorageNode.
From S2P Require Import NodeFacts.
From S2P Require Import NodeTheorems.
From S2P Require Import NodeConfig.
From S2P Require Import HashRing.
From S2P Require Import MetadataStore.
From S2P Require Import MetadataStoreFacts.
From S2P Require Import ChunkIndex.
From S2P Require Import ClusterService.
From S2P Require Import Cluster.
From S2P Require Import MetadataService.
From S2P Require Import Network.
From S2P Require Import ClusterFacts.
From S2P Require Import RoutingFacts.
From S2P Require Import Startup.
From S2P Require Import Clients.
From S2P Require Import NodeLife.
From S2P Require Import Gateway.
From S2P Require Import Multipart.
From S2P Require Import Uploads.
From S2P Require Import Replication.
From S2P Require Import SystemFacts.
From S2P Require Import Samples.
From S2P Require Import SampleSystem.
From S2P Require Import Progress.
From S2P Require Import FailureTheorems.
From S2P Require Import ListTheorems.
From S2P Require Import ObjectStore.
From S2P Require Import Background.
Open Scope string_scope.
Open Scope list_scope.
Open Scope Z_scope.

Section life.
Context `{MetaDeps} `{Xxh3} `{Crc32} `{Base64} `{UnicodeTables}.

(** What happens to the system. *)
Inductive event :=
  | Ask (req : Request)
  | Replicate (max_chunks_per_cycle : nat) (metrics : ReplMetrics) (picks : list nat)
  | CheckHealth (latency : string → Z)
  | RestartNode (parsed : option StorageNodeConfig) (e : env) (ip a : string).

(** Requests one after the other, with the answers that clients get. *)
Definition run_event (ev : event) (g : AppState World) : list (option Answer) * AppState World :=
  match ev with
  | Ask req => let '(a, g) := serve_request req g in ([a], g)
  | Replicate max metrics picks =>
      let s := (run_replication_cycle max (mkRepl metrics picks (gw_world g))).2 in
      ([], set_gw_world (rp_world s) g)
  | CheckHealth latency => ([], set_gw_world (health_check_turn latency (gw_world g)).2 g)
  | RestartNode parsed e ip a => ([], set_gw_world (restarted parsed e ip a (gw_world g)) g)
  end.

Fixpoint run_events (evs : list event) (g : AppState World) : list (option Answer) * AppState World :=
  match evs with
  | [] => ([], g)
  | ev :: evs =>
      let '(answers, g) := run_event ev g in
      let '(more, g) := run_events evs g in (answers ++ more, g)
  end.

Definition asked (ev : event) : list Request := match ev with Ask req => [req] | _ => [] end.

(** An upload has room on every storage node; the health check is answered in time; a
    storage node that restarts has its configuration, and its registration is answered. *)
Definition allowed (m : Objects) (ev : event) (g : AppState World) : Prop :=
  match ev with
  | Ask req => is_put req = true → ready (cost m req) (gw_world g)
  | Replicate _ _ _ => True
  | CheckHealth latency => in_time latency (gw_world g)
  | RestartNode parsed e ip a => restartable parsed e ip a (gw_world g)
  end.

Fixpoint all_allowed (m : Objects) (evs : list event) (g : AppState World) : Prop :=
  match evs with
  | [] => True
  | ev :: evs => allowed m ev g ∧ all_allowed (foldl after m (asked ev)) evs (run_event ev g).2
  end.

Lemma stands_event m ev g :
  stands m g → allowed m ev g →
  ∃ answers g', run_event ev g = (Some <$> answers, g') ∧ meets m (asked ev) answers ∧
    stands (foldl after m (asked ev)) g'.
Proof.
  intros Hst Ha. destruct ev as [req|max metrics picks|latency|parsed e ip a].
  - assert (∃ a g', serve_request req g = (Some a, g') ∧ expected m req a ∧ stands (after m req) g')
      as (a & g' & Hr & He & Hst').
    { destruct (is_put req) eqn:Hp.
      - destruct (implements_step req O m g) as (a & g' & Hr & He & [Hi _] & _);
          [split; [done|by rewrite Nat.add_0_r; apply Ha]|by exists a, g'].
      - destruct (stands_step req m g Hp Hst) as (a & g' & Hr & He & Hi & _). by exists a, g'. }
    exists [a], g'. cbn [run_event asked foldl meets]. by rewrite Hr.
  - eexists [], _. split; [done|]. split; [done|]. cbn [asked foldl].
    apply stands_harmless; [done|].
    pose proof (stands_normal _ _ Hst) as Hn.
    by eapply (run_replication_cycle_harmless max (mkRepl metrics picks (gw_world g)));
      [|apply surjective_pairing].
  - eexists [], _. split; [done|]. split; [done|]. cbn [asked foldl].
    by apply stands_harmless, health_check_harmless.
  - eexists [], _. split; [done|]. split; [done|]. cbn [asked foldl].
    by apply stands_harmless, restart_harmless.
Qed.

Lemma meets_app m reqs1 reqs2 l1 l2 :
  meets m reqs1 l1 → meets (foldl after m reqs1) reqs2 l2 → meets m (reqs1 ++ reqs2) (l1 ++ l2).
Proof.
  revert m l1. induction reqs1 as [|req reqs1 IH]; intros m [|a l1] H1' H2'; try done.
  destruct H1' as [Ha H1']. split; [done|]. by apply IH.
Qed.

(** C2: What the system does to itself is invisible to clients: in any order of requests,
    replication cycles (with any chunks failing on the way), turns of the health check that
    every storage node answers in time and restarts of storage nodes, as long as there is room
    for the bodies that are stored, every request is answered as the map from names to bytes
    answers it, and the system stands for the map after the requests. *)
Theorem background_work_is_invisible evs m g :
  stands m g → all_allowed m evs g →
  ∃ answers g', run_events evs g = (Some <$> answers, g') ∧
    meets m (evs ≫= asked) answers ∧ stands (foldl after m (evs ≫= asked)) g'.
Proof.
  revert m g. induction evs as [|ev evs IH]; intros m g Hst Hall; [by exists [], g|].
  destruct Hall as [Ha Hall].
  destruct (stands_event _ _ _ Hst Ha) as (l1 & g1 & Hr & Hm & Hst1). rewrite Hr in Hall.
  destruct (IH _ _ Hst1 Hall) as (l2 & g2 & Hr2 & Hm2 & Hst2).
  exists (l1 ++ l2), g2. cbn [run_events mbind list_bind]. rewrite Hr, Hr2, fmap_app.
  split; [done|]. split; [by apply meets_app|]. by rewrite foldl_app.
Qed.

End life.

(** ** Witness *)

#[local] Existing Instance toy_deps.
#[local] Existing Instance toy_xxh3.
#[local] Existing Instance crc32_ieee.
#[local] Existing Instance toy_base64.
#[local] Existing Instance ascii_only.

(** Two storage nodes of four slots, one metadata node, and no object. *)
Definition four_slots : StorageNodeImpl := mkNode (new_store 4 default_options) metrics_new.
Definition pair_nodes : Nodes := {["http://d:3000" := four_slots; "http://e:3000" := four_slots]}.
Definition pair_gateway : AppState World :=
  mkAppState gw_metrics_new ∅ (mkWorld (lone_meta {[1 := node_d; 2 := node_e]} []) pair_nodes).

Lemma pair_known x node :
  storage_nodes (meta (gw_world pair_gateway)) !! x = Some node →
  sn_id node = x ∧ w_nodes (gw_world pair_gateway) !! sn_address node = Some four_slots.
Proof.
  change (storage_nodes (meta (gw_world pair_gateway))) with
    ({[1 := node_d; 2 := node_e]} : gmap Z MetaStorageNode).
  by intros [[<- <-]|[_ [<- <-]%lookup_singleton_Some]]%lookup_insert_Some.
Qed.

Lemma pair_up a n : w_nodes (gw_world pair_gateway) !! a = Some n → n = four_slots.
Proof.
  change (w_nodes (gw_world pair_gateway)) with pair_nodes. unfold pair_nodes.
  by intros [[_ <-]|[_ [_ <-]%lookup_singleton_Some]]%lookup_insert_Some.
Qed.

Lemma pair_stands : stands ∅ pair_gateway.
Proof.
  split.
  - intros name. split.
    + split; cbn; intros *; rewrite ?lookup_empty; [done..|]. intros Hx. by apply pair_known.
    + by repeat constructor.
    + intros a n ->%pair_up. by apply new_store_good.
    + right. unfold get_owner_addr, get_owner, owner_at. cbn. by destruct (_ <=? _).
    + intros a c. cbn. by rewrite lookup_empty.
  - split; [|intros k o id; cbn; by rewrite lookup_empty|split; [done|by eexists]].
    split; cbn; intros *; rewrite ?lookup_empty; [done..|]. intros Hx. by apply pair_known.
  - right. vm_compute. reflexivity.
  - intros x node [_ Hx]%pair_known. by rewrite Hx.
  - intros name bytes. by rewrite lookup_empty.
  - intros name _. apply lookup_empty.
Qed.

Lemma pair_ready : ready 1 (gw_world pair_gateway).
Proof.
  split.
  - split; [done|by eexists].
  - exists [21], [22; 23]. split_and!; [done|done|apply NoDup_singleton|].
    intros id _. split; [done|]. intros a. unfold node_data.
    destruct (w_nodes (gw_world pair_gateway) !! a) as [n|] eqn:Hn; [|done].
    by apply pair_up in Hn as ->.
  - intros Hn. apply (f_equal (λ m : gmap Z MetaStorageNode, m !! 1)) in Hn. done.
  - intros x node [_ Hx]%pair_known. exists four_slots. split; [done|]. vm_compute. done.
Qed.

Definition life_config : StorageNodeConfig :=
  mkConfig ["m:3001"] 3000 9092 "chunkstore.dat" (Some 4) (Some 1) true false.

Definition no_metrics : ReplMetrics := mkReplMetrics 0 0 ∅ 0 0 0.

(** An upload, its replication, a health check, the restart of the node with the copy, a
    download, a deletion, another cycle, and the listing. *)
Definition life : list event :=
  [Ask (Put "a" (json "hi")); Replicate 100 no_metrics []; CheckHealth (λ _, 20);
   RestartNode (Some life_config) ∅ "d" "http://d:3000"; Ask (Get "a" (Some "application/json"));
   Ask (Delete "a"); Replicate 100 no_metrics []; Ask (Get "a" None)].

Definition life_copied : AppState World :=
  (run_event (CheckHealth (λ _, 20)) (run_event (Replicate 100 no_metrics [])
    (run_event (Ask (Put "a" (json "hi"))) pair_gateway).2).2).2.

Lemma life_restartable :
  restartable (Some life_config) ∅ "d" "http://d:3000" (gw_world life_copied).
Proof.
  eexists _, _, _, _. split_and!.
  - vm_compute. reflexivity.
  - vm_compute. reflexivity.
  - vm_compute. reflexivity.
  - vm_compute. reflexivity.
  - vm_compute. reflexivity.
Qed.

Lemma background_work_is_invisible_witness :
  ∃ g', run_events life pair_gateway =
      (Some <$> [Stored 2; Content (JsonBytes (b64_encode (String.list_byte_of_string "hi")));
                 Deleted; Failed 404], g') ∧ stands ∅ g'.
Proof.
  destruct (background_work_is_invisible life ∅ pair_gateway) as (answers & g' & Hr & Hm & Hst).
  - exact pair_stands.
  - cbn [life all_allowed allowed]. split; [intros _; exact pair_ready|]. split; [exact I|].
    split; [by intros x node _|]. split; [exact life_restartable|].
    split; [by intros [=]|]. split; [by intros [=]|]. split; [exact I|]. split; [by intros [=]|exact I].
  - exists g'. assert (foldl after ∅ (life ≫= asked) = ∅) as Hf by (vm_compute; reflexivity).
    rewrite Hf in Hst. split; [|exact Hst]. rewrite Hr. clear Hf Hst Hr.
    change (life ≫= asked) with [Put "a" (json "hi"); Get "a" (Some "application/json"); Delete "a"; Get "a" None] in Hm.
    apply meets_cons in Hm as (a1 & l1 & -> & H1 & Hm).
    apply meets_cons in Hm as (a2 & l2 & -> & H2 & Hm).
    apply meets_cons in Hm as (a3 & l3 & -> & H3 & Hm).
    apply meets_cons in Hm as (a4 & l4 & -> & H4 & Hm).
    apply meets_nil in Hm as ->. vm_compute in H1, H2, H3, H4. subst. reflexivity.
Defined.
