(* ===== verification/SiteFacts.v ===== *)
(** * SiteFacts: one request through any metadata node

    What a request of a client does when the gateway that takes it talks to a metadata node
    that need not have the object: it is answered as the map of the objects of the owner
    answers it, except for a form, which only the owner's gateway can finish. *)

From S2P Require Import Prelude.
From S2P Require Import Bytes.
From S2P Require Import Str.
From S2P Require Import Crc32.
From S2P Require Import ChunkStore.
From S2P Require Import ChunkStoreFacts.
From S2P Require Import ChunkStoreSpec.
From S2P Require Import Grpc.
From S2P Require Import StorageNode.
From S2P Require Import HashRing.
From S2P Require Import MetadataStore.
From S2P Require Import MetadataStoreFacts.
From S2P Require Import ChunkIndex.
From S2P Require Import ClusterService.
From S2P Require Import Cluster.
From S2P Require Import Forwarding.
From S2P Require Import MetadataService.
From S2P Require Import Network.
From S2P Require Import ClusterFacts.
From S2P Require Import RoutingFacts.
From S2P Require Import PublicService.
From S2P Require Import PublicFacts.
From S2P Require Import Clients.
From S2P Require Import Gateway.
From S2P Require Import Multipart.
From S2P Require Import SystemFacts.
From S2P Require Import Progress.
From S2P Require Import SystemTheorems.
From S2P Require Import DeleteTheorems.
From S2P Require Import UploadTheorems.
From S2P Require Import FormProgress.
From S2P Require Import Relate.
From S2P Require Import AnyNode.
From S2P Require Import ObjectStore.
Open Scope string_scope.
Open Scope list_scope.
Open Scope Z_scope.

Section site.
Context `{MetaDeps} `{Xxh3} `{Crc32} `{Base64} `{UnicodeTables}.

(** ** What clients can expect of any gateway *)

(** What a PUT stores or is refused with; [here]: the gateway's metadata node owns the name. *)
Definition put_outcome_at (here : bool) (name : string) (body : PutRequest) (m : Objects) : Z + list byte :=
  match put_outcome name body m with
  | inr _ as out => if is_form body && negb here then inl INTERNAL_SERVER_ERROR else out
  | out => out
  end.

Definition expected_at (here : bool) (m : Objects) (req : Request) (a : Answer) : Prop :=
  match req with
  | Put name body =>
      a = match put_outcome_at here name body m with
          | inl status => Failed status
          | inr bytes => Stored (zlen bytes)
          end
  | _ => expected m req a
  end.

Definition after_at (here : bool) (m : Objects) (req : Request) : Objects :=
  match req with
  | Put name body =>
      match put_outcome_at here name body m with inr bytes => <[name := bytes]> m | inl _ => m end
  | _ => after m req
  end.

(** The object that a request is about. *)
Definition request_name (req : Request) : option string :=
  match req with Put name _ | Get name _ | Delete name => Some name | ListAll => None end.

(** ** A gateway next to one in front of the owner *)

(** The run of a request on two gateways: the same answer, and they stay alike. *)
Definition served_alike (name b : string) (nA : MetaNode Network) (req : Request) (g g' : AppState World) : Prop :=
  (serve_request req g).1 = (serve_request req g').1 ∧
  gvia name b nA (serve_request req g).2 (serve_request req g').2.

Lemma answers_alike {A} (f : A → Answer) name b nA (m m' : GW (W := World) A) g g' :
  (m g).1 = (m' g').1 ∧ gvia name b nA (m g).2 (m' g').2 →
  (let '(r, g1) := m g in (answer f r, g1)).1 = (let '(r, g1) := m' g' in (answer f r, g1)).1 ∧
  gvia name b nA (let '(r, g1) := m g in (answer f r, g1)).2 (let '(r, g1) := m' g' in (answer f r, g1)).2.
Proof. destruct (m g) as [r g1], (m' g') as [r' g1']. cbn. by intros [-> Hv]. Qed.

Abbreviation alike name b nA := (related (gvia name b nA) eq eq).

Lemma bind_alike {A B} name b nA (m : GW (W := World) A) (k : A → GW (W := World) B) g g' :
  answer_alike name b nA m g g' → (∀ a, alike name b nA (k a) (k a)) → answer_alike name b nA (m ≫= k) g g'.
Proof.
  intros [Hr Hv] Hk. unfold answer_alike. rewrite <- outcome_rel_eq.
  apply (related_bind_at eq); [by apply outcome_rel_eq|done|]. intros a ? <-. apply Hk.
Qed.

Lemma get_dispatch_alike name b nA accept g g' :
  gvia name b nA g g' → registered (gw_world g') name →
  answer_alike name b nA (handle_get_dispatch name accept) g g'.
Proof.
  intros Hv Hr. unfold handle_get_dispatch. destruct (contains _ _); apply bind_alike.
  - by apply get_object_alike.
  - intros a. by apply related_ret.
  - by apply get_stream_alike.
  - intros [chunks cut]. by apply related_ret.
Qed.

Lemma put_dispatch_alike name b nA body g g' :
  gvia name b nA g g' → offers (gw_world g) → offers (gw_world g') →
  is_form body = false ∨ serves_itself nA name →
  answer_alike name b nA (handle_put_dispatch name body) g g'.
Proof.
  intros Hv Ho Ho' Hs. unfold handle_put_dispatch. change (starts_with _ _) with (is_form body).
  destruct (is_form body).
  - destruct (pr_form body) as [form|]; [|by apply alike_answers; [apply related_throw|]].
    destruct Hs as [Hs|Hs]; [done|]. destruct (validate_object_name name) as [e|] eqn:Hn.
    { unfold handle_put_object_multipart. rewrite Hn. by apply alike_answers; [apply refuse_related|]. }
    unfold answer_alike. rewrite (form_start _ _ g' Hn Ho'). apply form_alike; [done..|].
    intros checksum size. by apply set_checksum_here.
  - destruct (pr_json body); [by apply put_alike|]. by apply alike_answers; [apply related_throw|].
Qed.

(** ** On the owner's own gateway *)

Lemma stands_registered m g name : stands m g → registered (gw_world g) name.
Proof.
  intros Hst. pose proof (so_wf _ (st_server _ _ Hst)) as Hwf. split; [done|]. intros o Ho.
  destruct (m !! name) as [bytes|] eqn:Hm.
  - destruct (st_stored _ _ Hst _ _ Hm) as (data & _ & Hk).
    destruct (kept_available _ _ _ Hwf Hk) as (o' & Ho' & Hreg & _). congruence.
  - apply (st_absent _ _ Hst) in Hm. congruence.
Qed.

(** The chunks that the metadata answers with are those that the object lists. *)
Lemma answered_chunks name g resp h :
  gw_ok name g → registered (gw_world g) name → call (mc_get_object name) g = (Ok (inr resp), h) →
  ∃ o, objects (meta (gw_world g)) !! name = Some o ∧ ci_id <$> go_chunks resp = mo_chunks o.
Proof.
  intros Hg [Hwf Hreg] Hr. destruct (get_call name g Hg) as (r & h1 & Hr1 & _ & Hget).
  rewrite Hr in Hr1. injection Hr1 as <- <-.
  destruct (objects (meta (gw_world g)) !! name) as [o|] eqn:Ho; [|by destruct Hget].
  specialize (Hget (Hreg _ eq_refl)). injection Hget as ->. exists o. split; [done|].
  apply info_ids; [done|]. by eapply listed_chunks.
Qed.

Lemma served_alike_here name b nA req m g g' :
  gvia name b nA g g' → serves_itself nA name → request_name req = Some name →
  stands m g' → offers (gw_world g) → offers (gw_world g') → served_alike name b nA req g g'.
Proof.
  intros Hv Hs Hn Hst Ho Ho'. pose proof (stands_registered _ _ name Hst) as Hreg.
  unfold served_alike. destruct req as [n body|n accept|n|]; [..|done]; injection Hn as ->;
    cbn [serve_request]; apply answers_alike.
  - apply put_dispatch_alike; auto.
  - by apply get_dispatch_alike.
  - apply delete_here_alike; [done..|apply (st_gateway _ _ Hst)|]. intros resp h i k Hr Hi.
    destruct (answered_chunks _ _ _ _ (st_gateway _ _ Hst name) Hreg Hr) as (o & Ho1 & Hids).
    rewrite Hids in Hi. rewrite (so_index _ (st_server _ _ Hst) _ _ _ Ho1 Hi). by intros [= <-].
Qed.

(** ** On another gateway *)

Lemma stands_kept m g g' :
  stands m g → read_only g g' →
  stands m g' ∧ (∀ k, ready k (gw_world g) → ready k (gw_world g')) ∧ moves (gw_world g) (gw_world g').
Proof.
  intros Hst Hro. split_and!; [by eapply stands_read_only| |by apply moves_only_read].
  intros k. apply ready_read_only; [apply Hst|done].
Qed.

(** The deletion that the owner sees. *)
Lemma delete_through_run name m g :
  stands m g →
  ∃ r g', delete_through name g = (r, g') ∧
    answer (λ _, Deleted) r =
      Some (match lookup_outcome name m with inl status => Failed status | inr _ => Deleted end) ∧
    stands (after m (Delete name)) g' ∧
    (∀ k, ready k (gw_world g) → ready k (gw_world g')) ∧ moves (gw_world g) (gw_world g').
Proof.
  intros Hst. pose proof (st_gateway _ _ Hst name) as Hg. pose proof (gk_wf _ _ Hg) as Hwf.
  cbn [after]. unfold lookup_outcome, delete_through.
  destruct (validate_object_name name) as [e|] eqn:Hv.
  { eexists _, _. split; [done|]. split; [done|]. apply (stands_kept m g); [done|by apply read_only_same]. }
  destruct (get_call name g Hg) as (r & g1 & Hr & Hro & Hget).
  rewrite (bind_ok _ _ _ _ _ Hr). destruct (m !! name) as [bytes|] eqn:Hm.
  - destruct (st_stored _ _ Hst _ _ Hm) as (data & _ & Hk).
    destruct (kept_available _ _ _ Hwf Hk) as (o & Ho & Hreg & _). rewrite Ho in Hget.
    rewrite (Hget Hreg). cbn [go_chunks].
    destruct (delete_whole_run name (oi_chunks (object_info (meta (gw_world g)) o)) o g1) as (g' & Hd & Hdl).
    { by eapply gw_ok_read_only. }
    { rewrite (ro_server _ _ Hro). apply Hst. }
    { by rewrite (ro_server _ _ Hro). }
    { apply info_ids; [done|]. by eapply listed_chunks. }
    apply (deleted_read_only _ _ _ g) in Hdl; [|done]. exists (Ok ()), g'. split; [exact Hd|]. split; [done|].
    split; [by eapply stands_deleted|]. split; [intros k; by eapply ready_deleted|].
    by eapply moves_deleted.
  - rewrite (st_absent _ _ Hst _ Hm) in Hget. destruct Hget as [e ->]. eexists _, _. split; [done|].
    split; [done|]. apply (stands_kept m g); [done|]. trans g1; [done|by apply read_only_same].
Qed.

(** A form is refused where the object is not. *)
Lemma form_away name b nA form body k m g g' :
  gvia name b nA g g' → away nA name b → objects (sv_store (mn_server nA)) !! name = None →
  offers (gw_world g) → is_form body = true → pr_form body = Some form →
  implements (cost m (Put name body) + k) m g' →
  ∃ h h', handle_put_object_multipart name form g =
      (match put_outcome_at false name body m with inl e => Err e | inr bytes => Ok (zlen bytes) end, h) ∧
    gvia name b nA h h' ∧ implements k (after_at false m (Put name body)) h' ∧
    moves (gw_world g') (gw_world h').
Proof.
  intros Hv Haw Hno Ho His Hform Him. unfold after_at, put_outcome_at, put_outcome.
  rewrite His, Hform. destruct (validate_object_name name) as [e|] eqn:Hn.
  - unfold handle_put_object_multipart. rewrite Hn.
    destruct (alike_answers name b nA _ _ _ (refuse_related (A := Z) name b nA "PUT" "object_multipart" "400" BAD_REQUEST) Hv) as [Hr Hv'].
    eexists _, _. split; [done|]. split; [exact Hv'|].
    cbn [cost] in Him. unfold taken in Him. rewrite Hn in Him.
    destruct (stands_kept m g' (refuse (A := Z) (W := World) "PUT" "object_multipart" "400" BAD_REQUEST g').2
      (proj1 Him)) as (Hs & Hrd & Hmv); [by apply read_only_same|].
    split; [split; [done|apply Hrd, Him]|done].
  - destruct (implements_form_cut no_checksum (Some INTERNAL_SERVER_ERROR) name form body k m g')
      as (h' & Hr' & Him' & Hmv); [|done..|].
    { intros checksum size w0 data j g0. apply (no_checksum_run name checksum). }
    destruct (form_alike name b nA no_checksum form g g') as [Hr Hv']; [done..| |].
    { intros checksum size. by apply set_checksum_away. }
    rewrite Hr' in Hr, Hv'. cbn [fst snd] in Hr, Hv'.
    destruct (handle_put_object_multipart name form g) as [r h]. cbn [fst snd] in Hr, Hv'.
    exists h, h'. rewrite Hr. unfold form_outcome_if in *.
    destruct (form_outcome name form m); by split_and!.
Qed.

(** What the node [nA] of the gateway has to do with [name], which the node with the server [c]
    owns: it is that node, or it passes requests on and has nothing of the object. *)
Definition stance (here : bool) (name b : string) (nA : MetaNode Network) (c : ClusterServer) : Prop :=
  if here then serves_itself nA name
  else away nA name b ∧ objects (sv_store (mn_server nA)) !! name = None ∧
    ∀ id, mine c id → ¬ mine (mn_server nA) id.

(** A request that is served alike on both gateways. *)
Lemma alike_step here name b nA req k m g g' :
  served_alike name b nA req g g' → implements (cost m req + k) m g' →
  (∀ a, expected m req a → expected_at here m req a) → after_at here m req = after m req →
  ∃ a h h', serve_request req g = (Some a, h) ∧ expected_at here m req a ∧ gvia name b nA h h' ∧
    implements k (after_at here m req) h' ∧ moves (gw_world g') (gw_world h').
Proof.
  intros [Ha Hv] Him Hexp ->. destruct (implements_step _ _ _ _ Him) as (a & h' & Hr & He & Him' & Hmv).
  rewrite Hr in Ha, Hv. destruct (serve_request req g) as [a1 h]. cbn [fst snd] in Ha, Hv. subst a1.
  exists a, h, h'. split_and!; [done|by apply Hexp|done..].
Qed.

(** ** On any gateway *)

Lemma request_at here name b nA req k m g g' :
  gvia name b nA g g' → stance here name b nA (mn_server (w_meta (gw_world g'))) →
  request_name req = Some name → offers (gw_world g) → implements (cost m req + k) m g' →
  ∃ a h h', serve_request req g = (Some a, h) ∧ expected_at here m req a ∧ gvia name b nA h h' ∧
    implements k (after_at here m req) h' ∧ moves (gw_world g') (gw_world h').
Proof.
  intros Hv Hst Hn Ho Him. pose proof (proj1 Him) as Hs. pose proof (ready_offers _ _ (proj2 Him)) as Ho'.
  pose proof (stands_registered _ _ name Hs) as Hreg. destruct here.
  { apply alike_step; [by eapply served_alike_here|done| |].
    - destruct req as [n body| | |]; try done. cbn [expected expected_at]. unfold put_outcome_at.
      intros a ->. rewrite andb_false_r. by destruct (put_outcome n body m).
    - destruct req as [n body| | |]; try done. cbn [after after_at]. unfold put_outcome_at.
      rewrite andb_false_r. by destruct (put_outcome n body m). }
  destruct Hst as (Haw & Hno & Hap). destruct req as [n body|n accept|n|]; [..|done]; injection Hn as ->.
  - destruct (is_form body) eqn:His; [destruct (pr_form body) as [form|] eqn:Hform|].
    + destruct (form_away _ _ _ _ _ _ _ _ _ Hv Haw Hno Ho His Hform Him) as (h & h' & Hr & Hv' & Him' & Hmv).
      cbn [serve_request expected_at]. unfold handle_put_dispatch. change (starts_with _ _) with (is_form body).
      rewrite His, Hform, Hr. destruct (put_outcome_at false name body m);
        eexists _, h, h'; split_and!; done.
    + apply alike_step; [|done|..].
      * cbn [serve_request]. apply answers_alike. unfold handle_put_dispatch.
        change (starts_with _ _) with (is_form body). rewrite His, Hform. by split.
      * cbn [expected expected_at]. unfold put_outcome_at, put_outcome. rewrite His, Hform.
        by destruct (validate_object_name name).
      * cbn [after after_at]. unfold put_outcome_at, put_outcome. rewrite His, Hform.
        by destruct (validate_object_name name).
    + apply alike_step; [|done|..].
      * cbn [serve_request]. apply answers_alike, put_dispatch_alike; auto.
      * cbn [expected expected_at]. unfold put_outcome_at. rewrite His. by destruct (put_outcome name body m).
      * cbn [after after_at]. unfold put_outcome_at. rewrite His. by destruct (put_outcome name body m).
  - apply alike_step; [|done..]. cbn [serve_request]. by apply answers_alike, get_dispatch_alike.
  - destruct (delete_through_run name m g' Hs) as (r & h' & Hr' & Ha' & Hs' & Hrd & Hmv).
    destruct (delete_away_alike name b nA g g' Hv Haw Hreg) as [Hr Hv'].
    { intros resp h i Hr Hi. apply Hap.
      destruct (answered_chunks _ _ _ _ (st_gateway _ _ Hs name) Hreg Hr) as (o & Ho1 & Hids).
      rewrite Hids in Hi. left. right. by eapply listed_chunks; [apply Hs|..]. }
    rewrite Hr' in Hr, Hv'. cbn [serve_request expected_at expected after_at].
    destruct (handle_delete_object name g) as [r0 h]. cbn [fst snd] in Hr, Hv'. subst r0. rewrite Ha'.
    eexists _, h, h'. split_and!; [done|done|done| |done]. split; [done|]. apply Hrd, Him.
Qed.

End site.
