(* ===== verification/Site.v ===== *)
(** * Site: several gateways in front of a cluster of metadata nodes

    The whole deployment: gateways that each talk to one of the metadata nodes, which pass
    requests on to the owner of the object, and the storage nodes that they all share. It is
    one map from names to bytes for clients of any gateway. *)

From S2P Require Import Prelude.
From S2P Require Import Bytes.
From S2P Require Import Str.
From S2P Require Import Crc32.
From S2P Require Import ChunkStore.
From S2P Require Import ChunkStoreFacts.
From S2P Require Import ChunkStoreSpec.
From S2P Require Import Grpc.
From S2P Require Import StorageNode.
From S2P Require Import HashRing.
From S2P Require Import MetadataStore.
From S2P Require Import MetadataStoreFacts.
From S2P Require Import ChunkIndex.
From S2P Require Import ClusterService.
From S2P Require Import Cluster.
From S2P Require Import Forwarding.
From S2P Require Import MetadataService.
From S2P Require Import Network.
From S2P Require Import ClusterFacts.
From S2P Require Import RoutingFacts.
From S2P Require Import PublicService.
From S2P Require Import PublicFacts.
From S2P Require Import ClusterRun.
From S2P Require Import Sharding.
From S2P Require Import Clients.
From S2P Require Import Gateway.
From S2P Require Import Multipart.
From S2P Require Import SystemFacts.
From S2P Require Import Progress.
From S2P Require Import UploadTheorems.
From S2P Require Import ListTheorems.
From S2P Require Import AnyNode.
From S2P Require Import ObjectStore.
From S2P Require Import SiteFacts.
Open Scope string_scope.
Open Scope list_scope.
Open Scope Z_scope.

(** ** The deployment *)

(** A gateway: the endpoint of its metadata node (METADATA_NODES in main.rs), its metrics
    and its cached connections. *)
Record GatewayAt := mkGatewayAt {
  ga_entry : string;
  ga_metrics : GwMetrics;
  ga_connections : gmap string string;
}.

Record Site := mkSite {
  si_gateways : gmap nat GatewayAt;
  si_meta : Cluster;
  si_nodes : gmap string StorageNodeImpl;
}.

(** The gateway with what it can reach: [n], its metadata node, in front of the others. *)
Definition view (st : Site) (ga : GatewayAt) (n : MetaNode unit) : AppState World :=
  mkAppState (ga_metrics ga) (ga_connections ga)
    (mkWorld (plug (others (ga_entry ga) (dom (si_meta st)) (si_meta st)) n) (si_nodes st)).

(** The deployment after the gateway [i] has served a request. *)
Definition put_back (st : Site) (i : nat) (e : string) (g : AppState World) : Site :=
  mkSite (<[i := mkGatewayAt e (gw_metrics g) (gw_connections g)]> (si_gateways st))
    (<[e := unplug (w_meta (gw_world g))]> (write_back (mn_world (w_meta (gw_world g))) (si_meta st)))
    (w_nodes (gw_world g)).

Section site.
Context `{MetaDeps} `{Xxh3} `{Crc32} `{Base64} `{UnicodeTables}.

(** A request of a client of the gateway [i]. *)
Definition serve_at (i : nat) (req : Request) (st : Site) : option (option Answer * Site) :=
  match si_gateways st !! i with
  | None => None
  | Some ga =>
      match si_meta st !! ga_entry ga with
      | None => None
      | Some n =>
          let '(a, g) := serve_request req (view st ga n) in Some (a, put_back st i (ga_entry ga) g)
      end
  end.

Fixpoint serve_all (reqs : list (nat * Request)) (st : Site) : option (list (option Answer) * Site) :=
  match reqs with
  | [] => Some ([], st)
  | (i, req) :: reqs =>
      match serve_at i req st with
      | None => None
      | Some (a, st) =>
          match serve_all reqs st with Some (l, st) => Some (a :: l, st) | None => None end
      end
  end.

(** ** One node's part of it *)

(** A metadata node with the server [c] that owns every object, and a gateway in front. *)
Definition solo (c : ClusterServer) : MetaNode Network :=
  mkMetaNode c (mkClusterManager [] "" "" ∅ ∅) false meta_metrics_new ∅.
Definition alone (metrics : GwMetrics) (conns : gmap string string) (c : ClusterServer)
    (nodes : gmap string StorageNodeImpl) : AppState World :=
  mkAppState metrics conns (mkWorld (solo c) nodes).

(** The objects that the node [id] owns. *)
Definition shard (R : HashRing) (id : string) (m : Objects) : Objects :=
  filter (λ kv, get_owner R kv.1 = Some id) m.

Lemma lookup_shard R id m name :
  shard R id m !! name = if decide (get_owner R name = Some id) then m !! name else None.
Proof.
  unfold shard. rewrite map_lookup_filter. destruct (m !! name) as [b|]; [|by case_decide].
  cbn. unfold guard. by destruct (decide _).
Qed.

Lemma shard_insert R id m name bytes :
  shard R id (<[name := bytes]> m) =
  if decide (get_owner R name = Some id) then <[name := bytes]> (shard R id m) else shard R id m.
Proof.
  apply map_eq. intros k. rewrite lookup_shard, lookup_insert.
  destruct (decide (get_owner R name = Some id)) as [Hn|Hn]; rewrite ?lookup_insert, lookup_shard;
    repeat case_decide; congruence.
Qed.

Lemma shard_delete R id m name : shard R id (delete name m) = delete name (shard R id m).
Proof.
  apply map_eq. intros k. rewrite lookup_delete, !lookup_shard, lookup_delete. by repeat case_decide.
Qed.

(** What a request does depends on the one name. *)
Lemma put_outcome_lookup name body m m' :
  m !! name = m' !! name → put_outcome name body m = put_outcome name body m'.
Proof. intros Hm. unfold put_outcome, form_outcome, json_outcome. by rewrite Hm. Qed.

Lemma cost_lookup req name m m' :
  request_name req = Some name → m !! name = m' !! name → cost m req = cost m' req.
Proof.
  destruct req as [n body|n accept|n|]; intros [= ->] Hm; [|done..].
  cbn [cost]. unfold taken. by rewrite Hm, (put_outcome_lookup _ _ m m').
Qed.

Lemma expected_lookup here req name m m' a :
  request_name req = Some name → m !! name = m' !! name → expected_at here m req a → expected_at here m' req a.
Proof.
  destruct req as [n body|n accept|n|]; intros [= ->] Hm; cbn [expected_at expected];
    unfold put_outcome_at, lookup_outcome; [by rewrite (put_outcome_lookup _ _ m m')|by rewrite Hm..].
Qed.

Lemma shard_after here R id m req name :
  request_name req = Some name →
  shard R id (after_at here m req) =
  if decide (get_owner R name = Some id) then after_at here (shard R id m) req else shard R id m.
Proof.
  intros Hn. assert (get_owner R name = Some id → shard R id m !! name = m !! name) as Hl.
  { intros Ho. by rewrite lookup_shard, decide_True. }
  destruct req as [n body|n accept|n|]; [..|done]; injection Hn as ->; cbn [after_at after];
    unfold put_outcome_at, lookup_outcome.
  - case_decide as Ho.
    + rewrite (put_outcome_lookup _ _ (shard R id m) m) by auto.
      destruct (put_outcome name body m); [done|]. destruct (_ && _); [done|].
      by rewrite shard_insert, decide_True.
    + destruct (put_outcome name body m); [done|]. destruct (_ && _); [done|].
      by rewrite shard_insert, decide_False.
  - by case_decide.
  - case_decide as Ho.
    + rewrite (Hl Ho). destruct (validate_object_name name); [done|]. destruct (m !! name); [|done].
      apply shard_delete.
    + destruct (validate_object_name name); [done|]. destruct (m !! name) eqn:Hm; [|done].
      rewrite shard_delete. apply delete_id. by rewrite lookup_shard, decide_False.
Qed.

(** ** The deployment that implements the map *)

(** Every metadata node has the ring [R] and knows the others, which are there; the gateway [i] talks to the
    node [home i]; every storage node is registered on all of them, and no chunk id is of two
    of them; each node's part of the system implements its part of the map, with room for [k]
    more chunks. *)
Record site_ok (R : HashRing) (home : nat → string) (k : nat) (m : Objects) (st : Site) : Prop := mkSiteOk {
  sk_sharded : sharded R (si_meta st);
  sk_owners name : ∃ e n, Sharding.owns R (si_meta st) name e n;
  sk_peers e n id addr : si_meta st !! e = Some n → cm_peer_addrs (mn_cluster n) !! id = Some addr →
    id ≠ cm_node_id (mn_cluster n) → is_Some (si_meta st !! endpoint_of addr);
  sk_home i ga : si_gateways st !! i = Some ga →
    ∃ n, si_meta st !! ga_entry ga = Some n ∧ cm_node_id (mn_cluster n) = home i;
  sk_conns i ga a c : si_gateways st !! i = Some ga → ga_connections ga !! a = Some c → c = a;
  sk_part e n metrics conns : si_meta st !! e = Some n → (∀ a c, conns !! a = Some c → c = a) →
    implements k (shard R (cm_node_id (mn_cluster n)) m) (alone metrics conns (mn_server n) (si_nodes st));
  sk_registered e n e2 n2 x node : si_meta st !! e = Some n → si_meta st !! e2 = Some n2 →
    storage_nodes (sv_store (mn_server n)) !! x = Some node →
    ∃ x2 node2, storage_nodes (sv_store (mn_server n2)) !! x2 = Some node2 ∧
      sn_address node2 = sn_address node;
  sk_apart e n e2 n2 id : si_meta st !! e = Some n → si_meta st !! e2 = Some n2 → e ≠ e2 →
    mine (mn_server n) id → ¬ mine (mn_server n2) id;
}.

(** ** Where a request meets the owner *)

(** The node at [e] next to the owner [eo]: it is the owner, or passes requests on to it. *)
Lemma stance_at R home k m st e n name eo no :
  site_ok R home k m st → si_meta st !! e = Some n → Sharding.owns R (si_meta st) name eo no →
  stance (bool_decide (e = eo)) name eo (plug (others e (dom (si_meta st)) (si_meta st)) n) (mn_server no).
Proof.
  intros Hst Hn [Hno Ho]. pose proof (sk_sharded _ _ _ _ _ Hst) as Hsh.
  destruct (sh_node _ _ Hsh _ _ Hn) as (Hf & HR & Hc). unfold stance. case_bool_decide as He.
  - subst eo. rewrite Hn in Hno. injection Hno as <-. right. unfold get_owner_addr. cbn.
    by rewrite HR, Ho, decide_True.
  - assert (cm_node_id (mn_cluster no) ≠ cm_node_id (mn_cluster n)) as Hid.
    { intros Hid. apply He. by eapply (sh_ids _ _ Hsh). }
    destruct (sh_known _ _ Hsh _ _ _ _ Hn Ho Hid) as [addr Ha]. split; [|split].
    + split; [done| |done]. exists addr. split.
      * unfold get_owner_addr. cbn. by rewrite HR, Ho, decide_False.
      * symmetry. by apply (sh_addr _ _ Hsh e n _ addr eo no Hn Ha Hid Hno).
    + destruct (objects _ !! name) eqn:Hob; [|done]. cbn in Hob. exfalso.
      pose proof (sh_owns _ _ Hsh e n name Hn (mk_is_Some _ _ Hob)). congruence.
    + intros id Hi. cbn. by eapply (sk_apart _ _ _ _ _ Hst eo no e n).
Qed.

Lemma gvia_at R home k m st e n name eo no metrics conns :
  site_ok R home k m st → si_meta st !! e = Some n → Sharding.owns R (si_meta st) name eo no →
  gvia name eo (plug (others e (dom (si_meta st)) (si_meta st)) n)
    (view st (mkGatewayAt e metrics conns) n) (alone metrics conns (mn_server no) (si_nodes st)).
Proof.
  intros Hst Hn Ho. pose proof (stance_at _ _ _ _ _ _ _ _ _ _ Hst Hn Ho) as Hs. destruct Ho as [Hno Ho].
  split; [done|done|]. split; [done|by split|by left|]. unfold stance in Hs. case_bool_decide as He.
  - right. subst eo. rewrite Hn in Hno. injection Hno as <-. by split.
  - left. destruct Hs as (Haw & _). split; [done|done|]. cbn. symmetry. apply insert_id.
    rewrite lookup_others, Hno, decide_True; [done|]. split; [|done]. apply elem_of_dom. by eexists.
Qed.

(** ** What a request leaves *)

Lemma replaced_at name e eo n no st g' h' (C := si_meta st) (w' := w_meta (gw_world g')) :
  C !! e = Some n → C !! eo = Some no →
  stance (bool_decide (e = eo)) name eo (plug (others e (dom C) C) n) (mn_server no) →
  gvia name eo (plug (others e (dom C) C) n) g' h' →
  let C' := <[e := unplug w']> (write_back (mn_world w') C) in
  replaced C C' eo (mn_server (w_meta (gw_world h'))) ∧
  ∀ x n', C' !! x = Some n' → ∃ n0, C !! x = Some n0 ∧ same_member n0 n'.
Proof.
  intros Hn Hno Hs [_ _ Hv] C'. split.
  - unfold stance in Hs. case_bool_decide as He.
    + subst eo. destruct (via_here _ _ _ _ _ Hs Hv) as [_ Hsv Hw]. rewrite <- Hsv.
      by eapply replaced_here, Hw.
    + destruct Hs as [Haw _]. destruct (via_passes _ _ _ _ _ Haw Hv) as [_ Hsv Hw].
      by apply (replaced_there _ e _ n eo no _ _ Hn Hno He Hsv Hw).
  - intros x n' [[<- <-]|[Hx Hx']]%lookup_insert_Some.
    + exists n. split; [done|]. exact (via_member _ _ _ _ _ Hv).
    + rewrite lookup_write_back in Hx'. destruct (C !! x) as [n0|]; [|done]. injection Hx' as <-.
      exists n0. split; [done|]. by destruct (mn_world w' !! x).
Qed.

Lemma implements_alone k m g metrics conns :
  implements k m g → (∀ a c, conns !! a = Some c → c = a) →
  implements k m (alone metrics conns (mn_server (w_meta (gw_world g))) (w_nodes (gw_world g))).
Proof.
  intros [[Hg Hok _ Hup Hst Habs] Hrd] Hc. split.
  - split; [|exact Hok|by left|exact Hup|exact Hst|exact Habs]. intros name. destruct (Hg name) as [Hwf Hd Hgood _ _].
    split; [exact Hwf|exact Hd|exact Hgood|by left|exact Hc].
  - destruct Hrd as [H1' H2' H3' H4']. split; [exact H1'|exact H2'|exact H3'|exact H4'].
Qed.

(** The part of another node, when the chunks it knows stay and the storage nodes have room. *)
Lemma implements_elsewhere j k m metrics conns c nodes nodes'
    (w := mkWorld (solo c) nodes) (w' := mkWorld (solo c) nodes') :
  implements (j + k) m (alone metrics conns c nodes) → nodes_good w' →
  (∀ a id, mine c id → node_data w' a !! id = node_data w a !! id) →
  (∀ x node, storage_nodes (sv_store c) !! x = Some node → room w' k (sn_address node)) →
  implements k m (alone metrics conns c nodes').
Proof.
  intros [[Hg Hok _ Hup Hst Habs] Hrd] Hgood Hdata Hroom. split.
  - split; [|exact Hok|by left| | |exact Habs].
    + intros name. destruct (Hg name) as [Hwf Hd _ Hs Hc]. by split.
    + intros x node Hx. eapply room_up. by apply (Hroom x).
    + intros name bytes Hm. destruct (Hst _ _ Hm) as (data & Hcat & Hk). exists data. split; [done|].
      apply (kept_same w); [exact Hk|done| |done]. intros o id Ho Hi. split; [done|]. intros a b.
      change (node_data (mkWorld (solo c) nodes') a !! id = Some b) with (node_data w' a !! id = Some b).
      rewrite Hdata; [done|]. left. right. by eapply listed_chunks; [apply Hok|..].
  - apply (ready_weaken (j + k) k) in Hrd as [Hcalm (ids & rest & Hids & Hl & Hnd & Hfree) Hsome _]; [|lia].
    split; [exact Hcalm| |exact Hsome|exact Hroom]. exists ids, rest. split_and!; [done..|].
    intros id Hi. destruct (Hfree id Hi) as [Hch Hno]. split; [done|]. intros a. etrans; [apply Hdata|apply Hno].
    left. left. cbn in Hids. rewrite Hids. apply elem_of_app. by left.
Qed.

(** ** One request *)

(** Whether the metadata node of the gateway [i] owns the object of the request. *)
Definition at_home (R : HashRing) (home : nat → string) (i : nat) (req : Request) : bool :=
  match request_name req with
  | Some name => bool_decide (get_owner R name = Some (home i))
  | None => true
  end.

Lemma at_home_entry R home k m st i ga name eo no :
  site_ok R home k m st → si_gateways st !! i = Some ga → Sharding.owns R (si_meta st) name eo no →
  bool_decide (get_owner R name = Some (home i)) = bool_decide (ga_entry ga = eo).
Proof.
  intros Hst Hga [Hno Ho]. destruct (sk_home _ _ _ _ _ Hst _ _ Hga) as (n & Hn & <-).
  apply bool_decide_ext. rewrite Ho. split.
  - intros [= Hid]. by eapply (sh_ids _ _ (sk_sharded _ _ _ _ _ Hst)).
  - intros <-. congruence.
Qed.

(** What is left to show of the deployment after a request: the nodes are those that were
    there, with the same storage nodes and no new ids, and have their parts of the map. *)
Lemma site_ok_after R home j k m m' st i ga g' (C' := si_meta (put_back st i (ga_entry ga) g')) :
  site_ok R home j m st → si_gateways st !! i = Some ga →
  (∀ x n', C' !! x = Some n' → ∃ n0, si_meta st !! x = Some n0 ∧ same_member n0 n' ∧
    storage_nodes (sv_store (mn_server n')) = storage_nodes (sv_store (mn_server n0)) ∧
    ∀ id, mine (mn_server n') id → mine (mn_server n0) id) →
  (∀ x n0, si_meta st !! x = Some n0 → ∃ n', C' !! x = Some n') →
  (∀ a c, gw_connections g' !! a = Some c → c = a) →
  (∀ x n' metrics conns, C' !! x = Some n' → (∀ a c, conns !! a = Some c → c = a) →
    implements k (shard R (cm_node_id (mn_cluster n')) m') (alone metrics conns (mn_server n') (w_nodes (gw_world g')))) →
  site_ok R home k m' (put_back st i (ga_entry ga) g').
Proof.
  intros Hst Hga Hback Hfw Hcs Hpart. pose proof (sk_sharded _ _ _ _ _ Hst) as Hsh.
  assert (∀ x n0, si_meta st !! x = Some n0 → ∃ n', C' !! x = Some n' ∧
    cm_node_id (mn_cluster n') = cm_node_id (mn_cluster n0)) as Hforth.
  { intros x n0 Hx. destruct (Hfw x n0 Hx) as [n' Hx']. exists n'. split; [done|].
    destruct (Hback x n' Hx') as (n1 & Hn1 & (_ & (_ & -> & _) & _) & _). congruence. }
  split.
  - apply (same_member_sharded R (si_meta st)); [done| |].
    + intros x n' (n0 & Hn0 & Hm0 & _)%Hback. eauto.
    + intros x n' key Hx Hk. destruct (Hpart x n' (mkGwMetrics ∅ ∅ 0 0 0 0 0) ∅ Hx) as [Hs _].
      { intros a c. by rewrite lookup_empty. }
      apply (stands_object _ _ key Hs) in Hk as [b Hk]. rewrite lookup_shard in Hk. by case_decide.
  - intros name. destruct (sk_owners _ _ _ _ _ Hst name) as (e2 & n2 & Hn2 & Ho2).
    destruct (Hforth _ _ Hn2) as (n2' & Hn2' & Hid). exists e2, n2'. split; [done|]. by rewrite Hid.
  - intros x n' id addr (n0 & Hn0 & (_ & (_ & -> & ->) & _) & _)%Hback Ha Hid.
    destruct (sk_peers _ _ _ _ _ Hst _ _ _ _ Hn0 Ha Hid) as [p Hp]. destruct (Hforth _ _ Hp) as (p' & Hp' & _). eauto.
  - intros l ga2 Hl. cbn in Hl. assert (∃ ga1, si_gateways st !! l = Some ga1 ∧ ga_entry ga2 = ga_entry ga1)
      as (ga1 & Hga1 & ->).
    { apply lookup_insert_Some in Hl as [[<- <-]|[_ Hl]]; eauto. }
    destruct (sk_home _ _ _ _ _ Hst _ _ Hga1) as (n1 & Hn1 & <-).
    destruct (Hforth _ _ Hn1) as (n1' & Hn1' & Hid). by exists n1'.
  - intros l ga2 a cl Hl Ha. cbn in Hl.
    apply lookup_insert_Some in Hl as [[<- <-]|[_ Hl]]; [by apply Hcs|by eapply (sk_conns _ _ _ _ _ Hst)].
  - exact Hpart.
  - intros e1 n1 e2 n2 x node (m1 & Hm1 & _ & -> & _)%Hback (m2 & Hm2 & _ & -> & _)%Hback.
    by apply (sk_registered _ _ _ _ _ Hst e1 m1 e2 m2).
  - intros e1 n1 e2 n2 id (m1 & Hm1 & _ & _ & Hs1)%Hback (m2 & Hm2 & _ & _ & Hs2)%Hback Hne Hi1 Hi2.
    apply (sk_apart _ _ _ _ _ Hst e1 m1 e2 m2 id); auto.
Qed.

(** The deployment after a request on [name], whose owner went from [no] to the server of [h']. *)
Lemma site_after R home c k m req name st i ga n eo no g' h' (here := at_home R home i req)
    (h := alone (ga_metrics ga) (ga_connections ga) (mn_server no) (si_nodes st)) :
  site_ok R home (c + k) m st → si_gateways st !! i = Some ga → si_meta st !! ga_entry ga = Some n →
  request_name req = Some name → Sharding.owns R (si_meta st) name eo no →
  gvia name eo (plug (others (ga_entry ga) (dom (si_meta st)) (si_meta st)) n) g' h' →
  implements k (after_at here (shard R (cm_node_id (mn_cluster no)) m) req) h' →
  moves (gw_world h) (gw_world h') →
  site_ok R home k (after_at here m req) (put_back st i (ga_entry ga) g').
Proof.
  intros Hst Hga Hn Hreq [Hno Hon] Hv Him Hmv. pose proof (sk_sharded _ _ _ _ _ Hst) as Hsh.
  destruct (replaced_at name (ga_entry ga) eo n no st g' h' Hn Hno) as [[Hfw Hbw] Hmem]; [|done|].
  { by eapply stance_at. }
  rewrite <- (decide_True (P := get_owner R name = Some (cm_node_id (mn_cluster no))) _
    (shard R (cm_node_id (mn_cluster no)) m) Hon), <- (shard_after _ _ _ _ _ _ Hreq) in Him.
  pose proof (st_gateway _ _ (proj1 Him) "") as Hgh.
  assert (w_nodes (gw_world g') = w_nodes (gw_world h')) as Hnodes by (apply Hv).
  apply (site_ok_after R home (c + k) k m); [done..| |exact Hfw| |].
  - intros x n' Hx. destruct (Hmem x n' Hx) as (n0 & Hn0 & Hm0), (Hbw x n' Hx) as (n1 & Hn1 & ->).
    rewrite Hn0 in Hn1. injection Hn1 as <-. exists n0. split; [done|]. split; [done|].
    case_decide as Hxe; [|done]. subst x. rewrite Hno in Hn0. injection Hn0 as <-.
    split; [apply (mv_nodes _ _ Hmv)|apply (mv_mine _ _ Hmv)].
  - rewrite (gv_connections _ _ _ _ _ Hv). by apply Hgh.
  - intros x n' metrics conns Hx Hc. rewrite Hnodes.
    destruct (Hmem x n' Hx) as (n0 & Hn0 & _ & (_ & -> & _) & _), (Hbw x n' Hx) as (n1 & Hn1 & ->).
    rewrite Hn0 in Hn1. injection Hn1 as <-. case_decide as Hxe.
    { subst x. rewrite Hno in Hn0. injection Hn0 as <-. by apply implements_alone. }
    rewrite (shard_after _ _ _ _ _ _ Hreq), decide_False
      by (intros Hid; apply Hxe, (sh_ids _ _ Hsh x eo n0 no Hn0 Hno); congruence).
    apply (implements_elsewhere c k _ _ _ _ (si_nodes st)); [by eapply sk_part|apply Hgh| |].
    + intros a id Hi. apply (mv_data _ _ Hmv). by eapply (sk_apart _ _ _ _ _ Hst x n0 eo no).
    + intros y node Hy. destruct (sk_registered _ _ _ _ _ Hst x n0 eo no y node Hn0 Hno Hy) as (x2 & node2 & Hx2 & <-).
      apply (rd_room _ _ (proj2 Him) x2). by rewrite (mv_nodes _ _ Hmv).
Qed.

Lemma site_step R home k m st i req name (here := at_home R home i req) :
  site_ok R home (cost m req + k) m st → is_Some (si_gateways st !! i) → request_name req = Some name →
  ∃ a st', serve_at i req st = Some (Some a, st') ∧ expected_at here m req a ∧
    site_ok R home k (after_at here m req) st' ∧
    ∀ j, is_Some (si_gateways st !! j) → is_Some (si_gateways st' !! j).
Proof.
  intros Hst [ga Hga] Hreq. destruct (sk_home _ _ _ _ _ Hst _ _ Hga) as (n & Hn & _).
  destruct (sk_owners _ _ _ _ _ Hst name) as (eo & no & Hown). pose proof (proj1 Hown) as Hno.
  pose proof (sk_conns _ _ _ _ _ Hst i ga) as Hconns.
  assert (shard R (cm_node_id (mn_cluster no)) m !! name = m !! name) as Hl.
  { by rewrite lookup_shard, decide_True by apply Hown. }
  pose proof (gvia_at _ _ _ _ _ _ _ _ _ _ (ga_metrics ga) (ga_connections ga) Hst Hn Hown) as Hv.
  pose proof (stance_at _ _ _ _ _ _ _ _ _ _ Hst Hn Hown) as Hs.
  assert (here = bool_decide (ga_entry ga = eo)) as Hh.
  { unfold here, at_home. rewrite Hreq. by eapply at_home_entry. }
  rewrite <- Hh in Hs.
  assert (offers (gw_world (view st (mkGatewayAt (ga_entry ga) (ga_metrics ga) (ga_connections ga)) n))) as Hof.
  { apply (ready_offers (cost m req + k)).
    destruct (sk_part _ _ _ _ _ Hst _ n (ga_metrics ga) (ga_connections ga) Hn) as [_ [R1 R2 R3 R4]];
      [intros a cl; by apply Hconns|]. split; [exact R1|exact R2|exact R3|exact R4]. }
  destruct (request_at here name eo _ req k (shard R (cm_node_id (mn_cluster no)) m) _ _ Hv Hs Hreq Hof)
    as (a & g' & h' & Hr & He & Hv' & Him & Hmv).
  { rewrite (cost_lookup _ _ _ m Hreq Hl). eapply sk_part; [done..|]. intros a cl. by apply Hconns. }
  exists a, (put_back st i (ga_entry ga) g'). unfold serve_at. rewrite Hga, Hn.
  replace ga with (mkGatewayAt (ga_entry ga) (ga_metrics ga) (ga_connections ga)) at 1 by by destruct ga.
  rewrite Hr. split; [done|]. split; [by eapply expected_lookup|]. split.
  - by eapply site_after.
  - intros j Hj. cbn. apply lookup_insert_is_Some. destruct (decide (i = j)); [by left|by right].
Qed.

End site.
