(* ===== verification/SiteTheorems.v ===== *)
(** * SiteTheorems: the deployment is one map

    The listing, which a metadata node gathers from all others, and that any requests to any
    gateways are answered as one map from names to bytes answers them. *)

From S2P Require Import Prelude.
From S2P Require Import Bytes.
From S2P Require Import Str.
From S2P Require Import Crc32.
From S2P Require Import ChunkStore.
From S2P Require Import ChunkStoreFacts.
From S2P Require Import ChunkStoreSpec.
From S2P Require Import Grpc.
From S2P Require Import StorageNode.
From S2P Require Import HashRing.
From S2P Require Import MetadataStore.
From S2P Require Import MetadataStoreFacts.
From S2P Require Import ChunkIndex.
From S2P Require Import ClusterService.
From S2P Require Import Cluster.
From S2P Require Import Forwarding.
From S2P Require Import MetadataService.
From S2P Require Import Network.
From S2P Require Import ClusterFacts.
From S2P Require Import RoutingFacts.
From S2P Require Import PublicService.
From S2P Require Import PublicFacts.
From S2P Require Import ClusterRun.
From S2P Require Import Sharding.
From S2P Require Import Clients.
From S2P Require Import Gateway.
From S2P Require Import Multipart.
From S2P Require Import SystemFacts.
From S2P Require Import Progress.
From S2P Require Import UploadTheorems.
From S2P Require Import ListTheorems.
From S2P Require Import AnyNode.
From S2P Require Import ObjectStore.
From S2P Require Import SiteFacts.
From S2P Require Import Samples.
From S2P Require Import SampleSystem.
From S2P Require Import Site.
Open Scope string_scope.
Open Scope list_scope.
Open Scope Z_scope.

Section theorems.
Context `{MetaDeps} `{Xxh3} `{Crc32} `{Base64} `{UnicodeTables}.

(** ** The listing of a cluster *)

(** Gathering answers that only read, from peers that can all be reached. *)
Lemma gather_reachable {A} (project : PeerResponse → option (list A)) req (f : ClusterServer → list A)
    addrs c (w : Network) :
  (∀ s, ∃ resp, serve req s = (Ok resp, s) ∧ project resp = Some (f s)) →
  clients_right c → Forall (reachable w) addrs →
  ∃ c', gather project req addrs (c, w) =
    (Ok (addrs ≫= λ a, default [] (f <$> w !! endpoint_of a)), (c', w)).
Proof.
  intros Hreq. revert c. induction addrs as [|a addrs IH]; intros c Hc Hall; [by exists c|].
  apply list.Forall_cons in Hall as [[s Hs] Hall]. simpl. run_st.
  destruct (get_peer_client a (c, w)) as [r1 [c1 w1]] eqn:Hg.
  apply get_peer_client_changes in Hg as (-> & Hc1 & Hl).
  destruct r1 as [client|e|]; [|destruct Hl; congruence..].
  apply (leads_to_right _ _ _ Hc) in Hl as ->. unfold expect, rpc. run_st. cbn. rewrite Hs.
  destruct (Hreq s) as (resp & Hse & Hp). rewrite Hse. cbn. rewrite Hp. cbn.
  rewrite insert_id by done. destruct (IH c1 (Hc1 Hc) Hall) as (c2 & ->). by exists c2.
Qed.

Lemma svc_list_at (n : MetaNode Network) (addrs := get_all_peer_addrs (mn_cluster n)) :
  mn_forwarding n = true → clients_right (mn_cluster n) → Forall (reachable (mn_world n)) addrs →
  ∃ n', svc_list_objects n = (Ok (local_objects (sv_store (mn_server n)) ++
      (addrs ≫= λ a, default [] ((λ c, local_objects (sv_store c)) <$> mn_world n !! endpoint_of a))), n') ∧
    mn_server n' = mn_server n ∧ mn_world n' = mn_world n ∧ same_membership n n'.
Proof.
  intros Hf Hc Hall. unfold svc_list_objects, scatter_gather_list_objects, gather_all, on_net, zoom,
    current_store. run_st. rewrite Hf.
  edestruct (gather_reachable resp_objects ListLocalObjects (λ c, local_objects (sv_store c)) addrs)
    as (c' & Hg); [by intros s; eexists|exact Hc|exact Hall|].
  pose proof (gather_served _ _ _ _ _ _ _ _ Hg) as (Hc' & _ & Hr).
  unfold addrs in Hg |- *. cbn in Hg |- *. rewrite Hg. eexists. split; [done|]. by split_and!.
Qed.

(** The parts of the map that the nodes own make up the map. *)
Lemma shards_partition R m ids :
  NoDup ids → (∀ name b, m !! name = Some b → ∃ id, id ∈ ids ∧ get_owner R name = Some id) →
  (ids ≫= λ id, map_to_list (shard R id m)) ≡ₚ map_to_list m.
Proof.
  intros Hnd Hall.
  assert (∀ l kb, kb ∈ (l ≫= λ id, map_to_list (shard R id m)) ↔
    m !! kb.1 = Some kb.2 ∧ ∃ id, id ∈ l ∧ get_owner R kb.1 = Some id) as Hin.
  { intros l [k b]. rewrite list_elem_of_bind. cbn [fst snd]. split.
    - intros (id & Hk%elem_of_map_to_list & Hid). rewrite lookup_shard in Hk. case_decide; [|done]. eauto.
    - intros (Hk & id & Hid & Ho). exists id. rewrite elem_of_map_to_list, lookup_shard, decide_True by done. done. }
  apply NoDup_Permutation; [|apply NoDup_map_to_list|].
  - clear Hall. induction Hnd as [|id ids Hni Hnd IH]; [constructor|]. rewrite bind_cons. apply list.NoDup_app.
    split_and!; [apply NoDup_map_to_list| |done]. intros [k b] Hk%elem_of_map_to_list (_ & id2 & Hid2 & Ho2)%Hin.
    rewrite lookup_shard in Hk. case_decide as Ho; [|done]. cbn in Ho2. rewrite Ho in Ho2. by injection Ho2 as <-.
  - intros [k b]. rewrite Hin, elem_of_map_to_list. cbn. split; [by intros []|]. eauto.
Qed.

Lemma listing_nodes w w' objs : w_nodes w = w_nodes w' → listing w objs = listing w' objs.
Proof.
  intros Hw. assert (∀ l, first_up w l = first_up w' l) as Hf.
  { intros l. induction l as [|node l IH]; [done|]. cbn [first_up]. by rewrite IH, Hw. }
  unfold listing. apply mapM_ext. intros obj. unfold listed_object.
  rewrite (mapM_ext (listed_chunk w) (listed_chunk w')); [done|]. intros info. unfold listed_chunk, node_data.
  by rewrite Hf, Hw.
Qed.

Lemma listing_app w l1 l2 r1 r2 :
  listing w l1 = Some r1 → listing w l2 = Some r2 → listing w (l1 ++ l2) = Some (r1 ++ r2).
Proof.
  unfold listing. revert r1. induction l1 as [|o l1 IH]; intros r1; [by intros [= <-]|]. cbn [mapM app].
  destruct (listed_object w o) as [x|]; [|done]. simpl. destruct (mapM (listed_object w) l1) as [r|]; [|done].
  simpl. intros [= <-] Hl2. by rewrite (IH r eq_refl Hl2).
Qed.

(** What the peers list, each its part. *)
Lemma peers_listing R m w (nw : Network) (peers : list (string * string)) :
  (∀ kv, kv ∈ peers → ∃ c l, nw !! endpoint_of kv.2 = Some c ∧
    listing w (local_objects (sv_store c)) = Some l ∧
    listed l ≡ₚ (prod_map id Some <$> map_to_list (shard R kv.1 m))) →
  ∃ l, listing w (peers.*2 ≫= λ a, default [] ((λ c, local_objects (sv_store c)) <$> nw !! endpoint_of a)) = Some l ∧
    listed l ≡ₚ (prod_map id Some <$> (peers.*1 ≫= λ i, map_to_list (shard R i m))).
Proof.
  induction peers as [|kv peers IH]; intros Hall; [by exists []|].
  destruct IH as (l & Hl & Hp); [intros; apply Hall; by right|].
  destruct (Hall kv) as (c & l1 & Hc & Hl1 & Hp1); [by left|].
  exists (l1 ++ l). rewrite !fmap_cons, !bind_cons, Hc. split; [by apply listing_app|].
  unfold listed in *. rewrite !fmap_app. by apply Permutation_app.
Qed.

(** The addresses of the others, with their ids. *)
Definition other_peers (n : MetaNode unit) : list (string * string) :=
  List.filter (λ '(nid, _), negb (String.eqb nid (cm_node_id (mn_cluster n))))
    (map_to_list (cm_peer_addrs (mn_cluster n))).

Lemma other_peers_spec n id addr :
  (id, addr) ∈ other_peers n ↔
  cm_peer_addrs (mn_cluster n) !! id = Some addr ∧ id ≠ cm_node_id (mn_cluster n).
Proof.
  unfold other_peers. rewrite list_elem_of_In, filter_In, <- list_elem_of_In, elem_of_map_to_list.
  by rewrite negb_true_iff, String.eqb_neq.
Qed.

Lemma other_peers_ids n : NoDup (cm_node_id (mn_cluster n) :: (other_peers n).*1).
Proof.
  apply list.NoDup_cons. split.
  - intros ([id addr] & Hid & Hin)%list_elem_of_fmap. apply other_peers_spec in Hin as [_ Hne].
    cbn in Hid. congruence.
  - unfold other_peers. pose proof (NoDup_fst_map_to_list (cm_peer_addrs (mn_cluster n))) as Hnd.
    induction (map_to_list _) as [|[id addr] l IH]; [constructor|]. cbn in Hnd |- *.
    apply list.NoDup_cons in Hnd as [Hni Hnd]. destruct (negb _); [|by apply IH].
    cbn. apply list.NoDup_cons. split; [|by apply IH]. intros (kv & -> & Hin)%list_elem_of_fmap. apply Hni.
    apply list_elem_of_fmap. exists kv. split; [done|]. apply list_elem_of_In in Hin.
    apply filter_In in Hin as [Hin _]. by apply list_elem_of_In.
Qed.

(** ** LIST at any gateway *)

Lemma part_listing R home k m st e n w :
  site_ok R home k m st → si_meta st !! e = Some n → w_nodes w = si_nodes st →
  ∃ l, listing w (local_objects (sv_store (mn_server n))) = Some l ∧
    listed l ≡ₚ (prod_map id Some <$> map_to_list (shard R (cm_node_id (mn_cluster n)) m)).
Proof.
  intros Hst Hn Hw. destruct (sk_part _ _ _ _ _ Hst e n (mkGwMetrics ∅ ∅ 0 0 0 0 0) ∅ Hn) as [Hs _].
  { intros a c. by rewrite lookup_empty. }
  destruct (stands_listing _ _ Hs) as (l & Hl & Hp). exists l. split; [|done].
  erewrite listing_nodes; [exact Hl|exact Hw].
Qed.

Lemma list_at R home k m st e n metrics conns :
  site_ok R home k m st → si_meta st !! e = Some n →
  let g := view st (mkGatewayAt e metrics conns) n in
  ∃ l g', handle_list_objects g = (Ok l, g') ∧ expected m ListAll (Listing l) ∧
    mn_server (w_meta (gw_world g')) = mn_server n ∧
    same_member n (unplug (w_meta (gw_world g'))) ∧
    mn_world (w_meta (gw_world g')) = others e (dom (si_meta st)) (si_meta st) ∧
    gw_connections g' = conns ∧
    (∀ a, node_data (gw_world g') a = node_data (gw_world g) a) ∧ nodes_good (gw_world g') ∧
    same_nodes (gw_world g) (gw_world g').
Proof.
  intros Hst Hn g. pose proof (sk_sharded _ _ _ _ _ Hst) as Hsh.
  destruct (sh_node _ _ Hsh _ _ Hn) as (Hf & HR & Hc).
  assert (∀ id addr, (id, addr) ∈ other_peers n → ∃ p, si_meta st !! endpoint_of addr = Some p ∧
    cm_node_id (mn_cluster p) = id ∧
    others e (dom (si_meta st)) (si_meta st) !! endpoint_of addr = Some (mn_server p)) as Hpeer.
  { intros id addr [Ha Hid]%other_peers_spec.
    destruct (sk_peers _ _ _ _ _ Hst _ _ _ _ Hn Ha Hid) as [p Hp]. exists p. split; [done|].
    split; [by apply (sh_addr _ _ Hsh e n id addr (endpoint_of addr) p)|].
    rewrite lookup_others, Hp, decide_True; [done|]. split; [apply elem_of_dom; by eexists|].
    intros He. apply Hid. symmetry. by apply (sh_addr _ _ Hsh e n id addr e n). }
  destruct (svc_list_at (plug (others e (dom (si_meta st)) (si_meta st)) n)) as (n' & Hr & Hs' & Hw' & Hm');
    [done|done| |].
  { apply list.Forall_forall. intros a ([id addr] & -> & Hin)%list_elem_of_fmap.
    destruct (Hpeer id addr Hin) as (p & _ & _ & Hp). by eexists. }
  change (get_all_peer_addrs _) with (other_peers n).*2 in Hr. cbn [mn_world mn_server plug] in *.
  set (n0 := plug (others e (dom (si_meta st)) (si_meta st)) n) in *.
  assert (call mc_list_objects g = (Ok (inr (local_objects (sv_store (mn_server n)) ++
      ((other_peers n).*2 ≫= λ a, default [] ((λ c, local_objects (sv_store c)) <$>
        others e (dom (si_meta st)) (si_meta st) !! endpoint_of a)))),
      set_gw_world (set_meta n' (gw_world g)) g)) as Hcall.
  { unfold call, zoom, attempt. change (mc_list_objects (gw_world g)) with (on_meta svc_list_objects (gw_world g)).
    unfold on_meta, zoom. change (w_meta (gw_world g)) with n0. by rewrite Hr. }
  set (g1 := set_gw_world _ g) in Hcall.
  destruct (part_listing R home k m st e n (gw_world g1) Hst Hn eq_refl) as (l1 & Hl1 & Hp1).
  destruct (peers_listing R m (gw_world g1) (others e (dom (si_meta st)) (si_meta st)) (other_peers n))
    as (l2 & Hl2 & Hp2).
  { intros [id addr] Hin. destruct (Hpeer id addr Hin) as (p & Hp & Hid & Hw).
    destruct (part_listing R home k m st _ p (gw_world g1) Hst Hp eq_refl) as (l & Hl & Hlp).
    exists (mn_server p), l. cbn [fst snd]. by rewrite <- Hid. }
  pose proof (listing_app _ _ _ _ _ Hl1 Hl2) as Hl.
  assert (nodes_good (gw_world g1)) as Hgood.
  { destruct (sk_part _ _ _ _ _ Hst e n (mkGwMetrics ∅ ∅ 0 0 0 0 0) ∅ Hn) as [Hs _].
    { intros a c. by rewrite lookup_empty. }
    exact (gk_nodes _ _ (st_gateway _ _ Hs "")). }
  match type of Hl with listing _ ?objs = _ =>
    destruct (list_payloads_run objs g1 Hgood) as (g2 & Hr2 & Hsd & Hcs) end. rewrite Hl in Hr2.
  exists (l1 ++ l2). unfold handle_list_objects. rewrite (bind_ok _ _ _ _ _ Hcall).
  rewrite (bind_ok _ _ _ _ _ Hr2). eexists. split; [done|]. cbn.
  rewrite (sd_meta _ _ Hsd), Hcs. split_and!.
  - exists (l1 ++ l2). split; [done|]. fold (listed (l1 ++ l2)). unfold listed in *. rewrite fmap_app.
    etrans; [apply Permutation_app; [exact Hp1|exact Hp2]|]. rewrite <- fmap_app. apply fmap_Permutation.
    apply (shards_partition R m (cm_node_id (mn_cluster n) :: (other_peers n).*1)); [apply other_peers_ids|].
    intros name b _. destruct (sk_owners _ _ _ _ _ Hst name) as (eo & no & Hno & Ho). exists (cm_node_id (mn_cluster no)).
    split; [|done]. destruct (decide (cm_node_id (mn_cluster no) = cm_node_id (mn_cluster n))) as [->|Hne]; [by left|].
    right. destruct (sh_known _ _ Hsh _ _ _ _ Hn Ho Hne) as [addr Ha].
    apply list_elem_of_fmap. exists (cm_node_id (mn_cluster no), addr). split; [done|]. by apply other_peers_spec.
  - done.
  - exact Hm'.
  - done.
  - done.
  - intros a. apply (sd_data _ _ Hsd).
  - by apply (sd_good _ _ Hsd).
  - split; [apply (sd_up _ _ Hsd)|apply (sd_slots _ _ Hsd)].
Qed.

(** The deployment after the listing. *)
Lemma site_after_list R home k m st i ga n g' :
  site_ok R home k m st → si_gateways st !! i = Some ga → si_meta st !! ga_entry ga = Some n →
  mn_server (w_meta (gw_world g')) = mn_server n → same_member n (unplug (w_meta (gw_world g'))) →
  mn_world (w_meta (gw_world g')) = others (ga_entry ga) (dom (si_meta st)) (si_meta st) →
  gw_connections g' = ga_connections ga →
  (∀ a, node_data (gw_world g') a = node_data (gw_world (view st ga n)) a) → nodes_good (gw_world g') →
  same_nodes (gw_world (view st ga n)) (gw_world g') →
  site_ok R home k m (put_back st i (ga_entry ga) g').
Proof.
  intros Hst Hga Hn Hs Hm Hw Hcs Hd Hgood [Hup Hsl].
  destruct (replaced_here (si_meta st) (ga_entry ga) (dom (si_meta st)) n (w_meta (gw_world g')) Hn Hw) as [Hfw Hbw].
  set (C' := si_meta (put_back st i (ga_entry ga) g')).
  assert (∀ x n', C' !! x = Some n' → ∃ n0, si_meta st !! x = Some n0 ∧ same_member n0 n' ∧
    mn_server n' = mn_server n0) as Hback.
  { intros x n' Hx. destruct (Hbw x n' Hx) as (n0 & Hn0 & Hs0). exists n0. split; [done|].
    cbn in Hx. apply lookup_insert_Some in Hx as [[<- <-]|[Hne Hx]].
    - rewrite Hn in Hn0. by injection Hn0 as <-.
    - rewrite decide_False in Hs0 by done. split; [|done]. rewrite lookup_write_back, Hn0 in Hx.
      injection Hx as <-. by destruct (mn_world _ !! x). }
  apply (site_ok_after R home k k m); [done..| |exact Hfw| |].
  - intros x n' (n0 & Hn0 & Hm0 & ->)%Hback. by exists n0.
  - rewrite Hcs. intros a c. by eapply (sk_conns _ _ _ _ _ Hst).
  - intros x n' metrics conns (n0 & Hn0 & (_ & (_ & -> & _) & _) & ->)%Hback Hc.
    apply (implements_read_only k _ (alone metrics conns (mn_server n0) (si_nodes st))); [by eapply sk_part|].
    split; [done|done|exact Hd|intros _; exact Hgood|by split|by intros _].
Qed.

Lemma list_step R home k m st i :
  site_ok R home k m st → is_Some (si_gateways st !! i) →
  ∃ a st', serve_at i ListAll st = Some (Some a, st') ∧ expected m ListAll a ∧ site_ok R home k m st' ∧
    ∀ j, is_Some (si_gateways st !! j) → is_Some (si_gateways st' !! j).
Proof.
  intros Hst [ga Hga]. destruct (sk_home _ _ _ _ _ Hst _ _ Hga) as (n & Hn & _).
  destruct (list_at R home k m st (ga_entry ga) n (ga_metrics ga) (ga_connections ga) Hst Hn)
    as (l & g' & Hr & He & Hs & Hm & Hw & Hcs & Hd & Hgood & Hsn).
  unfold serve_at. rewrite Hga, Hn.
  replace (mkGatewayAt (ga_entry ga) (ga_metrics ga) (ga_connections ga)) with ga in * by by destruct ga.
  cbn [serve_request]. rewrite Hr. eexists _, _. split; [done|]. split; [exact He|]. split.
  - by apply site_after_list with n.
  - intros j Hj. cbn. apply lookup_insert_is_Some. destruct (decide (i = j)); [by left|by right].
Qed.

(** ** Any requests *)

(** A whole run: every request is answered as the map of the requests before it says. *)
Fixpoint meets_at (R : HashRing) (home : nat → string) (m : Objects) (reqs : list (nat * Request))
    (answers : list Answer) : Prop :=
  match reqs, answers with
  | [], [] => True
  | (i, req) :: reqs, a :: answers =>
      let here := at_home R home i req in
      expected_at here m req a ∧ meets_at R home (after_at here m req) reqs answers
  | _, _ => False
  end.

Definition after_all (R : HashRing) (home : nat → string) (m : Objects) (reqs : list (nat * Request)) :
    Objects := foldl (λ m '(i, req), after_at (at_home R home i req) m req) m reqs.

Fixpoint total_cost_at (R : HashRing) (home : nat → string) (m : Objects) (reqs : list (nat * Request)) : nat :=
  match reqs with
  | [] => O
  | (i, req) :: reqs =>
      (cost m req + total_cost_at R home (after_at (at_home R home i req) m req) reqs)%nat
  end.

(** Any request at any gateway. *)
Lemma any_step R home k m st i req (here := at_home R home i req) :
  site_ok R home (cost m req + k) m st → is_Some (si_gateways st !! i) →
  ∃ a st', serve_at i req st = Some (Some a, st') ∧ expected_at here m req a ∧
    site_ok R home k (after_at here m req) st' ∧
    ∀ j, is_Some (si_gateways st !! j) → is_Some (si_gateways st' !! j).
Proof.
  destruct (request_name req) as [name|] eqn:Hreq; intros Hst Hi; [by eapply site_step|].
  destruct req; [done..|]. by apply list_step.
Qed.

(** C3: A deployment with several gateways and several metadata nodes, each of which owns a part
    of the names, is one map from names to bytes: whatever clients of whatever gateways ask, in
    whatever order, every request is answered as the map answers it, whichever metadata node
    owns the object and whichever one the gateway talks to, and the deployment stands for the
    map afterwards. There is one exception: an upload as a form through a gateway whose metadata
    node does not own the name is refused with [500], and stores nothing. *)
Theorem site_is_an_object_store R home reqs m st :
  site_ok R home (total_cost_at R home m reqs) m st →
  Forall (λ ir, is_Some (si_gateways st !! ir.1)) reqs →
  ∃ answers st', serve_all reqs st = Some (Some <$> answers, st') ∧ meets_at R home m reqs answers ∧
    site_ok R home 0 (after_all R home m reqs) st'.
Proof.
  revert m st. induction reqs as [|[i req] reqs IH]; intros m st Hst Hall; [by exists [], st|].
  apply list.Forall_cons in Hall as [Hi Hall]. cbn [total_cost_at fst snd] in *.
  destruct (any_step _ _ _ _ _ _ _ Hst Hi) as (a & st1 & Hr & He & Hst1 & Hgws).
  destruct (IH _ _ Hst1) as (answers & st' & Hrs & Hm & Hst').
  { eapply list.Forall_impl; [exact Hall|]. intros [j r] Hj. by apply Hgws. }
  exists (a :: answers), st'. cbn [serve_all]. by rewrite Hr, Hrs.
Qed.

Lemma meets_at_nil R home m answers : meets_at R home m [] answers → answers = [].
Proof. by destruct answers. Qed.

Lemma meets_at_cons R home m i req reqs answers :
  meets_at R home m ((i, req) :: reqs) answers →
  ∃ a l, answers = a :: l ∧ expected_at (at_home R home i req) m req a ∧
    meets_at R home (after_at (at_home R home i req) m req) reqs l.
Proof. destruct answers as [|a l]; [done|]. intros [Ha Hl]. by exists a, l. Qed.

End theorems.

(** ** Witness *)

#[local] Existing Instance toy_deps.
#[local] Existing Instance toy_xxh3.
#[local] Existing Instance crc32_ieee.
#[local] Existing Instance toy_base64.
#[local] Existing Instance ascii_only.

(** Two metadata nodes: the object "b" belongs to the second one, the object "a" to the first.
    Both know the one storage node, and each has its own ids to come. *)
Definition ab_ring : HashRing := [(98, "a"); (99, "b")].
Definition fresh_server (ids : list Z) : ClusterServer :=
  mkClusterServer (mkMetadataStore ∅ ∅ {[1 := up_node]} (mkDisk None None []) (mkRng ids [])) ∅.
Definition ab_node (id : string) (peers : gmap string string) (ids : list Z) : MetaNode unit :=
  mkMetaNode (fresh_server ids) (mkClusterManager ab_ring id "0.0.0.0:3001" ∅ peers) true meta_metrics_new ().
Definition ab_nodes : Cluster :=
  {["http://a:3001" := ab_node "a" {["b" := "b:3001"]} [21; 22];
    "http://b:3001" := ab_node "b" {["a" := "a:3001"]} [31; 32]]}.
Definition disks : gmap string StorageNodeImpl := {["http://d" := disk_node]}.
Definition ab_site : Site :=
  mkSite {[0%nat := mkGatewayAt "http://a:3001" gw_metrics_new ∅;
           1%nat := mkGatewayAt "http://b:3001" gw_metrics_new ∅]} ab_nodes disks.
Definition ab_home (i : nat) : string := match i with O => "a" | _ => "b" end.

Lemma fresh_implements ids metrics conns :
  NoDup ids → Forall is_u64 ids → (length ids ≤ 2)%nat → (∀ a c, conns !! a = Some c → c = a) →
  implements (length ids) ∅ (alone metrics conns (fresh_server ids) disks).
Proof.
  intros Hnd Hu Hlen Hc.
  assert (ms_wf (sv_store (fresh_server ids))) as Hwf.
  { split; cbn; intros *; rewrite ?lookup_empty; [done..|]. by intros [<- <-]%lookup_singleton_Some. }
  assert (store_calm (sv_store (fresh_server ids))) as Hcalm by (split; [done|by eexists]).
  assert (∀ a id, node_data (mkWorld (solo (fresh_server ids)) disks) a !! id = None) as Hdata.
  { intros a id. unfold node_data. cbn [w_nodes]. unfold disks. destruct (decide ("http://d" = a)) as [<-|Hne].
    - by rewrite lookup_singleton_eq.
    - by rewrite lookup_singleton_ne. }
  split.
  - split.
    + intros name. split; [exact Hwf|exact Hu| |by left|exact Hc]. intros a n. cbn. unfold disks.
      intros [_ <-]%lookup_singleton_Some. apply disk_node_good.
    + split; [exact Hwf| |exact Hcalm]. intros k o id. cbn. by rewrite lookup_empty.
    + by left.
    + intros x node. cbn. intros [_ <-]%lookup_singleton_Some. by eexists.
    + intros name bytes. by rewrite lookup_empty.
    + intros name _. apply lookup_empty.
  - split; [exact Hcalm| | |].
    + exists ids, []. rewrite app_nil_r. split_and!; [done..|]. intros id _. split; [done|]. intros a. apply Hdata.
    + cbn. apply map_non_empty_singleton.
    + intros x node. cbn. intros [_ <-]%lookup_singleton_Some. exists disk_node. split; [done|].
      change (Z.of_nat (0 + length ids) ≤ 2). lia.
Qed.

Lemma ab_owner name :
  (get_owner ab_ring name = Some "a") ∨ (get_owner ab_ring name = Some "b").
Proof.
  unfold get_owner, ab_ring, owner_at, range_next.
  destruct (xxh3_64 name <=? 98); [by left|]. destruct (xxh3_64 name <=? 99); [by right|by left].
Qed.

Lemma ab_cases e n :
  ab_nodes !! e = Some n →
  (e = "http://a:3001" ∧ n = ab_node "a" {["b" := "b:3001"]} [21; 22]) ∨
  (e = "http://b:3001" ∧ n = ab_node "b" {["a" := "a:3001"]} [31; 32]).
Proof.
  unfold ab_nodes. intros [[<- <-]|[_ [<- <-]%lookup_singleton_Some]]%lookup_insert_Some; auto.
Qed.

Lemma ab_sharded : sharded ab_ring ab_nodes.
Proof.
  split.
  - intros e n [[-> ->]|[-> ->]]%ab_cases; (split_and!; [done|done|]).
    all: intros nid client addr; cbn; by rewrite lookup_empty.
  - intros e n name owner [[-> ->]|[-> ->]]%ab_cases Ho; cbn;
      destruct (ab_owner name) as [Hr|Hr]; rewrite Hr in Ho; injection Ho as <-; try done; intros _; by eexists.
  - intros e n id addr e2 n2 [[-> ->]|[-> ->]]%ab_cases Ha Hid; cbn in Ha;
      apply lookup_singleton_Some in Ha as [<- <-];
      intros [[-> ->]|[-> ->]]%ab_cases; cbn; by split.
  - intros e1 e2 n1 n2 [[-> ->]|[-> ->]]%ab_cases [[-> ->]|[-> ->]]%ab_cases; by cbn.
  - intros e n k [[-> ->]|[-> ->]]%ab_cases; cbn; rewrite lookup_empty; by intros [].
Qed.

Lemma fresh_ids ids id : mine (fresh_server ids) id → id ∈ ids.
Proof. intros [[Hi|Hi]|Hi]; [exact Hi|by destruct Hi..]. Qed.

Lemma ab_site_ok : site_ok ab_ring ab_home 2 ∅ ab_site.
Proof.
  split.
  - apply ab_sharded.
  - intros name. destruct (ab_owner name) as [Ho|Ho].
    + by exists "http://a:3001", (ab_node "a" {["b" := "b:3001"]} [21; 22]).
    + by exists "http://b:3001", (ab_node "b" {["a" := "a:3001"]} [31; 32]).
  - intros e n id addr [[-> ->]|[-> ->]]%ab_cases; cbn; intros [<- <-]%lookup_singleton_Some _; by eexists.
  - intros i ga. cbn. intros [[<- <-]|[_ [<- <-]%lookup_singleton_Some]]%lookup_insert_Some; by eexists.
  - intros i ga a c. cbn. intros [[<- <-]|[_ [<- <-]%lookup_singleton_Some]]%lookup_insert_Some;
      cbn; by rewrite lookup_empty.
  - intros e n metrics conns Hn Hc. unfold shard. rewrite map_filter_empty.
    apply ab_cases in Hn as [[-> ->]|[-> ->]].
    + apply (fresh_implements [21; 22]); [by apply (bool_decide_unpack _); vm_compute|by repeat constructor|done|done].
    + apply (fresh_implements [31; 32]); [by apply (bool_decide_unpack _); vm_compute|by repeat constructor|done|done].
  - intros e n e2 n2 x node [[-> ->]|[-> ->]]%ab_cases [[-> ->]|[-> ->]]%ab_cases; cbn; by eauto.
  - intros e n e2 n2 id [[-> ->]|[-> ->]]%ab_cases [[-> ->]|[-> ->]]%ab_cases Hne;
      try done; intros Hi%fresh_ids Hj%fresh_ids; set_solver.
Qed.

(** The object "b" is uploaded through the gateway of the other node and read back there and
    through its own; a form through the gateway of the other node is refused; the listing and
    a deletion through it are not. *)
Definition ab_requests : list (nat * Request) :=
  [(0, Put "b" (json "one")); (1, Get "b" (Some "application/json"));
   (0, Get "b" (Some "application/json")); (1, Put "a" (form_of [Data [Byte.x78]]));
   (1, Get "a" None); (0, ListAll); (0, Delete "b"); (1, Get "b" None)]%nat.

Lemma site_is_an_object_store_witness :
  ∃ l st', serve_all ab_requests ab_site = Some (Some <$>
      [Stored 3; Content (JsonBytes "one"); Content (JsonBytes "one"); Failed 500; Failed 404;
       Listing l; Deleted; Failed 404], st') ∧
    listed l ≡ₚ [("b", Some (String.list_byte_of_string "one"))] ∧ site_ok ab_ring ab_home 0 ∅ st'.
Proof.
  destruct (site_is_an_object_store ab_ring ab_home ab_requests ∅ ab_site) as (answers & st' & Hr & Hm & Hok).
  { assert (total_cost_at ab_ring ab_home ∅ ab_requests = 2%nat) as -> by (vm_compute; reflexivity).
    exact ab_site_ok. }
  { unfold ab_requests. do 8 (apply list.Forall_cons; split; [by eexists|]). by apply list.Forall_nil. }
  assert (after_all ab_ring ab_home ∅ ab_requests = ∅) as He by (vm_compute; reflexivity).
  rewrite He in Hok. clear He. unfold ab_requests in Hm.
  apply meets_at_cons in Hm as (a1 & l1 & -> & H1 & Hm).
  apply meets_at_cons in Hm as (a2 & l2 & -> & H2 & Hm).
  apply meets_at_cons in Hm as (a3 & l3 & -> & H3 & Hm).
  apply meets_at_cons in Hm as (a4 & l4 & -> & H4 & Hm).
  apply meets_at_cons in Hm as (a5 & l5 & -> & H5 & Hm).
  apply meets_at_cons in Hm as (a6 & l6 & -> & (l & H6 & Hp) & Hm).
  apply meets_at_cons in Hm as (a7 & l7 & -> & H7 & Hm).
  apply meets_at_cons in Hm as (a8 & l8 & -> & H8 & Hm).
  apply meets_at_nil in Hm as ->. exists l, st'.
  match type of Hp with _ ≡ₚ (_ <$> map_to_list ?m) =>
    assert (m = {["b" := String.list_byte_of_string "one"]}) as Hmap by (vm_compute; reflexivity) end.
  rewrite Hmap, map_to_list_singleton in Hp. clear Hmap.
  vm_compute in H1, H2, H3, H4, H5, H7, H8. subst a1 a2 a3 a4 a5 a6 a7 a8.
  split; [exact Hr|]. split; [exact Hp|exact Hok].
Defined.
