(* ===== verification/Metrics.v ===== *)
(** * Metrics: the registries of the four services

    The files metrics.rs of api-gateway, storage-metadata, storage-node and
    replication-service: what [Metrics::new] registers, what the page "/metrics" shows of the
    counters that the components keep, and the server of that page. The text encoding is that
    of the crate prometheus_client, a parameter. *)

From S2P Require Import Prelude.
From S2P Require Import Grpc.
From S2P Require Import StorageNode.
From S2P Require Import ClusterService.
From S2P Require Import Cluster.
From S2P Require Import Forwarding.
From S2P Require Import MetadataService.
From S2P Require Import Clients.
From S2P Require Import Gateway.
From S2P Require Import Replication.
Open Scope string_scope.
Open Scope list_scope.
Open Scope Z_scope.

(** ** Registering *)

(** A histogram with the upper bounds of its buckets, in tenths of a millisecond. *)
Inductive metric_kind := CounterKind | GaugeKind | HistogramKind (bounds : list Z).

(** What is registered: a name, a help text, the names of the labels of a family, and the
    kind of its metrics: the arguments of one call of the crate's [register]. *)
Record registration := mkRegistration {
  rg_name : string;
  rg_help : string;
  rg_labels : list string;
  rg_kind : metric_kind;
}.

(** The registry is the crate's; what the services do to it are these calls, and it is known
    by them, in their order. What the crate makes of them is in [PromText]. *)
Definition Registry := list registration.

Definition register (name help : string) (labels : list string) (kind : metric_kind)
    (r : Registry) : Registry := r ++ [mkRegistration name help labels kind].

(** The label sets, whose encoding is derived from their fields. *)
Definition RpcLabels : list string := ["method"; "status"].
Definition RequestLabels : list string := ["method"; "endpoint"; "status"].
Definition OperationLabels : list string := ["operation"].
Definition FailureLabels : list string := ["error_type"].

Definition operation_buckets : list Z := [1; 5; 10; 50; 100; 250; 500; 1000; 2500; 5000; 10000].

Definition node_registry (r : Registry) : Registry :=
  let r := register "storage_node_grpc_requests" "Total gRPC requests by method and status"
             RpcLabels CounterKind r in
  let r := register "storage_node_chunks_written" "Total chunks written" [] CounterKind r in
  let r := register "storage_node_chunks_read" "Total chunks read" [] CounterKind r in
  let r := register "storage_node_chunks_deleted" "Total chunks deleted" [] CounterKind r in
  let r := register "storage_node_bytes_written" "Total bytes written" [] CounterKind r in
  let r := register "storage_node_bytes_read" "Total bytes read" [] CounterKind r in
  let r := register "storage_node_free_slots" "Number of free chunk slots" [] GaugeKind r in
  register "storage_node_operation_duration_seconds" "Operation duration in seconds"
    OperationLabels (HistogramKind operation_buckets) r.

Definition metadata_registry (r : Registry) : Registry :=
  let r := register "metadata_grpc_requests" "Total gRPC requests by method and status"
             RpcLabels CounterKind r in
  let r := register "metadata_objects" "Current number of objects stored" [] GaugeKind r in
  let r := register "metadata_chunks" "Current number of chunks stored" [] GaugeKind r in
  let r := register "metadata_storage_nodes" "Current number of registered storage nodes"
             [] GaugeKind r in
  let r := register "metadata_health_checks" "Total health checks performed" [] CounterKind r in
  register "metadata_health_checks_failed" "Total failed health checks" [] CounterKind r.

Definition request_buckets : list Z :=
  [10; 50; 100; 250; 500; 1000; 2500; 5000; 10000; 25000; 50000; 100000].

Definition gateway_registry (r : Registry) : Registry :=
  let r := register "api_gateway_http_requests_total"
             "Total HTTP requests by method, endpoint, and status" RequestLabels CounterKind r in
  let r := register "api_gateway_http_request_duration_seconds" "HTTP request duration in seconds"
             OperationLabels (HistogramKind request_buckets) r in
  let r := register "api_gateway_objects_uploaded" "Total number of objects uploaded"
             [] CounterKind r in
  let r := register "api_gateway_objects_downloaded" "Total number of objects downloaded"
             [] CounterKind r in
  let r := register "api_gateway_objects_deleted" "Total number of objects deleted"
             [] CounterKind r in
  let r := register "api_gateway_bytes_uploaded" "Total bytes uploaded" [] CounterKind r in
  register "api_gateway_bytes_downloaded" "Total bytes downloaded" [] CounterKind r.

Definition cycle_buckets : list Z :=
  [10; 50; 100; 500; 1000; 5000; 10000; 50000; 100000; 300000; 600000].

Definition replication_registry (r : Registry) : Registry :=
  let r := register "replication_runs" "Total replication cycles run" [] CounterKind r in
  let r := register "replication_chunks_replicated" "Total chunks successfully replicated"
             [] CounterKind r in
  let r := register "replication_failures" "Total replication failures by error type"
             FailureLabels CounterKind r in
  let r := register "replication_duration_seconds" "Duration of replication cycles in seconds"
             [] (HistogramKind cycle_buckets) r in
  let r := register "replication_under_replicated_chunks"
             "Current count of under-replicated chunks" [] GaugeKind r in
  register "replication_chunks_skipped_rate_limit" "Chunks skipped due to rate limit"
    [] CounterKind r.

(** ** The values *)

(** The metrics of a family by the values of its labels; of a histogram, how often it was
    observed. *)
Definition values : Type := list (list string * Z).

Definition single (v : Z) : values := [([], v)].
Definition by_rpc (t : gmap (string * string) Z) : values :=
  (λ '((method, status), v), ([method; status], v)) <$> map_to_list t.
Definition by_request (t : gmap (string * string * string) Z) : values :=
  (λ '((method, endpoint, status), v), ([method; endpoint; status], v)) <$> map_to_list t.
Definition by_name (t : gmap string Z) : values :=
  (λ '(name, v), ([name], v)) <$> map_to_list t.

(** The registered metrics share their values with the fields that the handlers change. The
    histogram of the storage node is observed nowhere. *)
Definition node_values (m : StorageNode.Metrics) : list values :=
  [by_rpc (grpc_requests_total m); single (chunks_written_total m); single (chunks_read_total m);
   single (chunks_deleted_total m); single (bytes_written_total m); single (bytes_read_total m);
   single (free_slots_gauge m); []].
Definition meta_values (m : MetaMetrics) : list values :=
  [by_rpc (mm_requests m); single (mm_objects_total m); single (mm_chunks_total m);
   single (mm_storage_nodes_total m); single (mm_health_checks_total m);
   single (mm_health_checks_failed_total m)].
Definition gateway_values (m : GwMetrics) : list values :=
  [by_request (gm_requests m); by_name (gm_durations m); single (gm_uploaded m);
   single (gm_downloaded m); single (gm_deleted m); single (gm_bytes_up m);
   single (gm_bytes_down m)].
Definition replication_values (m : ReplMetrics) : list values :=
  [single (rm_runs_total m); single (rm_replicated_total m); by_name (rm_failures m);
   single (rm_durations m); single (rm_under_replicated m); single (rm_skipped m)].

(** ** The page *)

(** The encoder of prometheus_client: it writes every registered metric under its name with
    the suffixes of its kind, which for a counter is "_total". *)
Class PromText := {
  encode : list (registration * values) → option string;
  suffixes : metric_kind → list string;
  suffixes_counter : suffixes CounterKind = ["_total"];
  suffixes_gauge : suffixes GaugeKind = [""];
  suffixes_histogram bounds : suffixes (HistogramKind bounds) = ["_sum"; "_count"; "_bucket"];
}.

Section page.
Context `{PromText}.

(** A failure of the encoder is an [expect] that panics. *)
Definition encode_metrics (r : Registry) (vs : list values) : outcome Empty_set string :=
  match encode (zip r vs) with Some body => Ok body | None => Panic end.

(** [lock().unwrap()] of the three services with a server of their own, and the gateway's
    [into_inner]: the flag is that of the mutex, set by a panic that holds it. *)
Definition serve_page (unwrap : bool) (r : Registry) (vs : list values) :
    ST bool Empty_set string := λ poisoned,
  if unwrap && poisoned then (Panic, poisoned)
  else match encode_metrics r vs with
       | Ok body => (Ok body, poisoned)
       | Err e => (Err e, poisoned)
       | Panic => (Panic, true)
       end.

(** The names of the series that a registry gives. *)
Definition series (r : Registry) : list string :=
  m ← r; (λ s, rg_name m +:+ s) <$> suffixes (rg_kind m).

End page.
