(* ===== verification/MetricsTheorems.v ===== *)
(** * MetricsTheorems: what the metrics pages show

    The theorems about the metrics: the registries of metrics.rs, and how the gauges and
    counters that the handlers of storage-metadata/src/main.rs and storage-node/src/main.rs
    change follow the state they stand for. *)

From S2P Require Import Prelude.
From S2P Require Import Bytes.
From S2P Require Import Crc32.
From S2P Require Import ChunkStore.
From S2P Require Import ChunkStoreFacts.
From S2P Require Import ChunkStoreSpec.
From S2P Require Import Grpc.
From S2P Require Import StorageNode.
From S2P Require Import NodeFacts.
From S2P Require Import HashRing.
From S2P Require Import MetadataStore.
From S2P Require Import MetadataStoreFacts.
From S2P Require Import ChunkIndex.
From S2P Require Import ClusterService.
From S2P Require Import Cluster.
From S2P Require Import Forwarding.
From S2P Require Import MetadataService.
From S2P Require Import Network.
From S2P Require Import PublicService.
From S2P Require Import Samples.
From S2P Require Import Metrics.
Open Scope string_scope.
Open Scope list_scope.
Open Scope Z_scope.

(** ** The gauges of a metadata node *)

Section gauges.
Context `{MetaDeps} `{Xxh3} {W : Type} `{Peers W}.

(** How far the gauge of objects is from the number of objects. *)
Definition tally (n : MetaNode W) : Z :=
  mm_objects_total (mn_metrics n) - Z.of_nat (size (objects (sv_store (mn_server n)))).

Record keeps_tally (n n' : MetaNode W) : Prop := mkKeepsTally {
  kt_calm : store_calm (sv_store (mn_server n'));
  kt_objects : tally n' = tally n;
  kt_chunks : mm_chunks_total (mn_metrics n) ≤ mm_chunks_total (mn_metrics n');
}.

Definition balanced {A} (m : @MN W A) : Prop := ∀ n r n',
  store_calm (sv_store (mn_server n)) → m n = (r, n') → keeps_tally n n'.

Lemma keeps_tally_trans n n' n'' : keeps_tally n n' → keeps_tally n' n'' → keeps_tally n n''.
Proof. intros [_ Ht Hc] [Hcalm Ht' Hc']. split; [done|congruence|lia]. Qed.

Lemma balanced_same n n' :
  store_calm (sv_store (mn_server n)) → sv_store (mn_server n') = sv_store (mn_server n) →
  mm_objects_total (mn_metrics n') = mm_objects_total (mn_metrics n) →
  mm_chunks_total (mn_metrics n) ≤ mm_chunks_total (mn_metrics n') → keeps_tally n n'.
Proof. intros Hc Hs Ho Hch. split; [by rewrite Hs|unfold tally; by rewrite Hs, Ho|done]. Qed.

Lemma balanced_bind {A B} (m : @MN W A) (f : A → @MN W B) :
  balanced m → (∀ a, balanced (f a)) → balanced (m ≫= f).
Proof.
  intros Hm Hf n r n' Hc. cbv [mbind ST_bind]. destruct (m n) as [r1 n1] eqn:Hr.
  apply Hm in Hr; [|done]. destruct r1 as [a|e|]; [|by intros [= _ <-]..].
  intros Hr2. eapply keeps_tally_trans; [exact Hr|]. eapply Hf; [|exact Hr2]. apply Hr.
Qed.

Lemma balanced_gets {A} (f : MetaNode W → A) : balanced (gets f).
Proof. intros n r n' Hc [= _ <-]. by apply balanced_same. Qed.
Lemma balanced_ret {A} (a : A) : balanced (mret a).
Proof. intros n r n' Hc [= _ <-]. by apply balanced_same. Qed.
Lemma balanced_throw {A} e : balanced (throw e : @MN W A).
Proof. intros n r n' Hc [= _ <-]. by apply balanced_same. Qed.
Lemma balanced_lift {A} (o : outcome Code A) : balanced (lift_outcome o).
Proof. intros n r n' Hc [= _ <-]. by apply balanced_same. Qed.
Lemma balanced_on_net {A} (m : ST (ClusterManager * W) Code A) : balanced (on_net m).
Proof.
  intros n r n' Hc. unfold on_net, zoom. destruct (m _) as [r1 cw]. intros [= _ <-].
  by apply balanced_same.
Qed.
Lemma balanced_index f : balanced (with_index f : @MN W unit).
Proof. intros n r n' Hc [= _ <-]. by apply balanced_same. Qed.
Lemma balanced_count (f : MetaMetrics → MetaMetrics) :
  (∀ m, mm_objects_total (f m) = mm_objects_total m ∧ mm_chunks_total m ≤ mm_chunks_total (f m)) →
  balanced (count f : @MN W unit).
Proof. intros Hf n r n' Hc [= _ <-]. destruct (Hf (mn_metrics n)). by apply balanced_same. Qed.
Lemma balanced_attempt {A} (m : @MN W A) : balanced m → balanced (attempt m).
Proof.
  intros Hm n r n' Hc. unfold attempt. destruct (m n) as [r1 n1] eqn:Hr.
  apply Hm in Hr; [|done]. by destruct r1; intros [= _ <-].
Qed.

(** Operations of the store that leave the set of names as it is. *)
Definition same_names {A} (m : MS A) : Prop := ∀ s r s',
  store_calm s → m s = (r, s') → store_calm s' ∧ size (objects s') = size (objects s).

Lemma balanced_locked {A} (m : MS A) : same_names m → balanced (locked m).
Proof.
  intros Hm n r n' Hc. unfold locked, on_server, zoom.
  destruct (m (sv_store (mn_server n))) as [r1 s1] eqn:Hr. intros [= _ <-].
  apply Hm in Hr as [Hc1 Hs]; [|done]. split; [done| |done]. unfold tally. cbn. by rewrite Hs.
Qed.

Lemma balanced_route_object {A} name (fwd : string → @MN W A) here :
  (∀ a, balanced (fwd a)) → balanced here → balanced (route_object name fwd here).
Proof.
  intros Hf Hh. apply balanced_bind; [apply balanced_gets|]. by intros [|addr].
Qed.
Lemma balanced_route_chunk {A} id (fwd : string → @MN W A) here :
  (∀ a, balanced (fwd a)) → balanced here → balanced (route_chunk id fwd here).
Proof.
  intros Hf Hh. apply balanced_bind; [apply balanced_gets|]. by intros [?|[|addr]].
Qed.

(** Replacing an object that is there. *)
Lemma size_replace (m : gmap string MetaObject) name o o' :
  m !! name = Some o → size (<[name := o']> m) = size m.
Proof. intros Hm. apply map_size_insert_Some. by eexists. Qed.

Lemma same_names_read {A} (f : MetadataStore → outcome ErrorKind A) : same_names (λ s, (f s, s)).
Proof. by intros s r s' Hc [= _ <-]. Qed.

Lemma same_names_saved s0 s r s' :
  store_calm s → save s = (r, s') → size (objects s) = size (objects s0) →
  store_calm s' ∧ size (objects s') = size (objects s0).
Proof.
  intros Hc. destruct (save_calm s Hc) as (d & -> & Hd). intros [= _ <-] Hs.
  split; [by split; [|apply Hc]|exact Hs].
Qed.

Ltac by_save s0 := apply (same_names_saved s0); [done|]; cbn; try done.

Lemma put_chunk_names name checksum : same_names (put_chunk name checksum).
Proof.
  intros s r s' Hc. unfold put_chunk. cbv [mbind ST_bind].
  destruct (generate_unique_id chunks s) as [r1 s1] eqn:Hg.
  apply generate_unique_id_spec in Hg as (rng & -> & _).
  destruct r1 as [id|e|]; [|by intros [= _ <-]..].
  destruct (choose_storage_node_spec (set_rng rng s)) as (n & rng' & -> & _).
  destruct n as [n|]; [|by intros [= _ <-]]. run_st. cbn [objects set_chunks set_rng].
  destruct (objects s !! name) as [o|] eqn:Ho; [|by intros [= _ <-]].
  match goal with |- context [save ?x] => destruct (save x) as [r2 s2] eqn:Hs; revert Hs end.
  intros Hs. apply (same_names_saved s) in Hs;
    [|exact Hc|cbn; by eapply size_replace]. by destruct r2 as [[]| |]; intros [= _ <-].
Qed.

Lemma allocate_chunk_names name : same_names (allocate_chunk name).
Proof.
  intros s r s' Hc. unfold allocate_chunk. cbv [mbind ST_bind].
  destruct (generate_unique_id chunks s) as [r1 s1] eqn:Hg.
  apply generate_unique_id_spec in Hg as (rng & -> & _).
  destruct r1 as [id|e|]; [|by intros [= _ <-]..].
  destruct (choose_storage_node_spec (set_rng rng s)) as (n & rng' & -> & _).
  destruct n as [n|]; by intros [= _ <-].
Qed.

Lemma confirm_chunk_names id name checksum node : same_names (confirm_chunk id name checksum node).
Proof.
  intros s r s' Hc. unfold confirm_chunk. run_st. case_decide; [|by intros [= _ <-]].
  destruct (chunks s !! id) as [[? ? ? ? []]|]; [|by intros [= _ <-]|].
  all: destruct (objects s !! name) as [o|] eqn:Ho; [|by intros [= _ <-]].
  all: intros Hs; apply (same_names_saved s) in Hs; [done|exact Hc|cbn; by eapply size_replace].
Qed.

Lemma delete_chunk_names id : same_names (delete_chunk id).
Proof.
  intros s r s' Hc. unfold delete_chunk. run_st.
  destruct (chunks s !! id) as [c|]; [|by intros [= _ <-]]. cbn.
  destruct (objects s !! mc_object_name c) as [o|] eqn:Ho; [|by intros [= _ <-]].
  intros Hs; apply (same_names_saved s) in Hs; [done|exact Hc|cbn; by eapply size_replace].
Qed.

Lemma update_checksum_names name checksum size : same_names (update_object_checksum name checksum size).
Proof.
  intros s r s' Hc. unfold update_object_checksum. run_st.
  destruct (objects s !! name) as [o|] eqn:Ho; [|by intros [= _ <-]].
  intros Hs; apply (same_names_saved s) in Hs; [done|exact Hc|cbn; by eapply size_replace].
Qed.

Lemma add_chunk_replica_names id node : same_names (add_chunk_replica id node).
Proof.
  intros s r s' Hc. unfold add_chunk_replica. run_st. case_decide; [|by intros [= _ <-]].
  destruct (chunks s !! id) as [c|]; [|by intros [= _ <-]].
  case_decide; [by intros [= _ <-]|]. case_match; [by intros [= _ <-]|].
  intros Hs; apply (same_names_saved s) in Hs; [done|exact Hc|done].
Qed.

Lemma construct_storage_node_names address : same_names (construct_storage_node address).
Proof.
  intros s r s' Hc. unfold construct_storage_node. cbv [mbind ST_bind].
  destruct (generate_unique_id storage_nodes s) as [r1 s1] eqn:Hg.
  apply generate_unique_id_spec in Hg as (rng & -> & _).
  destruct r1 as [id|e|]; [|by intros [= _ <-]..].
  destruct (meta_storage_node_new id address); by intros [= _ <-].
Qed.

Lemma delete_storage_node_names id : same_names (delete_storage_node id).
Proof.
  intros s r s' Hc. unfold delete_storage_node. run_st.
  destruct (storage_nodes s !! id); by intros [= _ <-].
Qed.

Lemma get_object_names name : same_names (get_object name).
Proof. intros s r s' Hc. unfold get_object. run_st. by destruct (objects s !! name); intros [= _ <-]. Qed.
Lemma get_chunk_names id : same_names (get_chunk id).
Proof. intros s r s' Hc. unfold get_chunk. run_st. by destruct (chunks s !! id); intros [= _ <-]. Qed.
Lemma get_storage_node_names id : same_names (get_storage_node id).
Proof.
  intros s r s' Hc. unfold get_storage_node. run_st. by destruct (storage_nodes s !! id); intros [= _ <-].
Qed.

(** The two that change the set of names, with their counting. *)
Lemma put_object_balanced name checksum :
  balanced (svc_put_object name checksum : @MN W unit).
Proof.
  apply balanced_route_object; [intros addr; apply balanced_on_net|].
  intros n r n' Hc. unfold locked, on_server, zoom, count, put_object. run_st.
  set (s := sv_store (mn_server n)) in *. case_decide as Hi.
  - intros [= _ <-]. by apply balanced_same.
  - assert (store_calm (set_objects (<[name := new_object name checksum]> (objects s)) s)) as Hc' by done.
    destruct (save_calm _ Hc') as (d & -> & Hd). intros [= _ <-]. split; [by split; [|apply Hc]| |done].
    unfold tally. cbn. rewrite map_size_insert_None by by apply eq_None_not_Some. fold s. lia.
Qed.

Lemma delete_object_balanced name : balanced (svc_delete_object name : @MN W unit).
Proof.
  apply balanced_route_object; [intros addr; apply balanced_on_net|].
  intros n r n' Hc. unfold current_store, locked, on_server, zoom, count, with_index. run_st.
  set (s := sv_store (mn_server n)) in *.
  destruct (objects s !! name) as [o|] eqn:Ho.
  - rewrite (delete_object_run name s o Ho).
    assert (store_calm (remove_object_of s name)) as Hc'.
    { unfold remove_object_of. by rewrite Ho. }
    destruct (save_calm _ Hc') as (d & -> & Hd). intros [= _ <-].
    split; [by split; [|apply Hc]| |done]. unfold tally. cbn. unfold remove_object_of. rewrite Ho. cbn.
    fold s. assert (size (delete name (objects s)) = pred (size (objects s))) as ->
      by (apply map_size_delete_Some; by eexists).
    assert (size (objects s) ≠ 0%nat) by (eapply map_size_ne_0_lookup_2; by eexists). lia.
  - unfold delete_object. run_st. rewrite Ho. intros [= _ <-]. by apply balanced_same.
Qed.

Create HintDb tally.
#[local] Hint Resolve balanced_bind balanced_gets balanced_ret balanced_throw balanced_lift
  balanced_on_net balanced_index balanced_attempt balanced_locked balanced_route_object
  balanced_route_chunk put_object_balanced delete_object_balanced : tally.
#[local] Hint Resolve put_chunk_names allocate_chunk_names confirm_chunk_names delete_chunk_names
  update_checksum_names add_chunk_replica_names construct_storage_node_names
  delete_storage_node_names get_object_names get_chunk_names get_storage_node_names : tally.

Lemma balanced_inc_rpc method status : balanced (count (inc_rpc method status) : @MN W unit).
Proof. apply balanced_count. intros m. cbn. lia. Qed.
Lemma balanced_add_chunk : balanced (count (add_chunks 1) : @MN W unit).
Proof. apply balanced_count. intros m. cbn. lia. Qed.
Lemma balanced_set_nodes (f : MetaMetrics → Z) :
  balanced (count (λ m, set_storage_nodes_total (f m) m) : @MN W unit).
Proof. apply balanced_count. intros m. cbn. lia. Qed.
#[local] Hint Resolve balanced_inc_rpc balanced_add_chunk balanced_set_nodes : tally.

(** Takes a handler apart along its control flow. *)
Ltac balance :=
  repeat match goal with
    | |- balanced (match ?x with _ => _ end) => destruct x
    | |- balanced (mbind _ _) => apply balanced_bind
    | |- balanced (_ ≫= _) => apply balanced_bind
    | |- ∀ _, _ => intros ?
    | |- balanced _ => solve [eauto with tally | apply balanced_on_net]
    | |- balanced (route_object _ _ _) => apply balanced_route_object
    | |- balanced (route_chunk _ _ _) => apply balanced_route_chunk
    end.

Lemma handle_balanced req : balanced (handle req : @MN W MetaResponse).
Proof.
  destruct req; unfold handle, answer_with; apply balanced_bind; try (intros; apply balanced_ret).
  all: try solve [eauto with tally].
  - unfold svc_put_chunk. balance.
  - unfold svc_get_object, get_object_lookup, get_object_resolve, current_store. balance.
  - unfold svc_get_chunk, current_store. balance.
  - unfold svc_delete_chunk. balance.
  - unfold svc_put_storage_node. balance.
  - unfold svc_list_objects, current_store. balance.
  - unfold svc_get_storage_node. balance.
  - unfold svc_delete_storage_node. balance.
  - unfold svc_list_under_replicated_chunks, current_store. balance.
  - unfold svc_add_chunk_replica. balance.
  - unfold svc_allocate_chunk. balance.
  - unfold svc_confirm_chunk. balance.
  - unfold svc_update_object_checksum, route_by_object. balance.
Qed.

(** A sequence of requests to one node; a failed one does not stop the next. *)
Definition run_requests (reqs : list MetaRequest) (n : MetaNode W) : MetaNode W :=
  foldl (λ n req, (handle req n).2) n reqs.

Lemma run_requests_tally reqs n :
  store_calm (sv_store (mn_server n)) → keeps_tally n (run_requests reqs n).
Proof.
  unfold run_requests. revert n. induction reqs as [|req reqs IH]; intros n Hc; simpl.
  { by apply balanced_same. }
  destruct (handle req n) as [r n1] eqn:Hr. apply handle_balanced in Hr; [|done]. simpl.
  eapply keeps_tally_trans; [exact Hr|]. apply IH, Hr.
Qed.

(** The gauges of a metadata node as long as its file can be saved: the gauge of objects
    moves with the number of objects over any requests of clients, from zero when the
    process starts, so that it is too low by the number of objects that were loaded from the
    file; the gauge of chunks, "Current number of chunks stored", never falls, whatever is
    deleted. *)
Theorem gauges_of_a_metadata_node rng d cluster (w : W) n d' reqs :
  MetadataService.construct rng d cluster w = (Ok n, d') → store_calm (sv_store (mn_server n)) →
  let n' := run_requests reqs n in
  mm_objects_total (mn_metrics n') =
    Z.of_nat (size (objects (sv_store (mn_server n')))) -
    Z.of_nat (size (objects (sv_store (mn_server n)))) ∧
  ∀ more, mm_chunks_total (mn_metrics n') ≤ mm_chunks_total (mn_metrics (run_requests more n')).
Proof.
  intros Hn Hc n'. destruct (run_requests_tally reqs n Hc) as [Hc' Ht _]. split.
  - unfold tally in Ht. fold n' in Ht. assert (mm_objects_total (mn_metrics n) = 0) as H0n; [|lia].
    revert Hn. unfold MetadataService.construct. destruct (store_new rng d) as [[s|e|] d1]; [|done..]. by intros [= <- _].
  - intros more. apply (run_requests_tally more n' Hc').
Qed.

End gauges.

(** ** The counters of a storage node *)

Section node.
Context `{Crc32}.

Inductive chunk_request := WriteChunk (id : Z) (bytes : list byte) | ReadChunk (id : Z) | DeleteChunk (id : Z).

(** A request whose chunk has a 64-bit id and fits a slot. *)
Definition fits (req : chunk_request) : Prop :=
  match req with
  | WriteChunk id bytes => is_u64 id ∧ zlen bytes ≤ SLOT_DATA_SIZE
  | ReadChunk _ | DeleteChunk _ => True
  end.

(** Whether it was answered with success, and the node after it. *)
Definition serve_chunk (req : chunk_request) (n : StorageNodeImpl) : bool * StorageNodeImpl :=
  match req with
  | WriteChunk id bytes => let '(r, n) := write_chunk id bytes n in (is_ok r, n)
  | ReadChunk id => let '(r, n) := read_chunk id n in (is_ok r, n)
  | DeleteChunk id => let '(r, n) := node_delete_chunk id n in (is_ok r, n)
  end.

(** The requests that were answered with success, and the node in the end. *)
Fixpoint serve_chunks (reqs : list chunk_request) (n : StorageNodeImpl) :
    list chunk_request * StorageNodeImpl :=
  match reqs with
  | [] => ([], n)
  | req :: reqs =>
      let '(ok, n) := serve_chunk req n in
      let '(done, n) := serve_chunks reqs n in
      (if ok then req :: done else done, n)
  end.

Definition is_write (req : chunk_request) : bool :=
  match req with WriteChunk _ _ => true | _ => false end.
Definition is_delete (req : chunk_request) : bool :=
  match req with DeleteChunk _ => true | _ => false end.
Definition counted (p : chunk_request → bool) (reqs : list chunk_request) : Z :=
  zlen (List.filter p reqs).


(** What one request leaves of the counters, and of the free slots. *)
Record counts_one (ok : bool) (req : chunk_request) (n n' : StorageNodeImpl)
    (changes := ok && (is_write req || is_delete req)) : Prop := mkCountsOne {
  c1_good : good (store n');
  c1_written : chunks_written_total (metrics n') =
    (if ok && is_write req then wrap64 (chunks_written_total (metrics n) + 1)
     else chunks_written_total (metrics n));
  c1_deleted : chunks_deleted_total (metrics n') =
    (if ok && is_delete req then wrap64 (chunks_deleted_total (metrics n) + 1)
     else chunks_deleted_total (metrics n));
  c1_gauge : free_slots_gauge (metrics n') =
    (if changes then free_slots (store n') else free_slots_gauge (metrics n));
  c1_free : changes = false → free_slots (store n') = free_slots (store n);
}.

Lemma good_free st : good st → free_slots st = cs_total st - Z.of_nat (size (abs st)).
Proof.
  intros Hg. pose proof (clean_capacity st (g_wf _ Hg) (g_clean _ Hg)). unfold free_slots. lia.
Qed.

Lemma serve_chunk_counts req n ok n' :
  good (store n) → fits req → serve_chunk req n = (ok, n') → counts_one ok req n n'.
Proof.
  intros Hg Hf. destruct req as [id bytes|id|id]; simpl.
  - destruct Hf as [Hid Hb]. unfold write_chunk.
    destruct (run_put_spec id bytes (store n) Hg Hid Hb) as (r & st' & Hr & Hspec & Hg' & Hcfg & _).
    simpl in Hr. cbv [mbind ST_bind mret ST_ret] in Hr.
    destruct (ChunkStore.put_chunk id bytes (store n)) as [r0 st0] eqn:Hput.
    apply (on_store_run write_status) in Hput. destruct r0 as [[]|e|]; injection Hr as <- <-.
    + rewrite (bind_ok _ _ _ _ _ Hput). intros [= <- <-]. by split.
    + rewrite (bind_err _ _ _ _ _ Hput). intros [= <- <-]. split; try done. intros _. cbn.
      rewrite !good_free by done. destruct Hcfg as (-> & _). simpl in Hspec.
      revert Hspec. case_decide; [by intros [= _ <-]|]. destruct (_ <=? _); [by intros [= _ <-]|done].
    + simpl in Hspec. revert Hspec. case_decide; [done|]. by destruct (_ <=? _).
  - unfold read_chunk.
    destruct (run_get_spec id (store n) Hg) as (r & st' & Hr & Hspec & Hg' & Hcfg & _).
    simpl in Hr. cbv [mbind ST_bind mret ST_ret] in Hr.
    destruct (ChunkStore.get_chunk id (store n)) as [r0 st0] eqn:Hget.
    apply (on_store_run read_status) in Hget. simpl in Hspec.
    assert (abs st' = abs (store n)) as Habs.
    { revert Hspec. by destruct (abs (store n) !! id); intros [= _ <-]. }
    assert (st0 = st') as -> by (destruct r0 as [[]|e|]; by injection Hr).
    assert (free_slots st' = free_slots (store n)) as Hfree.
    { rewrite !good_free, Habs by done. by destruct Hcfg as (-> & _). }
    destruct r0 as [[d c]|e|]; (first [rewrite (bind_ok _ _ _ _ _ Hget)|rewrite (bind_err _ _ _ _ _ Hget)
      |unfold mbind, ST_bind; rewrite Hget]); intros [= <- <-]; by split.
  - unfold node_delete_chunk.
    destruct (run_delete_spec id (store n) Hg) as (r & st' & Hr & Hspec & Hg' & _).
    simpl in Hr. cbv [mbind ST_bind mret ST_ret] in Hr.
    destruct (ChunkStore.delete_chunk id (store n)) as [r0 st0] eqn:Hdel.
    apply (on_store_run (λ _, Internal)) in Hdel. simpl in Hspec.
    destruct r0 as [[]|e|]; injection Hr as <- <-; [|done..].
    rewrite (bind_ok _ _ _ _ _ Hdel). intros [= <- <-]. by split.
Qed.

(** The counters of a storage node in normal service, over any valid requests: the chunks
    written and deleted are the writes and deletions that were answered with success, as
    64-bit counters, and the gauge of free slots is their number from the first such
    answer on. Until then it is what it was when the process started: zero. *)
Theorem counters_of_a_storage_node reqs n :
  good (store n) → Forall fits reqs →
  let served := (serve_chunks reqs n).1 in
  let n' := (serve_chunks reqs n).2 in
  good (store n') ∧
  wrap64 (chunks_written_total (metrics n')) =
    wrap64 (chunks_written_total (metrics n) + counted is_write served) ∧
  wrap64 (chunks_deleted_total (metrics n')) =
    wrap64 (chunks_deleted_total (metrics n) + counted is_delete served) ∧
  if existsb (λ req, is_write req || is_delete req) served
  then free_slots_gauge (metrics n') = free_slots (store n')
  else free_slots_gauge (metrics n') = free_slots_gauge (metrics n) ∧
    free_slots (store n') = free_slots (store n).
Proof.
  revert n. induction reqs as [|req reqs IH]; intros n Hg Hf.
  { cbn. rewrite !Z.add_0_r. by split_and!. }
  apply list.Forall_cons in Hf as [Hreq Hf]. simpl.
  destruct (serve_chunk req n) as [ok n1] eqn:H1. apply serve_chunk_counts in H1; [|done..].
  destruct H1 as [Hg1 Hw1 Hd1 Hgauge1 Hfree1]. specialize (IH n1 Hg1 Hf).
  destruct (serve_chunks reqs n1) as [served n2]. simpl in IH |- *.
  destruct IH as (Hg2 & Hw2 & Hd2 & Hrest). split; [done|].
  unfold wrap64 in *. split; [|split].
  - rewrite Hw2, Hw1. destruct ok; simpl; [|done]. unfold counted. simpl.
    destruct (is_write req); [|done]. rewrite zlen_cons, Zplus_mod_idemp_l. f_equal. lia.
  - rewrite Hd2, Hd1. destruct ok; simpl; [|done]. unfold counted. simpl.
    destruct (is_delete req); [|done]. rewrite zlen_cons, Zplus_mod_idemp_l. f_equal. lia.
  - destruct ok; simpl in *.
    + destruct (is_write req || is_delete req); simpl in *.
      * destruct (existsb _ served); [done|]. destruct Hrest as [-> ->]. done.
      * rewrite <- Hgauge1, <- Hfree1 by done. done.
    + rewrite <- Hgauge1, <- Hfree1 by done. done.
Qed.

End node.

(** ** The registries *)

Section registries.
Context `{PromText}.

Definition all_registries : Registry :=
  replication_registry (gateway_registry
    (metadata_registry (node_registry []))).

(** No two metrics of the four services give a series of the same name. The gateway's
    counter of requests is registered with the suffix that the encoder adds, and appears as
    "api_gateway_http_requests_total_total"; no other counter does. *)
Theorem series_have_one_name :
  NoDup (series all_registries) ∧
  "api_gateway_http_requests_total_total" ∈ series all_registries ∧
  "api_gateway_http_requests_total" ∉ series all_registries.
Proof.
  assert (series all_registries = all_registries ≫= λ m, (λ s, rg_name m +:+ s) <$>
    match rg_kind m with
    | CounterKind => ["_total"]
    | GaugeKind => [""]
    | HistogramKind _ => ["_sum"; "_count"; "_bucket"]
    end) as ->.
  { unfold series. apply list_bind_ext; [|done]. intros m.
    by destruct (rg_kind m); rewrite ?suffixes_counter, ?suffixes_gauge, ?suffixes_histogram. }
  split_and!; apply (bool_decide_unpack _); vm_compute; exact I.
Qed.

(** As many label values as the family has labels. *)
Definition fits_labels (r : registration) (vs : values) : Prop :=
  ∀ l v, (l, v) ∈ vs → length l = length (rg_labels r).

Lemma fits_single name help kind v : fits_labels (mkRegistration name help [] kind) (single v).
Proof. by intros l w [= -> _]%list_elem_of_singleton. Qed.
(** The page has a place for every value: each registered metric has its values, under as
    many labels as its family has. *)
Theorem pages_fit_the_registries nm mm gm rm :
  Forall2 fits_labels (node_registry []) (node_values nm) ∧
  Forall2 fits_labels (metadata_registry []) (meta_values mm) ∧
  Forall2 fits_labels (gateway_registry []) (gateway_values gm) ∧
  Forall2 fits_labels (replication_registry []) (replication_values rm).
Proof.
  assert (∀ r, fits_labels r []) as Hnil by by intros r l v []%not_elem_of_nil.
  split_and!; repeat (constructor; try apply fits_single; try apply Hnil).
  all: intros l v Hin; apply list_elem_of_fmap in Hin.
  all: first [destruct Hin as ([[[? ?] ?] ?] & [= -> _] & _)|destruct Hin as ([[? ?] ?] & [= -> _] & _)
    |destruct Hin as ([? ?] & [= -> _] & _)]; done.
Qed.

(** The page of the gateway shows what is encoded whatever happened before; in the other
    services one page that could not be encoded is the last: the lock stays poisoned, and
    every later request panics. *)
Theorem page_after_a_failure unwrap r vs vs' poisoned :
  (serve_page unwrap r vs' (serve_page unwrap r vs poisoned).2).1 =
  if unwrap && (poisoned || negb (is_ok (encode_metrics r vs))) then Panic
  else encode_metrics r vs'.
Proof.
  unfold serve_page. destruct unwrap, poisoned; simpl; try done;
    destruct (encode_metrics r vs) as [?|[]|]; simpl; try done;
    by destruct (encode_metrics r vs') as [?|[]|].
Qed.

End registries.

(** ** Witnesses *)

#[local] Existing Instance toy_deps.
#[local] Existing Instance toy_xxh3.
#[local] Existing Instance crc32_ieee.

#[local] Instance no_peers : Peers unit :=
  {| peer_connect _ w := (false, w); peer_call _ _ w := (Err Unavailable, w) |}.

(** A node restarts with one object, of which its gauge knows nothing, and deletes it. *)
Definition one_object : PersistentState :=
  mkPersistentState PERSISTENT_STATE_VERSION {["a" := new_object "a" 5]} ∅.
Definition restarted : outcome ErrorKind (MetaNode unit) * Disk :=
  MetadataService.construct (mkRng [] []) (mkDisk (json_to_string one_object) None [])
    (mkClusterManager [] "m" "0.0.0.0:3001" ∅ ∅) tt.
Definition restarted_node : MetaNode unit :=
  mkMetaNode (mkClusterServer (mkMetadataStore {["a" := new_object "a" 5]} ∅ ∅
      (mkDisk (json_to_string one_object) None []) (mkRng [] [])) ∅)
    (mkClusterManager [] "m" "0.0.0.0:3001" ∅ ∅) false meta_metrics_new tt.

Lemma gauges_of_a_metadata_node_witness :
  let n' := run_requests [DeleteObject "a"] restarted_node in
  mm_objects_total (mn_metrics n') = -1 ∧ objects (sv_store (mn_server n')) = ∅ ∧
  mm_objects_total (mn_metrics n') =
    Z.of_nat (size (objects (sv_store (mn_server n')))) - 1.
Proof.
  split; [vm_compute; reflexivity|]. split; [vm_compute; reflexivity|].
  apply (gauges_of_a_metadata_node (mkRng [] []) (mkDisk (json_to_string one_object) None [])
    (mkClusterManager [] "m" "0.0.0.0:3001" ∅ ∅) tt restarted_node restarted.2 [DeleteObject "a"]).
  - unfold restarted. apply run_answer. vm_compute. reflexivity.
  - split; [done|]. intros ps. by eexists.
Defined.

Definition two_slots : StorageNodeImpl := mkNode (new_store 2 default_options) metrics_new.
Definition three_requests : list chunk_request :=
  [WriteChunk 7 [x01]; WriteChunk 7 [x02]; DeleteChunk 9].

Lemma counters_of_a_storage_node_witness :
  let n' := (serve_chunks three_requests two_slots).2 in
  chunks_written_total (metrics n') = 1 ∧ chunks_deleted_total (metrics n') = 1 ∧
  free_slots_gauge (metrics n') = free_slots (store n').
Proof.
  destruct (counters_of_a_storage_node three_requests two_slots) as (_ & _ & _ & Hg).
  - by apply new_store_good.
  - repeat constructor; by vm_compute.
  - split; [vm_compute; reflexivity|]. split; [vm_compute; reflexivity|]. exact Hg.
Defined.
